(* ===== verification/_CoqProject ===== *)
-Q . S2P
Prelude.v
Lines.v
LineReader.v
Utf8.v
GoStrings.v
Http.v
Host.v
GoFlag.v
Config.v
Tls.v
GoCodec.v
MapRange.v
Telemetry.v
Auth.v
Encryption.v
Json.v
Slices.v
Sender.v
SenderSystem.v
LogReader.v
ReaderLoop.v
WindowsReader.v
MacosReader.v
FileReader.v
ReaderFactory.v
ContainerReader.v
Readers.v
KubeUtils.v
Health.v
Agent.v
Startup.v
Delivery.v
KubeTypes.v
DeepCopy.v
Resources.v
Cluster.v
Controller.v
OperatorMain.v
Reconcile.v
ReconcileFaults.v
