(* ===== verification/Prelude.v ===== *)
(** * TailPost: a verification development

    TailPost is a log shipper.  An agent reads lines from one source (a file, a
    container, the Windows event log, the macOS unified log), batches them and
    posts the batches to an HTTP server, optionally encrypted, authenticated
    and over TLS; a small HTTP server of the agent answers health probes.  A
    Kubernetes operator deploys agents from a custom resource.

    ** The parts and where they are modelled

    - Foundations: this file (errors as values, panics, machine integers,
      automation), [Lines] (what the lines of a byte stream are), [Utf8],
      [GoStrings], [GoCodec] (hex, base64), [Json] ([json.Marshal] of strings and
      an independent reader of JSON), [Slices] (Go slices on shared arrays),
      [MapRange] (iteration over a Go map in any order), [Http] (requests,
      headers), [Host] (operating system, environment, files), [GoFlag] (the
      command-line parser of package [flag]).
    - [Config]: [src/pkg/config/config.go].  The structs are records,
      [set_defaults] and [validate] are the two halves of [LoadConfig]; the YAML
      decoder is the argument [unmarshal].
    - [Tls], [Auth], [Encryption]: [src/pkg/security].  X.509, OAuth2, the
      ciphers and the random source are records of what those packages answer,
      with the documented laws as classes ([AEADLaws], [OAuth2Laws]).
    - [LogReader] is the interface of [src/pkg/reader/reader_factory.go] as a
      type class with laws.  Its instances are transition systems:
      [FileReader] ([file_reader.go]), [ContainerReader] ([container_reader.go],
      with the line splitter [LineReader]), and [WindowsReader] and
      [MacosReader] ([windows_event_reader.go], [macos_log_reader.go]), which
      share the channels and the life cycle of [ReaderLoop] and differ in the
      body of their goroutine, the class [ReaderBody], which has a step for a
      goroutine the body starts beside itself (the one that waits for the macOS
      log command).  [ReaderFactory] chooses and builds a reader; [Readers] is the interface value, the sum of the four.
    - [Sender] and [SenderSystem]: [src/pkg/sender/http_sender.go].  The first
      has the constructors, the batch on real slices and one delivery with its
      effects in order; the second the goroutines and channels.
    - [Health]: [src/pkg/http/health.go] and the agents' use of it.
    - [Telemetry]: [src/pkg/telemetry] and [src/pkg/observability], over a
      record of what the OpenTelemetry SDK answers, with the global provider and
      the providers that have been shut down as state.
    - [Agent]: [src/cmd/agent.go] and [src/cmd/agent/main.go] from the moment
      their components exist: the forwarding goroutine and the shutdown of both
      programs, over any [LogReader] and the sender of [SenderSystem].
    - [Startup]: both [main] functions from the command line to that moment, in a
      monad that may leave the process, and the end of telemetry at their exit.
    - [Delivery]: the composition of all of these.
    - [KubeTypes] ([src/pkg/k8s/api/v1alpha1/types.go]), [DeepCopy] (the deep
      copies of that file on a store of shared cells; the metadata and selectors
      of the Kubernetes libraries, and their copies, are parameters), [KubeUtils]
      ([src/pkg/utils]), [Resources] ([src/pkg/k8s/resources/resources.go]),
      [Cluster] (the API server as a store whose requests may be refused or lose
      their answer), [Controller] ([src/pkg/k8s/operator/controller.go], one
      definition per method, in a state monad over the cluster), [OperatorMain]
      ([src/cmd/operator/main.go], [register.go] and the deployment in
      [src/deploy/kubernetes]), [Reconcile] and [ReconcileFaults] (the
      specification of a pass and the theorems).

    ** How code becomes definitions

    A function that returns an error returns [result]; [Panic] is a run-time
    panic.  Sequential code with effects passes its state explicitly or lives
    in a monad ([Cluster.M]).  Concurrent code is a deterministic function
    [exec : label -> world -> option world], where a label is one atomic step of
    one goroutine or of the environment (what the operating system, the network
    or the user does comes with the label); [None] means the step is not
    enabled.  An interleaving is a list of labels, so a theorem about all lists
    is a theorem about all schedules.  Integers are [Z]; where an [int64] can
    overflow it is wrapped with [wrap64].  Every definition computes, and the
    witnesses of the theorems run them.

    ** What the theorems show

    - Delivery: [Delivery.program_end_to_end] (from the command line and the
      source to the batches, for both programs and all four sources), and what it
      rests on: [FileReader.tail_exact] and [tail_catches_up],
      [ContainerReader.container_exact], [LineReader.read_all_lines],
      [WindowsReader.windows_exact], [MacosReader.macos_exact],
      [SenderSystem.sender_conserves] and [Stop_flushes],
      [Startup.program_forwards], [Agent.shutdown_flushes]: nothing is lost,
      repeated or reordered between source and batches, under every
      interleaving, while a file only grows or within a stream; and which
      rotations, restarts and shutdowns do lose or repeat lines
      ([reopen_position], [cancelled_forwarder_abandons], [reconnect_repeats],
      [windows_restart_crashes]).
    - Start-up: [programs_agree] (both agents start under the same conditions),
      [manager_start], [agent_first_line] and [main_telemetry_left_open]
      (telemetry), [operator_running] and [deployment_fails] (the operator).
    - Wire format and security: [sendBatch_refines], [batch_request_payload],
      [encrypt_decrypt], [auth_roundtrip], [Authenticate_accepts],
      [CreateTLSConfig_keeps], [health_access].
    - Configuration: [LoadConfig_spec] characterises what is accepted, and
      [LoadConfig_complete] what the loaded configuration owes to the file; [NewSecureHTTPSender_loaded] and [loaded_config_reader]
      carry that to the components built from it.
    - Life cycle: [sender_never_panics], [Stop_returns], and the shutdowns that
      hang ([shutdown_deadlock], [container_stop_waits], [macos_stop_hangs]).
    - Operator: [Reconcile_refines] (a pass implements the function [target] on
      clusters), [Reconcile_keeps_user_values], [Reconcile_idempotent],
      [operator_stays_in_bounds] and [operator_recovers] under arbitrary request
      failures, [failure_is_reported], and what a pass misses
      ([template_drift], [map_order_churn], [bad_quantity_panics]);
      [generated_objects_fit]: the generated objects against the flags, the probes
      and the configuration file of the agents; [DeepCopy_independent]: a copy
      shares no memory with its original.

    ** Bounds and fuel

    No transition system is bounded: traces, file contents, chunk sizes and the
    number of calls are arbitrary.  Channel capacities (1000), the buffer of
    [bufio.Reader] (4096), the scanner's longest token and batch sizes are those
    of the code.  There is fuel in two places: [LineReader.read_all], the caller's
    loop around [ReadLine], where one call per byte plus one is enough, which
    [read_all_lines] proves; and the loop of [GoFlag.Parse], where one round per
    argument plus one is enough, which [parse_loop_total] proves.  The size of a
    file is below [2 ^ 63], as its position is an [int64].

    ** What is not modelled

    What is written to the log; the registry and the exposition format of
    Prometheus; OpenTelemetry spans beyond their order in a delivery and the
    provider they go to; the listener of [net/http] and the cache and work queue
    of controller-runtime; the tests and the mock server.  Defaulting and
    conflict detection of the Kubernetes API server appear only as refused
    requests: it stores an object as it is sent, and a read answers what is
    stored.  A library call inside a delivery is assumed to return.  Time is
    abstract: timers fire when their label is taken.

    ** Plan

    Next: liveness of the composition (every complete line of the source reaches
    a delivery unless the agent is stopped), the shutdown of a whole program over
    each reader, and a custom resource followed to the configuration its agents
    load. *)
From Stdlib Require Export Ascii String ZArith Lia.
From stdpp Require Export base strings gmap list numbers option fin_maps.

Declare Scope go_scope.
Delimit Scope go_scope with go.
Open Scope string_scope.
Open Scope list_scope.

(** ** Bytes and strings

    A Go [string] and a Go [[]byte] are both sequences of bytes.  Text whose
    contents the program inspects byte by byte (file contents, log lines on
    their way through a reader, payloads) is [bytes]; configuration values,
    header values and the like are [string].  The two conversions are Go's
    [string(b)] and [[]byte(s)]. *)
Abbreviation bytes := (list ascii).
Abbreviation go_string := string_of_list_ascii.
Abbreviation go_bytes := list_ascii_of_string.

Definition nl : ascii := "010"%char.

(** ** Errors

    An [error] records what [fmt.Errorf]/[errors.New] was called with: the
    format string and, for a wrapping [%v]/[%w], the wrapped error.  [EOF] is
    the sentinel [io.EOF]; [NotFound] is an error for which the Kubernetes
    predicate [errors.IsNotFound] answers true; [External] is any other error
    that a library or the operating system returned. *)
Inductive error : Type :=
| EOF
| NotFound (what : string)
| External (what : string)
| Errorf (msg : string)
| ErrorfArg (fmt arg : string)
| Wrapf (fmt : string) (cause : error).

#[global] Instance error_eq_dec : EqDecision error.
Proof. solve_decision. Defined.

(** A call returns a value, returns a non-nil error, or panics. *)
Inductive result (A : Type) : Type :=
| Ok (a : A)
| Err (e : error)
| Panic (msg : string).
Arguments Ok {A} a.
Arguments Err {A} e.
Arguments Panic {A} msg.

#[global] Instance result_eq_dec `{EqDecision A} : EqDecision (result A).
Proof. solve_decision. Defined.

#[global] Instance result_ret : MRet result := @Ok.
#[global] Instance result_bind : MBind result := fun A B f m =>
  match m with
  | Ok a => f a
  | Err e => Err e
  | Panic p => Panic p
  end.

(** [if err != nil { return nil, fmt.Errorf(fmt, err) }] *)
Definition wrap_err {A} (fmt : string) (m : result A) : result A :=
  match m with
  | Ok a => Ok a
  | Err e => Err (Wrapf fmt e)
  | Panic p => Panic p
  end.

(** [if c { return nil, e }] *)
Definition fail_if (c : bool) (e : error) : result unit :=
  if c then Err e else Ok tt.

Definition is_ok {A} (m : result A) : bool :=
  match m with Ok _ => true | _ => false end.
Definition is_panic {A} (m : result A) : bool :=
  match m with Panic _ => true | _ => false end.

(** ** Machine integers *)

(** Two's-complement wrap-around of Go's [int64] (and [int] on a 64-bit
    platform). *)
Definition wrap64 (z : Z) : Z := (z + 2 ^ 63) mod 2 ^ 64 - 2 ^ 63.

Definition int64_range (z : Z) : Prop := (- 2 ^ 63 <= z < 2 ^ 63)%Z.

Lemma wrap64_id z : int64_range z -> wrap64 z = z.
Proof. unfold int64_range, wrap64. intros. rewrite Z.mod_small; lia. Qed.

Lemma wrap64_range z : int64_range (wrap64 z).
Proof.
  unfold int64_range, wrap64.
  pose proof (Z.mod_pos_bound (z + 2 ^ 63) (2 ^ 64) ltac:(lia)). lia.
Qed.

(** [len(s)] *)
Definition zlen {A} (l : list A) : Z := Z.of_nat (length l).

Lemma zlen_app {A} (l k : list A) : zlen (l ++ k) = (zlen l + zlen k)%Z.
Proof. unfold zlen. rewrite length_app. lia. Qed.

Lemma zlen_nonneg {A} (l : list A) : (0 <= zlen l)%Z.
Proof. unfold zlen. lia. Qed.

(** ** Automation

    [go_cases] destructs the scrutinee of every [match] and [if] of the goal
    and of the hypotheses it introduces, keeping the equations; [go_inv] turns
    the equations of a successful run of the error monad into facts about its
    parts; [go_auto] closes what remains. *)
Create HintDb go discriminated.

Ltac go_bool :=
  repeat match goal with
  | H : bool_decide _ = true |- _ => apply bool_decide_eq_true in H
  | H : bool_decide _ = false |- _ => apply bool_decide_eq_false in H
  | H : andb _ _ = true |- _ => apply andb_true_iff in H as [? ?]
  | H : orb _ _ = false |- _ => apply orb_false_iff in H as [? ?]
  | H : negb _ = true |- _ => apply negb_true_iff in H
  | H : negb _ = false |- _ => apply negb_false_iff in H
  | H : (_ <=? _)%Z = true |- _ => apply Z.leb_le in H
  | H : (_ <=? _)%Z = false |- _ => apply Z.leb_gt in H
  | H : (_ <? _)%Z = true |- _ => apply Z.ltb_lt in H
  | H : (_ <? _)%Z = false |- _ => apply Z.ltb_ge in H
  | H : (_ =? _)%Z = true |- _ => apply Z.eqb_eq in H
  | H : (_ =? _)%Z = false |- _ => apply Z.eqb_neq in H
  | H : (_ <=? _)%N = true |- _ => apply N.leb_le in H
  | H : (_ <=? _)%N = false |- _ => apply N.leb_gt in H
  | H : (_ <? _)%N = true |- _ => apply N.ltb_lt in H
  | H : (_ <? _)%N = false |- _ => apply N.ltb_ge in H
  | H : (_ =? _)%N = true |- _ => apply N.eqb_eq in H
  | H : (_ =? _)%N = false |- _ => apply N.eqb_neq in H
  | H : orb _ _ = true |- _ => apply orb_true_iff in H as [?|?]
  | H : andb _ _ = false |- _ => apply andb_false_iff in H as [?|?]
  | H : String.eqb _ _ = true |- _ => apply String.eqb_eq in H
  | H : String.eqb _ _ = false |- _ => apply String.eqb_neq in H
  | H : Ascii.eqb _ _ = true |- _ => apply Ascii.eqb_eq in H
  | H : Ascii.eqb _ _ = false |- _ => apply Ascii.eqb_neq in H
  end.

Ltac go_step :=
  match goal with
  | H : Ok _ = Ok _ |- _ => injection H as H; subst
  | H : Ok _ = Err _ |- _ => discriminate H
  | H : Err _ = Ok _ |- _ => discriminate H
  | H : Ok _ = Panic _ |- _ => discriminate H
  | H : Panic _ = Ok _ |- _ => discriminate H
  | H : Err _ = Err _ |- _ => injection H as H; subst
  | H : context [mbind _ ?m] |- _ =>
      let E := fresh "E" in destruct m eqn:E; cbn [mbind result_bind] in H
  | H : context [fail_if ?c _] |- _ =>
      let E := fresh "E" in destruct c eqn:E; cbn [fail_if] in H
  | H : context [wrap_err _ ?m] |- _ =>
      let E := fresh "E" in destruct m eqn:E; cbn [wrap_err] in H
  | H : context [if ?c then _ else _] |- _ =>
      let E := fresh "E" in destruct c eqn:E
  | H : context [match ?c with _ => _ end] |- _ =>
      let E := fresh "E" in destruct c eqn:E
  end.

Ltac go_inv := repeat (go_step; try discriminate); go_bool.

Ltac go_cases :=
  repeat match goal with
  | |- context [if ?c then _ else _] =>
      let E := fresh "E" in destruct c eqn:E
  | |- context [match ?c with _ => _ end] =>
      let E := fresh "E" in destruct c eqn:E
  end.

Ltac go_auto := go_bool; simplify_eq/=; auto with go; try lia; try naive_solver.

(** ** Lemmas on the error monad *)

Lemma fail_if_ok c e u : fail_if c e = Ok u <-> c = false.
Proof. destruct c, u; simpl; naive_solver. Qed.

Lemma bind_ok {A B} (m : result A) (f : A -> result B) b :
  (m ≫= f) = Ok b <-> exists a, m = Ok a /\ f a = Ok b.
Proof. destruct m; simpl; naive_solver. Qed.

Lemma wrap_err_ok {A} fmt (m : result A) a : wrap_err fmt m = Ok a <-> m = Ok a.
Proof. destruct m; simpl; naive_solver. Qed.

Lemma unit_ok {A} (m : result unit) (k : result A) a :
  (_ ← m; k) = Ok a <-> m = Ok tt /\ k = Ok a.
Proof. rewrite bind_ok. split; [intros ([] & ? & ?); eauto|naive_solver]. Qed.

Lemma eqb_false s t : String.eqb s t = false <-> s <> t.
Proof. apply String.eqb_neq. Qed.

(** ** Lemmas on strings *)

Lemma go_bytes_app s t : go_bytes (s +:+ t) = go_bytes s ++ go_bytes t.
Proof. induction s as [|a s IH]; [done|].
  change (a :: go_bytes (s +:+ t) = a :: (go_bytes s ++ go_bytes t)). by rewrite IH.
Qed.

Lemma go_bytes_inj s t : go_bytes s = go_bytes t -> s = t.
Proof.
  intros H. by rewrite <- (string_of_list_ascii_of_string s),
    <- (string_of_list_ascii_of_string t), H.
Qed.

Lemma go_string_inj b c : go_string b = go_string c -> b = c.
Proof.
  intros H. by rewrite <- (list_ascii_of_string_of_list_ascii b),
    <- (list_ascii_of_string_of_list_ascii c), H.
Qed.

Lemma go_string_bytes s : go_string (go_bytes s) = s.
Proof. apply string_of_list_ascii_of_string. Qed.

Lemma go_bytes_string b : go_bytes (go_string b) = b.
Proof. apply list_ascii_of_string_of_list_ascii. Qed.

Lemma go_string_app b c : go_string (b ++ c) = go_string b +:+ go_string c.
Proof. apply go_bytes_inj. by rewrite go_bytes_app, !go_bytes_string. Qed.

#[export] Hint Rewrite go_string_bytes go_bytes_string go_bytes_app : go.

(** ** Lemmas on lists *)

Lemma concat_snoc {A} (ls : list (list A)) (l : list A) :
  concat (ls ++ [l]) = concat ls ++ l.
Proof. by rewrite concat_app; simpl; rewrite app_nil_r. Qed.

Lemma drop_app_ge {A} (n : nat) (l k : list A) :
  n <= length l -> drop n (l ++ k) = drop n l ++ k.
Proof. intros. by rewrite drop_app_le. Qed.
