(* ===== verification/Lines.v ===== *)
(** * Newline-delimited text

    The reference meaning of "the lines of a byte stream", shared by the two
    line readers of [src/pkg/reader]: [split_nl b] separates the lines of [b]
    that are terminated by a newline from the unterminated rest. *)
From S2P Require Import Prelude.

Fixpoint split_nl (b : bytes) : list bytes * bytes :=
  match b with
  | [] => ([], [])
  | c :: b' =>
      let '(ls, r) := split_nl b' in
      if decide (c = nl) then ([] :: ls, r)
      else match ls with
           | [] => ([], c :: r)
           | l :: ls' => ((c :: l) :: ls', r)
           end
  end.

Definition complete_lines (b : bytes) : list bytes := (split_nl b).1.
Definition partial_line (b : bytes) : bytes := (split_nl b).2.

(** All lines, the unterminated rest counting as a line when it is not empty. *)
Definition all_lines (b : bytes) : list bytes :=
  complete_lines b ++ (match partial_line b with [] => [] | r => [r] end).

Definition terminate (l : bytes) : bytes := l ++ [nl].
Definition unlines (ls : list bytes) : bytes := concat (map terminate ls).

Definition no_nl (b : bytes) : Prop := nl ∉ b.
#[global] Instance no_nl_dec b : Decision (no_nl b).
Proof. unfold no_nl. apply _. Defined.

(** Index of the first newline: the loop [for i, b := range buf] and
    [bytes.IndexByte(buf, '\n')]. *)
Fixpoint index_nl (b : bytes) : option nat :=
  match b with
  | [] => None
  | c :: b' => if decide (c = nl) then Some 0 else S <$> index_nl b'
  end.

Lemma no_nl_nil : no_nl [].
Proof. apply not_elem_of_nil. Qed.

Lemma no_nl_cons c b : no_nl (c :: b) <-> c <> nl /\ no_nl b.
Proof. unfold no_nl. rewrite not_elem_of_cons. naive_solver. Qed.

Lemma no_nl_app b c : no_nl (b ++ c) <-> no_nl b /\ no_nl c.
Proof. unfold no_nl. rewrite not_elem_of_app. done. Qed.

#[export] Hint Resolve no_nl_nil : go.

Lemma index_nl_Some b i :
  index_nl b = Some i <-> exists l r, b = l ++ nl :: r /\ no_nl l /\ length l = i.
Proof.
  split.
  - revert i. induction b as [|c b IH]; intros i; simpl; [done|].
    case_decide as Hc.
    + intros [= <-]. subst c. exists [], b. eauto with go.
    + destruct (index_nl b) as [j|]; intros [= <-].
      destruct (IH j eq_refl) as (l & r & -> & Hl & <-).
      exists (c :: l), r. rewrite no_nl_cons. naive_solver.
  - intros (l & r & -> & Hl & <-).
    induction l as [|c l IH]; simpl; [done|].
    apply no_nl_cons in Hl as [Hc Hl]. rewrite decide_False by done.
    by rewrite (IH Hl).
Qed.

Lemma index_nl_None b : index_nl b = None <-> no_nl b.
Proof.
  induction b as [|c b IH]; simpl; [split; auto with go|].
  rewrite no_nl_cons. case_decide as Hc.
  - naive_solver.
  - rewrite fmap_None. naive_solver.
Qed.

Lemma split_nl_no_nl b : no_nl b -> split_nl b = ([], b).
Proof.
  induction b as [|c b IH]; simpl; [done|].
  rewrite no_nl_cons. intros [Hc Hb]. rewrite (IH Hb).
  by rewrite decide_False.
Qed.

Lemma split_nl_line l b :
  no_nl l -> split_nl (l ++ nl :: b) = (l :: complete_lines b, partial_line b).
Proof.
  unfold complete_lines, partial_line.
  induction l as [|c l IH]; simpl.
  - intros _. by destruct (split_nl b).
  - rewrite no_nl_cons. intros [Hc Hl]. rewrite (IH Hl). by rewrite decide_False.
Qed.

Lemma split_nl_unlines ls r :
  Forall no_nl ls -> no_nl r -> split_nl (unlines ls ++ r) = (ls, r).
Proof.
  intros Hls Hr. induction Hls as [|l ls Hl Hls IH]; simpl.
  - by apply split_nl_no_nl.
  - unfold unlines, terminate in *; simpl. rewrite <- !app_assoc; simpl.
    rewrite split_nl_line by done.
    unfold complete_lines, partial_line. by rewrite IH.
Qed.

(** [split_nl] inverts joining: it is the unique decomposition of [b] into
    newline-terminated lines and a rest without newline. *)
Lemma split_nl_spec b :
  unlines (complete_lines b) ++ partial_line b = b /\
  Forall no_nl (complete_lines b) /\ no_nl (partial_line b).
Proof.
  unfold complete_lines, partial_line, unlines.
  induction b as [|c b (IH1 & IH2 & IH3)]; simpl; [repeat constructor; auto with go|].
  destruct (split_nl b) as [ls r]; simpl in *. case_decide as Hc; simpl.
  - subst c. split_and!; [by f_equal|constructor; auto with go|done].
  - destruct ls as [|l ls]; simpl in *.
    + subst r. rewrite no_nl_cons. naive_solver.
    + split_and!; [by f_equal| |done]. apply Forall_cons in IH2 as [? ?].
      constructor; [|done]. by rewrite no_nl_cons.
Qed.

Lemma split_nl_unique b ls r :
  b = unlines ls ++ r -> Forall no_nl ls -> no_nl r ->
  complete_lines b = ls /\ partial_line b = r.
Proof.
  intros -> Hls Hr. unfold complete_lines, partial_line.
  by rewrite split_nl_unlines.
Qed.

Lemma unlines_app ls ks : unlines (ls ++ ks) = unlines ls ++ unlines ks.
Proof. unfold unlines. by rewrite map_app, concat_app. Qed.

(** Reading a stream in two instalments: the rest of the first is completed by
    the second. *)
Lemma split_nl_app b c :
  complete_lines (b ++ c) = complete_lines b ++ complete_lines (partial_line b ++ c) /\
  partial_line (b ++ c) = partial_line (partial_line b ++ c).
Proof.
  destruct (split_nl_spec b) as (Hb & Hbl & Hbr).
  destruct (split_nl_spec (partial_line b ++ c)) as (Hc & Hcl & Hcr).
  apply split_nl_unique; [|by apply Forall_app|done].
  rewrite unlines_app, <- app_assoc, Hc, app_assoc, Hb. done.
Qed.

Lemma complete_lines_app b c :
  complete_lines (b ++ c) = complete_lines b ++ complete_lines (partial_line b ++ c).
Proof. apply split_nl_app. Qed.

Lemma complete_lines_no_nl b : no_nl b -> complete_lines b = [].
Proof. intros H. unfold complete_lines. by rewrite split_nl_no_nl. Qed.

Lemma partial_line_no_nl b : no_nl b -> partial_line b = b.
Proof. intros H. unfold partial_line. by rewrite split_nl_no_nl. Qed.

Lemma complete_lines_line l b :
  no_nl l -> complete_lines (l ++ nl :: b) = l :: complete_lines b.
Proof. intros H. unfold complete_lines. by rewrite split_nl_line. Qed.

Lemma partial_line_line l b :
  no_nl l -> partial_line (l ++ nl :: b) = partial_line b.
Proof. intros H. unfold partial_line at 1. by rewrite split_nl_line. Qed.

Lemma all_lines_line l b : no_nl l -> all_lines (l ++ nl :: b) = l :: all_lines b.
Proof.
  intros H. unfold all_lines. by rewrite complete_lines_line, partial_line_line.
Qed.

#[export] Hint Rewrite complete_lines_line partial_line_line all_lines_line
  complete_lines_no_nl partial_line_no_nl using done : go.

Lemma all_lines_unlines ls b : Forall no_nl ls -> all_lines (unlines ls ++ b) = ls ++ all_lines b.
Proof.
  induction 1 as [|l ls Hl _ IH]; [done|]. unfold unlines, terminate in *; simpl.
  rewrite <- !(assoc_L (++)); simpl. rewrite all_lines_line by done. by rewrite IH.
Qed.

Lemma all_lines_last l : no_nl l -> l <> [] -> all_lines l = [l].
Proof.
  intros Hl Hne. unfold all_lines. rewrite complete_lines_no_nl, partial_line_no_nl by done. by case_match.
Qed.
