(* ===== verification/LineReader.v ===== *)
(** * The line splitter of the container reader

    Models [LogLineReader] of [src/pkg/reader/container_reader.go]: a buffer in
    front of an [io.Reader] whose [ReadLine] hands out one line at a time.  The
    theorems say that the lines handed out depend only on the bytes of the
    stream, never on how [Read] cut them into chunks. *)
From S2P Require Import Prelude Lines.

Module LogLineReader.

(** What one call of [Read(chunk)] gives: the [n] bytes it put into [chunk] and
    its error.  An [io.Reader] is the sequence of the results its calls will
    give; an exhausted reader answers [(0, io.EOF)]. *)
Definition read_result : Type := bytes * option error.

Definition Read (src : list read_result) : read_result * list read_result :=
  match src with
  | [] => (([], Some EOF), [])
  | r :: src' => (r, src')
  end.

Record t := mk { reader : list read_result; buffer : bytes }.

Definition NewLogLineReader (reader : list read_result) : t :=
  {| reader := reader; buffer := [] |}.

(** The body of [ReadLine]: the scan for a newline, then one [Read].  Each
    iteration consumes one read result, so the loop ends when the stream does. *)
Fixpoint ReadLine_loop (buf : bytes) (src : list read_result) : result bytes * t :=
  match index_nl buf with
  | Some i => (Ok (take i buf), mk src (drop (i + 1) buf))
  | None =>
      match src with
      | [] =>
          match buf with
          | [] => (Err EOF, mk [] [])
          | _ => (Ok buf, mk [] [])
          end
      | (chunk, err) :: src' =>
          match err with
          | Some EOF =>
              if decide (chunk = []) then
                match buf with
                | [] => (Err EOF, mk src' [])
                | _ => (Ok buf, mk src' [])
                end
              else ReadLine_loop (buf ++ chunk) src'
          | Some e => (Err e, mk src' buf)
          | None => ReadLine_loop (buf ++ chunk) src'
          end
      end
  end.

Definition ReadLine (r : t) : result bytes * t := ReadLine_loop (buffer r) (reader r).

(** The caller's loop: read lines until [ReadLine] reports an error, at most
    [fuel] of them; [None] when the fuel ran out. *)
Fixpoint read_all (fuel : nat) (r : t) : option (list bytes * error) :=
  match fuel with
  | O => None
  | S fuel' =>
      match ReadLine r with
      | (Ok l, r') => '(ls, e) ← read_all fuel' r'; Some (l :: ls, e)
      | (Err e, _) => Some ([], e)
      | (Panic _, _) => None
      end
  end.

(** A reader that follows the [io.Reader] contract to its end: no error but
    [io.EOF], and [io.EOF] without data only once nothing is left. *)
Definition clean (src : list read_result) : Prop :=
  Forall (fun r => r.2 = None \/ (r.2 = Some EOF /\ r.1 <> [])) src.

Definition stream_bytes (src : list read_result) : bytes := concat (map fst src).

(** All the bytes the splitter still has to hand out. *)
Definition pending (r : t) : bytes := buffer r ++ stream_bytes (reader r).

(** ** Lemmas *)

Lemma ReadLine_loop_nl l b src :
  no_nl l -> ReadLine_loop (l ++ nl :: b) src = (Ok l, mk src b).
Proof.
  intros Hl.
  assert (index_nl (l ++ nl :: b) = Some (length l)) as E
    by (apply index_nl_Some; eauto).
  destruct src; cbn [ReadLine_loop]; rewrite E;
    rewrite take_app_length;
    replace (l ++ nl :: b) with ((l ++ [nl]) ++ b) by (by rewrite <- app_assoc);
    (rewrite drop_app_length' by (rewrite length_app; done)); done.
Qed.

(** One [ReadLine] on a clean stream: the first line of the pending bytes when
    they hold a newline, else all of them as the last line, else [io.EOF]. *)
Lemma ReadLine_loop_clean buf src :
  clean src ->
  (exists l b r', no_nl l /\ buf ++ stream_bytes src = l ++ nl :: b /\
     ReadLine_loop buf src = (Ok l, r') /\ pending r' = b /\ clean (reader r')) \/
  (exists r', no_nl (buf ++ stream_bytes src) /\ buf ++ stream_bytes src <> [] /\
     ReadLine_loop buf src = (Ok (buf ++ stream_bytes src), r') /\
     pending r' = [] /\ clean (reader r')) \/
  (buf ++ stream_bytes src = [] /\ exists r', ReadLine_loop buf src = (Err EOF, r')).
Proof.
  intros Hc. revert buf. induction Hc as [|[c e] src Hce Hc IH]; intros buf.
  - destruct (index_nl buf) as [i|] eqn:E.
    + apply index_nl_Some in E as (l & b & -> & Hl & _). left.
      rewrite ReadLine_loop_nl by done. unfold pending, stream_bytes; simpl.
      rewrite app_nil_r. exists l, b, (mk [] b). simpl.
      rewrite app_nil_r. repeat split; try done. constructor.
    + right. cbn [ReadLine_loop]. rewrite E. unfold stream_bytes; simpl.
      rewrite app_nil_r. apply index_nl_None in E.
      destruct buf as [|x buf]; [by right; eauto|left].
      exists (mk [] []). repeat split; try done. constructor.
  - destruct (index_nl buf) as [i|] eqn:E.
    + apply index_nl_Some in E as (l & b & -> & Hl & _). left.
      rewrite ReadLine_loop_nl by done. unfold pending, stream_bytes; simpl.
      exists l, (b ++ c ++ concat (map fst src)), (mk ((c, e) :: src) b); simpl.
      rewrite <- app_assoc; simpl. repeat split; try done. by constructor.
    + assert (ReadLine_loop buf ((c, e) :: src) = ReadLine_loop (buf ++ c) src) as ->.
      { cbn [ReadLine_loop]. rewrite E. simpl in Hce.
        destruct Hce as [->|[-> Hc0]]; [done|]. by rewrite decide_False. }
      unfold stream_bytes in *; simpl. rewrite app_assoc. apply IH.
Qed.

Lemma ReadLine_clean r :
  clean (reader r) ->
  match ReadLine r with
  | (Ok l, r') => all_lines (pending r) = l :: all_lines (pending r') /\
                  length (pending r') < length (pending r) /\ clean (reader r')
  | (Err e, _) => e = EOF /\ pending r = []
  | (Panic _, _) => False
  end.
Proof.
  intros Hc. unfold ReadLine, pending at 1 4 5.
  destruct (ReadLine_loop_clean (buffer r) (reader r) Hc)
    as [(l & b & r' & Hl & -> & -> & -> & Hc')
       |[(r' & Hn & Hne & -> & -> & Hc')|(-> & r' & ->)]]; [| |done].
  - rewrite all_lines_line by done. split_and!; [done| |done].
    rewrite length_app; simpl; lia.
  - split_and!; [| |done].
    + unfold all_lines. rewrite complete_lines_no_nl, partial_line_no_nl by done.
      simpl. by case_match.
    + destruct (buffer r ++ _); [done|simpl; lia].
Qed.

(** A read error other than [io.EOF] ends the stream at that point: what was
    handed out before are exactly the terminated lines received so far. *)
Lemma read_all_error pre c e src fuel buf :
  Forall (fun r => r.2 = None) pre -> e <> EOF ->
  length (buf ++ stream_bytes pre) < fuel ->
  read_all fuel (mk (pre ++ (c, Some e) :: src) buf) =
  Some (complete_lines (buf ++ stream_bytes pre), e).
Proof.
  intros Hpre He. revert pre Hpre buf.
  induction fuel as [|fuel IH]; intros pre Hpre buf Hf; [lia|].
  assert (forall pre l b, Forall (fun r => r.2 = None) pre -> no_nl l ->
    length ((l ++ nl :: b) ++ stream_bytes pre) < S fuel ->
    read_all (S fuel) (mk (pre ++ (c, Some e) :: src) (l ++ nl :: b)) =
    Some (complete_lines ((l ++ nl :: b) ++ stream_bytes pre), e)) as Hnl.
  { clear - IH. intros pre l b Hpre Hl Hf. cbn [read_all]. unfold ReadLine; simpl.
    rewrite ReadLine_loop_nl by done. rewrite !length_app in Hf; simpl in Hf.
    rewrite IH by (done || rewrite length_app; lia).
    rewrite <- app_assoc; simpl. by rewrite complete_lines_line. }
  induction Hpre as [|[p pe] pre Hp Hpre IHp] in buf, Hf |- *;
    (destruct (index_nl buf) as [i|] eqn:E;
     [apply index_nl_Some in E as (l & b & -> & Hl & _); apply Hnl; auto|]).
  - cbn [read_all app]. unfold ReadLine, stream_bytes; simpl. rewrite E, app_nil_r.
    apply index_nl_None in E. rewrite complete_lines_no_nl by done. by destruct e.
  - simpl in Hp. subst pe. unfold stream_bytes in *; simpl in *.
    rewrite app_assoc in Hf |- *. specialize (IHp _ Hf).
    unfold ReadLine in *; simpl in *. by rewrite E.
Qed.

End LogLineReader.

Module LogLineReaderProperties.
Import LogLineReader.

(** Chunking does not matter: however [Read] cuts a stream into pieces, as
    long as it reports no error but [io.EOF], the calls of [ReadLine] up to the
    first error hand out exactly the lines of the stream, in order, with the
    unterminated tail as the last line, and that first error is [io.EOF].  One
    call per byte, plus one, is enough, so the caller's loop ends. *)
Theorem read_all_lines (src : list read_result) (fuel : nat) :
  clean src -> length (stream_bytes src) < fuel ->
  read_all fuel (NewLogLineReader src) = Some (all_lines (stream_bytes src), EOF).
Proof.
  enough (forall fuel r, clean (reader r) -> length (pending r) < fuel ->
            read_all fuel r = Some (all_lines (pending r), EOF)) as H.
  { intros Hc Hf. by apply (H fuel (NewLogLineReader src)). }
  clear. intros fuel. induction fuel as [|fuel IH]; intros r Hc Hf; [lia|].
  simpl. pose proof (ReadLine_clean r Hc) as HR.
  destruct (ReadLine r) as [[l|e|p] r'].
  - destruct HR as (-> & Hlt & Hc'). by rewrite (IH r') by (done || lia).
  - by destruct HR as [-> ->].
  - done.
Qed.

Definition example_stream : list read_result :=
  [(go_bytes "ab", None); (nl :: go_bytes "c", None); (go_bytes "d", Some EOF)].

Lemma read_all_lines_witness :
  clean example_stream /\ length (stream_bytes example_stream) < 6 /\
  read_all 6 (NewLogLineReader example_stream) = Some ([go_bytes "ab"; go_bytes "cd"], EOF).
Proof.
  assert (clean example_stream) as Hc.
  { unfold clean, example_stream. repeat apply Forall_cons_2; simpl; auto. }
  split_and!; [exact Hc | simpl; lia |].
  apply (read_all_lines example_stream 6 Hc). simpl; lia.
Defined.

End LogLineReaderProperties.
