(* ===== verification/Utf8.v ===== *)
(** * UTF-8

    The parts of Go's [unicode/utf8] that the program reaches through
    [strings.TrimSpace], [strings.ToLower] and [json.Marshal]: decoding the
    first and the last rune of a byte sequence and encoding one. *)
From S2P Require Import Prelude.
Local Open Scope N_scope.

Definition RuneError : N := 0xFFFD.

Definition in_range (lo hi x : N) : bool := (lo <=? x) && (x <=? hi).

(** [utf8.first] and [utf8.acceptRanges]: for a lead byte, the length of its
    sequence and the range its second byte must lie in. *)
Definition lead (n0 : N) : option (nat * N * N) :=
  if in_range 0xC2 0xDF n0 then Some (2%nat, 0x80, 0xBF)
  else if n0 =? 0xE0 then Some (3%nat, 0xA0, 0xBF)
  else if n0 =? 0xED then Some (3%nat, 0x80, 0x9F)
  else if in_range 0xE1 0xEF n0 then Some (3%nat, 0x80, 0xBF)
  else if n0 =? 0xF0 then Some (4%nat, 0x90, 0xBF)
  else if in_range 0xF1 0xF3 n0 then Some (4%nat, 0x80, 0xBF)
  else if n0 =? 0xF4 then Some (4%nat, 0x80, 0x8F)
  else None.

(** [utf8.DecodeRune]: the first rune and its width, [(RuneError, 1)] for an
    invalid or truncated sequence and [(RuneError, 0)] for no bytes. *)
Definition DecodeRune (b : bytes) : N * nat :=
  match b with
  | [] => (RuneError, 0%nat)
  | a0 :: rest =>
      let n0 := N_of_ascii a0 in
      if n0 <? 0x80 then (n0, 1%nat)
      else
        match lead n0, map N_of_ascii rest with
        | Some (2%nat, lo, hi), n1 :: _ =>
            if in_range lo hi n1
            then (N.land n0 0x1F * 64 + N.land n1 0x3F, 2%nat)
            else (RuneError, 1%nat)
        | Some (3%nat, lo, hi), n1 :: n2 :: _ =>
            if in_range lo hi n1 && in_range 0x80 0xBF n2
            then (N.land n0 0x0F * 4096 + N.land n1 0x3F * 64 + N.land n2 0x3F, 3%nat)
            else (RuneError, 1%nat)
        | Some (4%nat, lo, hi), n1 :: n2 :: n3 :: _ =>
            if in_range lo hi n1 && in_range 0x80 0xBF n2 && in_range 0x80 0xBF n3
            then (N.land n0 0x07 * 262144 + N.land n1 0x3F * 4096
                  + N.land n2 0x3F * 64 + N.land n3 0x3F, 4%nat)
            else (RuneError, 1%nat)
        | _, _ => (RuneError, 1%nat)
        end
  end.

(** [utf8.AppendRune(nil, r)] *)
Definition EncodeRune (r : N) : bytes :=
  if r <=? 0x7F then [ascii_of_N r]
  else if r <=? 0x7FF then
    [ascii_of_N (0xC0 + r / 64); ascii_of_N (0x80 + r mod 64)]
  else if (0x10FFFF <? r) || in_range 0xD800 0xDFFF r then
    [ascii_of_N 0xEF; ascii_of_N 0xBF; ascii_of_N 0xBD]
  else if r <=? 0xFFFF then
    [ascii_of_N (0xE0 + r / 4096); ascii_of_N (0x80 + r / 64 mod 64);
     ascii_of_N (0x80 + r mod 64)]
  else
    [ascii_of_N (0xF0 + r / 262144); ascii_of_N (0x80 + r / 4096 mod 64);
     ascii_of_N (0x80 + r / 64 mod 64); ascii_of_N (0x80 + r mod 64)].

(** [utf8.RuneStart] *)
Definition RuneStart (a : ascii) : bool := negb (in_range 0x80 0xBF (N_of_ascii a)).

(** [utf8.DecodeLastRune]: walk back at most four bytes to a byte that can
    start a rune and decode there; the rune counts only if it ends the text. *)
Definition DecodeLastRune (b : bytes) : N * nat :=
  let n := length b in
  match last b with
  | None => (RuneError, 0%nat)
  | Some a =>
      if N_of_ascii a <? 0x80 then (N_of_ascii a, 1%nat)
      else
        let starts := List.find (fun k => (k <=? n)%nat &&
                        match b !! (n - k)%nat with
                        | Some c => RuneStart c
                        | None => false
                        end) [2; 3; 4]%nat in
        let k := default (n `min` 4)%nat starts in
        let '(r, size) := DecodeRune (drop (n - k) b) in
        if (size =? k)%nat then (r, size) else (RuneError, 1%nat)
  end.

(** [range s]: the runes of a text with their widths, in order. *)
Fixpoint runes_fuel (fuel : nat) (b : bytes) : list (N * nat) :=
  match fuel, b with
  | S fuel', _ :: _ =>
      let rw := DecodeRune b in rw :: runes_fuel fuel' (drop rw.2 b)
  | _, _ => []
  end.
Definition runes (b : bytes) : list (N * nat) := runes_fuel (length b) b.

(** [utf8.Valid]: no byte of the text decodes to an error. *)
Fixpoint valid_fuel (fuel : nat) (b : bytes) : bool :=
  match fuel, b with
  | _, [] => true
  | O, _ => false
  | S fuel', _ =>
      match DecodeRune b with
      | (_, 1%nat) => match b with
                      | a :: b' => (N_of_ascii a <? 0x80) && valid_fuel fuel' b'
                      | [] => true
                      end
      | (_, w) => valid_fuel fuel' (drop w b)
      end
  end.
Definition Valid (b : bytes) : bool := valid_fuel (length b) b.

(** ** Lemmas *)

Lemma DecodeRune_width b : (b <> [] -> 1 <= (DecodeRune b).2 <= 4)%nat.
Proof.
  destruct b as [|a0 rest]; [done|]. intros _. unfold DecodeRune.
  destruct (_ <? _); [simpl; lia|].
  destruct (lead _) as [[[[|[|[|[|[|?]]]]] ?] ?]|]; simpl; try lia.
  all: destruct rest as [|b1 [|b2 [|b3 ?]]]; simpl; try lia.
  all: repeat case_match; simpl; lia.
Qed.

(** A rune never claims more bytes than there are. *)
Lemma DecodeRune_width_le b : ((DecodeRune b).2 <= length b)%nat.
Proof.
  destruct b as [|a0 rest]; [done|]. unfold DecodeRune.
  destruct (_ <? _); [simpl; lia|].
  destruct (lead _) as [[[[|[|[|[|[|?]]]]] ?] ?]|]; simpl; try lia.
  all: destruct rest as [|b1 [|b2 [|b3 ?]]]; simpl; try lia.
  all: repeat case_match; simpl; lia.
Qed.

Lemma DecodeRune_ascii a b :
  N_of_ascii a < 0x80 -> DecodeRune (a :: b) = (N_of_ascii a, 1%nat).
Proof. intros H. unfold DecodeRune. by rewrite (proj2 (N.ltb_lt _ _) H). Qed.

(** A decoded multi-byte rune consists of bytes from 0x80 up, and encoding it
    gives those bytes back. *)
#[local] Ltac Zify.zify_post_hook ::= Z.to_euclidean_division_equations.

Lemma in_range_true lo hi x : in_range lo hi x = true -> lo <= x <= hi.
Proof. unfold in_range. intros [?%N.leb_le ?%N.leb_le]%andb_true_iff. lia. Qed.

Lemma lead_cases n0 k lo hi :
  lead n0 = Some (k, lo, hi) ->
  (k = 2%nat /\ 0xC2 <= n0 <= 0xDF /\ lo = 0x80 /\ hi = 0xBF) \/
  (k = 3%nat /\ 0xE0 <= n0 <= 0xEF /\ 0x80 <= lo /\ hi <= 0xBF /\
     (n0 = 0xE0 -> lo = 0xA0) /\ (n0 = 0xED -> hi = 0x9F)) \/
  (k = 4%nat /\ 0xF0 <= n0 <= 0xF4 /\ 0x80 <= lo /\ hi <= 0xBF /\
     (n0 = 0xF0 -> lo = 0x90) /\ (n0 = 0xF4 -> hi = 0x8F)).
Proof.
  unfold lead.
  repeat match goal with
  | |- context [if in_range ?a ?b ?x then _ else _] =>
      destruct (in_range a b x) eqn:?
  | |- context [if ?x =? ?y then _ else _] => destruct (N.eqb_spec x y)
  end; intros; simplify_eq;
  repeat match goal with H : in_range _ _ _ = true |- _ => apply in_range_true in H end;
  lia.
Qed.

Definition high (a : ascii) : Prop := 0x80 <= N_of_ascii a.

Lemma land_1F n : N.land n 0x1F = n mod 32.
Proof. change 0x1F with (N.ones 5). by rewrite N.land_ones. Qed.
Lemma land_0F n : N.land n 0x0F = n mod 16.
Proof. change 0x0F with (N.ones 4). by rewrite N.land_ones. Qed.
Lemma land_07 n : N.land n 0x07 = n mod 8.
Proof. change 0x07 with (N.ones 3). by rewrite N.land_ones. Qed.
Lemma land_3F n : N.land n 0x3F = n mod 64.
Proof. change 0x3F with (N.ones 6). by rewrite N.land_ones. Qed.

Lemma ascii_of_N_eq n a : n = N_of_ascii a -> ascii_of_N n = a.
Proof. intros ->. apply ascii_N_embedding. Qed.

Lemma cons_ascii n a l k : n = N_of_ascii a -> l = k -> ascii_of_N n :: l = a :: k.
Proof. intros H ->. by rewrite (ascii_of_N_eq n a H). Qed.

(** The three ways a text can start with a multi-byte rune. *)
Lemma DecodeRune_multi b r w :
  DecodeRune b = (r, w) -> (1 < w)%nat ->
  Forall high (take w b) /\ EncodeRune r = take w b /\ 0x80 <= r.
Proof.
  unfold DecodeRune. destruct b as [|a0 rest]; [intros [= <- <-]; lia|].
  destruct (N.ltb_spec (N_of_ascii a0) 0x80) as [|Hh]; [intros [= <- <-]; lia|].
  destruct (lead (N_of_ascii a0)) as [[[k lo] hi]|] eqn:El; [|intros [= <- <-]; lia].
  apply lead_cases in El as [(-> & H0 & -> & ->)|[(-> & H0 & Hlo & Hhi & H1 & H2)
    |(-> & H0 & Hlo & Hhi & H1 & H2)]].
  - destruct rest as [|a1 rest]; simpl; [intros [= <- <-]; lia|].
    destruct (in_range _ _ (N_of_ascii a1)) eqn:E1; [|intros [= <- <-]; lia].
    apply in_range_true in E1. rewrite land_1F, land_3F. intros [= <- <-] _.
    simpl. split_and!; [repeat constructor; unfold high; lia| |lia].
    unfold EncodeRune, in_range. repeat case_match; go_bool; try lia;
      repeat (apply cons_ascii; [lia|]); done.
  - destruct rest as [|a1 [|a2 rest]]; simpl; [intros [= <- <-]; lia..|].
    destruct (in_range lo hi (N_of_ascii a1)) eqn:E1,
      (in_range 0x80 0xBF (N_of_ascii a2)) eqn:E2; simpl; [|intros [= <- <-]; lia..].
    apply in_range_true in E1, E2. rewrite land_0F, !land_3F. intros [= <- <-] _.
    simpl. split_and!; [repeat constructor; unfold high; lia| |lia].
    unfold EncodeRune, in_range.
    repeat case_match; go_bool; try lia;
      repeat (apply cons_ascii; [lia|]); done.
  - destruct rest as [|a1 [|a2 [|a3 rest]]]; simpl; [intros [= <- <-]; lia..|].
    destruct (in_range lo hi (N_of_ascii a1)) eqn:E1,
      (in_range 0x80 0xBF (N_of_ascii a2)) eqn:E2,
      (in_range 0x80 0xBF (N_of_ascii a3)) eqn:E3; simpl; [|intros [= <- <-]; lia..].
    apply in_range_true in E1, E2, E3. rewrite land_07, !land_3F. intros [= <- <-] _.
    simpl. split_and!; [repeat constructor; unfold high; lia| |lia].
    unfold EncodeRune, in_range. repeat case_match; go_bool; try lia;
      repeat (apply cons_ascii; [lia|]); done.
Qed.
