(* ===== verification/GoStrings.v ===== *)
(** * The [strings], [fmt] and [path/filepath] functions the program uses *)
From S2P Require Import Prelude Utf8.

(** ** [strings] *)

Definition HasPrefix (s prefix : string) : bool := String.prefix prefix s.

Fixpoint drop_string (n : nat) (s : string) : string :=
  match n, s with
  | S n', String _ s' => drop_string n' s'
  | _, _ => s
  end.

Definition TrimPrefix (s prefix : string) : string :=
  if HasPrefix s prefix then drop_string (String.length prefix) s else s.

(** [strings.Join] *)
Fixpoint Join (elems : list string) (sep : string) : string :=
  match elems with
  | [] => ""
  | [e] => e
  | e :: elems' => e +:+ sep +:+ Join elems' sep
  end.

(** [strings.SplitN(s, ":", 2)] for a one-byte separator: the text before and
    after the first separator, or the whole text. *)
Fixpoint SplitN2 (s : string) (sep : ascii) : list string :=
  match s with
  | EmptyString => [""]
  | String c s' =>
      if Ascii.eqb c sep then [""; s']
      else match SplitN2 s' sep with
           | x :: xs => String c x :: xs
           | [] => [s]
           end
  end.

(** [unicode.IsSpace] *)
Definition IsSpace (r : N) : bool :=
  (in_range 9 13 r || (r =? 32) || (r =? 0x85) || (r =? 0xA0)
   || (r =? 0x1680) || in_range 0x2000 0x200A r || (r =? 0x2028) || (r =? 0x2029)
   || (r =? 0x202F) || (r =? 0x205F) || (r =? 0x3000))%N.

Fixpoint trim_left (fuel : nat) (b : bytes) : bytes :=
  match fuel, b with
  | S fuel', _ :: _ =>
      let '(r, w) := DecodeRune b in
      if IsSpace r then trim_left fuel' (drop w b) else b
  | _, _ => b
  end.

Fixpoint trim_right (fuel : nat) (b : bytes) : bytes :=
  match fuel, b with
  | S fuel', _ :: _ =>
      let '(r, w) := DecodeLastRune b in
      if IsSpace r then trim_right fuel' (take (length b - w) b) else b
  | _, _ => b
  end.

(** [strings.TrimSpace], as [strings.TrimFunc(s, unicode.IsSpace)]; every round
    removes at least one byte, so [length b] rounds are enough. *)
Definition TrimSpace_bytes (b : bytes) : bytes :=
  let b' := trim_left (length b) b in trim_right (length b') b'.
Definition TrimSpace (s : string) : string := go_string (TrimSpace_bytes (go_bytes s)).

(** [unicode.ToLower] on ASCII; on the other runes it is Unicode's case table,
    which the definitions that need it take as the argument [table]. *)
Definition rune_lower (table : N -> N) (r : N) : N :=
  (if r <? 0x80 then if in_range 65 90 r then r + 32 else r else table r)%N.

(** [strings.ToLower]: rune by rune, an invalid byte becoming [RuneError]. *)
Definition ToLower (table : N -> N) (s : string) : string :=
  go_string (concat (map (fun rw => EncodeRune (rune_lower table rw.1)) (runes (go_bytes s)))).

(** [strings.ReplaceAll] of one byte by another. *)
Definition ReplaceByte (s : string) (old new : ascii) : string :=
  go_string (map (fun c => if Ascii.eqb c old then new else c) (go_bytes s)).

(** ** [fmt] *)

(** The format [fmt] with its verb replaced by [arg]. *)
Fixpoint Sprintf1 (fmt arg : string) : string :=
  match fmt with
  | String "%" (String _ rest) => arg +:+ rest
  | String c rest => String c (Sprintf1 rest arg)
  | EmptyString => EmptyString
  end.

(** [err.Error()] *)
Fixpoint Error (e : error) : string :=
  match e with
  | EOF => "EOF"
  | NotFound what | External what => what
  | Errorf msg => msg
  | ErrorfArg fmt arg => Sprintf1 fmt arg
  | Wrapf fmt cause => Sprintf1 fmt (Error cause)
  end.

(** ** [path/filepath] on Unix *)

Definition slash : ascii := "/".

(** [strings.Split(s, "/")] *)
Fixpoint split_slash (s : string) : list string :=
  match s with
  | EmptyString => [""]
  | String c s' =>
      match split_slash s' with
      | x :: xs => if Ascii.eqb c slash then "" :: x :: xs else String c x :: xs
      | [] => [""]
      end
  end.

(** The effect of one path element on the cleaned elements so far (last first). *)
Definition clean_elem (rooted : bool) (acc : list string) (e : string) : list string :=
  if bool_decide (e = "" \/ e = ".") then acc
  else if bool_decide (e = "..") then
    match acc with
    | [] => if rooted then [] else [".."]
    | ".." :: _ => ".." :: acc
    | _ :: acc' => acc'
    end
  else e :: acc.

(** [filepath.Clean] *)
Definition Clean (path : string) : string :=
  let rooted := HasPrefix path "/" in
  let elems := rev (fold_left (clean_elem rooted) (split_slash path) []) in
  match rooted, elems with
  | true, _ => "/" +:+ Join elems "/"
  | false, [] => "."
  | false, _ => Join elems "/"
  end.

(** [path[:i+1]] with [i] the index of the last separator, [-1] if none. *)
Definition dir_prefix (path : string) : string :=
  match rev (split_slash path) with
  | [] => ""
  | [_] => ""
  | _ :: init => Join (rev init) "/" +:+ "/"
  end.

(** [filepath.Dir] *)
Definition Dir (path : string) : string := Clean (dir_prefix path).

(** [filepath.Join] *)
Fixpoint filepath_Join (elems : list string) : string :=
  match elems with
  | [] => ""
  | e :: elems' => if String.eqb e "" then filepath_Join elems' else Clean (Join elems "/")
  end.

(** ** Lemmas *)

Lemma HasPrefix_app p s : HasPrefix (p +:+ s) p = true.
Proof.
  unfold HasPrefix. induction p as [|c p IH]; [by destruct s|].
  change (String c p +:+ s) with (String c (p +:+ s)). simpl.
  by destruct (ascii_dec c c).
Qed.

Lemma drop_string_app p s : drop_string (String.length p) (p +:+ s) = s.
Proof. induction p as [|c p IH]; [done|]. apply IH. Qed.

Lemma TrimPrefix_app p s : TrimPrefix (p +:+ s) p = s.
Proof. unfold TrimPrefix. by rewrite HasPrefix_app, drop_string_app. Qed.

Lemma HasPrefix_inv s p : HasPrefix s p = true -> exists t, s = p +:+ t.
Proof.
  unfold HasPrefix. revert s. induction p as [|c p IH]; intros s H; [by exists s|].
  destruct s as [|d s]; [done|]. simpl in H.
  destruct (ascii_dec c d) as [->|]; [|done].
  destruct (IH s H) as [t ->]. by exists t.
Qed.

#[export] Hint Rewrite HasPrefix_app TrimPrefix_app : go.

Lemma SplitN2_sep u v sep :
  sep ∉ go_bytes u -> SplitN2 (u +:+ String sep v) sep = [u; v].
Proof.
  induction u as [|c u IH]; intros Hs.
  - change (SplitN2 (String sep v) sep = [""; v]). simpl. by rewrite Ascii.eqb_refl.
  - change (SplitN2 (String c (u +:+ String sep v)) sep = [String c u; v]).
    simpl in *. apply not_elem_of_cons in Hs as [Hc Hs].
    rewrite (IH Hs). destruct (Ascii.eqb_spec c sep); [congruence|done].
Qed.

Lemma SplitN2_first u v sep x y :
  SplitN2 (u +:+ String sep v) sep = [x; y] -> sep ∈ go_bytes u -> x <> u.
Proof.
  revert x y. induction u as [|c u IH]; intros x y Hx Hs; [simpl in Hs; set_solver|].
  change (SplitN2 (String c (u +:+ String sep v)) sep = [x; y]) in Hx.
  simpl in Hx, Hs. destruct (Ascii.eqb_spec c sep) as [->|Hne].
  - injection Hx as <- _. done.
  - apply elem_of_cons in Hs as [?|Hs]; [congruence|].
    destruct (SplitN2 (u +:+ String sep v) sep) as [|x' xs]; [done|].
    injection Hx as <- ->. intros [= ->]. by eapply IH.
Qed.

Example Clean_ex : Clean "/var/log//../log/./app.log" = "/var/log/app.log".
Proof. reflexivity. Qed.
Example Dir_ex : Dir "/var/log/syslog" = "/var/log".
Proof. reflexivity. Qed.
Example filepath_Join_ex : filepath_Join ["/var/log"; "/my/app.log"] = "/var/log/my/app.log".
Proof. reflexivity. Qed.
Example TrimSpace_ex : TrimSpace "  tok en  " = "tok en".
Proof. reflexivity. Qed.
