(* ===== verification/Http.v ===== *)
(** * HTTP messages

    [http.Header], [http.Request] and [http.Response] as far as the program
    looks at them.  A header is a map from canonical names to value lists; all
    the code goes through [Set] and [Get], which canonicalise the name. *)
From S2P Require Import Prelude.

(** ** [textproto.CanonicalMIMEHeaderKey] *)

Definition is_lower (c : ascii) : bool :=
  ((97 <=? N_of_ascii c) && (N_of_ascii c <=? 122))%N.
Definition is_upper (c : ascii) : bool :=
  ((65 <=? N_of_ascii c) && (N_of_ascii c <=? 90))%N.
Definition is_digit (c : ascii) : bool :=
  ((48 <=? N_of_ascii c) && (N_of_ascii c <=? 57))%N.
Definition to_upper (c : ascii) : ascii := ascii_of_N (N_of_ascii c - 32).
Definition to_lower (c : ascii) : ascii := ascii_of_N (N_of_ascii c + 32).

(** [textproto.validHeaderFieldByte]: the token characters of RFC 7230. *)
Definition validHeaderFieldByte (c : ascii) : bool :=
  is_lower c || is_upper c || is_digit c
  || bool_decide (c ∈ go_bytes "!#$%&'*+-.^_`|~").

Fixpoint canon_loop (upper : bool) (b : bytes) : bytes :=
  match b with
  | [] => []
  | c :: b' =>
      let c' := if upper && is_lower c then to_upper c
                else if negb upper && is_upper c then to_lower c else c in
      c' :: canon_loop (Ascii.eqb c' "-"%char) b'
  end.

(** A name with a byte that is no token character is left alone. *)
Definition CanonicalMIMEHeaderKey (k : string) : string :=
  if forallb validHeaderFieldByte (go_bytes k)
  then go_string (canon_loop true (go_bytes k)) else k.

(** ** [http.Header] *)

Abbreviation Header := (gmap string (list string)).

Definition header_Set (h : Header) (key value : string) : Header :=
  <[CanonicalMIMEHeaderKey key := [value]]> h.

Definition header_Get (h : Header) (key : string) : string :=
  match h !! CanonicalMIMEHeaderKey key with
  | Some (v :: _) => v
  | _ => ""
  end.

(** ** Requests and responses *)

Record Request := mkRequest {
  req_method : string;
  req_url : string;
  req_header : Header;
  req_body : bytes;
}.

Definition with_header (r : Request) (h : Header) : Request :=
  mkRequest (req_method r) (req_url r) h (req_body r).

Definition set_header (r : Request) (key value : string) : Request :=
  with_header r (header_Set (req_header r) key value).

(** What a handler has written to its [http.ResponseWriter]. *)
Record Response := mkResponse {
  resp_status : Z;
  resp_header : Header;
  resp_body : bytes;
}.

Definition StatusOK : Z := 200.
Definition StatusUnauthorized : Z := 401.
Definition StatusInternalServerError : Z := 500.
Definition StatusServiceUnavailable : Z := 503.

(** ** Lemmas *)

Lemma header_Get_Set_canon h k k' v :
  CanonicalMIMEHeaderKey k = CanonicalMIMEHeaderKey k' ->
  header_Get (header_Set h k v) k' = v.
Proof. intros E. unfold header_Get, header_Set. by rewrite E, lookup_insert_eq. Qed.

Lemma header_Get_Set h k v : header_Get (header_Set h k v) k = v.
Proof. by apply header_Get_Set_canon. Qed.

Lemma header_Get_Set_ne h k k' v :
  CanonicalMIMEHeaderKey k <> CanonicalMIMEHeaderKey k' ->
  header_Get (header_Set h k v) k' = header_Get h k'.
Proof. intros E. unfold header_Get, header_Set. by rewrite lookup_insert_ne. Qed.

#[export] Hint Rewrite header_Get_Set : go.

Example canon_ex : CanonicalMIMEHeaderKey "x-key-ID" = "X-Key-Id".
Proof. reflexivity. Qed.
Example canon_bad : CanonicalMIMEHeaderKey "x key" = "x key".
Proof. reflexivity. Qed.
