(* ===== verification/Host.v ===== *)
(** * The machine the agent runs on

    What the program asks of the operating system and of the build target:
    [runtime.GOOS], environment variables, whole-file reads and the
    target-specific [path/filepath] functions.  They are data of the model, so a
    theorem about all hosts quantifies over [host]. *)
From S2P Require Import Prelude GoStrings.

Record host := mkHost {
  GOOS : string;
  Getenv : string -> string;
  ReadFile : string -> result bytes;
  path_Join : list string -> string;
  path_Dir : string -> string;
}.

(** A host whose [path/filepath] is the Unix one. *)
Definition unix_paths (h : host) : Prop :=
  path_Join h = filepath_Join /\ path_Dir h = Dir.

Definition unix_host (os : string) (env : gmap string string)
    (files : gmap string bytes) : host :=
  {| GOOS := os;
     Getenv := fun k => default "" (env !! k);
     ReadFile := fun p => match files !! p with
                          | Some b => Ok b
                          | None => Err (External "no such file or directory")
                          end;
     path_Join := filepath_Join;
     path_Dir := Dir |}.

(** [time.Duration] in nanoseconds. *)
Definition Second : Z := 1000000000.
