(* ===== verification/GoFlag.v ===== *)
(** * Command-line flags

    The part of Go's package [flag] that the programs use: a flag set of string
    and boolean flags, [FlagSet.parseOne], the loop of [FlagSet.Parse] and what
    the default set ([flag.CommandLine], which is [ExitOnError]) does with an
    error.  The three programs declare their sets in [Startup] and
    [OperatorMain]. *)
From S2P Require Import Prelude.

Inductive flag_value := FString (s : string) | FBool (b : bool).

#[global] Instance flag_value_eq_dec : EqDecision flag_value.
Proof. solve_decision. Defined.

(** [f.formal], with the current value of each flag. *)
Abbreviation flags := (gmap string flag_value).

(** [strconv.ParseBool] *)
Definition ParseBool (s : string) : option bool :=
  if bool_decide (s ∈ ["1"; "t"; "T"; "TRUE"; "true"; "True"]) then Some true
  else if bool_decide (s ∈ ["0"; "f"; "F"; "FALSE"; "false"; "False"]) then Some false
  else None.

(** The text before the first equals sign, and what follows it. *)
Fixpoint split_eq (s : string) : string * option string :=
  match s with
  | EmptyString => (EmptyString, None)
  | String c r =>
      if Ascii.eqb c "=" then (EmptyString, Some r)
      else let '(n, v) := split_eq r in (String c n, v)
  end.

(** [for i := 1; i < len(name); i++ { if name[i] == '=' ... }] *)
Definition split_value (name : string) : string * option string :=
  match name with
  | EmptyString => (EmptyString, None)
  | String c r => let '(n, v) := split_eq r in (String c n, v)
  end.

(** What an argument is: the end of the flags, the terminator, a syntax error,
    a flag with the value attached to it, if any. *)
Inductive argument :=
| NoFlag
| Terminator
| BadSyntax
| Flag (name : string) (value : option string).

Definition flag_body (name : string) : argument :=
  match name with
  | EmptyString => BadSyntax
  | String c _ =>
      if Ascii.eqb c "-" || Ascii.eqb c "=" then BadSyntax
      else let '(n, v) := split_value name in Flag n v
  end.

Definition classify (s : string) : argument :=
  match s with
  | String "-" EmptyString => NoFlag
  | String "-" (String "-" EmptyString) => Terminator
  | String "-" (String "-" name) => flag_body name
  | String "-" name => flag_body name
  | _ => NoFlag
  end.

(** [Value.Set]: the new value of a flag. *)
Definition set_value (old : flag_value) (v : string) : option flag_value :=
  match old with
  | FString _ => Some (FString v)
  | FBool _ => FBool <$> ParseBool v
  end.

(** The outcome of [parseOne]: a flag was seen, there is none, an error, or
    [ErrHelp]. *)
Inductive one :=
| Seen (name : string) (v : flag_value) (rest : list string)
| Finished (rest : list string)
| Failed (e : error)
| Help.

Definition parseOne (fs : flags) (args : list string) : one :=
  match args with
  | [] => Finished []
  | s :: rest =>
      match classify s with
      | NoFlag => Finished args
      | Terminator => Finished rest
      | BadSyntax => Failed (ErrorfArg "bad flag syntax: %s" s)
      | Flag name value =>
          match fs !! name with
          | None =>
              if bool_decide (name = "help" \/ name = "h") then Help
              else Failed (ErrorfArg "flag provided but not defined: -%s" name)
          | Some (FBool b) =>
              match set_value (FBool b) (default "true" value) with
              | Some v => Seen name v rest
              | None => Failed (ErrorfArg "invalid boolean value for -%s" name)
              end
          | Some (FString _) =>
              match value, rest with
              | Some v, _ => Seen name (FString v) rest
              | None, v :: rest' => Seen name (FString v) rest'
              | None, [] => Failed (ErrorfArg "flag needs an argument: -%s" name)
              end
          end
      end
  end.

(** What [flag.Parse()] does to the program: it returns, or the process exits. *)
Inductive parsed :=
| Parsed (fs : flags) (rest : list string)
| Exits (code : Z).

#[global] Instance parsed_eq_dec : EqDecision parsed.
Proof. solve_decision. Defined.

(** The loop of [Parse]; [None] when the fuel is spent before the loop ends. *)
Fixpoint parse_loop (fuel : nat) (fs : flags) (args : list string) : option parsed :=
  match fuel with
  | 0 => None
  | S fuel =>
      match parseOne fs args with
      | Seen name v rest => parse_loop fuel (<[name := v]> fs) rest
      | Finished rest => Some (Parsed fs rest)
      | Failed _ => Some (Exits 2)
      | Help => Some (Exits 0)
      end
  end.

Definition Parse (fs : flags) (args : list string) : parsed :=
  default (Exits 2) (parse_loop (S (length args)) fs args).

(** [*p] of a flag declared with [flag.String], [flag.Bool]. *)
Definition string_flag (fs : flags) (name : string) : string :=
  match fs !! name with Some (FString s) => s | _ => "" end.
Definition bool_flag (fs : flags) (name : string) : bool :=
  match fs !! name with Some (FBool b) => b | _ => false end.

(** ** The loop ends *)

Lemma parseOne_shrinks fs args name v rest :
  parseOne fs args = Seen name v rest -> length rest < length args.
Proof.
  unfold parseOne. destruct args as [|s r]; [done|]. simpl.
  repeat case_match; intros; simplify_eq/=; lia.
Qed.

(** The loop runs at most once per argument and once more: with that much fuel
    it returns, and more fuel changes nothing. *)
Lemma parse_loop_total fuel fs args :
  length args < fuel -> parse_loop fuel fs args = Some (Parse fs args).
Proof.
  unfold Parse.
  assert (forall n fs args m, length args < n -> length args < m ->
    is_Some (parse_loop n fs args) /\ parse_loop n fs args = parse_loop m fs args) as Hn.
  { clear. induction n as [|n IH]; intros fs args [|m] Hn Hm; try lia. simpl.
    destruct (parseOne fs args) as [name v rest| | |] eqn:E; eauto.
    pose proof (parseOne_shrinks _ _ _ _ _ E). apply IH; lia. }
  intros Hf. destruct (Hn fuel fs args (S (length args)) Hf ltac:(lia)) as [[r Hr] He].
  rewrite <- He, Hr. done.
Qed.

Lemma Parse_step fs args :
  Parse fs args = match parseOne fs args with
                  | Seen name v rest => Parse (<[name := v]> fs) rest
                  | Finished rest => Parsed fs rest
                  | Failed _ => Exits 2
                  | Help => Exits 0
                  end.
Proof.
  pose proof (parse_loop_total (S (length args)) fs args ltac:(lia)) as H. simpl in H.
  destruct (parseOne fs args) as [name v rest| | |] eqn:E; simplify_eq/=; try congruence.
  pose proof (parseOne_shrinks _ _ _ _ _ E). rewrite parse_loop_total in H by lia. congruence.
Qed.

(** ** The values a flag can have *)

(** The flags keep their names and their types. *)
Definition same_kind (a b : option flag_value) : Prop :=
  match a, b with
  | None, None => True
  | Some (FString _), Some (FString _) => True
  | Some (FBool _), Some (FBool _) => True
  | _, _ => False
  end.

Lemma same_kind_refl a : same_kind a a.
Proof. by destruct a as [[]|]. Qed.

Lemma same_kind_trans a b c : same_kind a b -> same_kind b c -> same_kind a c.
Proof. by destruct a as [[]|], b as [[]|], c as [[]|]. Qed.

Lemma parseOne_kind fs args name v rest :
  parseOne fs args = Seen name v rest -> same_kind (fs !! name) (Some v).
Proof.
  unfold parseOne, set_value. intros E. repeat case_match; simplify_eq/=; try done.
  - match goal with H : fs !! _ = _ |- _ => rewrite H end. done.
  - match goal with H : fs !! _ = _ |- _ => rewrite H end. done.
  - match goal with H : fs !! _ = _ |- _ => rewrite H end.
    destruct (ParseBool _); by simplify_eq/=.
Qed.

(** [parseOne] looks only at the names and the types. *)
Lemma parseOne_same_kind fs fs' args :
  (forall n, same_kind (fs !! n) (fs' !! n)) -> parseOne fs args = parseOne fs' args.
Proof.
  intros H. unfold parseOne. destruct args as [|s r]; [done|]. destruct (classify s); try done.
  specialize (H name). by destruct (fs !! name) as [[]|], (fs' !! name) as [[]|].
Qed.

(** ** Parsing twice

    A flag set that has at least the flags of another, with the same types. *)
Definition extends (fs g : flags) : Prop :=
  forall n, is_Some (fs !! n) -> same_kind (fs !! n) (g !! n).

Lemma parseOne_extends fs g args o :
  extends fs g -> parseOne fs args = o ->
  match o with Seen _ _ _ | Finished _ => parseOne g args = o | _ => True end.
Proof.
  intros Hx <-. unfold parseOne. destruct args as [|s r]; [done|]. destruct (classify s); try done.
  specialize (Hx name). destruct (fs !! name) as [k|] eqn:E; [|by case_bool_decide].
  specialize (Hx ltac:(eauto)). destruct k, (g !! name) as [[]|]; try done; simpl; by repeat case_match.
Qed.

Lemma extends_insert fs g name v :
  extends fs g -> extends (<[name := v]> fs) (<[name := v]> g).
Proof.
  intros Hx n Hn. destruct (decide (n = name)) as [->|Hne].
  - rewrite !lookup_insert_eq. apply same_kind_refl.
  - rewrite !lookup_insert_ne in * by done. by apply Hx.
Qed.

(** A command line that the smaller set accepts is accepted by the larger one
    with the same rest, and gives the flags it names the same values. *)
Lemma Parse_extends fs g args fs' rest :
  extends fs g -> Parse fs args = Parsed fs' rest ->
  exists g', Parse g args = Parsed g' rest /\
    forall n, (fs' !! n = fs !! n /\ g' !! n = g !! n) \/ (g' !! n = fs' !! n /\ is_Some (fs !! n)).
Proof.
  remember (length args) as k eqn:Hk. revert fs g args Hk.
  induction k as [k IH] using lt_wf_ind. intros fs g args -> Hx HP.
  rewrite Parse_step in HP. rewrite (Parse_step g).
  destruct (parseOne fs args) as [name v r|r| |] eqn:E; simplify_eq/=.
  - rewrite (parseOne_extends fs g args _ Hx E).
    pose proof (parseOne_shrinks _ _ _ _ _ E) as Hlt.
    destruct (IH (length r) Hlt (<[name := v]> fs) (<[name := v]> g) r eq_refl
      (extends_insert _ _ _ _ Hx) HP) as (g' & Hg' & Hn).
    exists g'. split; [done|]. intros n. specialize (Hn n). destruct (decide (n = name)) as [->|Hne].
    + rewrite !lookup_insert_eq in Hn. right.
      pose proof (parseOne_kind _ _ _ _ _ E) as Hkd. split; [naive_solver congruence|].
      by destruct (fs !! name).
    + by rewrite !lookup_insert_ne in Hn.
  - rewrite (parseOne_extends _ _ _ _ Hx E). exists g. eauto.
Qed.

(** The flags keep their names and types. *)
Lemma Parse_kinds fs args fs' rest :
  Parse fs args = Parsed fs' rest -> forall n, same_kind (fs !! n) (fs' !! n).
Proof.
  remember (length args) as k eqn:Hk. revert fs args Hk.
  induction k as [k IH] using lt_wf_ind. intros fs args -> HP n. rewrite Parse_step in HP.
  destruct (parseOne fs args) as [name v r|r| |] eqn:E; simplify_eq/=; [|apply same_kind_refl].
  eapply same_kind_trans; [|apply (IH (length r) (parseOne_shrinks _ _ _ _ _ E) _ r eq_refl HP)].
  destruct (decide (n = name)) as [->|Hne].
  - rewrite lookup_insert_eq. by eapply parseOne_kind.
  - rewrite lookup_insert_ne by done. apply same_kind_refl.
Qed.

Lemma parseOne_suffix fs args :
  match parseOne fs args with
  | Seen _ _ rest | Finished rest => rest `suffix_of` args
  | _ => True
  end.
Proof.
  unfold parseOne. destruct args as [|s r]; [done|].
  destruct (classify s); try done; [by exists [s]|].
  destruct (fs !! name) as [[]|]; [|destruct (set_value _ _)|]; try done; [|by exists [s]|by case_bool_decide].
  destruct value; [by exists [s]|]. destruct r as [|v r]; [done|]. by exists [s; v].
Qed.

(** What is left are the last arguments; a process that exits does so with
    status 0 or 2. *)
Lemma Parse_shape fs args :
  match Parse fs args with
  | Parsed _ rest => rest `suffix_of` args
  | Exits code => code = 0%Z \/ code = 2%Z
  end.
Proof.
  remember (length args) as k eqn:Hk. revert fs args Hk.
  induction k as [k IH] using lt_wf_ind. intros fs args ->. rewrite Parse_step.
  pose proof (parseOne_suffix fs args) as Hs.
  destruct (parseOne fs args) as [name v r|r| |] eqn:E; auto.
  specialize (IH (length r) (parseOne_shrinks _ _ _ _ _ E) (<[name := v]> fs) r eq_refl).
  destruct (Parse _ r); [|done]. by trans r.
Qed.

(** Flags declared afterwards do not change the values of those parsed. *)
Lemma Parse_union fs extra args fs' rest n :
  Parse fs args = Parsed fs' rest -> is_Some (fs !! n) -> (fs' ∪ extra) !! n = fs' !! n.
Proof.
  intros HP [k Hn]. pose proof (Parse_kinds _ _ _ _ HP n) as Hk. rewrite Hn in Hk. rewrite lookup_union.
  by destruct k, (fs' !! n) as [[]|], (extra !! n).
Qed.

(** Parsing the same arguments again, with the flags as the first call left
    them and any further flags declared in between, changes nothing. *)
Lemma Parse_again fs extra args fs' rest :
  dom fs ## dom extra -> Parse fs args = Parsed fs' rest ->
  Parse (fs' ∪ extra) args = Parsed (fs' ∪ extra) rest.
Proof.
  intros Hd HP.
  pose proof (Parse_kinds _ _ _ _ HP) as Hkind.
  assert (extends fs (fs' ∪ extra)) as Hx.
  { intros n [k Hn]. specialize (Hkind n). rewrite Hn in *. rewrite lookup_union.
    by destruct k, (fs' !! n) as [[]|], (extra !! n). }
  destruct (Parse_extends _ _ _ _ _ Hx HP) as (g' & -> & Hg). f_equal. apply map_eq. intros n.
  destruct (Hg n) as [[_ ->]|[-> [k Hn]]]; [done|]. specialize (Hkind n). rewrite Hn in Hkind.
  rewrite lookup_union. by destruct k, (fs' !! n) as [[]|], (extra !! n).
Qed.

(** ** From values to arguments and back *)

(** A name that can be written on a command line. *)
Definition plain (name : string) : bool :=
  match name with
  | EmptyString => false
  | String c _ => negb (Ascii.eqb c "-") && bool_decide ("="%char ∉ go_bytes name)
  end.

Lemma split_eq_plain n v :
  "="%char ∉ go_bytes n -> split_eq (n +:+ String "=" v) = (n, Some v) /\ split_eq n = (n, None).
Proof.
  induction n as [|c n IH]; intros Hn; [done|].
  change (go_bytes (String c n)) with (c :: go_bytes n) in Hn.
  apply not_elem_of_cons in Hn as [Hc Hn]. destruct (IH Hn) as [E1 E2].
  change (String c n +:+ String "=" v) with (String c (n +:+ String "=" v)). simpl.
  destruct (Ascii.eqb_spec c "="); [congruence|]. by rewrite E1, E2.
Qed.

(** [-name=v] and [--name=v], or [-name v] and [--name v]. *)
Definition spelled (dashes : bool) (name : string) (v : option string) : string :=
  (if dashes then "--" else "-") +:+ name +:+ match v with Some v => String "=" v | None => "" end.

Lemma classify_spelled dashes name v :
  plain name = true -> classify (spelled dashes name v) = Flag name v.
Proof.
  destruct name as [|c n]; [done|]. unfold plain. intros [Hc Heq]%andb_true_iff.
  apply negb_true_iff in Hc. apply bool_decide_eq_true in Heq.
  change (go_bytes (String c n)) with (c :: go_bytes n) in Heq.
  apply not_elem_of_cons in Heq as [Hce Hn].
  set (tail := n +:+ match v with Some v => String "=" v | None => "" end).
  assert (classify (spelled dashes (String c n) v) = flag_body (String c tail)) as ->.
  { unfold spelled. destruct dashes.
    - change (classify (String "-" (String "-" (String c tail))) = flag_body (String c tail)).
      reflexivity.
    - change (classify (String "-" (String c tail)) = flag_body (String c tail)).
      revert Hc. destruct c as [[] [] [] [] [] [] [] []]; intros Hc; try reflexivity. discriminate Hc. }
  unfold flag_body. rewrite Hc. destruct (Ascii.eqb_spec c "="); [congruence|]. simpl.
  destruct (split_eq_plain n (default "" v) Hn) as [E1 E2]. unfold tail. destruct v; simpl in *.
  - by rewrite E1.
  - replace (n +:+ "") with n; [by rewrite E2|].
    clear. induction n as [|c n IH]; [done|]. change (String c n = String c (n +:+ "")). congruence.
Qed.

(** A string flag may be given in either way, whatever its value is. *)
Lemma Parse_string fs dashes name old v args :
  plain name = true -> fs !! name = Some (FString old) ->
  Parse fs (spelled dashes name (Some v) :: args) = Parse (<[name := FString v]> fs) args /\
  Parse fs (spelled dashes name None :: v :: args) = Parse (<[name := FString v]> fs) args.
Proof.
  intros Hp Hn. split; rewrite Parse_step; unfold parseOne; by rewrite classify_spelled, Hn.
Qed.

(** A boolean flag never takes the next argument as its value. *)
Lemma Parse_bool fs dashes name old v b args :
  plain name = true -> fs !! name = Some (FBool old) -> ParseBool (default "true" v) = Some b ->
  Parse fs (spelled dashes name v :: args) = Parse (<[name := FBool b]> fs) args.
Proof.
  intros Hp Hn Hb. rewrite Parse_step. unfold parseOne.
  rewrite classify_spelled, Hn by done. unfold set_value. by rewrite Hb.
Qed.

(** An undeclared flag ends the process, unless it asks for help. *)
Lemma Parse_undefined fs dashes name v args :
  plain name = true -> fs !! name = None -> name <> "help" -> name <> "h" ->
  Parse fs (spelled dashes name v :: args) = Exits 2.
Proof.
  intros Hp Hn H1 H2. rewrite Parse_step. unfold parseOne.
  rewrite classify_spelled, Hn by done. case_bool_decide; [|done]. by destruct H.
Qed.
