(* ===== verification/Config.v ===== *)
(** * Configuration

    Models [src/pkg/config/config.go]: the configuration structures, their
    defaults and [LoadConfig].  YAML decoding is the third-party package
    [gopkg.in/yaml.v2]; it is the argument [unmarshal]. *)
From Stdlib Require Import SpecFloat.
From S2P Require Import Prelude GoStrings Host.

(** ** The structures *)

Definition FileLogSource : string := "file".
Definition ContainerLogSource : string := "container".
Definition PodLogSource : string := "pod".
Definition WindowsEventLogSource : string := "windows_event".
Definition MacOSASLLogSource : string := "macos_asl".

(** A [float64]; the program compares it with zero and copies it. *)
Abbreviation float64 := spec_float.
Definition float_zero : float64 := S754_zero false.
Definition float_one : float64 := S754_finite false 4503599627370496 (-52).
Definition float_is_zero (f : float64) : bool := SFeqb f float_zero.

Module TLSConfig.
Record t := mk {
  Enabled : bool;
  CertFile : string;
  KeyFile : string;
  CAFile : string;
  InsecureSkipVerify : bool;
  ServerName : string;
  PreferServerCipherSuites : bool;
  MinVersion : string;
  MaxVersion : string;
  CipherSuites : string;
}.
Definition with_MinVersion (v : string) (c : t) : t :=
  mk (Enabled c) (CertFile c) (KeyFile c) (CAFile c) (InsecureSkipVerify c)
     (ServerName c) (PreferServerCipherSuites c) v (MaxVersion c) (CipherSuites c).
End TLSConfig.

Module AuthConfig.
Record t := mk {
  Type_ : string;
  Username : string;
  Password : string;
  TokenFile : string;
  ClientID : string;
  ClientSecret : string;
  TokenURL : string;
  Scopes : list string;
  Headers : gmap string string;
}.
Definition with_Type (v : string) (c : t) : t :=
  mk v (Username c) (Password c) (TokenFile c) (ClientID c) (ClientSecret c)
     (TokenURL c) (Scopes c) (Headers c).
End AuthConfig.

Module EncryptionConfig.
Record t := mk {
  Enabled : bool;
  Type_ : string;
  Algorithm : string;
  KeyFile : string;
  KeyEnv : string;
  KeyID : string;
  RotationDays : Z;
}.
Definition with_Type (v : string) (c : t) : t :=
  mk (Enabled c) v (Algorithm c) (KeyFile c) (KeyEnv c) (KeyID c) (RotationDays c).
Definition with_RotationDays (v : Z) (c : t) : t :=
  mk (Enabled c) (Type_ c) (Algorithm c) (KeyFile c) (KeyEnv c) (KeyID c) v.
End EncryptionConfig.

Module SecurityConfig.
Record t := mk {
  TLS : TLSConfig.t;
  Auth : AuthConfig.t;
  Encryption : EncryptionConfig.t;
}.
End SecurityConfig.

(** [Attributes] is [None] for Go's [nil] map. *)
Module TelemetryConfig.
Record t := mk {
  Enabled : bool;
  ServiceName : string;
  ServiceVersion : string;
  ExporterType : string;
  ExporterEndpoint : string;
  SamplingRate : float64;
  ContextPropagation : bool;
  Attributes : option (gmap string string);
}.
End TelemetryConfig.

Module Config.
Record t := mk {
  LogPath : string;
  ServerURL : string;
  BatchSize : Z;
  FlushInterval : Z;
  LogSourceType : string;
  Namespace : string;
  PodName : string;
  ContainerName : string;
  PodSelector : gmap string string;
  NamespaceSelector : gmap string string;
  WindowsEventLogName : string;
  WindowsEventLogLevel : string;
  MacOSLogQuery : string;
  Telemetry : TelemetryConfig.t;
  Security : SecurityConfig.t;
}.
End Config.

(** ** Defaults *)

(** [getDefaultLogPath] *)
Definition getDefaultLogPath (h : host) : string :=
  if bool_decide (GOOS h = "windows") then
    path_Join h [Getenv h "SYSTEMROOT"; "Logs"; "Application.log"]
  else if bool_decide (GOOS h = "darwin") then "/var/log/system.log"
  else "/var/log/syslog".

(** [getDefaultLogSourceType] *)
Definition getDefaultLogSourceType (h : host) : string :=
  if bool_decide (GOOS h = "windows") then WindowsEventLogSource
  else if bool_decide (GOOS h = "darwin") then MacOSASLLogSource
  else FileLogSource.

Definition DefaultTelemetryConfig : TelemetryConfig.t := {|
  TelemetryConfig.Enabled := false;
  TelemetryConfig.ServiceName := "tailpost";
  TelemetryConfig.ServiceVersion := "0.1.0";
  TelemetryConfig.ExporterType := "http";
  TelemetryConfig.ExporterEndpoint := "http://localhost:4318";
  TelemetryConfig.SamplingRate := float_one;
  TelemetryConfig.ContextPropagation := true;
  TelemetryConfig.Attributes := Some ∅;
|}.

Definition DefaultSecurityConfig : SecurityConfig.t := {|
  SecurityConfig.TLS := {|
    TLSConfig.Enabled := false;
    TLSConfig.CertFile := "";
    TLSConfig.KeyFile := "";
    TLSConfig.CAFile := "";
    TLSConfig.InsecureSkipVerify := false;
    TLSConfig.ServerName := "";
    TLSConfig.PreferServerCipherSuites := true;
    TLSConfig.MinVersion := "tls12";
    TLSConfig.MaxVersion := "";
    TLSConfig.CipherSuites := "";
  |};
  SecurityConfig.Auth := {|
    AuthConfig.Type_ := "none";
    AuthConfig.Username := "";
    AuthConfig.Password := "";
    AuthConfig.TokenFile := "";
    AuthConfig.ClientID := "";
    AuthConfig.ClientSecret := "";
    AuthConfig.TokenURL := "";
    AuthConfig.Scopes := [];
    AuthConfig.Headers := ∅;
  |};
  SecurityConfig.Encryption := {|
    EncryptionConfig.Enabled := false;
    EncryptionConfig.Type_ := "aes";
    EncryptionConfig.Algorithm := "";
    EncryptionConfig.KeyFile := "";
    EncryptionConfig.KeyEnv := "";
    EncryptionConfig.KeyID := "";
    EncryptionConfig.RotationDays := 90;
  |};
|}.

(** [if v == "" { v = d }] *)
Definition or_default (v d : string) : string := if String.eqb v "" then d else v.

(** ** The defaulting half of [LoadConfig] *)

(** The telemetry block (lines 216-242). *)
Definition default_telemetry (c : TelemetryConfig.t) : TelemetryConfig.t :=
  if TelemetryConfig.Enabled c then {|
    TelemetryConfig.Enabled := TelemetryConfig.Enabled c;
    TelemetryConfig.ServiceName :=
      or_default (TelemetryConfig.ServiceName c)
                 (TelemetryConfig.ServiceName DefaultTelemetryConfig);
    TelemetryConfig.ServiceVersion :=
      or_default (TelemetryConfig.ServiceVersion c)
                 (TelemetryConfig.ServiceVersion DefaultTelemetryConfig);
    TelemetryConfig.ExporterType :=
      or_default (TelemetryConfig.ExporterType c)
                 (TelemetryConfig.ExporterType DefaultTelemetryConfig);
    TelemetryConfig.ExporterEndpoint :=
      or_default (TelemetryConfig.ExporterEndpoint c)
                 (TelemetryConfig.ExporterEndpoint DefaultTelemetryConfig);
    TelemetryConfig.SamplingRate :=
      if float_is_zero (TelemetryConfig.SamplingRate c)
      then TelemetryConfig.SamplingRate DefaultTelemetryConfig
      else TelemetryConfig.SamplingRate c;
    TelemetryConfig.ContextPropagation := TelemetryConfig.ContextPropagation c;
    TelemetryConfig.Attributes :=
      match TelemetryConfig.Attributes c with
      | None => TelemetryConfig.Attributes DefaultTelemetryConfig
      | Some a => Some a
      end;
  |} else DefaultTelemetryConfig.

(** The security block (lines 244-269). *)
Definition default_tls (c : TLSConfig.t) : TLSConfig.t :=
  let d := SecurityConfig.TLS DefaultSecurityConfig in
  if TLSConfig.Enabled c then
    if String.eqb (TLSConfig.MinVersion c) ""
    then TLSConfig.with_MinVersion (TLSConfig.MinVersion d) c else c
  else d.

Definition default_auth (c : AuthConfig.t) : AuthConfig.t :=
  if String.eqb (AuthConfig.Type_ c) ""
  then AuthConfig.with_Type (AuthConfig.Type_ (SecurityConfig.Auth DefaultSecurityConfig)) c
  else c.

Definition default_encryption (c : EncryptionConfig.t) : EncryptionConfig.t :=
  let d := SecurityConfig.Encryption DefaultSecurityConfig in
  if EncryptionConfig.Enabled c then
    let c := if String.eqb (EncryptionConfig.Type_ c) ""
             then EncryptionConfig.with_Type (EncryptionConfig.Type_ d) c else c in
    if (EncryptionConfig.RotationDays c =? 0)%Z
    then EncryptionConfig.with_RotationDays (EncryptionConfig.RotationDays d) c else c
  else d.

Definition default_security (c : SecurityConfig.t) : SecurityConfig.t := {|
  SecurityConfig.TLS := default_tls (SecurityConfig.TLS c);
  SecurityConfig.Auth := default_auth (SecurityConfig.Auth c);
  SecurityConfig.Encryption := default_encryption (SecurityConfig.Encryption c);
|}.

(** The marker that asks for the platform's log directory. *)
Definition OS_DEFAULT : string := "${OS_DEFAULT}".

(** The log path block (lines 271-281). *)
Definition default_log_path (h : host) (source_type path : string) : string :=
  if bool_decide (source_type = FileLogSource) then
    if String.eqb path "" then getDefaultLogPath h
    else if HasPrefix path OS_DEFAULT then
      path_Join h [path_Dir h (getDefaultLogPath h); TrimPrefix path OS_DEFAULT]
    else path
  else path.

(** Every assignment [LoadConfig] makes to the decoded configuration, in one
    record: lines 194-281. *)
Definition set_defaults (h : host) (c : Config.t) : Config.t :=
  let source_type := or_default (Config.LogSourceType c) (getDefaultLogSourceType h) in
  let is_windows_event := bool_decide (source_type = WindowsEventLogSource) in
  {| Config.LogPath := default_log_path h source_type (Config.LogPath c);
     Config.ServerURL := Config.ServerURL c;
     Config.BatchSize := if (Config.BatchSize c =? 0)%Z then 10 else Config.BatchSize c;
     Config.FlushInterval :=
       if (Config.FlushInterval c =? 0)%Z then 5 * Second else Config.FlushInterval c;
     Config.LogSourceType := source_type;
     Config.Namespace := Config.Namespace c;
     Config.PodName := Config.PodName c;
     Config.ContainerName := Config.ContainerName c;
     Config.PodSelector := Config.PodSelector c;
     Config.NamespaceSelector := Config.NamespaceSelector c;
     Config.WindowsEventLogName :=
       if is_windows_event then or_default (Config.WindowsEventLogName c) "Application"
       else Config.WindowsEventLogName c;
     Config.WindowsEventLogLevel :=
       if is_windows_event then or_default (Config.WindowsEventLogLevel c) "Information"
       else Config.WindowsEventLogLevel c;
     Config.MacOSLogQuery := Config.MacOSLogQuery c;
     Config.Telemetry := default_telemetry (Config.Telemetry c);
     Config.Security := default_security (Config.Security c) |}.

(** ** The validating half of [LoadConfig] *)

(** Lines 283-310. *)
Definition validate_source (h : host) (c : Config.t) : result unit :=
  if bool_decide (Config.LogSourceType c = FileLogSource) then
    fail_if (String.eqb (Config.LogPath c) "")
      (Errorf "log_path is required for file log source")
  else if bool_decide (Config.LogSourceType c = ContainerLogSource) then
    _ ← fail_if (String.eqb (Config.Namespace c) "")
          (Errorf "namespace is required for container log source");
    _ ← fail_if (String.eqb (Config.PodName c) "")
          (Errorf "pod_name is required for container log source");
    fail_if (String.eqb (Config.ContainerName c) "")
      (Errorf "container_name is required for container log source")
  else if bool_decide (Config.LogSourceType c = PodLogSource) then
    fail_if (size (Config.PodSelector c) =? 0)%nat
      (Errorf "pod_selector is required for pod log source")
  else if bool_decide (Config.LogSourceType c = WindowsEventLogSource) then
    fail_if (negb (bool_decide (GOOS h = "windows")))
      (Errorf "windows_event log source type is only supported on Windows")
  else if bool_decide (Config.LogSourceType c = MacOSASLLogSource) then
    fail_if (negb (bool_decide (GOOS h = "darwin")))
      (Errorf "macos_asl log source type is only supported on macOS")
  else Ok tt.

(** Lines 312-321. *)
Definition validate_tls (url : string) (c : TLSConfig.t) : result unit :=
  if TLSConfig.Enabled c then
    _ ← fail_if (String.eqb (TLSConfig.CertFile c) "" && negb (String.eqb url "")
                 && HasPrefix url "https://")
          (Errorf "cert_file is required when TLS is enabled for HTTPS connections");
    fail_if (String.eqb (TLSConfig.KeyFile c) "" && negb (String.eqb (TLSConfig.CertFile c) ""))
      (Errorf "key_file is required when cert_file is specified")
  else Ok tt.

(** Lines 323-339. *)
Definition validate_auth (c : AuthConfig.t) : result unit :=
  if bool_decide (AuthConfig.Type_ c = "none") then Ok tt
  else if bool_decide (AuthConfig.Type_ c = "basic") then
    fail_if (String.eqb (AuthConfig.Username c) "" || String.eqb (AuthConfig.Password c) "")
      (Errorf "username and password are required for basic authentication")
  else if bool_decide (AuthConfig.Type_ c = "token") then
    fail_if (String.eqb (AuthConfig.TokenFile c) "")
      (Errorf "token_file is required for token authentication")
  else if bool_decide (AuthConfig.Type_ c = "oauth2") then
    fail_if (String.eqb (AuthConfig.ClientID c) "" || String.eqb (AuthConfig.ClientSecret c) ""
             || String.eqb (AuthConfig.TokenURL c) "")
      (Errorf "client_id, client_secret, and token_url are required for OAuth2 authentication")
  else Ok tt.

(** Lines 341-346. *)
Definition validate_encryption (c : EncryptionConfig.t) : result unit :=
  if EncryptionConfig.Enabled c then
    fail_if (String.eqb (EncryptionConfig.KeyFile c) "" && String.eqb (EncryptionConfig.KeyEnv c) "")
      (Errorf "either key_file or key_env must be specified when encryption is enabled")
  else Ok tt.

(** Lines 283-351. *)
Definition validate (h : host) (c : Config.t) : result unit :=
  let sec := Config.Security c in
  _ ← validate_source h c;
  _ ← validate_tls (Config.ServerURL c) (SecurityConfig.TLS sec);
  _ ← validate_auth (SecurityConfig.Auth sec);
  _ ← validate_encryption (SecurityConfig.Encryption sec);
  fail_if (String.eqb (Config.ServerURL c) "") (Errorf "server_url is required in config").

(** [LoadConfig] *)
Definition LoadConfig (unmarshal : bytes -> result Config.t) (h : host)
    (configPath : string) : result Config.t :=
  data ← wrap_err "error reading config file: %v" (ReadFile h configPath);
  raw ← wrap_err "error parsing config file: %v" (unmarshal data);
  let config := set_defaults h raw in
  _ ← validate h config;
  Ok config.

(** ** What a valid configuration is *)

Definition source_ok (h : host) (c : Config.t) : Prop :=
  (Config.LogSourceType c = FileLogSource -> Config.LogPath c <> "") /\
  (Config.LogSourceType c = ContainerLogSource ->
     Config.Namespace c <> "" /\ Config.PodName c <> "" /\ Config.ContainerName c <> "") /\
  (Config.LogSourceType c = PodLogSource -> Config.PodSelector c <> ∅) /\
  (Config.LogSourceType c = WindowsEventLogSource -> GOOS h = "windows") /\
  (Config.LogSourceType c = MacOSASLLogSource -> GOOS h = "darwin").

Definition tls_ok (url : string) (c : TLSConfig.t) : Prop :=
  TLSConfig.Enabled c = true ->
  (HasPrefix url "https://" = true -> TLSConfig.CertFile c <> "") /\
  (TLSConfig.CertFile c <> "" -> TLSConfig.KeyFile c <> "").

Definition auth_ok (c : AuthConfig.t) : Prop :=
  (AuthConfig.Type_ c = "basic" -> AuthConfig.Username c <> "" /\ AuthConfig.Password c <> "") /\
  (AuthConfig.Type_ c = "token" -> AuthConfig.TokenFile c <> "") /\
  (AuthConfig.Type_ c = "oauth2" ->
     AuthConfig.ClientID c <> "" /\ AuthConfig.ClientSecret c <> "" /\ AuthConfig.TokenURL c <> "").

Definition encryption_ok (c : EncryptionConfig.t) : Prop :=
  EncryptionConfig.Enabled c = true ->
  EncryptionConfig.KeyFile c <> "" \/ EncryptionConfig.KeyEnv c <> "".

Definition valid_config (h : host) (c : Config.t) : Prop :=
  source_ok h c /\
  tls_ok (Config.ServerURL c) (SecurityConfig.TLS (Config.Security c)) /\
  auth_ok (SecurityConfig.Auth (Config.Security c)) /\
  encryption_ok (SecurityConfig.Encryption (Config.Security c)) /\
  Config.ServerURL c <> "".

(** ** What the loaded configuration owes to the file

    A relation between the decoded file and the loaded configuration, setting by
    setting and with the documented values written out: it mentions neither
    [set_defaults] nor the default records. *)

(** A setting the file gives is kept, one it leaves [unset] is [d]. *)
Inductive kept_or {A} (unset : A -> Prop) (d : A) : A -> A -> Prop :=
  | kept v : ~ unset v -> kept_or unset d v v
  | left_out v : unset v -> kept_or unset d v d.

Definition text_or : string -> string -> string -> Prop := kept_or (eq "").
Definition number_or : Z -> Z -> Z -> Prop := kept_or (eq 0%Z).

(** The source type an operating system stands for. *)
Inductive os_source : string -> string -> Prop :=
  | os_windows : os_source "windows" "windows_event"
  | os_darwin : os_source "darwin" "macos_asl"
  | os_other os : os <> "windows" -> os <> "darwin" -> os_source os "file".

(** The log file of an operating system. *)
Inductive os_log (h : host) : string -> Prop :=
  | log_windows : GOOS h = "windows" ->
      os_log h (path_Join h [Getenv h "SYSTEMROOT"; "Logs"; "Application.log"])
  | log_darwin : GOOS h = "darwin" -> os_log h "/var/log/system.log"
  | log_other : GOOS h <> "windows" -> GOOS h <> "darwin" -> os_log h "/var/log/syslog".

(** The log path: only a file source has a default, and the marker stands for
    the directory of the operating system's log file. *)
Inductive log_path_filled (h : host) (ty : string) : string -> string -> Prop :=
  | path_other given : ty <> "file" -> log_path_filled h ty given given
  | path_default d : ty = "file" -> os_log h d -> log_path_filled h ty "" d
  | path_marker suffix d : ty = "file" -> os_log h d ->
      log_path_filled h ty ("${OS_DEFAULT}" +:+ suffix) (path_Join h [path_Dir h d; suffix])
  | path_kept given : ty = "file" -> given <> "" -> HasPrefix given "${OS_DEFAULT}" = false ->
      log_path_filled h ty given given.

Inductive telemetry_filled (raw c : TelemetryConfig.t) : Prop :=
  | telemetry_off :
      TelemetryConfig.Enabled raw = false ->
      c = TelemetryConfig.mk false "tailpost" "0.1.0" "http" "http://localhost:4318"
            float_one true (Some ∅) ->
      telemetry_filled raw c
  | telemetry_on :
      TelemetryConfig.Enabled raw = true -> TelemetryConfig.Enabled c = true ->
      text_or "tailpost" (TelemetryConfig.ServiceName raw) (TelemetryConfig.ServiceName c) ->
      text_or "0.1.0" (TelemetryConfig.ServiceVersion raw) (TelemetryConfig.ServiceVersion c) ->
      text_or "http" (TelemetryConfig.ExporterType raw) (TelemetryConfig.ExporterType c) ->
      text_or "http://localhost:4318" (TelemetryConfig.ExporterEndpoint raw)
        (TelemetryConfig.ExporterEndpoint c) ->
      kept_or (fun f => float_is_zero f = true) float_one
        (TelemetryConfig.SamplingRate raw) (TelemetryConfig.SamplingRate c) ->
      TelemetryConfig.ContextPropagation c = TelemetryConfig.ContextPropagation raw ->
      kept_or (eq None) (Some ∅) (TelemetryConfig.Attributes raw) (TelemetryConfig.Attributes c) ->
      telemetry_filled raw c.

Inductive tls_filled (raw c : TLSConfig.t) : Prop :=
  | tls_off :
      TLSConfig.Enabled raw = false ->
      c = TLSConfig.mk false "" "" "" false "" true "tls12" "" "" ->
      tls_filled raw c
  | tls_on v :
      TLSConfig.Enabled raw = true ->
      text_or "tls12" (TLSConfig.MinVersion raw) v ->
      c = TLSConfig.with_MinVersion v raw ->
      tls_filled raw c.

Inductive encryption_filled (raw c : EncryptionConfig.t) : Prop :=
  | encryption_off :
      EncryptionConfig.Enabled raw = false ->
      c = EncryptionConfig.mk false "aes" "" "" "" "" 90 ->
      encryption_filled raw c
  | encryption_on ty days :
      EncryptionConfig.Enabled raw = true ->
      text_or "aes" (EncryptionConfig.Type_ raw) ty ->
      number_or 90 (EncryptionConfig.RotationDays raw) days ->
      c = EncryptionConfig.with_Type ty (EncryptionConfig.with_RotationDays days raw) ->
      encryption_filled raw c.

Definition auth_filled (raw c : AuthConfig.t) : Prop :=
  exists ty, text_or "none" (AuthConfig.Type_ raw) ty /\ c = AuthConfig.with_Type ty raw.

Record filled (h : host) (raw c : Config.t) : Prop := {
  filled_batch : number_or 10 (Config.BatchSize raw) (Config.BatchSize c);
  filled_flush : number_or 5000000000 (Config.FlushInterval raw) (Config.FlushInterval c);
  filled_source : exists d, os_source (GOOS h) d /\
    text_or d (Config.LogSourceType raw) (Config.LogSourceType c);
  filled_path : log_path_filled h (Config.LogSourceType c) (Config.LogPath raw) (Config.LogPath c);
  filled_event_log : if bool_decide (Config.LogSourceType c = "windows_event")
    then text_or "Application" (Config.WindowsEventLogName raw) (Config.WindowsEventLogName c) /\
         text_or "Information" (Config.WindowsEventLogLevel raw) (Config.WindowsEventLogLevel c)
    else Config.WindowsEventLogName c = Config.WindowsEventLogName raw /\
         Config.WindowsEventLogLevel c = Config.WindowsEventLogLevel raw;
  filled_telemetry : telemetry_filled (Config.Telemetry raw) (Config.Telemetry c);
  filled_tls : tls_filled (SecurityConfig.TLS (Config.Security raw))
    (SecurityConfig.TLS (Config.Security c));
  filled_auth : auth_filled (SecurityConfig.Auth (Config.Security raw))
    (SecurityConfig.Auth (Config.Security c));
  filled_encryption : encryption_filled (SecurityConfig.Encryption (Config.Security raw))
    (SecurityConfig.Encryption (Config.Security c));
  filled_rest :
    Config.ServerURL c = Config.ServerURL raw /\ Config.Namespace c = Config.Namespace raw /\
    Config.PodName c = Config.PodName raw /\ Config.ContainerName c = Config.ContainerName raw /\
    Config.PodSelector c = Config.PodSelector raw /\
    Config.NamespaceSelector c = Config.NamespaceSelector raw /\
    Config.MacOSLogQuery c = Config.MacOSLogQuery raw;
}.

(** ** Lemmas *)

Lemma validate_source_ok h c : validate_source h c = Ok tt <-> source_ok h c.
Proof.
  unfold validate_source, source_ok, FileLogSource, ContainerLogSource, PodLogSource,
    WindowsEventLogSource, MacOSASLLogSource.
  generalize (Config.LogSourceType c) as ty. intros ty.
  repeat case_bool_decide; subst;
    rewrite ?unit_ok, ?fail_if_ok, ?eqb_false, ?Nat.eqb_neq, ?map_size_non_empty_iff;
    naive_solver.
Qed.

Lemma validate_tls_ok url c : validate_tls url c = Ok tt <-> tls_ok url c.
Proof.
  unfold validate_tls, tls_ok. destruct (TLSConfig.Enabled c); [|naive_solver].
  rewrite unit_ok, !fail_if_ok, !andb_false_iff, !negb_false_iff, !eqb_false, !String.eqb_eq.
  destruct (decide (TLSConfig.CertFile c = "")), (HasPrefix url "https://") eqn:E;
    naive_solver.
Qed.

Lemma validate_auth_ok c : validate_auth c = Ok tt <-> auth_ok c.
Proof.
  unfold validate_auth, auth_ok.
  generalize (AuthConfig.Type_ c) as ty. intros ty.
  repeat case_bool_decide; subst;
    rewrite ?fail_if_ok, ?orb_false_iff, ?eqb_false; naive_solver.
Qed.

Lemma validate_encryption_ok c : validate_encryption c = Ok tt <-> encryption_ok c.
Proof.
  unfold validate_encryption, encryption_ok.
  destruct (EncryptionConfig.Enabled c); [|naive_solver].
  rewrite fail_if_ok, andb_false_iff, !eqb_false. naive_solver.
Qed.

Lemma validate_ok h c : validate h c = Ok tt <-> valid_config h c.
Proof.
  unfold validate, valid_config. rewrite !unit_ok, fail_if_ok, eqb_false.
  by rewrite validate_source_ok, validate_tls_ok, validate_auth_ok, validate_encryption_ok.
Qed.

Lemma or_default_nonempty v d : d <> "" -> or_default v d <> "".
Proof. unfold or_default. destruct (String.eqb_spec v ""); naive_solver. Qed.

Lemma or_default_idem v d : or_default (or_default v d) d = or_default v d.
Proof.
  unfold or_default. destruct (String.eqb v "") eqn:E; rewrite ?E; [|done].
  by destruct (String.eqb d "").
Qed.

Lemma or_default_id v d : v <> "" -> or_default v d = v.
Proof. unfold or_default. by destruct (String.eqb_spec v ""). Qed.

(** A path that starts with a slash stays absolute when cleaned. *)
Lemma Clean_rooted s : HasPrefix (Clean ("/" +:+ s)) "/" = true.
Proof.
  unfold Clean. rewrite HasPrefix_app. apply HasPrefix_app.
Qed.

Lemma rooted_not_marker s : HasPrefix s "/" = true -> HasPrefix s OS_DEFAULT = false.
Proof. intros H. by destruct (HasPrefix_inv _ _ H) as [t ->]. Qed.

Lemma rooted_nonempty s : HasPrefix s "/" = true -> s <> "".
Proof. by intros H ->. Qed.

Lemma Join2_rooted a b : HasPrefix (filepath_Join ["/" +:+ a; b]) "/" = true.
Proof. apply (Clean_rooted (a +:+ "/" +:+ b)). Qed.

(** On a Unix target the log path of a file source is what the user wrote, or an
    absolute path. *)
Lemma default_log_path_unix h path :
  unix_paths h -> GOOS h <> "windows" ->
  let p := default_log_path h FileLogSource path in
  HasPrefix p "/" = true \/ (p = path /\ path <> "" /\ HasPrefix path OS_DEFAULT = false).
Proof.
  intros [EJ ED] Hos. unfold default_log_path, getDefaultLogPath.
  rewrite (bool_decide_eq_false_2 _ Hos), EJ, ED. simpl.
  destruct (String.eqb_spec path ""); [by case_bool_decide; left|].
  destruct (HasPrefix path OS_DEFAULT); [|by right].
  left. case_bool_decide; apply (Join2_rooted "var/log").
Qed.

Lemma default_log_path_idem h ty path :
  unix_paths h -> GOOS h <> "windows" ->
  default_log_path h ty (default_log_path h ty path) = default_log_path h ty path.
Proof.
  intros Hu Hos. destruct (decide (ty = FileLogSource)) as [->|Hty].
  - assert (forall p, p <> "" -> HasPrefix p OS_DEFAULT = false ->
      default_log_path h FileLogSource p = p) as Hid.
    { intros p Hp Hm. unfold default_log_path. simpl.
      by destruct (String.eqb_spec p ""), (HasPrefix p OS_DEFAULT). }
    destruct (default_log_path_unix h path Hu Hos) as [H|(-> & Hne & Hm)].
    + apply Hid; [by apply rooted_nonempty|by apply rooted_not_marker].
    + by apply Hid.
  - unfold default_log_path. by rewrite bool_decide_eq_false_2.
Qed.

Lemma default_telemetry_idem c : default_telemetry (default_telemetry c) = default_telemetry c.
Proof.
  unfold default_telemetry. destruct (TelemetryConfig.Enabled c); [|done]. simpl.
  rewrite !or_default_idem. f_equal; [|by destruct (TelemetryConfig.Attributes c)].
  by destruct (float_is_zero (TelemetryConfig.SamplingRate c)) eqn:E; rewrite ?E.
Qed.

Lemma default_security_idem c : default_security (default_security c) = default_security c.
Proof.
  unfold default_security; simpl. f_equal.
  - destruct (SecurityConfig.TLS c) as [[] ? ? ? ? ? ? v ? ?]; unfold default_tls; simpl; [|done].
    destruct (String.eqb v "") eqn:E; simpl; by rewrite ?E.
  - destruct (SecurityConfig.Auth c) as [ty]; unfold default_auth; simpl.
    destruct (String.eqb ty "") eqn:E; simpl; by rewrite ?E.
  - destruct (SecurityConfig.Encryption c) as [[] ty ? ? ? ? d];
      unfold default_encryption; simpl; [|done].
    destruct (String.eqb ty "") eqn:E, (d =? 0)%Z eqn:E2; simpl; rewrite ?E2; simpl;
      by rewrite ?E, ?E2; simpl; rewrite ?E2.
Qed.

(** What the defaulting guarantees whatever the file said. *)
Definition defaulted (c : Config.t) : Prop :=
  let tel := Config.Telemetry c in
  let sec := Config.Security c in
  Config.BatchSize c <> 0%Z /\ Config.FlushInterval c <> 0%Z /\
  Config.LogSourceType c <> "" /\
  (Config.LogSourceType c = WindowsEventLogSource ->
     Config.WindowsEventLogName c <> "" /\ Config.WindowsEventLogLevel c <> "") /\
  TelemetryConfig.ServiceName tel <> "" /\ TelemetryConfig.ServiceVersion tel <> "" /\
  TelemetryConfig.ExporterType tel <> "" /\ TelemetryConfig.ExporterEndpoint tel <> "" /\
  float_is_zero (TelemetryConfig.SamplingRate tel) = false /\
  TelemetryConfig.Attributes tel <> None /\
  TLSConfig.MinVersion (SecurityConfig.TLS sec) <> "" /\
  (TLSConfig.Enabled (SecurityConfig.TLS sec) = false ->
     SecurityConfig.TLS sec = SecurityConfig.TLS DefaultSecurityConfig) /\
  AuthConfig.Type_ (SecurityConfig.Auth sec) <> "" /\
  EncryptionConfig.Type_ (SecurityConfig.Encryption sec) <> "" /\
  EncryptionConfig.RotationDays (SecurityConfig.Encryption sec) <> 0%Z /\
  (EncryptionConfig.Enabled (SecurityConfig.Encryption sec) = false ->
     SecurityConfig.Encryption sec = SecurityConfig.Encryption DefaultSecurityConfig).

Lemma default_source_nonempty h : getDefaultLogSourceType h <> "".
Proof. unfold getDefaultLogSourceType. by repeat case_bool_decide. Qed.

Lemma default_telemetry_defaulted c :
  let tel := default_telemetry c in
  TelemetryConfig.ServiceName tel <> "" /\ TelemetryConfig.ServiceVersion tel <> "" /\
  TelemetryConfig.ExporterType tel <> "" /\ TelemetryConfig.ExporterEndpoint tel <> "" /\
  float_is_zero (TelemetryConfig.SamplingRate tel) = false /\
  TelemetryConfig.Attributes tel <> None.
Proof.
  unfold default_telemetry. destruct (TelemetryConfig.Enabled c); simpl; [|done].
  split_and!; try (by apply or_default_nonempty).
  - by destruct (float_is_zero (TelemetryConfig.SamplingRate c)) eqn:E.
  - by destruct (TelemetryConfig.Attributes c).
Qed.

Lemma set_defaults_defaulted h c : defaulted (set_defaults h c).
Proof.
  unfold defaulted. simpl.
  destruct (default_telemetry_defaulted (Config.Telemetry c)) as (?&?&?&?&?&?).
  split_and!; try done.
  - by destruct (Config.BatchSize c =? 0)%Z eqn:E; go_bool.
  - by destruct (Config.FlushInterval c =? 0)%Z eqn:E; go_bool.
  - apply or_default_nonempty, default_source_nonempty.
  - intros ->; simpl. split; by apply or_default_nonempty.
  - destruct (SecurityConfig.TLS _) as [[] ? ? ? ? ? ? v ? ?]; unfold default_tls; simpl; [|done].
    by destruct (String.eqb_spec v "").
  - destruct (SecurityConfig.TLS _) as [[] ? ? ? ? ? ? v ? ?]; unfold default_tls; simpl; [|done].
    by destruct (String.eqb v "").
  - destruct (SecurityConfig.Auth _) as [ty]; unfold default_auth; simpl.
    by destruct (String.eqb_spec ty "").
  - destruct (SecurityConfig.Encryption _) as [[] ty ? ? ? ? d];
      unfold default_encryption; simpl; [|done].
    destruct (String.eqb_spec ty ""), (d =? 0)%Z eqn:E2; simpl; rewrite ?E2; done.
  - destruct (SecurityConfig.Encryption _) as [[] ty ? ? ? ? d];
      unfold default_encryption; simpl; [|done].
    destruct (String.eqb ty ""), (Z.eqb_spec d 0) as [->|E2]; simpl; try done;
      rewrite (proj2 (Z.eqb_neq _ _) E2); done.
  - destruct (SecurityConfig.Encryption _) as [[] ty ? ? ? ? d];
      unfold default_encryption; simpl; [|done].
    destruct (String.eqb ty ""), (d =? 0)%Z eqn:E2; simpl; rewrite ?E2; done.
Qed.

Lemma or_default_text v d : text_or d v (or_default v d).
Proof. unfold or_default. destruct (String.eqb_spec v "") as [->|Hv]; constructor; congruence. Qed.

Lemma if_zero_number v d : number_or d v (if (v =? 0)%Z then d else v).
Proof. destruct (Z.eqb_spec v 0) as [->|Hv]; constructor; congruence. Qed.

Lemma default_source_os h : os_source (GOOS h) (getDefaultLogSourceType h).
Proof.
  unfold getDefaultLogSourceType. case_bool_decide as Hw; [rewrite Hw; apply os_windows|].
  case_bool_decide as Hd; [rewrite Hd; apply os_darwin|by apply os_other].
Qed.

Lemma default_path_os h : os_log h (getDefaultLogPath h).
Proof. unfold getDefaultLogPath. repeat case_bool_decide; by constructor. Qed.

Lemma default_log_path_filled h ty path : log_path_filled h ty path (default_log_path h ty path).
Proof.
  unfold default_log_path. case_bool_decide; [|by constructor].
  destruct (String.eqb_spec path "") as [->|Hne]; [constructor; [done|apply default_path_os]|].
  destruct (HasPrefix path OS_DEFAULT) eqn:E; [|by apply path_kept].
  destruct (HasPrefix_inv _ _ E) as [suffix ->]. rewrite TrimPrefix_app.
  apply path_marker; [done|apply default_path_os].
Qed.

Lemma default_telemetry_filled c : telemetry_filled c (default_telemetry c).
Proof.
  unfold default_telemetry. destruct (TelemetryConfig.Enabled c) eqn:E.
  - apply telemetry_on; simpl; try apply or_default_text; try done.
    + destruct (float_is_zero _) eqn:Ez; constructor; congruence.
    + destruct (TelemetryConfig.Attributes c); by constructor.
  - by apply telemetry_off.
Qed.

Lemma default_tls_filled c : tls_filled c (default_tls c).
Proof.
  unfold default_tls. destruct (TLSConfig.Enabled c) eqn:E; [|by apply tls_off].
  apply (tls_on _ _ _ E (or_default_text _ _)). unfold or_default.
  destruct c; simpl. by destruct (String.eqb _ "").
Qed.

Lemma default_auth_filled c : auth_filled c (default_auth c).
Proof.
  exists (or_default (AuthConfig.Type_ c) "none"). split; [apply or_default_text|].
  unfold default_auth, or_default. destruct c; simpl. by destruct (String.eqb _ "").
Qed.

Lemma default_encryption_filled c : encryption_filled c (default_encryption c).
Proof.
  unfold default_encryption. destruct (EncryptionConfig.Enabled c) eqn:E; [|by apply encryption_off].
  apply (encryption_on _ _ _ _ E (or_default_text _ _) (if_zero_number _ _)). unfold or_default.
  destruct c as [? ty ? ? ? ? days]; simpl.
  by destruct (String.eqb ty ""), (days =? 0)%Z eqn:Ed; simpl; rewrite Ed.
Qed.

Lemma set_defaults_filled h c : filled h c (set_defaults h c).
Proof.
  split; simpl.
  - apply if_zero_number.
  - apply if_zero_number.
  - eexists. split; [apply default_source_os|apply or_default_text].
  - apply default_log_path_filled.
  - unfold WindowsEventLogSource. case_bool_decide; [split; apply or_default_text|done].
  - apply default_telemetry_filled.
  - apply default_tls_filled.
  - apply default_auth_filled.
  - apply default_encryption_filled.
  - done.
Qed.

Lemma LoadConfig_inv unmarshal h path c :
  LoadConfig unmarshal h path = Ok c ->
  exists raw, c = set_defaults h raw /\ valid_config h c.
Proof.
  unfold LoadConfig. intros H. go_inv. exists a0. split; [done|].
  by apply validate_ok; destruct a1.
Qed.

Module ConfigProperties.

(** C21. [LoadConfig] is its specification: it returns a configuration exactly
    when the file can be read and decoded and the configuration obtained by
    filling in the defaults is valid, and then it returns that configuration.
    The chain of early returns is thus equivalent to the declarative
    [valid_config], in both directions. *)
Theorem LoadConfig_spec unmarshal h path c :
  LoadConfig unmarshal h path = Ok c <->
  exists data raw, ReadFile h path = Ok data /\ unmarshal data = Ok raw /\
    c = set_defaults h raw /\ valid_config h (set_defaults h raw).
Proof.
  unfold LoadConfig. rewrite bind_ok. setoid_rewrite wrap_err_ok.
  setoid_rewrite bind_ok. setoid_rewrite wrap_err_ok.
  setoid_rewrite unit_ok. setoid_rewrite validate_ok.
  split; naive_solver eauto 10.
Qed.

(** C22. A loaded configuration is the decoded file with exactly the documented
    defaults filled in, and nothing else changed.  A batch size or a flush
    interval left at zero is 10 or five seconds; a missing source type is the
    operating system's; a file source without a path reads the operating
    system's log, and one whose path starts with the marker [${OS_DEFAULT}] a
    file beside it; a Windows source without a log name or a level reads
    [Application] at [Information].  A telemetry, TLS or encryption section that
    is not enabled is the built-in one whatever else the file says in it (so
    certificate verification is on), an enabled one keeps what the file gives and
    has the documented value where it gives nothing, and every other setting,
    with the credentials, is the file's. *)
Theorem LoadConfig_complete unmarshal h path c :
  LoadConfig unmarshal h path = Ok c ->
  exists data raw, ReadFile h path = Ok data /\ unmarshal data = Ok raw /\ filled h raw c.
Proof.
  unfold LoadConfig. intros H. go_inv. eexists _, _.
  split_and!; [done..|apply set_defaults_filled].
Qed.

(** Filling in the defaults is idempotent on a Unix target: a configuration
    that was loaded, written back and loaded again is unchanged, also when its
    log path used the [${OS_DEFAULT}] marker. *)
Theorem set_defaults_idem h c :
  unix_paths h -> GOOS h <> "windows" ->
  set_defaults h (set_defaults h c) = set_defaults h c.
Proof.
  intros Hu Hos. unfold set_defaults at 1 3; simpl.
  rewrite default_telemetry_idem, default_security_idem, or_default_idem.
  rewrite default_log_path_idem by done. f_equal.
  - by destruct (Config.BatchSize c =? 0)%Z eqn:E; rewrite ?E.
  - by destruct (Config.FlushInterval c =? 0)%Z eqn:E; rewrite ?E.
  - case_bool_decide; [apply or_default_idem|done].
  - case_bool_decide; [apply or_default_idem|done].
Qed.

Definition raw_example : Config.t := {|
  Config.LogPath := "${OS_DEFAULT}/app.log";
  Config.ServerURL := "http://logs:8080/logs";
  Config.BatchSize := 0;
  Config.FlushInterval := 0;
  Config.LogSourceType := "";
  Config.Namespace := ""; Config.PodName := ""; Config.ContainerName := "";
  Config.PodSelector := ∅; Config.NamespaceSelector := ∅;
  Config.WindowsEventLogName := ""; Config.WindowsEventLogLevel := "";
  Config.MacOSLogQuery := "";
  Config.Telemetry := TelemetryConfig.mk false "" "" "" "" float_zero false None;
  Config.Security := SecurityConfig.mk
    (TLSConfig.mk false "" "" "" true "" false "" "" "")
    (AuthConfig.mk "" "" "" "" "" "" "" [] ∅)
    (EncryptionConfig.mk false "" "" "" "" "" 0) |}.

Definition example_host : host :=
  unix_host "linux" ∅ {[ "config.yaml" := go_bytes "server_url: ..." ]}.

Lemma LoadConfig_complete_witness :
  LoadConfig (fun _ => Ok raw_example) example_host "config.yaml" =
    Ok (set_defaults example_host raw_example) /\
  Config.LogPath (set_defaults example_host raw_example) = "/var/log/app.log" /\
  exists data raw, ReadFile example_host "config.yaml" = Ok data /\ Ok raw_example = Ok raw /\
    filled example_host raw (set_defaults example_host raw_example).
Proof.
  assert (LoadConfig (fun _ => Ok raw_example) example_host "config.yaml" =
    Ok (set_defaults example_host raw_example)) as E by reflexivity.
  split_and!; [exact E | reflexivity |].
  apply (LoadConfig_complete _ _ _ _ E).
Defined.

Lemma set_defaults_idem_witness :
  set_defaults example_host (set_defaults example_host raw_example) =
  set_defaults example_host raw_example.
Proof. apply (set_defaults_idem example_host raw_example); [split; reflexivity|discriminate]. Defined.

End ConfigProperties.
