(* ===== verification/Tls.v ===== *)
(** * TLS settings

    Models [src/pkg/security/tls.go].  Certificate parsing ([crypto/x509],
    [crypto/tls]) is the record [pki] of what those packages answer; Unicode's
    case table, which [strings.ToLower] consults beyond ASCII, is [table]. *)
From S2P Require Import Prelude Utf8 GoStrings Host Config.

(** [CertPool.AppendCertsFromPEM] (did it add a certificate) and
    [tls.LoadX509KeyPair]. *)
Record pki := mkPki {
  certificate : Type;
  AppendCertsFromPEM : bytes -> bool;
  LoadX509KeyPair : string -> string -> result certificate;
}.

Definition VersionTLS10 : Z := 0x0301.
Definition VersionTLS11 : Z := 0x0302.
Definition VersionTLS12 : Z := 0x0303.
Definition VersionTLS13 : Z := 0x0304.

(** The map [TLSVersion]. *)
Definition TLSVersion (k : string) : option Z :=
  if bool_decide (k = "tls10") then Some VersionTLS10
  else if bool_decide (k = "tls11") then Some VersionTLS11
  else if bool_decide (k = "tls12") then Some VersionTLS12
  else if bool_decide (k = "tls13") then Some VersionTLS13
  else None.

(** The fields of [tls.Config] that [CreateTLSConfig] sets; [RootCAs] is the PEM
    text whose certificates make up the pool, [None] for the system's roots. *)
Record tls_Config (P : pki) := mk_tls_Config {
  InsecureSkipVerify : bool;
  ServerName : string;
  MinVersion : Z;
  MaxVersion : Z;
  RootCAs : option bytes;
  Certificates : list (certificate P);
}.
Arguments mk_tls_Config {P}.
Arguments InsecureSkipVerify {P}.
Arguments ServerName {P}.
Arguments MinVersion {P}.
Arguments MaxVersion {P}.
Arguments RootCAs {P}.
Arguments Certificates {P}.

Section tls.
Context (P : pki) (table : N -> N) (h : host).

(** One of the two version settings: absent (0), a known name, or an error. *)
Definition parse_version (name err_fmt : string) : result Z :=
  if String.eqb name "" then Ok 0%Z
  else match TLSVersion (ToLower table name) with
       | Some v => Ok v
       | None => Err (ErrorfArg err_fmt name)
       end.

(** [CreateTLSConfig]; [None] is the nil configuration. *)
Definition CreateTLSConfig (c : TLSConfig.t) : result (option (tls_Config P)) :=
  if TLSConfig.Enabled c then
    minv ← parse_version (TLSConfig.MinVersion c) "unsupported minimum TLS version: %s";
    maxv ← parse_version (TLSConfig.MaxVersion c) "unsupported maximum TLS version: %s";
    roots ← (if String.eqb (TLSConfig.CAFile c) "" then Ok None
             else
               caCert ← wrap_err "error reading CA file: %v" (ReadFile h (TLSConfig.CAFile c));
               if AppendCertsFromPEM P caCert then Ok (Some caCert)
               else Err (Errorf "error adding CA certificate to pool"));
    certs ← (if negb (String.eqb (TLSConfig.CertFile c) "")
                && negb (String.eqb (TLSConfig.KeyFile c) "") then
               cert ← wrap_err "error loading client certificate and key: %v"
                        (LoadX509KeyPair P (TLSConfig.CertFile c) (TLSConfig.KeyFile c));
               Ok [cert]
             else Ok []);
    Ok (Some {| InsecureSkipVerify := TLSConfig.InsecureSkipVerify c;
                ServerName := TLSConfig.ServerName c;
                MinVersion := minv;
                MaxVersion := maxv;
                RootCAs := roots;
                Certificates := certs |})
  else Ok None.

(** [strconv.ParseBool] *)
Definition ParseBool (s : string) : result bool :=
  if bool_decide (s ∈@{list string} ["1"; "t"; "T"; "true"; "TRUE"; "True"]) then Ok true
  else if bool_decide (s ∈@{list string} ["0"; "f"; "F"; "false"; "FALSE"; "False"]) then Ok false
  else Err (ErrorfArg "strconv.ParseBool: parsing %q: invalid syntax" s).

(** [CreateTLSConfigFromEnv] *)
Definition CreateTLSConfigFromEnv : result (option (tls_Config P)) :=
  let tlsEnabledStr := Getenv h "TAILPOST_TLS_ENABLED" in
  tlsEnabled ← (if String.eqb tlsEnabledStr "" then Ok false
                else wrap_err "invalid TAILPOST_TLS_ENABLED value: %v" (ParseBool tlsEnabledStr));
  if (tlsEnabled : bool) then
    CreateTLSConfig {|
      TLSConfig.Enabled := true;
      TLSConfig.CertFile := Getenv h "TAILPOST_TLS_CERT_FILE";
      TLSConfig.KeyFile := Getenv h "TAILPOST_TLS_KEY_FILE";
      TLSConfig.CAFile := Getenv h "TAILPOST_TLS_CA_FILE";
      TLSConfig.ServerName := Getenv h "TAILPOST_TLS_SERVER_NAME";
      TLSConfig.MinVersion := Getenv h "TAILPOST_TLS_MIN_VERSION";
      TLSConfig.MaxVersion := Getenv h "TAILPOST_TLS_MAX_VERSION";
      TLSConfig.InsecureSkipVerify :=
        String.eqb (Getenv h "TAILPOST_TLS_INSECURE_SKIP_VERIFY") "true";
      TLSConfig.PreferServerCipherSuites := false;
      TLSConfig.CipherSuites := "";
    |}
  else Ok None.

(** ** Lemmas *)

Lemma TLSVersion_range k v : TLSVersion k = Some v -> (VersionTLS10 <= v <= VersionTLS13)%Z.
Proof.
  unfold TLSVersion, VersionTLS10, VersionTLS11, VersionTLS12, VersionTLS13.
  repeat case_bool_decide; intros; simplify_eq; lia.
Qed.

Lemma parse_version_ok name fmt v :
  parse_version name fmt = Ok v <->
  (name = "" /\ v = 0%Z) \/ (name <> "" /\ TLSVersion (ToLower table name) = Some v).
Proof.
  unfold parse_version. destruct (String.eqb_spec name "") as [->|].
  - naive_solver.
  - destruct (TLSVersion _); naive_solver.
Qed.

(** A version that was asked for by name is one of TLS 1.0 to 1.3, never the
    library's default 0. *)
Lemma parse_version_range name fmt v :
  name <> "" -> parse_version name fmt = Ok v -> (VersionTLS10 <= v <= VersionTLS13)%Z.
Proof. intros Hn [[??]|[_ H]]%parse_version_ok; [done|]. by apply TLSVersion_range in H. Qed.

End tls.

Module TlsProperties.

(** The client configuration built from an enabled TLS section of a loaded
    configuration keeps what the section says: a minimum version left out means
    TLS 1.2, a named one is between TLS 1.0 and 1.3 (never the library default),
    certificate verification is skipped only if the section says so, a CA file
    replaces the system roots by a file that parsed, and a client certificate is
    presented exactly when both its files are named. *)
Theorem CreateTLSConfig_keeps P table h raw cfg :
  TLSConfig.Enabled raw = true ->
  CreateTLSConfig P table h (default_tls raw) = Ok (Some cfg) ->
  (TLSConfig.MinVersion raw = "" -> MinVersion cfg = VersionTLS12) /\
  (VersionTLS10 <= MinVersion cfg <= VersionTLS13)%Z /\
  (MaxVersion cfg = 0 \/ VersionTLS10 <= MaxVersion cfg <= VersionTLS13)%Z /\
  InsecureSkipVerify cfg = TLSConfig.InsecureSkipVerify raw /\
  ServerName cfg = TLSConfig.ServerName raw /\
  (if String.eqb (TLSConfig.CAFile raw) "" then RootCAs cfg = None
   else exists pem, ReadFile h (TLSConfig.CAFile raw) = Ok pem /\
          AppendCertsFromPEM P pem = true /\ RootCAs cfg = Some pem) /\
  (Certificates cfg = [] <-> TLSConfig.CertFile raw = "" \/ TLSConfig.KeyFile raw = "").
Proof.
  intros Hen H.
  assert (TLSConfig.MinVersion (default_tls raw) <> "" /\
    (TLSConfig.MinVersion raw = "" -> TLSConfig.MinVersion (default_tls raw) = "tls12") /\
    exists v, default_tls raw = TLSConfig.with_MinVersion v raw) as (Hmin & Hdef & v & Ev).
  { unfold default_tls. rewrite Hen. destruct (String.eqb_spec (TLSConfig.MinVersion raw) "").
    - split_and!; [done|done|by eexists].
    - split_and!; [done|done|]. exists (TLSConfig.MinVersion raw). by destruct raw. }
  rewrite Ev in *. unfold CreateTLSConfig in H. simpl in *. rewrite Hen in H.
  destruct (parse_version table v _) as [minv| |] eqn:E1; simpl in H; try done.
  destruct (parse_version table (TLSConfig.MaxVersion raw) _) as [maxv| |] eqn:E2;
    simpl in H; try done.
  pose proof (parse_version_range _ _ _ _ Hmin E1) as Hr.
  apply parse_version_ok in E1 as [[??]|[_ E1]]; [done|].
  assert (maxv = 0 \/ VersionTLS10 <= maxv <= VersionTLS13)%Z as Hmax.
  { apply parse_version_ok in E2 as [[_ ->]|[_ E2]]; [by left|right].
    by apply TLSVersion_range in E2. }
  assert (TLSConfig.MinVersion raw = "" -> minv = VersionTLS12) as H12.
  { intros Hraw. rewrite (Hdef Hraw) in E1. by injection E1 as <-. }
  clear E1 E2 Hdef Hmin.
  destruct (String.eqb (TLSConfig.CAFile raw) "");
    [|destruct (ReadFile h (TLSConfig.CAFile raw)) as [pem| |]; simpl in H; try done;
      destruct (AppendCertsFromPEM P pem) eqn:EC; simpl in H; try done];
    (destruct (String.eqb_spec (TLSConfig.CertFile raw) ""),
       (String.eqb_spec (TLSConfig.KeyFile raw) ""); simpl in H;
     [..|destruct (LoadX509KeyPair P _ _); simpl in H; try done]);
    injection H as <-; simpl; split_and!; naive_solver.
Qed.

Definition toy_pki : pki := mkPki string (fun b => negb (bool_decide (b = []))) (fun c k => Ok (c +:+ k)).

Definition example_tls : TLSConfig.t :=
  TLSConfig.mk true "c.pem" "k.pem" "ca.pem" false "logs" false "" "" "".

Lemma CreateTLSConfig_keeps_witness :
  exists cfg, CreateTLSConfig toy_pki id (unix_host "linux" ∅ {[ "ca.pem" := go_bytes "PEM" ]})
    (default_tls example_tls) = Ok (Some cfg) /\ MinVersion cfg = VersionTLS12.
Proof.
  eexists. split; [reflexivity|].
  eapply (CreateTLSConfig_keeps toy_pki id
    (unix_host "linux" ∅ {[ "ca.pem" := go_bytes "PEM" ]}) example_tls); reflexivity.
Defined.

End TlsProperties.
