(* ===== verification/GoCodec.v ===== *)
(** * [encoding/hex] and [encoding/base64]

    [hex.DecodeString] decodes encryption keys given in environment variables;
    [base64.StdEncoding] carries basic-authentication credentials. *)
From S2P Require Import Prelude.
Local Open Scope N_scope.

(** ** Hexadecimal *)

(** [reverseHexTable] *)
Definition hex_val (c : ascii) : option N :=
  let n := N_of_ascii c in
  if (48 <=? n) && (n <=? 57) then Some (n - 48)
  else if (97 <=? n) && (n <=? 102) then Some (n - 87)
  else if (65 <=? n) && (n <=? 70) then Some (n - 55)
  else None.

Definition hex_invalid (c : ascii) : error :=
  ErrorfArg "encoding/hex: invalid byte: %#U" (go_string [c]).
Definition hex_odd : error := Errorf "encoding/hex: odd length hex string".

(** [hex.Decode]: two digits per byte; an invalid digit is reported before an
    odd length. *)
Fixpoint hex_Decode (src : bytes) : result bytes :=
  match src with
  | [] => Ok []
  | [p] => match hex_val p with None => Err (hex_invalid p) | Some _ => Err hex_odd end
  | p :: q :: src' =>
      match hex_val p, hex_val q with
      | None, _ => Err (hex_invalid p)
      | Some _, None => Err (hex_invalid q)
      | Some a, Some b => rest ← hex_Decode src'; Ok (ascii_of_N (16 * a + b) :: rest)
      end
  end.
Definition hex_DecodeString (s : string) : result bytes := hex_Decode (go_bytes s).

(** ** Base64 *)

Definition b64_alphabet : bytes :=
  go_bytes "ABCDEFGHIJKLMNOPQRSTUVWXYZabcdefghijklmnopqrstuvwxyz0123456789+/".
Definition b64_pad : ascii := "=".

Definition b64_char (n : N) : ascii := nth (N.to_nat n) b64_alphabet b64_pad.

(** [decodeMap] *)
Definition b64_val (c : ascii) : option N :=
  let n := N_of_ascii c in
  if (65 <=? n) && (n <=? 90) then Some (n - 65)
  else if (97 <=? n) && (n <=? 122) then Some (n - 71)
  else if (48 <=? n) && (n <=? 57) then Some (n + 4)
  else if n =? 43 then Some 62
  else if n =? 47 then Some 63
  else None.

(** The four digits of a 24-bit group. *)
Definition b64_digits (val : N) : list N :=
  [val / 262144; val / 4096 mod 64; val / 64 mod 64; val mod 64].

(** [base64.StdEncoding.Encode] *)
Fixpoint b64_Encode (src : bytes) : bytes :=
  match src with
  | [] => []
  | [a] => map b64_char (take 2 (b64_digits (N_of_ascii a * 65536))) ++ [b64_pad; b64_pad]
  | [a; b] =>
      map b64_char (take 3 (b64_digits (N_of_ascii a * 65536 + N_of_ascii b * 256))) ++ [b64_pad]
  | a :: b :: c :: src' =>
      map b64_char (b64_digits (N_of_ascii a * 65536 + N_of_ascii b * 256 + N_of_ascii c))
      ++ b64_Encode src'
  end.
Definition b64_EncodeToString (src : bytes) : string := go_string (b64_Encode src).

(** The three bytes of four digits. *)
Definition b64_bytes (v0 v1 v2 v3 : N) : bytes :=
  let val := v0 * 262144 + v1 * 4096 + v2 * 64 + v3 in
  [ascii_of_N (val / 65536 mod 256); ascii_of_N (val / 256 mod 256); ascii_of_N (val mod 256)].

Definition is_newline (c : ascii) : bool := Ascii.eqb c "010" || Ascii.eqb c "013".
Fixpoint skip_newlines (src : bytes) : bytes :=
  match src with
  | c :: src' => if is_newline c then skip_newlines src' else src
  | [] => []
  end.

Definition b64_corrupt : error := External "illegal base64 data".

(** [base64.StdEncoding.Decode]: [dbuf] holds the digits of the quantum read so
    far; newlines are skipped everywhere, padding ends the input, and the unused
    bits of a padded quantum are not checked (the encoding is not strict). *)
Fixpoint b64_Decode (dbuf : list N) (src : bytes) : result bytes :=
  match src with
  | [] => match dbuf with [] => Ok [] | _ => Err b64_corrupt end
  | c :: src' =>
      match b64_val c with
      | Some v =>
          match dbuf with
          | [v0; v1; v2] => rest ← b64_Decode [] src'; Ok (b64_bytes v0 v1 v2 v ++ rest)
          | _ => b64_Decode (dbuf ++ [v]) src'
          end
      | None =>
          if is_newline c then b64_Decode dbuf src'
          else if negb (Ascii.eqb c b64_pad) then Err b64_corrupt
          else
            match dbuf with
            | [v0; v1] =>
                match skip_newlines src' with
                | d :: src'' =>
                    if Ascii.eqb d b64_pad && bool_decide (skip_newlines src'' = [])
                    then Ok (take 1 (b64_bytes v0 v1 0 0)) else Err b64_corrupt
                | [] => Err b64_corrupt
                end
            | [v0; v1; v2] =>
                if bool_decide (skip_newlines src' = [])
                then Ok (take 2 (b64_bytes v0 v1 v2 0)) else Err b64_corrupt
            | _ => Err b64_corrupt
            end
      end
  end.
Definition b64_DecodeString (s : string) : result bytes := b64_Decode [] (go_bytes s).

(** ** Lemmas *)

#[local] Ltac Zify.zify_post_hook ::= Z.to_euclidean_division_equations.

Lemma N_of_ascii_lt a : N_of_ascii a < 256.
Proof. apply N_ascii_bounded. Qed.

Lemma b64_val_char_all :
  forallb (fun n => bool_decide (b64_val (b64_char (N.of_nat n)) = Some (N.of_nat n))) (seq 0 64) = true.
Proof. vm_compute. reflexivity. Qed.

Lemma b64_val_char n : n < 64 -> b64_val (b64_char n) = Some n.
Proof.
  intros Hn. pose proof b64_val_char_all as H.
  rewrite forallb_forall in H. specialize (H (N.to_nat n)).
  rewrite bool_decide_eq_true, N2Nat.id in H. apply H, in_seq. lia.
Qed.

Lemma ascii_of_N_mod n a : n mod 256 = N_of_ascii a -> ascii_of_N (n mod 256) = a.
Proof. intros ->. apply ascii_N_embedding. Qed.

(** The digits of a group of three bytes are below 64 and give the bytes back. *)
Lemma b64_digits_bytes a b c :
  let val := N_of_ascii a * 65536 + N_of_ascii b * 256 + N_of_ascii c in
  val / 262144 < 64 /\ val / 4096 mod 64 < 64 /\ val / 64 mod 64 < 64 /\ val mod 64 < 64 /\
  b64_bytes (val / 262144) (val / 4096 mod 64) (val / 64 mod 64) (val mod 64) = [a; b; c].
Proof.
  pose proof (N_of_ascii_lt a). pose proof (N_of_ascii_lt b). pose proof (N_of_ascii_lt c).
  unfold b64_bytes. cbv zeta. split_and!; try lia.
  set (val := N_of_ascii a * 65536 + N_of_ascii b * 256 + N_of_ascii c).
  assert (val / 262144 * 262144 + val / 4096 mod 64 * 4096 + val / 64 mod 64 * 64 + val mod 64 = val)
    as -> by lia.
  f_equal; [|f_equal; [|f_equal]]; apply ascii_of_N_mod; lia.
Qed.

Lemma b64_Decode_digit dbuf n src :
  n < 64 -> length dbuf <> 3%nat ->
  b64_Decode dbuf (b64_char n :: src) = b64_Decode (dbuf ++ [n]) src.
Proof.
  intros Hn Hd. simpl. rewrite b64_val_char by done.
  by destruct dbuf as [|? [|? [|? [|? ?]]]].
Qed.

Lemma b64_Decode_last v0 v1 v2 n src :
  n < 64 -> b64_Decode [v0; v1; v2] (b64_char n :: src) =
  (rest ← b64_Decode [] src; Ok (b64_bytes v0 v1 v2 n ++ rest)).
Proof. intros Hn. simpl. by rewrite b64_val_char. Qed.

Lemma b64_Decode_Encode src : b64_Decode [] (b64_Encode src) = Ok src.
Proof.
  induction src as [src IH] using (induction_ltof1 _ (@length ascii)).
  unfold ltof in IH. destruct src as [|a [|b [|c src]]]; [done|..].
  - pose proof (b64_digits_bytes a zero zero) as (H0 & H1 & _ & _ & E).
    cbv zeta in *. simpl (N_of_ascii zero) in *. rewrite N.mul_0_l, !N.add_0_r in *.
    cbn [b64_Encode b64_digits take map app].
    rewrite !b64_Decode_digit by (done || simpl; lia). simpl.
    set (val := N_of_ascii a * 65536) in *.
    replace (val / 64 mod 64) with 0 in E by (unfold val; lia).
    replace (val mod 64) with 0 in E by (unfold val; lia).
    unfold b64_bytes in E. by injection E as ->.
  - pose proof (b64_digits_bytes a b zero) as (H0 & H1 & H2 & _ & E).
    cbv zeta in *. simpl (N_of_ascii zero) in *. rewrite !N.add_0_r in *.
    cbn [b64_Encode b64_digits take map app].
    rewrite !b64_Decode_digit by (done || simpl; lia). simpl.
    set (val := N_of_ascii a * 65536 + N_of_ascii b * 256) in *.
    replace (val mod 64) with 0 in E by (unfold val; lia).
    unfold b64_bytes in E. by injection E as -> ->.
  - pose proof (b64_digits_bytes a b c) as (H0 & H1 & H2 & H3 & E). cbv zeta in *.
    cbn [b64_Encode b64_digits map app].
    rewrite !b64_Decode_digit by (done || simpl; lia).
    cbn [app]. rewrite b64_Decode_last by done.
    rewrite IH by (simpl; lia). cbn [mbind result_bind]. by rewrite E.
Qed.

(** Decoding inverts encoding. *)
Lemma b64_roundtrip src : b64_DecodeString (b64_EncodeToString src) = Ok src.
Proof.
  unfold b64_DecodeString, b64_EncodeToString. rewrite go_bytes_string.
  apply b64_Decode_Encode.
Qed.

(** A decoded hexadecimal key is half as long as its text. *)
Lemma hex_Decode_length src b : hex_Decode src = Ok b -> length src = (2 * length b)%nat.
Proof.
  revert b. induction src as [src IH] using (induction_ltof1 _ (@length ascii)).
  unfold ltof in IH. intros b. destruct src as [|p [|q src]]; simpl.
  - by intros [= <-].
  - by destruct (hex_val p).
  - destruct (hex_val p), (hex_val q); try done. simpl in IH.
    destruct (hex_Decode src) as [rest| |] eqn:E; simpl; try done.
    intros [= <-]. apply IH in E; simpl; lia.
Qed.

#[export] Hint Rewrite b64_roundtrip : go.

Example b64_ex : b64_EncodeToString (go_bytes "user:pass") = "dXNlcjpwYXNz".
Proof. reflexivity. Qed.
Example hex_ex : hex_DecodeString "4a4B" = Ok (go_bytes "JK").
Proof. reflexivity. Qed.
