(* ===== verification/MapRange.v ===== *)
(** * Iterating over a Go map

    [for k, v := range m] visits every entry once, in an order the language
    leaves open.  A definition that ranges over a map takes the order as an
    argument of type [map_order]; a theorem about the code quantifies over it. *)
From S2P Require Import Prelude.

Record map_order (V : Type) := mkMapOrder {
  range : gmap string V -> list (string * V);
  range_perm : forall m, range m ≡ₚ map_to_list m;
}.
Arguments mkMapOrder {V}.
Arguments range {V}.
Arguments range_perm {V}.

Definition canonical_order {V} : map_order V :=
  {| range := map_to_list; range_perm := fun m => Permutation_refl _ |}.

Definition reverse_order {V} : map_order V :=
  {| range := fun m => rev (map_to_list m);
     range_perm := fun m => Permutation_sym (Permutation_rev _) |}.

Lemma elem_of_range {V} (o : map_order V) m k v : (k, v) ∈ range o m <-> m !! k = Some v.
Proof. rewrite (range_perm o m). apply elem_of_map_to_list. Qed.

Lemma range_NoDup {V} (o : map_order V) m : NoDup (range o m).*1.
Proof. rewrite (range_perm o m). apply NoDup_fst_map_to_list. Qed.

Lemma range_empty {V} (o : map_order V) : range o ∅ = [].
Proof. apply Permutation_nil_r. by rewrite (range_perm o ∅), map_to_list_empty. Qed.

(** Any two iterations visit the same entries. *)
Lemma range_orders {V} (o1 o2 : map_order V) m : range o1 m ≡ₚ range o2 m.
Proof. by rewrite (range_perm o1 m), (range_perm o2 m). Qed.
