(* ===== verification/Telemetry.v ===== *)
(** * Telemetry

    Models [src/pkg/telemetry/telemetry.go] ([Config], [DefaultConfig], [Setup],
    the clean-up function it returns, [Tracer]) and
    [src/pkg/observability/telemetry.go] ([TelemetryConfig], [SetDefaults],
    [TelemetryManager] and its methods) over the global state of OpenTelemetry.

    The OpenTelemetry SDK is the parameter [otel_sdk]: whether a resource can be
    made, whether an exporter can be started, what shutting a provider down
    answers.  The state [otel] holds what the code leaves behind: the providers
    in the order they were made, which of them were shut down, the global one,
    the propagator, and the ended spans a provider took. *)
From Stdlib Require Import Floats.SpecFloat.
From S2P Require Import Prelude MapRange Host Config.

(** ** What is handed to the SDK *)

Inductive protocol := Grpc | HttpProtobuf.

#[global] Instance protocol_eq_dec : EqDecision protocol.
Proof. solve_decision. Defined.

(** The options of [resource.New]. *)
Record resource := mkResource {
  res_attributes : list (string * string);
  res_detectors : list string;
}.

(** The options of [otlptracegrpc.NewClient] and [otlptracehttp.NewClient]. *)
Record otlp_client := mkOtlpClient {
  oc_protocol : protocol;
  oc_endpoint : string;
  oc_timeout : Z;
  oc_headers : option (gmap string string);
}.

(** The options of [sdktrace.NewTracerProvider]; [pv_batch] is the batch size,
    the batch timeout and the queue size where they are given. *)
Record provider := mkProvider {
  pv_resource : resource;
  pv_client : otlp_client;
  pv_batch : option (Z * Z * Z);
  pv_sampling : float64;
}.

(** The SDK: [None] stands for a nil error. *)
Record otel_sdk := mkSdk {
  resource_New : resource -> option error;
  otlptrace_New : otlp_client -> option error;
  provider_Shutdown : provider -> option error;
}.

(** A [trace.Tracer]: of the no-op provider, of a provider of the SDK, or of the
    default global provider, which does nothing until one is set. *)
Inductive trace_Tracer := NoopTracer | SdkTracer (id : nat) | DefaultTracer.

#[global] Instance trace_Tracer_eq_dec : EqDecision trace_Tracer.
Proof. solve_decision. Defined.

Record otel := mkOtel {
  providers : list provider;
  down : list nat;
  global : option nat;
  propagator : bool;
  recorded : list (nat * string);
}.

Definition otel_init : otel := mkOtel [] [] None false [].

(** [sdktrace.NewTracerProvider] *)
Definition NewTracerProvider (p : provider) (o : otel) : nat * otel :=
  (length (providers o),
   mkOtel (providers o ++ [p]) (down o) (global o) (propagator o) (recorded o)).
Definition SetTracerProvider (i : nat) (o : otel) : otel :=
  mkOtel (providers o) (down o) (Some i) (propagator o) (recorded o).
Definition SetTextMapPropagator (o : otel) : otel :=
  mkOtel (providers o) (down o) (global o) true (recorded o).

(** [otel.Tracer] *)
Definition otel_Tracer (o : otel) : trace_Tracer :=
  match global o with Some i => SdkTracer i | None => DefaultTracer end.

(** [span.End()]: a provider that was shut down takes no span any more. *)
Definition end_span (t : trace_Tracer) (name : string) (o : otel) : otel :=
  match t with
  | SdkTracer i =>
      if bool_decide (i ∈ down o) then o
      else mkOtel (providers o) (down o) (global o) (propagator o) (recorded o ++ [(i, name)])
  | _ => o
  end.

(** ** Package [telemetry] *)

Module TelConfig.
Record t := mk {
  ServiceName : string;
  ServiceVersion : string;
  ExporterType : string;
  ExporterEndpoint : string;
  ExporterTimeout : Z;
  SamplingRate : float64;
  PropagateContexts : bool;
  Attributes : option (gmap string string);
  DisableTelemetry : bool;
}.
End TelConfig.

(** [DefaultConfig] *)
Definition DefaultConfig : TelConfig.t := {|
  TelConfig.ServiceName := "tailpost";
  TelConfig.ServiceVersion := "0.1.0";
  TelConfig.ExporterType := "http";
  TelConfig.ExporterEndpoint := "http://localhost:4318";
  TelConfig.ExporterTimeout := 30 * Second;
  TelConfig.SamplingRate := float_one;
  TelConfig.PropagateContexts := true;
  TelConfig.Attributes := Some ∅;
  TelConfig.DisableTelemetry := false;
|}.

Section sdk.
Context (K : otel_sdk).

(** [traceProvider.Shutdown(ctx)] *)
Definition Provider_Shutdown (i : nat) (o : otel) : otel * option error :=
  (mkOtel (providers o) (i :: down o) (global o) (propagator o) (recorded o),
   p ← providers o !! i; provider_Shutdown K p).

(** [Setup]; it returns the provider its clean-up function shuts down, or
    [None] for the clean-up function that does nothing. *)
Definition Setup (order : map_order string) (cfg : TelConfig.t) (o : otel)
    : otel * result (option nat) :=
  if TelConfig.DisableTelemetry cfg then (o, Ok None)
  else
    let attrs := [("service.name", TelConfig.ServiceName cfg);
                  ("service.version", TelConfig.ServiceVersion cfg)] ++
                 range order (default ∅ (TelConfig.Attributes cfg)) in
    let res := mkResource attrs ["process.runtime.description"; "telemetry.sdk"] in
    match resource_New K res with
    | Some e => (o, Err e)
    | None =>
        let proto := if bool_decide (TelConfig.ExporterType cfg = "grpc") then Grpc
                     else HttpProtobuf in
        let client := mkOtlpClient proto (TelConfig.ExporterEndpoint cfg)
                        (TelConfig.ExporterTimeout cfg) None in
        match otlptrace_New K client with
        | Some e => (o, Err e)
        | None =>
            let '(i, o) := NewTracerProvider
                (mkProvider res client None (TelConfig.SamplingRate cfg)) o in
            let o := SetTracerProvider i o in
            let o := if TelConfig.PropagateContexts cfg then SetTextMapPropagator o else o in
            (o, Ok (Some i))
        end
    end.

(** The function [Setup] returns; its error is only logged. *)
Definition run_cleanup (c : option nat) (o : otel) : otel :=
  match c with Some i => (Provider_Shutdown i o).1 | None => o end.

(** [Tracer] *)
Definition Tracer (o : otel) : trace_Tracer := otel_Tracer o.

End sdk.

(** ** Package [observability] *)

Module ObsConfig.
Record t := mk {
  Enabled : bool;
  ServiceName : string;
  ServiceVersion : string;
  ExporterType : string;
  Endpoint : string;
  Headers : option (gmap string string);
  SamplingRate : float64;
  BatchTimeout : Z;
  MaxExportBatchSize : Z;
  MaxQueueSize : Z;
}.
End ObsConfig.

(** [0.1], rounded to 53 bits. *)
Definition float_tenth : float64 := S754_finite false 7205759403792794 (-56).

Definition or_zero (v d : Z) : Z := if (v =? 0)%Z then d else v.

(** [SetDefaults] *)
Definition SetDefaults (c : ObsConfig.t) : ObsConfig.t := {|
  ObsConfig.Enabled := ObsConfig.Enabled c;
  ObsConfig.ServiceName := or_default (ObsConfig.ServiceName c) "tailpost-agent";
  ObsConfig.ServiceVersion := or_default (ObsConfig.ServiceVersion c) "unknown";
  ObsConfig.ExporterType := or_default (ObsConfig.ExporterType c) "grpc";
  ObsConfig.Endpoint := or_default (ObsConfig.Endpoint c) "localhost:4317";
  ObsConfig.Headers := Some (default ∅ (ObsConfig.Headers c));
  ObsConfig.SamplingRate :=
    if float_is_zero (ObsConfig.SamplingRate c) then float_tenth else ObsConfig.SamplingRate c;
  ObsConfig.BatchTimeout := or_zero (ObsConfig.BatchTimeout c) (5 * Second);
  ObsConfig.MaxExportBatchSize := or_zero (ObsConfig.MaxExportBatchSize c) 512;
  ObsConfig.MaxQueueSize := or_zero (ObsConfig.MaxQueueSize c) 2048;
|}.

Record TelemetryManager := mkManager {
  mgr_config : ObsConfig.t;
  tp : option nat;
  mgr_tracer : option trace_Tracer;
}.

(** [NewTelemetryManager] *)
Definition NewTelemetryManager (c : ObsConfig.t) : TelemetryManager :=
  mkManager (SetDefaults c) None None.

Definition with_tracer (t : trace_Tracer) (m : TelemetryManager) : TelemetryManager :=
  mkManager (mgr_config m) (tp m) (Some t).

Section manager.
Context (K : otel_sdk).

(** The client of the [switch]: [Ok None] for the type [none]. *)
Definition obs_exporter (c : ObsConfig.t) : result (option otlp_client) :=
  let client proto := mkOtlpClient proto (ObsConfig.Endpoint c) (30 * Second) (ObsConfig.Headers c) in
  let ty := ObsConfig.ExporterType c in
  if bool_decide (ty = "grpc") then Ok (Some (client Grpc))
  else if bool_decide (ty = "http") then Ok (Some (client HttpProtobuf))
  else if bool_decide (ty = "none") then Ok None
  else Err (ErrorfArg "unknown exporter type: %s" ty).

(** [TelemetryManager.Start] *)
Definition Manager_Start (m : TelemetryManager) (o : otel)
    : TelemetryManager * otel * result unit :=
  let c := mgr_config m in
  if negb (ObsConfig.Enabled c) then (with_tracer NoopTracer m, o, Ok tt)
  else
    let res := mkResource [("service.name", ObsConfig.ServiceName c);
                           ("service.version", ObsConfig.ServiceVersion c);
                           ("environment", "production")] [] in
    match resource_New K res with
    | Some e => (m, o, Err (Wrapf "failed to create resource: %w" e))
    | None =>
        match obs_exporter c with
        | Ok None => (with_tracer NoopTracer m, o, Ok tt)
        | Err e => (m, o, Err e)
        | Panic p => (m, o, Panic p)
        | Ok (Some client) =>
            match otlptrace_New K client with
            | Some e => (m, o, Err (Wrapf "failed to create exporter: %w" e))
            | None =>
                let batch := (ObsConfig.MaxExportBatchSize c, ObsConfig.BatchTimeout c,
                              ObsConfig.MaxQueueSize c) in
                let '(i, o) := NewTracerProvider
                    (mkProvider res client (Some batch) (ObsConfig.SamplingRate c)) o in
                let o := SetTextMapPropagator (SetTracerProvider i o) in
                (mkManager c (Some i) (Some (SdkTracer i)), o, Ok tt)
            end
        end
    end.

(** [TelemetryManager.Shutdown] *)
Definition Manager_Shutdown (m : TelemetryManager) (o : otel) : otel * option error :=
  match tp m with
  | Some i => Provider_Shutdown K i o
  | None => (o, None)
  end.

(** [TelemetryManager.Tracer] *)
Definition Manager_Tracer (m : TelemetryManager) : option trace_Tracer := mgr_tracer m.

(** [tm.tracer.Start]: a call through a nil interface panics. *)
Definition tracer_Start (t : option trace_Tracer) : result trace_Tracer :=
  match t with
  | Some t => Ok t
  | None => Panic "invalid memory address or nil pointer dereference"
  end.

(** [TelemetryManager.StartSpan] *)
Definition StartSpan (m : TelemetryManager) : result trace_Tracer := tracer_Start (mgr_tracer m).

End manager.

(** ** The current span

    [trace.SpanFromContext] finds the innermost span of a context, or a span
    that ignores everything.  A span is the list of what was done to it. *)
Inductive span_op :=
| OpEvent (name : string) (attrs : list (string * string))
| OpAttributes (attrs : list (string * string))
| OpError (e : error).

Abbreviation spans := (list (list span_op)).

Definition on_span (current : option nat) (op : span_op) (sp : spans) : spans :=
  match current with
  | Some i => alter (fun ops => ops ++ [op]) i sp
  | None => sp
  end.

(** [AddEventToSpan], [SetSpanAttributes], [RecordError] *)
Definition AddEventToSpan (ctx : option nat) (name : string) (attrs : list (string * string)) :=
  on_span ctx (OpEvent name attrs).
Definition SetSpanAttributes (ctx : option nat) (attrs : list (string * string)) :=
  on_span ctx (OpAttributes attrs).
Definition Manager_RecordError (ctx : option nat) (e : error) := on_span ctx (OpError e).

(** ** Lemmas *)

(** The exporter types [TelemetryManager.Start] knows. *)
Definition known_exporter (ty : string) : bool :=
  bool_decide (ty ∈@{list string} [""; "grpc"; "http"; "none"]).

(** What [SetDefaults] leaves unset: nothing. *)
Definition obs_complete (c : ObsConfig.t) : Prop :=
  ObsConfig.ServiceName c <> "" /\ ObsConfig.ServiceVersion c <> "" /\
  ObsConfig.ExporterType c <> "" /\ ObsConfig.Endpoint c <> "" /\
  is_Some (ObsConfig.Headers c) /\ float_is_zero (ObsConfig.SamplingRate c) = false /\
  ObsConfig.BatchTimeout c <> 0%Z /\ ObsConfig.MaxExportBatchSize c <> 0%Z /\
  ObsConfig.MaxQueueSize c <> 0%Z.

Lemma or_zero_spec v d : (d <> 0 -> or_zero v d <> 0 /\ (v <> 0 -> or_zero v d = v))%Z.
Proof. unfold or_zero. destruct (Z.eqb_spec v 0); lia. Qed.

Lemma SetDefaults_complete c : obs_complete (SetDefaults c).
Proof.
  unfold obs_complete, SetDefaults; simpl.
  split_and!; try (by apply or_default_nonempty); try (by apply or_zero_spec); [by eexists|].
  by destruct (float_is_zero (ObsConfig.SamplingRate c)) eqn:E.
Qed.

Lemma SetDefaults_id c : obs_complete c -> SetDefaults c = c.
Proof.
  destruct c as [en n v ty ep hd sr bt mb mq]. unfold obs_complete, SetDefaults; simpl.
  intros (H1 & H2 & H3 & H4 & [m ->] & H6 & H7 & H8 & H9).
  rewrite H6, !or_default_id by done. unfold or_zero.
  by rewrite (proj2 (Z.eqb_neq _ _) H7), (proj2 (Z.eqb_neq _ _) H8), (proj2 (Z.eqb_neq _ _) H9).
Qed.

(** The state after a provider was made and installed. *)
Definition installed (p : provider) (propagate : bool) (o : otel) : otel :=
  mkOtel (providers o ++ [p]) (down o) (Some (length (providers o)))
    (propagate || propagator o) (recorded o).

(** [Setup] either changes nothing or installs one provider, which its clean-up
    function shuts down. *)
Lemma Setup_cases K order cfg o o' r :
  Setup K order cfg o = (o', r) ->
  (o' = o /\ (r = Ok None /\ TelConfig.DisableTelemetry cfg = true \/
              exists e, r = Err e /\ TelConfig.DisableTelemetry cfg = false)) \/
  (TelConfig.DisableTelemetry cfg = false /\ r = Ok (Some (length (providers o))) /\
   exists p, o' = installed p (TelConfig.PropagateContexts cfg) o /\
     otlptrace_New K (pv_client p) = None /\
     oc_endpoint (pv_client p) = TelConfig.ExporterEndpoint cfg /\
     oc_protocol (pv_client p) =
       (if bool_decide (TelConfig.ExporterType cfg = "grpc") then Grpc else HttpProtobuf) /\
     pv_sampling p = TelConfig.SamplingRate cfg).
Proof.
  unfold Setup. destruct (TelConfig.DisableTelemetry cfg); [naive_solver|].
  destruct (resource_New K _); [naive_solver|].
  destruct (otlptrace_New K _) eqn:E; [naive_solver|]. simpl. intros [= <- <-]. right.
  split; [done|]. split; [done|].
  eexists. split; [unfold installed; by destruct (TelConfig.PropagateContexts cfg)|]. done.
Qed.

Lemma Manager_Start_cases K c o m o' r :
  Manager_Start K (NewTelemetryManager c) o = (m, o', r) ->
  mgr_config m = SetDefaults c /\
  ((o' = o /\ tp m = None /\
     (r = Ok tt /\ mgr_tracer m = Some NoopTracer /\
        (ObsConfig.Enabled c = false \/ ObsConfig.ExporterType c = "none") \/
      (exists e, r = Err e) /\ mgr_tracer m = None /\ ObsConfig.Enabled c = true)) \/
   (r = Ok tt /\ ObsConfig.Enabled c = true /\ ObsConfig.ExporterType c ∈@{list string} [""; "grpc"; "http"] /\
    tp m = Some (length (providers o)) /\ mgr_tracer m = Some (SdkTracer (length (providers o))) /\
    exists p, o' = installed p true o /\ otlptrace_New K (pv_client p) = None /\
      pv_sampling p = ObsConfig.SamplingRate (SetDefaults c))).
Proof.
  unfold Manager_Start, NewTelemetryManager; simpl. intros E.
  destruct (ObsConfig.Enabled c) eqn:En; simpl in E; [|simplify_eq/=; naive_solver].
  destruct (resource_New K _); [simplify_eq/=; naive_solver|].
  unfold obs_exporter in E. simpl in E.
  assert (or_default (ObsConfig.ExporterType c) "grpc" = "grpc" ->
          ObsConfig.ExporterType c ∈@{list string} [""; "grpc"; "http"]) as Hg.
  { unfold or_default. destruct (String.eqb_spec (ObsConfig.ExporterType c) "") as [->|_];
      [intros _; left|intros ->; right; left]. }
  assert (forall d, d <> "grpc" -> or_default (ObsConfig.ExporterType c) "grpc" = d ->
          ObsConfig.ExporterType c = d) as Hd.
  { intros d. unfold or_default. destruct (String.eqb _ _); congruence. }
  repeat case_bool_decide; try (destruct (otlptrace_New K _) eqn:?); simplify_eq/=.
  all: split; [done|]; first [left; split_and!; [done|done|]; by eauto 8 | right].
  - split_and!; auto. eexists. split; [by unfold installed|]. done.
  - split_and!; auto; [rewrite (Hd "http"); auto; set_solver|]. eexists. split; [by unfold installed|]. done.
Qed.

(** What [SetDefaults] makes of a configuration, with the values written out. *)
Record obs_filled (raw c : ObsConfig.t) : Prop := {
  obs_enabled : ObsConfig.Enabled c = ObsConfig.Enabled raw;
  obs_name : text_or "tailpost-agent" (ObsConfig.ServiceName raw) (ObsConfig.ServiceName c);
  obs_version : text_or "unknown" (ObsConfig.ServiceVersion raw) (ObsConfig.ServiceVersion c);
  obs_type : text_or "grpc" (ObsConfig.ExporterType raw) (ObsConfig.ExporterType c);
  obs_endpoint : text_or "localhost:4317" (ObsConfig.Endpoint raw) (ObsConfig.Endpoint c);
  obs_headers : kept_or (eq None) (Some ∅) (ObsConfig.Headers raw) (ObsConfig.Headers c);
  obs_sampling : kept_or (fun f => float_is_zero f = true) float_tenth
    (ObsConfig.SamplingRate raw) (ObsConfig.SamplingRate c);
  obs_timeout : number_or 5000000000 (ObsConfig.BatchTimeout raw) (ObsConfig.BatchTimeout c);
  obs_batch : number_or 512 (ObsConfig.MaxExportBatchSize raw) (ObsConfig.MaxExportBatchSize c);
  obs_queue : number_or 2048 (ObsConfig.MaxQueueSize raw) (ObsConfig.MaxQueueSize c);
}.

Lemma SetDefaults_filled c : obs_filled c (SetDefaults c).
Proof.
  split; simpl; try apply or_default_text; try apply if_zero_number; [done|..].
  - destruct (ObsConfig.Headers c); by constructor.
  - destruct (float_is_zero _) eqn:E; constructor; congruence.
Qed.

(** What a complete configuration asks of the SDK: the description of the
    service and, for the two protocols, a client. *)
Definition asked_resource (c : ObsConfig.t) : resource :=
  mkResource [("service.name", ObsConfig.ServiceName c);
              ("service.version", ObsConfig.ServiceVersion c); ("environment", "production")] [].
Inductive asked_client (c : ObsConfig.t) : otlp_client -> Prop :=
  | client_grpc : ObsConfig.ExporterType c = "grpc" ->
      asked_client c (mkOtlpClient Grpc (ObsConfig.Endpoint c) 30000000000 (ObsConfig.Headers c))
  | client_http : ObsConfig.ExporterType c = "http" ->
      asked_client c (mkOtlpClient HttpProtobuf (ObsConfig.Endpoint c) 30000000000 (ObsConfig.Headers c)).

(** Why [Start] can fail: the SDK refuses the resource, the exporter type is
    unknown, or the SDK refuses the exporter. *)
Inductive start_fails (K : otel_sdk) (c : ObsConfig.t) : Prop :=
  | no_resource e : resource_New K (asked_resource c) = Some e -> start_fails K c
  | unknown_type : known_exporter (ObsConfig.ExporterType c) = false -> start_fails K c
  | no_exporter client e : asked_client c client -> otlptrace_New K client = Some e ->
      start_fails K c.

(** The provider of a configuration. *)
Definition asked_provider (c : ObsConfig.t) (p : provider) : Prop :=
  exists client, asked_client c client /\
    p = mkProvider (asked_resource c) client
          (Some (ObsConfig.MaxExportBatchSize c, ObsConfig.BatchTimeout c, ObsConfig.MaxQueueSize c))
          (ObsConfig.SamplingRate c).

(** [Start] on a configuration with a type: an error exactly for one of those
    reasons; a provider exactly when a protocol is asked for and nothing fails. *)
Lemma Manager_Start_exact K c o m o' r :
  ObsConfig.ExporterType c <> "" -> Manager_Start K (mkManager c None None) o = (m, o', r) ->
  ((exists e, r = Err e) <-> ObsConfig.Enabled c = true /\ start_fails K c) /\
  (o' = o \/ exists p, o' = installed p true o /\ asked_provider c p).
Proof.
  intros Hty. unfold Manager_Start. simpl. destruct (ObsConfig.Enabled c); simpl; [|intros [= _ <- <-]; naive_solver].
  fold (asked_resource c). destruct (resource_New K (asked_resource c)) as [e|] eqn:Er.
  { intros [= _ <- <-]. split; [|by left]. split; [|by eauto]. intros _. split; [done|by eapply no_resource]. }
  assert (forall client, asked_client c client ->
    (if bool_decide (is_Some (otlptrace_New K client)) then start_fails K c else ~ start_fails K c)) as Hf.
  { intros client Hc. case_bool_decide as Hn; [destruct Hn as [e He]; by eapply no_exporter|].
    intros [e H|H|client' e Hc' H]; [congruence| |].
    - unfold known_exporter in H. apply bool_decide_eq_false in H. destruct Hc; set_solver.
    - destruct Hc, Hc'; congruence || (apply Hn; by eexists). }
  unfold obs_exporter. intros E.
  repeat case_bool_decide; simpl in E.
  - specialize (Hf _ (client_grpc c H)). change (30 * Second)%Z with 30000000000%Z in E.
    destruct (otlptrace_New K _) as [e|] eqn:En; simpl in E; injection E as _ <- <-; rewrite bool_decide_decide in Hf.
    + split; [|by left]. split; [|by eauto]. intros _. split; [done|]. by eapply no_exporter; [apply client_grpc|].
    + split; [split; [by intros [? ?]|]; by intros [_ Hs] |].
      right. eexists. split; [reflexivity|]. eexists. by split; [apply client_grpc|].
  - specialize (Hf _ (client_http c H0)). change (30 * Second)%Z with 30000000000%Z in E.
    destruct (otlptrace_New K _) as [e|] eqn:En; simpl in E; injection E as _ <- <-; rewrite bool_decide_decide in Hf.
    + split; [|by left]. split; [|by eauto]. intros _. split; [done|]. by eapply no_exporter; [apply client_http|].
    + split; [split; [by intros [? ?]|]; by intros [_ Hs] |].
      right. eexists. split; [reflexivity|]. eexists. by split; [apply client_http|].
  - injection E as _ <- <-. split; [|by left]. split; [by intros [? ?]|].
    intros [_ [e H2|H2|client e Hc H2]]; [congruence| |by destruct Hc; congruence].
    unfold known_exporter in H2. apply bool_decide_eq_false in H2. set_solver.
  - injection E as _ <- <-. split; [|by left]. split; [|by eauto]. intros _. split; [done|].
    apply unknown_type, bool_decide_eq_false. set_solver.
Qed.

(** The tracer of a manager whose configuration is complete: nil exactly when
    [Start] failed. *)
Lemma Manager_Start_tracer K c o m o' r :
  obs_complete c -> Manager_Start K (NewTelemetryManager c) o = (m, o', r) ->
  (ObsConfig.Enabled c = true /\ start_fails K c <-> mgr_tracer m = None) /\ mgr_config m = c.
Proof.
  intros Hc E. pose proof E as E2. unfold NewTelemetryManager in E2.
  rewrite (SetDefaults_id c Hc) in E2. destruct Hc as (Hc1 & Hc2 & Hty & Hc3).
  destruct (Manager_Start_exact K c o m o' r Hty E2) as [<- _].
  apply Manager_Start_cases in E as [-> E].
  split; [|apply SetDefaults_id; done].
  destruct E as [(_ & _ & [(-> & -> & _)|([e ->] & -> & _)])|(-> & _ & _ & _ & -> & _)]; naive_solver.
Qed.

Module TelemetryProperties.

(** C26. The manager after [Start], whatever the SDK answers and the configuration
    holds.  Its configuration is the given one with the documented value in place
    of each unset setting (a [grpc] exporter to [localhost:4317], a tenth of the
    traces, batches of 512 every five seconds from a queue of 2048).  [Start]
    returns an error exactly when telemetry is enabled and the SDK refuses the
    resource, the exporter type is none of [grpc], [http] and [none], or the SDK
    refuses the exporter; the manager has no tracer exactly then, and nothing
    global has changed.  Otherwise [Start] installs at most one provider, built
    from that configuration, and [Shutdown] shuts down exactly that one. *)
Theorem manager_start K c o m o' r :
  Manager_Start K (NewTelemetryManager c) o = (m, o', r) ->
  obs_filled c (mgr_config m) /\
  ((exists e, r = Err e) <-> ObsConfig.Enabled c = true /\ start_fails K (mgr_config m)) /\
  (Manager_Tracer m = None <-> exists e, r = Err e) /\
  ((exists e, r = Err e) -> o' = o) /\
  (down (Manager_Shutdown K m o').1 = down o /\ o' = o \/
   exists p, o' = installed p true o /\ asked_provider (mgr_config m) p /\
     down (Manager_Shutdown K m o').1 = length (providers o) :: down o).
Proof.
  intros E. destruct (SetDefaults_complete c) as (_ & _ & Hty & _).
  destruct (Manager_Start_exact K (SetDefaults c) o m o' r Hty E) as [Herr Hp].
  apply Manager_Start_cases in E as [Hc HC]. rewrite Hc.
  split; [apply SetDefaults_filled|]. split; [exact Herr|]. clear Herr.
  unfold Manager_Tracer, Manager_Shutdown.
  destruct HC as [(-> & Ht & HC)|(-> & _ & _ & Ht & Htr & p & -> & _)]; rewrite Ht.
  - destruct HC as [(-> & -> & _)|([e ->] & -> & _)]; naive_solver.
  - rewrite Htr. split; [naive_solver|]. split; [naive_solver|]. right.
    destruct Hp as [Hp|(q & Hq & Ha)].
    + exfalso. apply (f_equal (length ∘ providers)) in Hp. simpl in Hp. rewrite length_app in Hp. simpl in Hp. lia.
    + rewrite Hq. by exists q.
Qed.

Definition accepting : otel_sdk := mkSdk (fun _ => None) (fun _ => None) (fun _ => None).

(** The telemetry section of [docker/test/config.test.yaml]. *)
Definition console_config : ObsConfig.t :=
  ObsConfig.mk true "tailpost-test" "1.0.0" "console" "http://localhost:4318"
    (Some {[ "environment" := "test" ]}) float_one (5 * Second) 512 2048.

Lemma manager_start_witness :
  (Manager_Start accepting (NewTelemetryManager console_config) otel_init).2 =
    Err (ErrorfArg "unknown exporter type: %s" "console") /\
  Manager_Tracer (Manager_Start accepting (NewTelemetryManager console_config) otel_init).1.1 = None.
Proof.
  split; [reflexivity|].
  apply (manager_start accepting console_config otel_init
    (Manager_Start accepting (NewTelemetryManager console_config) otel_init).1.1
    (Manager_Start accepting (NewTelemetryManager console_config) otel_init).1.2
    (Manager_Start accepting (NewTelemetryManager console_config) otel_init).2); [reflexivity|].
  eexists. reflexivity.
Defined.

End TelemetryProperties.
