(* ===== verification/Auth.v ===== *)
(** * Authentication

    Models [src/pkg/security/auth.go].  The Go interface [AuthProvider] is the
    inductive type of its four implementations; a nil provider is [None].  The
    OAuth2 client ([golang.org/x/oauth2]) is third-party: the record [oauth2]
    holds what its token source answers to a call and how a token is put on a
    request. *)
From S2P Require Import Prelude GoStrings GoCodec Http MapRange Host Config.

Record oauth2 := mkOauth2 {
  token_source : Type;
  oauth_token : Type;
  ClientCredentials : string -> string -> string -> list string -> token_source;
  Token_ : token_source -> result oauth_token;
  SetAuthHeader : oauth_token -> Request -> Request;
}.

(** A library that never obtains a token; it fills the parameter where no OAuth2
    provider is involved. *)
Definition no_oauth2 : oauth2 :=
  mkOauth2 unit Empty_set (fun _ _ _ _ => tt) (fun _ => Err (External "no token")) (fun _ r => r).

Inductive AuthProvider (O : oauth2) : Type :=
| BasicAuthProvider (Username Password : string)
| TokenAuthProvider (Token : string)
| OAuth2Provider (tokenSource : token_source O)
| HeaderAuthProvider (Headers : gmap string string).
Arguments BasicAuthProvider {O}.
Arguments TokenAuthProvider {O}.
Arguments OAuth2Provider {O}.
Arguments HeaderAuthProvider {O}.

Section auth.
Context {O : oauth2}.

(** ** Constructors *)

Definition NewBasicAuthProvider (username password : string) : AuthProvider O :=
  BasicAuthProvider username password.

Definition NewTokenAuthProvider (h : host) (tokenFile : string) : result (AuthProvider O) :=
  data ← wrap_err "error reading token file: %v" (ReadFile h tokenFile);
  Ok (TokenAuthProvider (TrimSpace (go_string data))).

Definition NewOAuth2Provider (clientID clientSecret tokenURL : string) (scopes : list string)
    : AuthProvider O :=
  OAuth2Provider (ClientCredentials O clientID clientSecret tokenURL scopes).

Definition NewHeaderAuthProvider (headers : gmap string string) : AuthProvider O :=
  HeaderAuthProvider headers.

Definition NewAuthProvider (h : host) (c : AuthConfig.t) : result (option (AuthProvider O)) :=
  let ty := AuthConfig.Type_ c in
  if bool_decide (ty = "none") then Ok None
  else if bool_decide (ty = "basic") then
    Ok (Some (NewBasicAuthProvider (AuthConfig.Username c) (AuthConfig.Password c)))
  else if bool_decide (ty = "token") then
    p ← NewTokenAuthProvider h (AuthConfig.TokenFile c); Ok (Some p)
  else if bool_decide (ty = "oauth2") then
    Ok (Some (NewOAuth2Provider (AuthConfig.ClientID c) (AuthConfig.ClientSecret c)
                (AuthConfig.TokenURL c) (AuthConfig.Scopes c)))
  else if bool_decide (ty = "header") then
    Ok (Some (NewHeaderAuthProvider (AuthConfig.Headers c)))
  else Err (ErrorfArg "unsupported authentication type: %s" ty).

(** ** [AddAuthentication] *)

Definition basic_credentials (username password : string) : string :=
  username +:+ ":" +:+ password.

Definition Basic_AddAuthentication (username password : string) (req : Request) : result Request :=
  let auth := basic_credentials username password in
  let encoded := b64_EncodeToString (go_bytes auth) in
  Ok (set_header req "Authorization" ("Basic " +:+ encoded)).

Definition Token_AddAuthentication (token : string) (req : Request) : result Request :=
  Ok (set_header req "Authorization" ("Bearer " +:+ token)).

Definition OAuth2_AddAuthentication (src : token_source O) (req : Request) : result Request :=
  token ← wrap_err "error getting OAuth2 token: %v" (Token_ O src);
  Ok (SetAuthHeader O token req).

Definition Header_AddAuthentication (o : map_order string) (headers : gmap string string)
    (req : Request) : result Request :=
  Ok (fold_left (fun r kv => set_header r kv.1 kv.2) (range o headers) req).

Definition AddAuthentication (o : map_order string) (p : AuthProvider O) (req : Request)
    : result Request :=
  match p with
  | BasicAuthProvider u w => Basic_AddAuthentication u w req
  | TokenAuthProvider t => Token_AddAuthentication t req
  | OAuth2Provider src => OAuth2_AddAuthentication src req
  | HeaderAuthProvider hs => Header_AddAuthentication o hs req
  end.

(** ** [Authenticate] *)

Definition Basic_Authenticate (username password : string) (req : Request) : result bool :=
  let auth := header_Get (req_header req) "Authorization" in
  if negb (HasPrefix auth "Basic ") then Ok false
  else
    payload ← wrap_err "error decoding auth header: %v"
                (b64_DecodeString (TrimPrefix auth "Basic "));
    match SplitN2 (go_string payload) ":" with
    | [u; w] => Ok (String.eqb u username && String.eqb w password)
    | _ => Ok false
    end.

Definition Token_Authenticate (token : string) (req : Request) : result bool :=
  let auth := header_Get (req_header req) "Authorization" in
  if negb (HasPrefix auth "Bearer ") then Ok false
  else Ok (String.eqb (TrimPrefix auth "Bearer ") token).

Definition OAuth2_Authenticate : result bool :=
  Err (Errorf "OAuth2 server-side authentication not implemented").

(** The loop returns at the first header that differs. *)
Definition Header_Authenticate (o : map_order string) (headers : gmap string string)
    (req : Request) : result bool :=
  Ok (forallb (fun kv => String.eqb (header_Get (req_header req) kv.1) kv.2) (range o headers)).

Definition Authenticate (o : map_order string) (p : AuthProvider O) (req : Request) : result bool :=
  match p with
  | BasicAuthProvider u w => Basic_Authenticate u w req
  | TokenAuthProvider t => Token_Authenticate t req
  | OAuth2Provider _ => OAuth2_Authenticate
  | HeaderAuthProvider hs => Header_Authenticate o hs req
  end.

(** ** Lemmas *)

Lemma SplitN2_inv s u w sep : SplitN2 s sep = [u; w] -> s = u +:+ String sep w /\ sep ∉ go_bytes u.
Proof.
  revert u w. induction s as [|c s IH]; intros u w; simpl; [done|].
  destruct (Ascii.eqb_spec c sep) as [->|Hc].
  - intros [= <- <-]. split; [done|]. apply not_elem_of_nil.
  - destruct (SplitN2 s sep) as [|x xs] eqn:E; [done|].
    intros [= <- ->]. destruct (IH x w eq_refl) as [-> Hx]. split; [done|].
    simpl. apply not_elem_of_cons. naive_solver.
Qed.

Lemma Basic_Authenticate_true u w req :
  Basic_Authenticate u w req = Ok true <->
  (":"%char ∉ go_bytes u) /\
  exists enc, header_Get (req_header req) "Authorization" = "Basic " +:+ enc /\
    b64_DecodeString enc = Ok (go_bytes (basic_credentials u w)).
Proof.
  unfold Basic_Authenticate, basic_credentials.
  set (auth := header_Get _ _). split.
  - destruct (HasPrefix auth "Basic ") eqn:E; simpl; [|done].
    apply HasPrefix_inv in E as [enc ->]. rewrite TrimPrefix_app.
    destruct (b64_DecodeString enc) as [pl| |] eqn:Eb; simpl; try done.
    destruct (SplitN2 (go_string pl) ":") as [|x [|y [|? ?]]] eqn:Es; try done.
    intros [= H]. apply andb_true_iff in H as [->%String.eqb_eq ->%String.eqb_eq].
    apply SplitN2_inv in Es as [Es Hu]. split; [done|]. exists enc. split; [done|].
    rewrite Eb. f_equal. rewrite <- (go_bytes_string pl), Es. done.
  - intros (Hu & enc & -> & Hd). rewrite HasPrefix_app, TrimPrefix_app. simpl.
    rewrite Hd. simpl. rewrite go_string_bytes.
    change (":" +:+ w) with (String ":" w). rewrite SplitN2_sep by done.
    by rewrite !String.eqb_refl.
Qed.

Lemma Token_Authenticate_true t req :
  Token_Authenticate t req = Ok true <->
  header_Get (req_header req) "Authorization" = "Bearer " +:+ t.
Proof.
  unfold Token_Authenticate. set (auth := header_Get _ _). split.
  - destruct (HasPrefix auth "Bearer ") eqn:E; simpl; [|done].
    apply HasPrefix_inv in E as [x ->]. rewrite TrimPrefix_app.
    by intros [= ->%String.eqb_eq].
  - intros ->. rewrite HasPrefix_app, TrimPrefix_app; simpl. by rewrite String.eqb_refl.
Qed.

Lemma Header_Authenticate_true o hs req :
  Header_Authenticate o hs req = Ok true <->
  forall k v, hs !! k = Some v -> header_Get (req_header req) k = v.
Proof.
  unfold Header_Authenticate. split.
  - intros [= H] k v Hk. rewrite forallb_forall in H.
    apply String.eqb_eq, (H (k, v)), list_elem_of_In, elem_of_range, Hk.
  - intros H. f_equal. apply forallb_forall. intros [k v] Hin.
    apply list_elem_of_In, elem_of_range in Hin. by apply String.eqb_eq, H.
Qed.

(** The requests a provider accepts. *)
Definition accepts (p : AuthProvider O) (req : Request) : Prop :=
  let auth := header_Get (req_header req) "Authorization" in
  match p with
  | BasicAuthProvider u w =>
      (":"%char ∉ go_bytes u) /\
      exists enc, auth = "Basic " +:+ enc /\
        b64_DecodeString enc = Ok (go_bytes (basic_credentials u w))
  | TokenAuthProvider t => auth = "Bearer " +:+ t
  | OAuth2Provider _ => False
  | HeaderAuthProvider hs =>
      forall k v, hs !! k = Some v -> header_Get (req_header req) k = v
  end.

Lemma Authenticate_true o p req : Authenticate o p req = Ok true <-> accepts p req.
Proof.
  destruct p as [u w|t|src|hs]; simpl.
  - apply Basic_Authenticate_true.
  - apply Token_Authenticate_true.
  - unfold OAuth2_Authenticate. naive_solver.
  - apply Header_Authenticate_true.
Qed.

(** Setting headers one after the other: the value read back under a name is
    one that was set under a name with the same canonical form. *)
Lemma set_headers_get l req k v :
  (k, v) ∈ l ->
  exists k' v', (k', v') ∈ l /\ CanonicalMIMEHeaderKey k' = CanonicalMIMEHeaderKey k /\
    header_Get (req_header (fold_left (fun r kv => set_header r kv.1 kv.2) l req)) k = v'.
Proof.
  revert req. induction l as [|[k1 v1] l IH] using rev_ind; intros req Hin.
  - by apply not_elem_of_nil in Hin.
  - rewrite fold_left_app; simpl.
    destruct (decide (CanonicalMIMEHeaderKey k1 = CanonicalMIMEHeaderKey k)) as [E|E].
    + exists k1, v1. split_and!; [set_solver|done|]. by apply header_Get_Set_canon.
    + apply elem_of_app in Hin as [Hin|Hin]; [|set_solver].
      destruct (IH req Hin) as (k' & v' & Hin' & Ec & Eg). exists k', v'.
      split_and!; [set_solver|done|]. by rewrite <- Eg; apply header_Get_Set_ne.
Qed.

(** Which providers accept the requests they sign themselves. *)
Definition self_consistent (p : AuthProvider O) : Prop :=
  match p with
  | BasicAuthProvider u _ => ":"%char ∉ go_bytes u
  | TokenAuthProvider _ => True
  | OAuth2Provider _ => False
  | HeaderAuthProvider hs =>
      forall k1 k2 v1 v2, hs !! k1 = Some v1 -> hs !! k2 = Some v2 ->
        CanonicalMIMEHeaderKey k1 = CanonicalMIMEHeaderKey k2 -> v1 = v2
  end.

Lemma Header_roundtrip o1 o2 hs req req' :
  Header_AddAuthentication o1 hs req = Ok req' ->
  Header_Authenticate o2 hs req' = Ok true <-> self_consistent (HeaderAuthProvider hs).
Proof.
  unfold Header_AddAuthentication. intros [= <-].
  rewrite Header_Authenticate_true. simpl. split.
  - intros H k1 k2 v1 v2 H1 H2 E. rewrite <- (H k1 v1 H1), <- (H k2 v2 H2).
    unfold header_Get. by rewrite E.
  - intros H k v Hk.
    destruct (set_headers_get (range o1 hs) req k v) as (k' & v' & Hin & Ec & ->).
    { by apply elem_of_range. }
    apply elem_of_range in Hin. by apply (H k' k).
Qed.

End auth.

Module AuthProperties.

(** C14. A provider accepts the requests it signs exactly when it is
    self-consistent: always for a bearer token; for basic authentication if and
    only if the user name has no colon; for custom headers if and only if names
    that HTTP identifies carry one value; never for OAuth2.  The order in which
    the header map is visited, when signing or when checking, is irrelevant. *)
Theorem auth_roundtrip {O : oauth2} (o1 o2 : map_order string) (p : AuthProvider O) req req' :
  AddAuthentication o1 p req = Ok req' ->
  Authenticate o2 p req' = Ok true <-> self_consistent p.
Proof.
  destruct p as [u w|t|src|hs]; simpl; intros H.
  - rewrite Basic_Authenticate_true. unfold Basic_AddAuthentication in H.
    injection H as <-; simpl. rewrite header_Get_Set. split; [naive_solver|].
    intros Hu. split; [done|]. eexists. split; [done|]. apply b64_roundtrip.
  - rewrite Token_Authenticate_true. unfold Token_AddAuthentication in H.
    injection H as <-; simpl. by rewrite header_Get_Set.
  - unfold OAuth2_Authenticate. naive_solver.
  - by apply (Header_roundtrip (O := O) o1 o2 hs req).
Qed.

(** C20. What [Authenticate] accepts, for every provider and every request: basic
    authentication accepts exactly the requests whose Authorization header is
    [Basic] with a base64 text of the configured user, a colon and the
    configured password (and no user name with a colon can ever log in); token
    authentication exactly [Bearer] with the token; header authentication
    exactly the requests with all the configured values; OAuth2 nothing. *)
Theorem Authenticate_accepts {O : oauth2} (o : map_order string) (p : AuthProvider O) req :
  Authenticate o p req = Ok true <->
  let auth := header_Get (req_header req) "Authorization" in
  match p with
  | BasicAuthProvider u w =>
      (":"%char ∉ go_bytes u) /\
      exists enc, auth = "Basic " +:+ enc /\
        b64_DecodeString enc = Ok (go_bytes (basic_credentials u w))
  | TokenAuthProvider t => auth = "Bearer " +:+ t
  | OAuth2Provider _ => False
  | HeaderAuthProvider hs =>
      forall k v, hs !! k = Some v -> header_Get (req_header req) k = v
  end.
Proof. exact (Authenticate_true o p req). Qed.

(** An authentication section of type [header] without headers passes the
    validation of the configuration and yields a provider that accepts every
    request: the server side is then open although authentication is on. *)
Theorem header_auth_without_headers_is_open {O : oauth2} h c :
  AuthConfig.Type_ c = "header" -> AuthConfig.Headers c = ∅ ->
  validate_auth c = Ok tt /\
  exists p : AuthProvider O, NewAuthProvider h c = Ok (Some p) /\
    forall o req, Authenticate o p req = Ok true.
Proof.
  intros Ht Hh. unfold validate_auth, NewAuthProvider. rewrite Ht; simpl. split; [done|].
  eexists. split; [done|]. intros o req.
  apply Header_Authenticate_true. intros k v. by rewrite Hh, lookup_empty.
Qed.

(** [NewAuthProvider] on a configuration that passed validation fails in
    only two ways: the type is none of the five known names, or it is [token]
    and the token file cannot be read.  For a token file that can be read the
    provider carries the file's text without surrounding white space. *)
Theorem NewAuthProvider_spec {O : oauth2} h c :
  match NewAuthProvider (O := O) h c with
  | Ok None => AuthConfig.Type_ c = "none"
  | Ok (Some (BasicAuthProvider u w)) =>
      AuthConfig.Type_ c = "basic" /\ u = AuthConfig.Username c /\ w = AuthConfig.Password c /\
      (auth_ok c -> u <> "" /\ w <> "")
  | Ok (Some (TokenAuthProvider t)) =>
      AuthConfig.Type_ c = "token" /\
      exists data, ReadFile h (AuthConfig.TokenFile c) = Ok data /\ t = TrimSpace (go_string data)
  | Ok (Some (OAuth2Provider _)) => AuthConfig.Type_ c = "oauth2"
  | Ok (Some (HeaderAuthProvider hs)) => AuthConfig.Type_ c = "header" /\ hs = AuthConfig.Headers c
  | Err e =>
      (AuthConfig.Type_ c ∉ ["none"; "basic"; "token"; "oauth2"; "header"] /\
       e = ErrorfArg "unsupported authentication type: %s" (AuthConfig.Type_ c)) \/
      (AuthConfig.Type_ c = "token" /\
       exists e', ReadFile h (AuthConfig.TokenFile c) = Err e' /\
         e = Wrapf "error reading token file: %v" e')
  | Panic m => ReadFile h (AuthConfig.TokenFile c) = Panic m
  end.
Proof.
  unfold NewAuthProvider, NewTokenAuthProvider, auth_ok.
  repeat case_bool_decide; simpl; try done.
  - naive_solver.
  - destruct (ReadFile _ _) eqn:E; simpl; [eauto|right; eauto|done].
  - left. split; [|done]. rewrite !not_elem_of_cons. split_and!; try done.
    apply not_elem_of_nil.
Qed.

Definition blank_request : Request := mkRequest "POST" "http://logs/" ∅ [].

Lemma auth_roundtrip_witness :
  exists req', AddAuthentication (O := no_oauth2) canonical_order
      (BasicAuthProvider "agent" "s3:cret") blank_request = Ok req' /\
    Authenticate (O := no_oauth2) reverse_order (BasicAuthProvider "agent" "s3:cret") req' = Ok true.
Proof.
  eexists. split; [reflexivity|].
  apply (auth_roundtrip (O := no_oauth2) canonical_order reverse_order
    (BasicAuthProvider "agent" "s3:cret") blank_request); [reflexivity|].
  simpl. apply (bool_decide_unpack _). vm_compute. exact I.
Defined.

Lemma header_auth_without_headers_is_open_witness :
  exists p : AuthProvider no_oauth2,
    NewAuthProvider (unix_host "linux" ∅ ∅) (AuthConfig.mk "header" "" "" "" "" "" "" [] ∅)
      = Ok (Some p) /\
    Authenticate canonical_order p blank_request = Ok true.
Proof.
  destruct (header_auth_without_headers_is_open (O := no_oauth2) (unix_host "linux" ∅ ∅)
    (AuthConfig.mk "header" "" "" "" "" "" "" [] ∅) eq_refl eq_refl) as (_ & p & Hp & Ha).
  exists p. split; [exact Hp | apply Ha].
Defined.

End AuthProperties.
