(* ===== verification/Encryption.v ===== *)
(** * Payload encryption

    Models [src/pkg/security/encryption.go].  A [cipher.AEAD] is an interface of
    the Go library; here it is the record [AEAD] with the law the package
    documents as the class [AEADLaws].  The ciphers themselves
    ([crypto/aes], [crypto/cipher], [golang.org/x/crypto/chacha20poly1305]) are
    the record [ciphers] of their constructors. *)
From stdpp Require Import pretty.
From S2P Require Import Prelude GoCodec Host Config.

Record AEAD := mkAEAD {
  NonceSize : nat;
  Seal_ : bytes -> bytes -> bytes -> bytes;          (* nonce, plaintext, data *)
  Open_ : bytes -> bytes -> bytes -> option bytes;   (* nonce, ciphertext, data *)
}.

(** Opening what was sealed with the same nonce and additional data gives the
    plaintext back. *)
Class AEADLaws (A : AEAD) : Prop := open_seal :
  forall nonce p ad, length nonce = NonceSize A -> Open_ A nonce (Seal_ A nonce p ad) ad = Some p.

(** [aead.Seal(dst, nonce, plaintext, additionalData)] appends to [dst]. *)
Definition Seal (A : AEAD) (dst nonce plaintext ad : bytes) : bytes :=
  dst ++ Seal_ A nonce plaintext ad.

(** [aead.Open(nil, nonce, ciphertext, additionalData)] *)
Definition Open (A : AEAD) (nonce ciphertext ad : bytes) : result bytes :=
  match Open_ A nonce ciphertext ad with
  | Some p => Ok p
  | None => Err (External "cipher: message authentication failed")
  end.

Record ciphers := mkCiphers {
  aes_block : Type;
  aes_NewCipher : bytes -> result aes_block;
  NewGCM : aes_block -> result AEAD;
  chacha20poly1305_New : bytes -> result AEAD;
}.

Definition chacha20poly1305_KeySize : nat := 32.

(** [io.ReadFull(rand.Reader, buf)] for a buffer of [n] bytes. *)
Definition randomness : Type := nat -> result bytes.
Definition fills (rnd : randomness) : Prop := forall n b, rnd n = Ok b -> length b = n.

Inductive EncryptionProvider : Type :=
| AESGCMProvider (aead : AEAD) (keyID : string)
| ChaCha20Poly1305Provider (aead : AEAD) (keyID : string).

(** ** Constructors *)

Definition NewAESGCMProvider (C : ciphers) (key : bytes) (keyID : string) : result EncryptionProvider :=
  _ ← fail_if (negb (length key =? 32)%nat) (Errorf "AES-256-GCM requires a 32-byte key");
  block ← wrap_err "error creating AES cipher: %v" (aes_NewCipher C key);
  aead ← wrap_err "error creating GCM: %v" (NewGCM C block);
  Ok (AESGCMProvider aead keyID).

Definition NewChaCha20Poly1305Provider (C : ciphers) (key : bytes) (keyID : string)
    : result EncryptionProvider :=
  _ ← fail_if (negb (length key =? chacha20poly1305_KeySize)%nat)
        (Errorf "ChaCha20-Poly1305 requires a 32-byte key");
  aead ← wrap_err "error creating ChaCha20-Poly1305: %v" (chacha20poly1305_New C key);
  Ok (ChaCha20Poly1305Provider aead keyID).

(** ** Encryption and decryption *)

(** The body of both [Encrypt] methods: a fresh nonce, followed by the sealed
    text, with the key identifier as additional data. *)
Definition encrypt_with (A : AEAD) (keyID : string) (rnd : randomness) (plaintext : bytes)
    : result bytes :=
  nonce ← wrap_err "error generating nonce: %v" (rnd (NonceSize A));
  Ok (Seal A nonce nonce plaintext (go_bytes keyID)).

(** The body of both [Decrypt] methods. *)
Definition decrypt_with (A : AEAD) (keyID : string) (ciphertext : bytes) : result bytes :=
  _ ← fail_if (length ciphertext <? NonceSize A)%nat (Errorf "ciphertext too short");
  let nonce := take (NonceSize A) ciphertext in
  let rest := drop (NonceSize A) ciphertext in
  wrap_err "error decrypting: %v" (Open A nonce rest (go_bytes keyID)).

Definition Encrypt (p : EncryptionProvider) (rnd : randomness) (plaintext : bytes) : result bytes :=
  match p with
  | AESGCMProvider A keyID => encrypt_with A keyID rnd plaintext
  | ChaCha20Poly1305Provider A keyID => encrypt_with A keyID rnd plaintext
  end.

Definition Decrypt (p : EncryptionProvider) (ciphertext : bytes) : result bytes :=
  match p with
  | AESGCMProvider A keyID => decrypt_with A keyID ciphertext
  | ChaCha20Poly1305Provider A keyID => decrypt_with A keyID ciphertext
  end.

Definition GetKeyID (p : EncryptionProvider) : string :=
  match p with
  | AESGCMProvider _ keyID => keyID
  | ChaCha20Poly1305Provider _ keyID => keyID
  end.

(** ** Keys *)

(** [generateKeyID], at Unix time [now]. *)
Definition generateKeyID (now : Z) : string := "key-" +:+ pretty now.

(** [loadKey] *)
Definition loadKey (h : host) (now : Z) (c : EncryptionConfig.t) : result (bytes * string) :=
  key ←
    (if negb (String.eqb (EncryptionConfig.KeyFile c) "") then
       wrap_err "error reading key file: %v" (ReadFile h (EncryptionConfig.KeyFile c))
     else if negb (String.eqb (EncryptionConfig.KeyEnv c) "") then
       let keyStr := Getenv h (EncryptionConfig.KeyEnv c) in
       if String.eqb keyStr "" then
         Err (ErrorfArg "encryption key environment variable %s is empty" (EncryptionConfig.KeyEnv c))
       else wrap_err "error decoding hex key: %v" (hex_DecodeString keyStr)
     else Err (Errorf "no key source specified"));
  let keyID := if negb (String.eqb (EncryptionConfig.KeyID c) "")
               then EncryptionConfig.KeyID c else generateKeyID now in
  Ok (key, keyID).

(** [NewEncryptionProvider]; [None] is the nil provider. *)
Definition NewEncryptionProvider (C : ciphers) (h : host) (now : Z) (c : EncryptionConfig.t)
    : result (option EncryptionProvider) :=
  if negb (EncryptionConfig.Enabled c) then Ok None
  else
    kk ← loadKey h now c;
    let ty := EncryptionConfig.Type_ c in
    if bool_decide (ty = "aes") then
      p ← NewAESGCMProvider C kk.1 kk.2; Ok (Some p)
    else if bool_decide (ty = "chacha20poly1305") then
      p ← NewChaCha20Poly1305Provider C kk.1 kk.2; Ok (Some p)
    else Err (ErrorfArg "unsupported encryption type: %s" ty).

(** [NewEncryption], the older entry point that names the algorithm. *)
Definition NewEncryption (C : ciphers) (h : host) (now : Z) (c : option EncryptionConfig.t)
    : result (option EncryptionProvider) :=
  match c with
  | None => Ok None
  | Some c =>
      if negb (EncryptionConfig.Enabled c) then Ok None
      else
        let config ty := {|
          EncryptionConfig.Enabled := EncryptionConfig.Enabled c;
          EncryptionConfig.Type_ := ty;
          EncryptionConfig.Algorithm := "";
          EncryptionConfig.KeyFile := EncryptionConfig.KeyFile c;
          EncryptionConfig.KeyEnv := EncryptionConfig.KeyEnv c;
          EncryptionConfig.KeyID := EncryptionConfig.KeyID c;
          EncryptionConfig.RotationDays := 0;
        |} in
        if bool_decide (EncryptionConfig.Algorithm c = "aes-gcm") then
          NewEncryptionProvider C h now (config "aes")
        else if bool_decide (EncryptionConfig.Algorithm c = "chacha20-poly1305") then
          NewEncryptionProvider C h now (config "chacha20poly1305")
        else Err (ErrorfArg "unsupported encryption algorithm: %s" (EncryptionConfig.Algorithm c))
  end.

(** ** Lemmas *)

(** The cipher of a provider. *)
Definition provider_aead (p : EncryptionProvider) : AEAD :=
  match p with AESGCMProvider A _ => A | ChaCha20Poly1305Provider A _ => A end.

Lemma encrypt_decrypt_with A keyID rnd p c :
  AEADLaws A -> fills rnd ->
  encrypt_with A keyID rnd p = Ok c -> decrypt_with A keyID c = Ok p.
Proof.
  intros HA Hr. unfold encrypt_with, decrypt_with, Seal.
  destruct (rnd (NonceSize A)) as [nonce| |] eqn:E; simpl; try done.
  apply Hr in E. intros [= <-].
  rewrite length_app. destruct (Nat.ltb_spec (length nonce + length (Seal_ A nonce p (go_bytes keyID)))
    (NonceSize A)); [lia|]. simpl.
  rewrite <- E, take_app_length, drop_app_length. unfold Open.
  by rewrite (open_seal nonce p (go_bytes keyID) E).
Qed.

Lemma Encrypt_Decrypt p q rnd plaintext c :
  AEADLaws (provider_aead p) -> fills rnd ->
  Encrypt p rnd plaintext = Ok c ->
  provider_aead q = provider_aead p -> GetKeyID q = GetKeyID p -> Decrypt q c = Ok plaintext.
Proof.
  intros HA Hr HE Ha Hi.
  assert (decrypt_with (provider_aead p) (GetKeyID p) c = Ok plaintext) as HD
    by (apply (encrypt_decrypt_with _ _ rnd); [done|done|by destruct p]).
  destruct q; simpl in *; by rewrite Ha, Hi.
Qed.

(** The key a configuration designates, if any. *)
Definition configured_key (h : host) (c : EncryptionConfig.t) : result bytes :=
  if negb (String.eqb (EncryptionConfig.KeyFile c) "") then ReadFile h (EncryptionConfig.KeyFile c)
  else hex_DecodeString (Getenv h (EncryptionConfig.KeyEnv c)).

Lemma loadKey_ok h now c key keyID :
  loadKey h now c = Ok (key, keyID) ->
  configured_key h c = Ok key /\
  keyID = (if String.eqb (EncryptionConfig.KeyID c) "" then generateKeyID now
           else EncryptionConfig.KeyID c).
Proof.
  unfold loadKey, configured_key. intros H.
  destruct (String.eqb (EncryptionConfig.KeyFile c) ""); simpl in H.
  - destruct (String.eqb (EncryptionConfig.KeyEnv c) ""); simpl in H; [done|].
    destruct (String.eqb (Getenv h _) ""); simpl in H; [done|].
    destruct (hex_DecodeString _); simpl in H; try done. injection H as -> <-.
    by destruct (String.eqb (EncryptionConfig.KeyID c) "").
  - destruct (ReadFile h _); simpl in H; try done. injection H as -> <-.
    by destruct (String.eqb (EncryptionConfig.KeyID c) "").
Qed.

Lemma generateKeyID_nonempty now : generateKeyID now <> "".
Proof. done. Qed.

(** A cipher for running the definitions: it prepends the additional data. *)
Definition toy_aead : AEAD := {|
  NonceSize := 12;
  Seal_ := fun _ p ad => ad ++ p;
  Open_ := fun _ c ad =>
    if bool_decide (take (length ad) c = ad) then Some (drop (length ad) c) else None |}.

#[export] Instance toy_aead_laws : AEADLaws toy_aead.
Proof.
  intros nonce p ad _. unfold toy_aead, Open_, Seal_.
  by rewrite take_app_length, drop_app_length, bool_decide_eq_true_2.
Qed.

Definition toy_ciphers : ciphers :=
  mkCiphers unit (fun _ => Ok tt) (fun _ => Ok toy_aead) (fun _ => Ok toy_aead).

Definition zero_random : randomness := fun n => Ok (replicate n zero).

Lemma zero_random_fills : fills zero_random.
Proof. intros n b [= <-]. apply length_replicate. Qed.

Module EncryptionProperties.

(** C13. Decryption undoes encryption, for both algorithms: with working
    randomness [Encrypt] succeeds, its output starts with the nonce, and any
    provider with the same cipher and key identifier decrypts it to the
    plaintext. *)
Theorem encrypt_decrypt (p : EncryptionProvider) rnd nonce plaintext :
  AEADLaws (provider_aead p) -> fills rnd -> rnd (NonceSize (provider_aead p)) = Ok nonce ->
  exists c, Encrypt p rnd plaintext = Ok c /\
    take (NonceSize (provider_aead p)) c = nonce /\
    forall q, provider_aead q = provider_aead p -> GetKeyID q = GetKeyID p ->
      Decrypt q c = Ok plaintext.
Proof.
  intros HA Hr Hn. pose proof (Hr _ _ Hn) as Hlen.
  assert (Encrypt p rnd plaintext = Ok (Seal (provider_aead p) nonce nonce plaintext
    (go_bytes (GetKeyID p)))) as E.
  { destruct p; simpl in *; unfold encrypt_with; by rewrite Hn. }
  eexists. split_and!; [exact E| |].
  - unfold Seal. by rewrite <- Hlen, take_app_length.
  - intros q Ha Hi. by apply (Encrypt_Decrypt p q rnd).
Qed.

(** C32. A provider is only ever built on a 32-byte key: the raw contents of the
    key file, or, without a key file, the decoded 64 hexadecimal digits of the
    environment variable; and it always carries a non-empty key identifier, the
    configured one if there is one. *)
Theorem NewEncryptionProvider_key C h now c p :
  NewEncryptionProvider C h now c = Ok (Some p) ->
  (exists key, configured_key h c = Ok key /\ length key = 32) /\
  (EncryptionConfig.KeyFile c = "" ->
     length (go_bytes (Getenv h (EncryptionConfig.KeyEnv c))) = 64) /\
  GetKeyID p <> "" /\
  (EncryptionConfig.KeyID c <> "" -> GetKeyID p = EncryptionConfig.KeyID c).
Proof.
  unfold NewEncryptionProvider. destruct (EncryptionConfig.Enabled c); simpl; [|done].
  destruct (loadKey h now c) as [[key keyID]| |] eqn:E; simpl; try done.
  apply loadKey_ok in E as [Hk Hid]. intros H.
  assert (length key = 32 /\ GetKeyID p = keyID) as [Hlen Hp].
  { case_bool_decide; [|case_bool_decide; [|done]].
    - unfold NewAESGCMProvider in H.
      destruct (Nat.eqb_spec (length key) 32); simpl in H; [|done].
      destruct (aes_NewCipher C key); simpl in H; try done.
      destruct (NewGCM C a); simpl in H; try done. by injection H as <-.
    - unfold NewChaCha20Poly1305Provider, chacha20poly1305_KeySize in H.
      destruct (Nat.eqb_spec (length key) 32); simpl in H; [|done].
      destruct (chacha20poly1305_New C key); simpl in H; try done. by injection H as <-. }
  split_and!; [eauto| | |].
  - intros Hf. unfold configured_key in Hk. rewrite Hf in Hk. simpl in Hk.
    apply hex_Decode_length in Hk. lia.
  - rewrite Hp, Hid. by destruct (String.eqb_spec (EncryptionConfig.KeyID c) "").
  - intros Hne. rewrite Hp, Hid. by destruct (String.eqb_spec (EncryptionConfig.KeyID c) "").
Qed.

(** A key file is taken as raw bytes: one whose length is not 32 is refused
    by both algorithms, in particular a file with the 64 hexadecimal digits (and
    newline) that [openssl rand -hex 32] writes. *)
Theorem key_file_is_raw C h now c data :
  EncryptionConfig.Enabled c = true -> EncryptionConfig.KeyFile c <> "" ->
  ReadFile h (EncryptionConfig.KeyFile c) = Ok data -> length data <> 32 ->
  EncryptionConfig.Type_ c = "aes" \/ EncryptionConfig.Type_ c = "chacha20poly1305" ->
  NewEncryptionProvider C h now c =
  Err (Errorf (if bool_decide (EncryptionConfig.Type_ c = "aes")
               then "AES-256-GCM requires a 32-byte key"
               else "ChaCha20-Poly1305 requires a 32-byte key")).
Proof.
  intros Hen Hf Hr Hlen Hty. unfold NewEncryptionProvider, loadKey. rewrite Hen. simpl.
  destruct (String.eqb_spec (EncryptionConfig.KeyFile c) ""); simpl; [done|].
  rewrite Hr. simpl.
  assert ((length data =? 32)%nat = false) as El by (by apply Nat.eqb_neq).
  destruct Hty as [->| ->]; simpl;
    unfold NewAESGCMProvider, NewChaCha20Poly1305Provider, chacha20poly1305_KeySize;
    by rewrite El.
Qed.

(** The older entry point is the newer one with the algorithm's name
    translated: [aes-gcm] to [aes], [chacha20-poly1305] to [chacha20poly1305]. *)
Theorem NewEncryption_translates C h now c ty :
  (EncryptionConfig.Algorithm c, ty) ∈@{list _}
    [("aes-gcm", "aes"); ("chacha20-poly1305", "chacha20poly1305")] ->
  NewEncryption C h now (Some c) =
  NewEncryptionProvider C h now (EncryptionConfig.with_Type ty c).
Proof.
  intros H. unfold NewEncryption.
  assert (forall ty, NewEncryptionProvider C h now {|
      EncryptionConfig.Enabled := EncryptionConfig.Enabled c;
      EncryptionConfig.Type_ := ty; EncryptionConfig.Algorithm := "";
      EncryptionConfig.KeyFile := EncryptionConfig.KeyFile c;
      EncryptionConfig.KeyEnv := EncryptionConfig.KeyEnv c;
      EncryptionConfig.KeyID := EncryptionConfig.KeyID c;
      EncryptionConfig.RotationDays := 0 |} =
    NewEncryptionProvider C h now (EncryptionConfig.with_Type ty c)) as Heq by reflexivity.
  destruct (EncryptionConfig.Enabled c) eqn:En; simpl.
  - rewrite <- Heq. repeat (apply elem_of_cons in H as [[= -> ->]|H]; [done|]).
    by apply not_elem_of_nil in H.
  - unfold NewEncryptionProvider. simpl. by rewrite En.
Qed.

Definition example_provider : EncryptionProvider := AESGCMProvider toy_aead "key-1".

Lemma encrypt_decrypt_witness :
  exists c, Encrypt example_provider zero_random (go_bytes "log line") = Ok c /\
    Decrypt example_provider c = Ok (go_bytes "log line").
Proof.
  destruct (encrypt_decrypt example_provider zero_random (replicate 12 zero) (go_bytes "log line")
    toy_aead_laws zero_random_fills eq_refl) as (c & Ec & _ & Hd).
  exists c. split; [exact Ec|]. apply Hd; reflexivity.
Defined.

Definition example_key : string := "0123456789abcdef0123456789abcdef".
Definition example_encryption : EncryptionConfig.t :=
  EncryptionConfig.mk true "aes" "aes-gcm" "key.bin" "" "k1" 90.
Definition host_with_key (key : string) : host :=
  unix_host "linux" ∅ {[ "key.bin" := go_bytes key ]}.

Lemma NewEncryptionProvider_key_witness :
  exists p, NewEncryptionProvider toy_ciphers (host_with_key example_key) 0 example_encryption
      = Ok (Some p) /\ GetKeyID p = "k1".
Proof.
  eexists. split; [reflexivity|].
  apply (NewEncryptionProvider_key toy_ciphers (host_with_key example_key) 0 example_encryption);
    [reflexivity|discriminate].
Defined.

Lemma key_file_is_raw_witness :
  NewEncryptionProvider toy_ciphers (host_with_key (example_key +:+ example_key)) 0
    example_encryption = Err (Errorf "AES-256-GCM requires a 32-byte key").
Proof.
  apply (key_file_is_raw toy_ciphers (host_with_key (example_key +:+ example_key)) 0
    example_encryption (go_bytes (example_key +:+ example_key)));
    [reflexivity|discriminate|reflexivity|discriminate|by left].
Defined.

Lemma NewEncryption_translates_witness :
  NewEncryption toy_ciphers (host_with_key example_key) 0 (Some example_encryption) =
  NewEncryptionProvider toy_ciphers (host_with_key example_key) 0
    (EncryptionConfig.with_Type "aes" example_encryption).
Proof. apply NewEncryption_translates. apply elem_of_cons. left. reflexivity. Defined.

End EncryptionProperties.
