(* ===== verification/Json.v ===== *)
(** * JSON payloads

    [json.Marshal] on a [[]string], which is what the sender puts on the wire,
    and an independent reader of JSON arrays of strings (RFC 8259) that says
    what such a document means.  Marshalling then means: the document denotes
    the lines, with every byte that is not part of a UTF-8 sequence replaced by
    U+FFFD. *)
From S2P Require Import Prelude Utf8.
Local Open Scope N_scope.

Definition quote : ascii := "034".
Definition backslash : ascii := "\".

(** ** [encoding/json] *)

(** [htmlSafeSet] *)
Definition html_safe (c : ascii) : bool :=
  let n := N_of_ascii c in
  (32 <=? n) && (n <? 128) && negb (n =? 34) && negb (n =? 38) && negb (n =? 60)
  && negb (n =? 62) && negb (n =? 92).

Definition hex_digit (n : N) : ascii :=
  ascii_of_N (if n <? 10 then 48 + n else 87 + n).

(** The escape of an ASCII byte that is not safe. *)
Definition json_escape (c : ascii) : bytes :=
  let n := N_of_ascii c in
  if (n =? 92) || (n =? 34) then [backslash; c]
  else if n =? 8 then [backslash; "b"%char]
  else if n =? 12 then [backslash; "f"%char]
  else if n =? 10 then [backslash; "n"%char]
  else if n =? 13 then [backslash; "r"%char]
  else if n =? 9 then [backslash; "t"%char]
  else [backslash; "u"%char; "0"%char; "0"%char; hex_digit (n / 16); hex_digit (n mod 16)].

Definition u_escape (r : N) : bytes :=
  [backslash; "u"%char; hex_digit (r / 4096); hex_digit (r / 256 mod 16);
   hex_digit (r / 16 mod 16); hex_digit (r mod 16)].

(** The loop of [appendString] with [escapeHTML] set; [length b] rounds are
    enough since each consumes at least one byte. *)
Fixpoint json_chars (fuel : nat) (b : bytes) : bytes :=
  match fuel, b with
  | S fuel', c :: b' =>
      if N_of_ascii c <? 0x80 then
        (if html_safe c then [c] else json_escape c) ++ json_chars fuel' b'
      else
        let '(r, w) := DecodeRune b in
        if (w =? 1)%nat then u_escape RuneError ++ json_chars fuel' b'
        else if (r =? 0x2028) || (r =? 0x2029) then u_escape r ++ json_chars fuel' (drop w b)
        else take w b ++ json_chars fuel' (drop w b)
  | _, _ => []
  end.

Definition json_string (b : bytes) : bytes :=
  quote :: json_chars (length b) b ++ [quote].

Fixpoint json_elems (logs : list bytes) : bytes :=
  match logs with
  | [] => []
  | [l] => json_string l
  | l :: logs' => json_string l ++ ","%char :: json_elems logs'
  end.

(** [json.Marshal(logs)]; it cannot fail on strings. *)
Definition Marshal (logs : list bytes) : result bytes :=
  Ok ("["%char :: json_elems logs ++ ["]"%char]).

(** ** What a JSON array of strings means *)

Definition unescape (e : ascii) : option ascii :=
  let n := N_of_ascii e in
  if (n =? 34) || (n =? 92) || (n =? 47) then Some e
  else if n =? 98 then Some "008"%char
  else if n =? 102 then Some "012"%char
  else if n =? 110 then Some "010"%char
  else if n =? 114 then Some "013"%char
  else if n =? 116 then Some "009"%char
  else None.

Definition hex_value (c : ascii) : option N :=
  let n := N_of_ascii c in
  if in_range 48 57 n then Some (n - 48)
  else if in_range 97 102 n then Some (n - 87)
  else if in_range 65 70 n then Some (n - 55)
  else None.

Definition prepend (x : bytes) (m : option (bytes * bytes)) : option (bytes * bytes) :=
  '(y, rest) ← m; Some (x ++ y, rest).

(** The characters of a string literal up to its closing quote, decoded, and
    the text after it.  A code unit that is half of a surrogate pair is left
    undefined. *)
Fixpoint read_chars (b : bytes) : option (bytes * bytes) :=
  match b with
  | [] => None
  | c :: b' =>
      if Ascii.eqb c quote then Some ([], b')
      else if Ascii.eqb c backslash then
        match b' with
        | [] => None
        | e :: b'' =>
            match unescape e with
            | Some x => prepend [x] (read_chars b'')
            | None =>
                match b'' with
                | h3 :: h2 :: h1 :: h0 :: b''' =>
                    match hex_value h3, hex_value h2, hex_value h1, hex_value h0 with
                    | Some n3, Some n2, Some n1, Some n0 =>
                        let r := n3 * 4096 + n2 * 256 + n1 * 16 + n0 in
                        if Ascii.eqb e "u" && negb (in_range 0xD800 0xDFFF r)
                        then prepend (EncodeRune r) (read_chars b''') else None
                    | _, _, _, _ => None
                    end
                | _ => None
                end
            end
        end
      else if N_of_ascii c <? 0x20 then None
      else prepend [c] (read_chars b')
  end.

(** The elements of an array after an element's opening quote. *)
Fixpoint read_elems (fuel : nat) (b : bytes) : option (list bytes) :=
  match fuel with
  | O => None
  | S fuel' =>
      match read_chars b with
      | Some (l, s :: rest) =>
          if Ascii.eqb s "]" then match rest with [] => Some [l] | _ => None end
          else if Ascii.eqb s "," then
            match rest with
            | q :: rest' => if Ascii.eqb q quote
                            then ls ← read_elems fuel' rest'; Some (l :: ls) else None
            | [] => None
            end
          else None
      | _ => None
      end
  end.

Definition json_denotes (b : bytes) : option (list bytes) :=
  match b with
  | a :: b' =>
      if Ascii.eqb a "[" then
        match b' with
        | [z] => if Ascii.eqb z "]" then Some [] else None
        | q :: rest => if Ascii.eqb q quote then read_elems (length rest) rest else None
        | [] => None
        end
      else None
  | [] => None
  end.

(** A text with every stray byte replaced by U+FFFD. *)
Fixpoint to_valid_fuel (fuel : nat) (b : bytes) : bytes :=
  match fuel, b with
  | S fuel', c :: b' =>
      if N_of_ascii c <? 0x80 then c :: to_valid_fuel fuel' b'
      else
        let w := (DecodeRune b).2 in
        if (w =? 1)%nat then EncodeRune RuneError ++ to_valid_fuel fuel' b'
        else take w b ++ to_valid_fuel fuel' (drop w b)
  | _, _ => []
  end.
Definition ToValidUTF8 (b : bytes) : bytes := to_valid_fuel (length b) b.

(** ** Lemmas *)

Lemma prepend_app x y m : prepend x (prepend y m) = prepend (x ++ y) m.
Proof. destruct m as [[z rest]|]; simpl; [by rewrite app_assoc|done]. Qed.

Lemma prepend_nil m : prepend [] m = m.
Proof. by destruct m as [[]|]. Qed.

(** Reading back the escape of any ASCII byte. *)
Lemma read_ascii c rest :
  N_of_ascii c < 0x80 ->
  read_chars ((if html_safe c then [c] else json_escape c) ++ rest) = prepend [c] (read_chars rest).
Proof.
  intros Hc. destruct c as [[] [] [] [] [] [] [] []]; vm_compute in Hc; try discriminate Hc;
    reflexivity.
Qed.

Lemma read_high l rest :
  Forall high l -> read_chars (l ++ rest) = prepend l (read_chars rest).
Proof.
  induction 1 as [|c l Hc Hl IH]; simpl; [by rewrite prepend_nil|].
  unfold high in Hc. rewrite IH, prepend_app.
  destruct (Ascii.eqb_spec c quote) as [->|]; [vm_compute in Hc; by destruct Hc|].
  destruct (Ascii.eqb_spec c backslash) as [->|]; [vm_compute in Hc; by destruct Hc|].
  by destruct (N.ltb_spec (N_of_ascii c) 0x20); [lia|].
Qed.

Lemma read_fffd rest :
  read_chars (u_escape RuneError ++ rest) = prepend (EncodeRune RuneError) (read_chars rest).
Proof. reflexivity. Qed.

Lemma read_separator r rest :
  r = 0x2028 \/ r = 0x2029 ->
  read_chars (u_escape r ++ rest) = prepend (EncodeRune r) (read_chars rest).
Proof. by intros [->| ->]. Qed.

Lemma read_json_chars fuel b rest :
  (length b <= fuel)%nat ->
  read_chars (json_chars fuel b ++ quote :: rest) = Some (to_valid_fuel fuel b, rest).
Proof.
  revert b. induction fuel as [|fuel IH]; intros [|c b'] Hf; simpl in Hf; try lia;
    try reflexivity.
  cbn [json_chars to_valid_fuel]. destruct (N.ltb_spec (N_of_ascii c) 0x80) as [Hc|Hc].
  { rewrite <- app_assoc, read_ascii by done. by rewrite IH by lia. }
  pose proof (DecodeRune_width (c :: b') ltac:(done)) as Hw.
  pose proof (DecodeRune_width_le (c :: b')) as Hle.
  destruct (DecodeRune (c :: b')) as [r w] eqn:E. cbn [snd] in *.
  assert (forall k, (k <= length (c :: b') -> 1 <= k -> length (drop k (c :: b')) <= fuel)%nat) as Hd
    by (intros; rewrite length_drop; simpl; lia).
  destruct (Nat.eqb_spec w 1).
  { rewrite <- app_assoc, read_fffd. by rewrite IH by lia. }
  destruct (DecodeRune_multi _ _ _ E ltac:(lia)) as (Hh & He & _).
  destruct ((r =? 0x2028) || (r =? 0x2029)) eqn:Es.
  - rewrite <- app_assoc, read_separator, He, IH by (try (apply Hd; lia); go_bool; auto).
    done.
  - rewrite <- app_assoc, read_high by done. by rewrite IH by (apply Hd; lia).
Qed.

Lemma json_string_read l rest :
  read_chars (tail (json_string l) ++ rest) = Some (ToValidUTF8 l, rest).
Proof.
  unfold json_string, ToValidUTF8. simpl. rewrite <- app_assoc. by apply read_json_chars.
Qed.

Lemma read_elems_marshal logs fuel :
  logs <> [] -> (length logs <= fuel)%nat ->
  read_elems fuel (tail (json_elems logs) ++ ["]"%char]) = Some (map ToValidUTF8 logs).
Proof.
  intros Hne. revert logs Hne. induction fuel as [|fuel IH]; intros [|l logs] Hne Hf;
    simpl in Hf; try done; try lia.
  destruct logs as [|l' logs].
  - cbn [json_elems read_elems]. by rewrite json_string_read.
  - change (json_elems (l :: l' :: logs)) with (json_string l ++ ","%char :: json_elems (l' :: logs)).
    change (tail (json_string l ++ ","%char :: json_elems (l' :: logs)))
      with (tail (json_string l) ++ ","%char :: json_elems (l' :: logs)).
    rewrite <- app_assoc. cbn [read_elems]. rewrite json_string_read. cbn [app].
    assert (exists r, json_elems (l' :: logs) = quote :: r) as [r Er]
      by (destruct logs; eexists; reflexivity).
    specialize (IH (l' :: logs) ltac:(done) ltac:(simpl in *; lia)).
    rewrite Er in IH |- *. simpl in IH |- *. by rewrite IH.
Qed.

Lemma json_elems_length logs : (length logs <= length (json_elems logs))%nat.
Proof.
  induction logs as [|l [|l' logs] IH]; [done|simpl; lia|].
  change (json_elems (l :: l' :: logs)) with (json_string l ++ ","%char :: json_elems (l' :: logs)).
  rewrite length_app. simpl in *. lia.
Qed.

(** Valid UTF-8 is left as it is. *)
Lemma to_valid_valid fuel b :
  valid_fuel fuel b = true -> (length b <= fuel)%nat -> to_valid_fuel fuel b = b.
Proof.
  revert b. induction fuel as [|fuel IH]; intros [|c b'] Hv Hf; simpl in Hf; try lia; [done..|].
  cbn [to_valid_fuel]. cbn [valid_fuel] in Hv.
  destruct (N.ltb_spec (N_of_ascii c) 0x80) as [Hc|Hc].
  { rewrite DecodeRune_ascii in Hv by done. f_equal. apply IH; [|lia].
    by apply andb_true_iff in Hv as [_ ?]. }
  pose proof (DecodeRune_width (c :: b') ltac:(done)) as Hw.
  pose proof (DecodeRune_width_le (c :: b')) as Hle.
  destruct (DecodeRune (c :: b')) as [r w] eqn:E. cbn [snd] in *.
  destruct (Nat.eqb_spec w 1) as [->|Hw1].
  { by apply andb_true_iff in Hv as [? _]. }
  destruct w as [|[|w]]; [lia|lia|].
  rewrite IH by (done || rewrite length_drop; simpl; lia).
  by rewrite take_drop.
Qed.

Lemma ToValidUTF8_valid b : Valid b = true -> ToValidUTF8 b = b.
Proof. intros H. by apply to_valid_valid. Qed.

(** The encoder's output read back. *)
Lemma Marshal_reads logs :
  exists data, Marshal logs = Ok data /\ json_denotes data = Some (map ToValidUTF8 logs).
Proof.
  unfold Marshal. eexists. split; [done|]. destruct logs as [|l logs]; [done|].
  pose proof (json_elems_length (l :: logs)) as Hlen.
  assert (exists r, json_elems (l :: logs) = quote :: r) as [r Er]
    by (destruct logs; eexists; reflexivity).
  pose proof (read_elems_marshal (l :: logs) (length (r ++ ["]"%char])) ltac:(done)) as H.
  rewrite Er in *. simpl in Hlen.
  assert (forall r', r' <> [] ->
    json_denotes ("["%char :: quote :: r') = read_elems (length r') r') as Hq
    by (by intros [|]).
  cbn [app]. rewrite Hq by (by destruct r). apply H.
  rewrite length_app. simpl. lia.
Qed.

Lemma map_ToValidUTF8_valid logs :
  Forall (fun l => Valid l = true) logs -> map ToValidUTF8 logs = logs.
Proof.
  induction 1 as [|l logs Hl _ IH]; simpl; [done|]. rewrite ToValidUTF8_valid by done. by f_equal.
Qed.

Module JsonProperties.

(** The payload of a batch is a JSON array of strings that denotes exactly
    the lines of the batch, in order, except that a byte which is not part of a
    UTF-8 sequence is replaced by U+FFFD; in particular a batch of valid UTF-8
    lines is carried without loss, whatever quotes, control characters or
    separators the lines contain. *)
Theorem Marshal_denotes logs :
  exists data, Marshal logs = Ok data /\
    json_denotes data = Some (map ToValidUTF8 logs) /\
    (Forall (fun l => Valid l = true) logs -> json_denotes data = Some logs).
Proof.
  destruct (Marshal_reads logs) as (data & Em & Ed). exists data. split_and!; [done|done|].
  intros Hv. by rewrite Ed, map_ToValidUTF8_valid.
Qed.

End JsonProperties.
