(* ===== verification/Slices.v ===== *)
(** * Go slices

    A slice is a view of a prefix of a backing array; arrays live in a heap and
    are shared.  [append] writes into the array of its argument when there is
    room and otherwise moves to a new array; [copy] writes into the array of its
    destination; [s[:0]] keeps the array.  The capacity of a grown array is the
    runtime's choice, the argument [grow]. *)
From S2P Require Import Prelude.

Record slice := mkSlice { arr : nat; len : nat; cap : nat }.

Section slices.
Context {A : Type} (zero_value : A).

(** The heap: array number [i] is the [i]-th list. *)
Abbreviation heap := (list (list A)).

Definition array (hp : heap) (s : slice) : list A := default [] (hp !! arr s).
Definition contents (hp : heap) (s : slice) : list A := take (len s) (array hp s).

(** [make([]T, n, c)] *)
Definition make (hp : heap) (n c : Z) : result (slice * heap) :=
  if (n <? 0)%Z then Panic "makeslice: len out of range"
  else if (c <? n)%Z then Panic "makeslice: cap out of range"
  else Ok (mkSlice (length hp) (Z.to_nat n) (Z.to_nat c),
           hp ++ [replicate (Z.to_nat c) zero_value]).

(** [append(s, x)] *)
Definition append (grow : nat -> nat) (hp : heap) (s : slice) (x : A) : slice * heap :=
  if (len s <? cap s)%nat then
    (mkSlice (arr s) (S (len s)) (cap s), alter (insert (len s) x) (arr s) hp)
  else
    let c := grow (S (len s)) in
    (mkSlice (length hp) (S (len s)) c,
     hp ++ [contents hp s ++ x :: replicate (c - S (len s)) zero_value]).

(** [copy(dst, src)] *)
Definition copy (hp : heap) (dst src : slice) : heap :=
  let n := (len dst `min` len src)%nat in
  alter (fun l => take n (contents hp src) ++ drop n l) (arr dst) hp.

(** [s[:0]] *)
Definition reslice0 (s : slice) : slice := mkSlice (arr s) 0 (cap s).

(** A slice the runtime could have produced: its array exists and is as long as
    its capacity. *)
Definition slice_ok (hp : heap) (s : slice) : Prop :=
  exists l, hp !! arr s = Some l /\ length l = cap s /\ (len s <= cap s)%nat.

(** ** Lemmas *)

Lemma slice_ok_array hp s : slice_ok hp s -> length (array hp s) = cap s /\ (len s <= cap s)%nat.
Proof. intros (l & E & ? & ?). unfold array. by rewrite E. Qed.

Lemma slice_ok_lt hp s : slice_ok hp s -> (arr s < length hp)%nat.
Proof. intros (l & E & _). by apply lookup_lt_Some in E. Qed.

Lemma length_contents hp s : slice_ok hp s -> length (contents hp s) = len s.
Proof. intros H. apply slice_ok_array in H as [? ?]. unfold contents. rewrite length_take. lia. Qed.

Lemma slice_ok_alloc hp l s : slice_ok hp s -> slice_ok (hp ++ [l]) s.
Proof.
  intros H. pose proof (slice_ok_lt _ _ H). destruct H as (k & E & ? & ?).
  exists k. by rewrite lookup_app_l.
Qed.

Lemma contents_alloc hp l s : slice_ok hp s -> contents (hp ++ [l]) s = contents hp s.
Proof.
  intros H. pose proof (slice_ok_lt _ _ H). unfold contents, array. by rewrite lookup_app_l.
Qed.

Lemma slice_ok_alter hp f i s :
  slice_ok hp s -> (forall l, length l = cap s -> i = arr s -> length (f l) = length l) ->
  slice_ok (alter f i hp) s.
Proof.
  intros (l & E & Hl & ?) Hf. destruct (decide (i = arr s)) as [->|Hne].
  - exists (f l). rewrite list_lookup_alter_eq, E. rewrite Hf by done. done.
  - exists l. by rewrite list_lookup_alter_ne.
Qed.

Lemma contents_alter_ne hp f i s : i <> arr s -> contents (alter f i hp) s = contents hp s.
Proof. intros H. unfold contents, array. by rewrite list_lookup_alter_ne. Qed.

(** What a caller needs to know about [append]: the new view has one more
    element, and every view of another array is unaffected. *)
Lemma append_spec grow hp s x s' hp' :
  slice_ok hp s -> (forall n, n <= grow n)%nat ->
  append grow hp s x = (s', hp') ->
  slice_ok hp' s' /\ contents hp' s' = contents hp s ++ [x] /\
  (length hp <= length hp')%nat /\
  (arr s' = arr s \/ arr s' = length hp) /\
  forall t, slice_ok hp t -> arr t <> arr s ->
    slice_ok hp' t /\ contents hp' t = contents hp t.
Proof.
  intros Hs Hg. pose proof (length_contents _ _ Hs) as Hlen. unfold append.
  destruct (Nat.ltb_spec (len s) (cap s)) as [Hlt|Hge]; intros [= <- <-].
  - pose proof Hs as (l & E & Hl & _). split_and!.
    + exists (<[len s:=x]> l). simpl. rewrite list_lookup_alter_eq, E, length_insert.
      split_and!; [done|done|simpl; lia].
    + unfold contents, array. simpl. rewrite list_lookup_alter_eq, E. simpl.
      rewrite (take_S_r _ _ x) by (rewrite list_lookup_insert_eq by lia; done).
      by rewrite take_insert_ge.
    + by rewrite length_alter.
    + by left.
    + intros t Ht Hne. split; [|by apply contents_alter_ne].
      apply slice_ok_alter; [done|]. intros; congruence.
  - specialize (Hg (S (len s))). split_and!.
    + eexists. simpl. rewrite lookup_app_r, Nat.sub_diag by lia. simpl.
      split_and!; [done| |lia]. rewrite length_app, Hlen; simpl. rewrite length_replicate. lia.
    + unfold contents at 1, array at 1. simpl. rewrite lookup_app_r, Nat.sub_diag by lia. simpl.
      rewrite take_app_ge by lia. rewrite Hlen.
      replace (S (len s) - len s)%nat with 1%nat by lia. done.
    + rewrite length_app; simpl; lia.
    + by right.
    + intros t Ht Hne. split; [by apply slice_ok_alloc|by apply contents_alloc].
Qed.

Lemma make_ok hp n c :
  (0 <= n <= c)%Z ->
  make hp n c = Ok (mkSlice (length hp) (Z.to_nat n) (Z.to_nat c),
                    hp ++ [replicate (Z.to_nat c) zero_value]).
Proof.
  intros H. unfold make. destruct (Z.ltb_spec n 0), (Z.ltb_spec c n); try lia. done.
Qed.

Lemma slice_ok_new hp n c :
  (n <= c)%nat -> slice_ok (hp ++ [replicate c zero_value]) (mkSlice (length hp) n c).
Proof.
  intros H. eexists. simpl. rewrite lookup_app_r, Nat.sub_diag by lia. simpl.
  split_and!; [done|by rewrite length_replicate|done].
Qed.

(** Copying into a fresh slice of the same length. *)
Lemma copy_new hp src n :
  slice_ok hp src -> n = len src ->
  let dst := mkSlice (length hp) n n in
  let hp' := copy (hp ++ [replicate n zero_value]) dst src in
  slice_ok hp' dst /\ contents hp' dst = contents hp src /\
  (length hp' = S (length hp)) /\
  forall t, slice_ok hp t -> slice_ok hp' t /\ contents hp' t = contents hp t.
Proof.
  intros Hs ->. cbv zeta. pose proof (length_contents _ _ Hs) as Hlen.
  unfold copy. simpl. rewrite Nat.min_id, contents_alloc by done.
  set (f := fun l => take (len src) (contents hp src) ++ drop (len src) l).
  assert (forall l, length l = len src -> f l = contents hp src) as Hf.
  { intros l Hl. unfold f. rewrite drop_ge, app_nil_r by lia. by rewrite take_ge by lia. }
  assert (alter f (length hp) (hp ++ [replicate (len src) zero_value])
    = hp ++ [contents hp src]) as ->.
  { rewrite alter_app_r_alt, Nat.sub_diag by lia. simpl.
    by rewrite Hf by apply length_replicate. }
  split_and!.
  - eexists. simpl. rewrite lookup_app_r, Nat.sub_diag by lia. simpl. done.
  - unfold contents at 1, array. simpl. rewrite lookup_app_r, Nat.sub_diag by lia. simpl.
    by rewrite take_ge by lia.
  - rewrite length_app; simpl; lia.
  - intros t Ht. split; [by apply slice_ok_alloc|by apply contents_alloc].
Qed.

Lemma reslice0_ok hp s : slice_ok hp s -> slice_ok hp (reslice0 s).
Proof. intros (l & ? & ? & ?). exists l. simpl. split_and!; [done|done|lia]. Qed.

Lemma contents_reslice0 hp s : contents hp (reslice0 s) = [].
Proof. done. Qed.

End slices.
