(* ===== verification/Sender.v ===== *)
(** * The HTTP sender: construction, batching, one delivery

    Models [src/pkg/sender/http_sender.go].  This file has the sequential parts:
    the constructors, the batch under the lock ([SendWithContext],
    [flushLockedWithContext]) on real slices, and one delivery
    ([sendBatchWithContext]) with its effects in order.  The goroutines and the
    channels are in [SenderSystem].

    Parameters: the URL parser and [http.Client.Do] (the record [network]), the
    random source, the certificate store, the ciphers, the OAuth2 client. *)
From stdpp Require Import pretty.
From S2P Require Import Prelude Utf8 GoStrings Http MapRange Host Config Tls Auth Encryption Json Slices.

(** A [context.Context]: the root, one that somebody may cancel, or one derived
    from another by [tracer.Start]. *)
Inductive context : Type :=
| Background
| Cancellable (id : nat)
| WithSpan (parent : context) (name : string).

#[global] Instance context_eq_dec : EqDecision context.
Proof. solve_decision. Defined.

(** [http.Client]: its timeout and the TLS settings of its transport. *)
Record http_client (P : pki) := mkClient {
  Timeout : Z;
  TLSClientConfig : option (tls_Config P);
}.
Arguments mkClient {P}.
Arguments Timeout {P}.
Arguments TLSClientConfig {P}.

(** The network: does [url.Parse] accept the address, and what does
    [client.Do] answer (the status code of the response, or an error). *)
Record network (P : pki) := mkNetwork {
  url_Parse : string -> result unit;
  client_Do : http_client P -> context -> Request -> result Z;
}.
Arguments mkNetwork {P}.
Arguments url_Parse {P}.
Arguments client_Do {P}.

(** [http.NewRequestWithContext] with a valid method and a non-nil context. *)
Definition NewRequest {P} (net : network P) (method url : string) (body : bytes) : result Request :=
  _ ← url_Parse net url; Ok (mkRequest method url ∅ body).

(** What a delivery does that can be observed, in order. *)
Inductive effect : Type :=
| SpanStart (name : string)
| SetAttributes (batch_size : Z) (server_url : string)
| RecordError (error_type : string) (err : error)
| ClientDo (ctx : context) (req : Request)
| BodyClose
| SpanEnd.

Abbreviation outcome := (list effect * result unit)%type.

Definition emit (e : effect) (o : outcome) : outcome := (e :: o.1, o.2).
(** [defer] *)
Definition deferred (e : effect) (o : outcome) : outcome := (o.1 ++ [e], o.2).

Record HTTPSender (O : oauth2) (P : pki) := mkHTTPSender {
  serverURL : string;
  batchSize : Z;
  flushInterval : Z;
  client : http_client P;
  batch : slice;
  stopCh : bool;      (* closed? *)
  stoppedCh : bool;   (* closed? *)
  tracer : bool;      (* non-nil? *)
  authProvider : option (AuthProvider O);
  encryptionProvider : option EncryptionProvider;
}.
Arguments mkHTTPSender {O P}.
Arguments serverURL {O P}.
Arguments batchSize {O P}.
Arguments flushInterval {O P}.
Arguments client {O P}.
Arguments batch {O P}.
Arguments stopCh {O P}.
Arguments stoppedCh {O P}.
Arguments tracer {O P}.
Arguments authProvider {O P}.
Arguments encryptionProvider {O P}.

Definition with_batch {O P} (b : slice) (s : HTTPSender O P) : HTTPSender O P :=
  mkHTTPSender (serverURL s) (batchSize s) (flushInterval s) (client s) b
    (stopCh s) (stoppedCh s) (tracer s) (authProvider s) (encryptionProvider s).
Definition with_stopCh {O P} (c : bool) (s : HTTPSender O P) : HTTPSender O P :=
  mkHTTPSender (serverURL s) (batchSize s) (flushInterval s) (client s) (batch s)
    c (stoppedCh s) (tracer s) (authProvider s) (encryptionProvider s).
Definition with_stoppedCh {O P} (c : bool) (s : HTTPSender O P) : HTTPSender O P :=
  mkHTTPSender (serverURL s) (batchSize s) (flushInterval s) (client s) (batch s)
    (stopCh s) c (tracer s) (authProvider s) (encryptionProvider s).

Abbreviation line_heap := (list (list bytes)).

Section sender.
Context {O : oauth2} {P : pki}.

(** ** Constructors *)

Definition NewHTTPSender (hp : line_heap) (url : string) (size interval : Z)
    : result (HTTPSender O P * line_heap) :=
  let size := if (size <=? 0)%Z then 1%Z else size in
  let interval := if (interval <=? 0)%Z then (1 * Second)%Z else interval in
  b ← make [] hp 0 size;
  Ok (mkHTTPSender url size interval (mkClient (10 * Second) None) b.1
        false false false None None, b.2).

Definition NewSecureHTTPSender (table : N -> N) (C : ciphers) (h : host) (now : Z)
    (hp : line_heap) (cfg : Config.t) : result (HTTPSender O P * line_heap) :=
  let sec := Config.Security cfg in
  b ← make [] hp 0 (Config.BatchSize cfg);
  tls ← (if TLSConfig.Enabled (SecurityConfig.TLS sec) then
           wrap_err "error creating TLS config: %v"
             (CreateTLSConfig P table h (SecurityConfig.TLS sec))
         else Ok None);
  auth ← (if negb (bool_decide (AuthConfig.Type_ (SecurityConfig.Auth sec) = "none")) then
            wrap_err "error creating auth provider: %v"
              (NewAuthProvider h (SecurityConfig.Auth sec))
          else Ok None);
  enc ← (if EncryptionConfig.Enabled (SecurityConfig.Encryption sec) then
           wrap_err "error creating encryption provider: %v"
             (NewEncryptionProvider C h now (SecurityConfig.Encryption sec))
         else Ok None);
  Ok (mkHTTPSender (Config.ServerURL cfg) (Config.BatchSize cfg) (Config.FlushInterval cfg)
        (mkClient (10 * Second) tls) b.1 false false false auth enc, b.2).

Definition SetTelemetryTracer (t : bool) (s : HTTPSender O P) : HTTPSender O P :=
  mkHTTPSender (serverURL s) (batchSize s) (flushInterval s) (client s) (batch s)
    (stopCh s) (stoppedCh s) t (authProvider s) (encryptionProvider s).

(** ** The batch, under the lock

    The last component is the goroutine that was started, if any: the context
    and the slice it is given. *)

Abbreviation spawned := (option (context * slice)).

Definition flushLockedWithContext (ctx : context) (s : HTTPSender O P) (hp : line_heap)
    : HTTPSender O P * line_heap * spawned :=
  if (len (batch s) =? 0)%nat then (s, hp, None)
  else
    let toSend := mkSlice (length hp) (len (batch s)) (len (batch s)) in
    let hp := hp ++ [replicate (len (batch s)) []] in       (* make *)
    let hp := copy hp toSend (batch s) in
    (with_batch (reslice0 (batch s)) s, hp, Some (ctx, toSend)).

Definition SendWithContext (grow : nat -> nat) (ctx : context) (line : bytes)
    (s : HTTPSender O P) (hp : line_heap) : HTTPSender O P * line_heap * spawned :=
  let '(b, hp) := append [] grow hp (batch s) line in
  let s := with_batch b s in
  if (batchSize s <=? Z.of_nat (len (batch s)))%Z
  then flushLockedWithContext ctx s hp
  else (s, hp, None).

Definition Send (grow : nat -> nat) := SendWithContext grow Background.

Definition flush (s : HTTPSender O P) (hp : line_heap) : HTTPSender O P * line_heap * spawned :=
  let ctx := if tracer s then WithSpan Background "http_sender.flush" else Background in
  flushLockedWithContext ctx s hp.

(** ** One delivery *)

Context (net : network P) (rnd : randomness) (order : map_order string).

(** [if err != nil { if s.tracer != nil { ...RecordError(err) }; return fmt.Errorf(fmt, err) }] *)
Definition check_err {A} (s : HTTPSender O P) (error_type fmt : string) (m : result A)
    (k : A -> outcome) : outcome :=
  match m with
  | Ok a => k a
  | Err e => (if tracer s then [RecordError error_type e] else [], Err (Wrapf fmt e))
  | Panic p => ([], Panic p)
  end.

Definition content_headers (s : HTTPSender O P) (req : Request) : Request :=
  match encryptionProvider s with
  | Some p =>
      let req := set_header req "Content-Type" "application/octet-stream" in
      let req := set_header req "X-Encrypted" "true" in
      set_header req "X-Key-ID" (GetKeyID p)
  | None => set_header req "Content-Type" "application/json"
  end.

Definition status_error (status : Z) : error :=
  ErrorfArg "server returned non-success status: %d" (pretty status).

Definition check_status (s : HTTPSender O P) (status : Z) : outcome :=
  if ((status <? 200) || (300 <=? status))%Z then
    (if tracer s then [RecordError "http_status" (status_error status)] else [],
     Err (status_error status))
  else ([], Ok tt).

Definition encrypt_payload (s : HTTPSender O P) (data : bytes) : result bytes :=
  match encryptionProvider s with
  | Some p => Encrypt p rnd data
  | None => Ok data
  end.

Definition authenticate_request (s : HTTPSender O P) (req : Request) : result Request :=
  match authProvider s with
  | Some p => AddAuthentication order p req
  | None => Ok req
  end.

Definition sendBatchWithContext (s : HTTPSender O P) (ctx : context) (logs : list bytes) : outcome :=
  let ctx := if tracer s then WithSpan ctx "http_sender.send_batch" else ctx in
  let body :=
    check_err s "json_marshal" "error marshaling logs: %v" (Marshal logs) (fun data =>
    check_err s "encryption" "error encrypting data: %v" (encrypt_payload s data) (fun data =>
    check_err s "create_request" "error creating request: %v"
      (NewRequest net "POST" (serverURL s) data) (fun req =>
    let req := content_headers s req in
    check_err s "authentication" "error adding authentication: %v"
      (authenticate_request s req) (fun req =>
    emit (ClientDo ctx req)
      (check_err s "http_request" "error sending request: %v"
        (client_Do net (client s) ctx req) (fun status =>
      deferred BodyClose (check_status s status))))))) in
  if tracer s then
    emit (SpanStart "http_sender.send_batch")
      (deferred SpanEnd (emit (SetAttributes (zlen logs) (serverURL s)) body))
  else body.

Definition sendBatch (s : HTTPSender O P) (logs : list bytes) : outcome :=
  sendBatchWithContext s Background logs.

(** ** The specification of a delivery *)

(** The request a batch gives rise to. *)
Definition batch_request (s : HTTPSender O P) (logs : list bytes) : result Request :=
  data ← wrap_err "error marshaling logs: %v" (Marshal logs);
  data ← wrap_err "error encrypting data: %v" (encrypt_payload s data);
  req ← wrap_err "error creating request: %v" (NewRequest net "POST" (serverURL s) data);
  wrap_err "error adding authentication: %v" (authenticate_request s (content_headers s req)).

(** What becomes of it. *)
Definition delivery_result (s : HTTPSender O P) (ctx : context) (req : Request) : result unit :=
  status ← wrap_err "error sending request: %v" (client_Do net (client s) ctx req);
  if ((200 <=? status) && (status <? 300))%Z then Ok tt else Err (status_error status).

Definition batch_context (s : HTTPSender O P) (ctx : context) : context :=
  if tracer s then WithSpan ctx "http_sender.send_batch" else ctx.

(** The requests that were put on the wire. *)
Definition requests (es : list effect) : list (context * Request) :=
  omap (fun e => match e with ClientDo c r => Some (c, r) | _ => None end) es.

Definition errors_recorded (es : list effect) : nat :=
  length (List.filter (fun e => match e with RecordError _ _ => true | _ => false end) es).

End sender.

(** ** Lemmas: the batch *)

Section batch_lemmas.
Context {O : oauth2} {P : pki} (grow : nat -> nat).
Implicit Types (s : HTTPSender O P) (hp : line_heap).

(** A slice the sender will not write to again. *)
Definition private s hp (t : slice) : Prop := slice_ok hp t /\ arr t <> arr (batch s).

(** The contract of an operation on the batch, in terms of lists: the lines
    [lines] either stay in the batch or leave it, as a whole, in a slice of
    their own that is handed to a goroutine; slices handed out before keep their
    contents. *)
Definition batch_step s hp (lines : list bytes)
    (after : HTTPSender O P * line_heap * option (context * slice)) : Prop :=
  let '(s', hp', sp) := after in
  s' = with_batch (batch s') s /\ slice_ok hp' (batch s') /\
  (forall t, private s hp t -> private s' hp' t /\ contents hp' t = contents hp t) /\
  match sp with
  | None => contents hp' (batch s') = lines
  | Some (_, t) =>
      private s' hp' t /\ contents hp' t = lines /\ lines <> [] /\ contents hp' (batch s') = []
  end.

Lemma with_batch_id s : with_batch (batch s) s = s.
Proof. by destruct s. Qed.

Lemma flushLocked_step ctx s hp :
  slice_ok hp (batch s) ->
  batch_step s hp (contents hp (batch s)) (flushLockedWithContext ctx s hp) /\
  ((flushLockedWithContext ctx s hp).2 = None <-> contents hp (batch s) = []) /\
  ((flushLockedWithContext ctx s hp).2 = None -> flushLockedWithContext ctx s hp = (s, hp, None)).
Proof.
  intros Hb. pose proof (length_contents _ _ Hb) as Hlen. unfold flushLockedWithContext.
  destruct (Nat.eqb_spec (len (batch s)) 0) as [E|E].
  - rewrite E in Hlen. apply length_zero_iff_nil in Hlen. simpl.
    rewrite with_batch_id. naive_solver.
  - destruct (copy_new [] hp (batch s) (len (batch s)) Hb eq_refl) as (Hd & Hc & Hl & Hk).
    simpl. split; [|split; [|done]].
    + split_and!; [done|by apply reslice0_ok, Hk| | | | |done].
      * intros t [Ht Hne]. destruct (Hk t Ht) as [? ?]. by split_and!.
      * split; [done|]. simpl. pose proof (slice_ok_lt _ _ Hb). lia.
      * done.
      * intros En. by rewrite En in Hlen.
    + split; [done|]. intros En. by rewrite En in Hlen.
Qed.

Lemma SendWithContext_step ctx line s hp :
  slice_ok hp (batch s) -> (forall n, n <= grow n)%nat ->
  batch_step s hp (contents hp (batch s) ++ [line]) (SendWithContext grow ctx line s hp) /\
  ((SendWithContext grow ctx line s hp).2 = None <->
   (zlen (contents hp (batch s) ++ [line]) < batchSize s)%Z).
Proof.
  intros Hb Hg. unfold SendWithContext.
  destruct (append [] grow hp (batch s) line) as [b hp1] eqn:E.
  destruct (append_spec [] grow hp (batch s) line b hp1 Hb Hg E) as (Hb1 & Hc & Hl & Ha & Hk).
  assert (forall t, private s hp t ->
    private (with_batch b s) hp1 t /\ contents hp1 t = contents hp t) as Hp.
  { intros t [Ht Hne]. destruct (Hk t Ht Hne) as [? ?]. split; [|done]. split; [done|]. simpl.
    pose proof (slice_ok_lt _ _ Ht). destruct Ha as [-> | ->]; [done|lia]. }
  assert (zlen (contents hp (batch s) ++ [line]) = Z.of_nat (len b)) as ->.
  { unfold zlen. by rewrite <- Hc, length_contents. }
  simpl. destruct (Z.leb_spec (batchSize s) (Z.of_nat (len b))).
  - destruct (flushLocked_step ctx (with_batch b s) hp1 Hb1) as (Hf & Hn & _).
    simpl in Hf, Hn. rewrite Hc in Hf, Hn. split.
    + destruct (flushLockedWithContext _ _ _) as [[s' hp'] sp]. unfold batch_step in *.
      destruct Hf as (-> & ? & Hk' & ?). split_and!; [done|done| |done].
      intros t Ht. destruct (Hp t Ht) as [Ht1 Hc1]. destruct (Hk' t Ht1) as [? ?].
      split; [done|congruence].
    + rewrite Hn. split; [intros [_ Hx]%app_nil; discriminate Hx|lia].
  - simpl. split; [|naive_solver lia]. split_and!; done.
Qed.

End batch_lemmas.

(** ** Lemmas: the request *)

(** What [oauth2.Token.SetAuthHeader] documents: it sets the Authorization header. *)
Class OAuth2Laws (O : oauth2) : Prop := set_auth_header :
  forall tok req, exists v, SetAuthHeader O tok req = set_header req "Authorization" v.

#[export] Instance no_oauth2_laws : OAuth2Laws no_oauth2.
Proof. intros []. Qed.

(** The header names a provider sets. *)
Definition auth_headers {O} (p : option (AuthProvider O)) (k : string) : Prop :=
  match p with
  | None => False
  | Some (HeaderAuthProvider hs) => exists k', is_Some (hs !! k') /\
      CanonicalMIMEHeaderKey k' = CanonicalMIMEHeaderKey k
  | Some _ => CanonicalMIMEHeaderKey k = "Authorization"
  end.

Lemma set_headers_frame l req :
  let req' := fold_left (fun r kv => set_header r kv.1 kv.2) l req in
  req_method req' = req_method req /\ req_url req' = req_url req /\ req_body req' = req_body req /\
  forall k, (forall kv, kv ∈ l -> CanonicalMIMEHeaderKey kv.1 <> CanonicalMIMEHeaderKey k) ->
    header_Get (req_header req') k = header_Get (req_header req) k.
Proof.
  revert req. induction l as [|kv l IH]; intros req; simpl; [done|].
  destruct (IH (set_header req kv.1 kv.2)) as (-> & -> & -> & H). split_and!; [done..|].
  intros k Hk. rewrite H by set_solver. simpl. apply header_Get_Set_ne, Hk. set_solver.
Qed.

(** Authentication touches nothing but its own headers. *)
Lemma AddAuthentication_frame {O : oauth2} `{!OAuth2Laws O} o (p : AuthProvider O) req req' :
  AddAuthentication o p req = Ok req' ->
  req_method req' = req_method req /\ req_url req' = req_url req /\ req_body req' = req_body req /\
  forall k, ~ auth_headers (Some p) k ->
    header_Get (req_header req') k = header_Get (req_header req) k.
Proof.
  assert (forall v k, CanonicalMIMEHeaderKey k <> "Authorization" ->
    header_Get (req_header (set_header req "Authorization" v)) k
    = header_Get (req_header req) k) as Hset.
  { intros v k Hk. apply header_Get_Set_ne. intros E. apply Hk. by rewrite <- E. }
  destruct p as [u w|t|src|hs]; cbn [AddAuthentication].
  - intros [= <-]. split_and!; [done..|]. intros k Hk. by apply Hset.
  - intros [= <-]. split_and!; [done..|]. intros k Hk. by apply Hset.
  - unfold OAuth2_AddAuthentication. destruct (Token_ O src) as [tok| |]; simpl; try done.
    destruct (set_auth_header tok req) as [v ->]. intros [= <-].
    split_and!; [done..|]. intros k Hk. by apply Hset.
  - intros [= <-]. destruct (set_headers_frame (range o hs) req) as (? & ? & ? & Hk).
    split_and!; [done..|]. intros k Hn. apply Hk. intros [k' v] Hin E.
    apply Hn. exists k'. split; [|done]. apply elem_of_range in Hin. eauto.
Qed.

Section delivery_lemmas.
Context {O : oauth2} {P : pki} (net : network P) (rnd : randomness) (order : map_order string).
Implicit Types (s : HTTPSender O P).

Lemma batch_request_inv s logs req :
  batch_request net rnd order s logs = Ok req ->
  exists data payload, Marshal logs = Ok data /\ encrypt_payload rnd s data = Ok payload /\
    authenticate_request order s
      (content_headers s (mkRequest "POST" (serverURL s) ∅ payload)) = Ok req.
Proof.
  unfold batch_request, NewRequest. intros H.
  apply bind_ok in H as (data & Hd%wrap_err_ok & H).
  apply bind_ok in H as (payload & Hp%wrap_err_ok & H).
  apply bind_ok in H as (r & Hr%wrap_err_ok & H%wrap_err_ok).
  apply bind_ok in Hr as (_ & _ & [= <-]). eauto.
Qed.

Lemma authenticate_request_frame `{!OAuth2Laws O} s req req' :
  authenticate_request order s req = Ok req' ->
  req_method req' = req_method req /\ req_url req' = req_url req /\ req_body req' = req_body req /\
  forall k, ~ auth_headers (authProvider s) k ->
    header_Get (req_header req') k = header_Get (req_header req) k.
Proof.
  unfold authenticate_request. destruct (authProvider s) as [p|].
  - apply AddAuthentication_frame.
  - by intros [= <-].
Qed.

Lemma content_headers_body s req :
  req_method (content_headers s req) = req_method req /\
  req_url (content_headers s req) = req_url req /\
  req_body (content_headers s req) = req_body req.
Proof. unfold content_headers. by destruct (encryptionProvider s). Qed.

Lemma status_2xx (status : Z) :
  ((status <? 200) || (300 <=? status))%Z = negb ((200 <=? status) && (status <? 300))%Z.
Proof. by rewrite negb_andb, <- Z.ltb_antisym, <- Z.leb_antisym. Qed.

(** The payload, as the receiver reads it. *)
Definition payload_denotes s (body : bytes) (logs : list bytes) : Prop :=
  match encryptionProvider s with
  | None => json_denotes body = Some logs
  | Some p => forall q, provider_aead q = provider_aead p -> GetKeyID q = GetKeyID p ->
      exists data, Decrypt q body = Ok data /\ json_denotes data = Some logs
  end.

(** The headers that describe the payload. *)
Definition payload_headers s : list (string * string) :=
  match encryptionProvider s with
  | None => [("Content-Type", "application/json")]
  | Some p => [("Content-Type", "application/octet-stream"); ("X-Encrypted", "true");
               ("X-Key-ID", GetKeyID p)]
  end.

Lemma content_headers_get s req k v :
  (k, v) ∈ payload_headers s -> header_Get (req_header (content_headers s req)) k = v.
Proof.
  unfold payload_headers, content_headers. destruct (encryptionProvider s) as [p|];
    intros Hin; repeat (apply elem_of_cons in Hin as [[= -> ->]|Hin];
      [simpl; rewrite ?header_Get_Set_ne by (by vm_compute); apply header_Get_Set|]);
    by apply not_elem_of_nil in Hin.
Qed.

End delivery_lemmas.

(** ** Lemmas: each part of the constructor *)

Lemma enabled_tls {P : pki} table h c (tls : option (tls_Config P)) :
  (if TLSConfig.Enabled c then
     wrap_err "error creating TLS config: %v" (CreateTLSConfig P table h c) else Ok None) = Ok tls ->
  is_Some tls <-> TLSConfig.Enabled c = true.
Proof.
  destruct (TLSConfig.Enabled c) eqn:E.
  - rewrite wrap_err_ok. unfold CreateTLSConfig. rewrite E. intros H.
    repeat (apply bind_ok in H as (? & _ & H)). injection H as <-. naive_solver.
  - intros [= <-]. by split; [intros [? [=]]|].
Qed.

Lemma enabled_auth {O : oauth2} h c (auth : option (AuthProvider O)) :
  (if negb (bool_decide (AuthConfig.Type_ c = "none")) then
     wrap_err "error creating auth provider: %v" (NewAuthProvider h c) else Ok None) = Ok auth ->
  is_Some auth <-> AuthConfig.Type_ c <> "none".
Proof.
  case_bool_decide as E; simpl.
  - intros [= <-]. by split; [intros [? [=]]|].
  - rewrite wrap_err_ok. unfold NewAuthProvider, NewTokenAuthProvider. intros H.
    repeat case_bool_decide; try done; go_inv; naive_solver.
Qed.

Lemma enabled_encryption C h now c enc :
  (if EncryptionConfig.Enabled c then
     wrap_err "error creating encryption provider: %v" (NewEncryptionProvider C h now c)
   else Ok None) = Ok enc ->
  is_Some enc <-> EncryptionConfig.Enabled c = true.
Proof.
  destruct (EncryptionConfig.Enabled c) eqn:E.
  - rewrite wrap_err_ok. unfold NewEncryptionProvider. rewrite E. simpl. intros H.
    apply bind_ok in H as ([key id] & _ & H). go_inv; naive_solver.
  - intros [= <-]. by split; [intros [? [=]]|].
Qed.

Module SenderProperties.

(** C9. One delivery, on every path.  If the request cannot be built (encryption,
    address or authentication fails) nothing is sent and the wrapped error is
    returned; otherwise exactly one request is sent, the one the specification
    [batch_request] builds, and the call succeeds exactly on a status in
    200..299.  There is no second attempt.  With a tracer the span is opened
    first and closed last, and an error is recorded exactly when one is
    returned; without a tracer nothing is recorded. *)
Theorem sendBatch_refines {O P} (net : network P) rnd order (s : HTTPSender O P) ctx logs :
  let '(es, r) := sendBatchWithContext net rnd order s ctx logs in
  (match batch_request net rnd order s logs with
   | Ok req => requests es = [(batch_context s ctx, req)] /\
               r = delivery_result net s (batch_context s ctx) req
   | Err e => requests es = [] /\ r = Err e
   | Panic p => requests es = [] /\ r = Panic p
   end) /\
  errors_recorded es = (match r with Err _ => if tracer s then 1 else 0 | _ => 0 end)%nat /\
  (tracer s = true -> exists mid, es = SpanStart "http_sender.send_batch" :: mid ++ [SpanEnd]).
Proof.
  unfold sendBatchWithContext, batch_request, delivery_result, batch_context, check_status.
  destruct (tracer s) eqn:Et; unfold check_err; rewrite ?Et;
  (destruct (Marshal logs) as [data| |]; simpl;
    [destruct (encrypt_payload rnd s data) as [payload| |]; simpl;
      [destruct (NewRequest net "POST" (serverURL s) payload) as [req| |]; simpl;
        [destruct (authenticate_request order s (content_headers s req)) as [req'| |]; simpl;
          [destruct (client_Do net (client s) _ req') as [status| |]; simpl;
            [rewrite status_2xx; destruct ((200 <=? status) && (status <? 300))%Z; simpl| |]
            | |]| |]| |]| |]);
  split_and!; try done; intros _.
  all: match goal with |- exists mid, _ :: ?l = _ => exists (removelast l) end; reflexivity.
Qed.

(** C11. What the server gets: a POST to the configured address whose body, after
    decryption with the same cipher and key identifier where encryption is
    configured, is the JSON array of exactly the lines of the batch, in order
    (invalid UTF-8 replaced); the Content-Type, X-Encrypted and X-Key-ID headers
    say which of the two it is, unless the configured authentication headers
    redefine them. *)
Theorem batch_request_payload {O P} (net : network P) rnd order (s : HTTPSender O P) logs req :
  OAuth2Laws O -> fills rnd ->
  (forall p, encryptionProvider s = Some p -> AEADLaws (provider_aead p)) ->
  batch_request net rnd order s logs = Ok req ->
  req_method req = "POST" /\ req_url req = serverURL s /\
  payload_denotes s (req_body req) (map ToValidUTF8 logs) /\
  forall k v, (k, v) ∈ payload_headers s -> ~ auth_headers (authProvider s) k ->
    header_Get (req_header req) k = v.
Proof.
  intros HO Hr HA (data & payload & Hd & Hp & Ha)%batch_request_inv.
  apply (authenticate_request_frame order s) in Ha as (-> & -> & -> & Hh).
  destruct (content_headers_body s (mkRequest "POST" (serverURL s) ∅ payload)) as (-> & -> & ->).
  split_and!; [done|done| |].
  - destruct (Marshal_reads logs) as (data' & Hd' & Hden).
    assert (data' = data) as -> by congruence.
    unfold payload_denotes, encrypt_payload in *.
    destruct (encryptionProvider s) as [p|]; [|by assert (payload = data) as -> by congruence].
    intros q Hq Hi. exists data. split; [|done]. by eapply (Encrypt_Decrypt p q rnd (data)); eauto.
  - intros k v Hin Hn. rewrite Hh by done. by apply content_headers_get.
Qed.

(** What the secure constructor builds. *)
Lemma secure_sender_fields {O P} table C h now hp cfg (s : HTTPSender O P) hp' :
  NewSecureHTTPSender table C h now hp cfg = Ok (s, hp') -> Config.BatchSize cfg <> 0%Z ->
  serverURL s = Config.ServerURL cfg /\ batchSize s = Config.BatchSize cfg /\ (1 <= batchSize s)%Z /\
  slice_ok hp' (batch s) /\ contents hp' (batch s) = [] /\
  stopCh s = false /\ stoppedCh s = false /\ Timeout (client s) = (10 * Second)%Z /\
  (is_Some (TLSClientConfig (client s)) <->
     TLSConfig.Enabled (SecurityConfig.TLS (Config.Security cfg)) = true) /\
  (is_Some (authProvider s) <->
     AuthConfig.Type_ (SecurityConfig.Auth (Config.Security cfg)) <> "none") /\
  (is_Some (encryptionProvider s) <->
     EncryptionConfig.Enabled (SecurityConfig.Encryption (Config.Security cfg)) = true).
Proof.
  intros H Hb0. unfold NewSecureHTTPSender in H.
  apply bind_ok in H as (b & Hb & H).
  apply bind_ok in H as (tls & Ht & H).
  apply bind_ok in H as (auth & Ha & H).
  apply bind_ok in H as (enc & He & [= <- <-]).
  assert (0 <= Config.BatchSize cfg)%Z as Hpos.
  { unfold make in Hb. simpl in Hb. by destruct (Z.ltb_spec (Config.BatchSize cfg) 0). }
  rewrite make_ok in Hb by lia. injection Hb as <-. simpl.
  split_and!; try done; try lia.
  - apply slice_ok_new. lia.
  - by apply (enabled_tls table h).
  - by apply (enabled_auth h).
  - by apply (enabled_encryption C h now).
Qed.

(** C27. The sender of a loaded configuration: a negative batch size, which
    loading accepts, makes the constructor panic; otherwise, if the constructor
    succeeds, the sender has the configured address and a batch size of at least
    one, an empty batch, open channels, a ten-second timeout, TLS settings
    exactly when TLS is enabled, an authentication provider exactly when the type
    is not [none], and an encryption provider exactly when encryption is
    enabled: no configured protection is silently dropped. *)
Theorem NewSecureHTTPSender_loaded {O P} unmarshal table C h now path hp cfg :
  LoadConfig unmarshal h path = Ok cfg ->
  (Config.BatchSize cfg < 0 ->
     NewSecureHTTPSender (O := O) (P := P) table C h now hp cfg
     = Panic "makeslice: cap out of range")%Z /\
  forall s hp', NewSecureHTTPSender (O := O) (P := P) table C h now hp cfg = Ok (s, hp') ->
    serverURL s = Config.ServerURL cfg /\ serverURL s <> "" /\
    batchSize s = Config.BatchSize cfg /\ (1 <= batchSize s)%Z /\
    slice_ok hp' (batch s) /\ contents hp' (batch s) = [] /\
    stopCh s = false /\ stoppedCh s = false /\ Timeout (client s) = (10 * Second)%Z /\
    (is_Some (TLSClientConfig (client s)) <->
       TLSConfig.Enabled (SecurityConfig.TLS (Config.Security cfg)) = true) /\
    (is_Some (authProvider s) <->
       AuthConfig.Type_ (SecurityConfig.Auth (Config.Security cfg)) <> "none") /\
    (is_Some (encryptionProvider s) <->
       EncryptionConfig.Enabled (SecurityConfig.Encryption (Config.Security cfg)) = true).
Proof.
  intros HL. pose proof HL as (raw & Eraw & Hv)%LoadConfig_inv.
  assert (Config.BatchSize cfg <> 0%Z) as Hb0.
  { destruct (set_defaults_defaulted h raw) as [? _]. by subst. }
  destruct Hv as (_ & _ & _ & _ & Hurl).
  split.
  - intros Hneg. unfold NewSecureHTTPSender, make. simpl.
    by rewrite (proj2 (Z.ltb_lt _ _) Hneg).
  - intros s hp' H. destruct (secure_sender_fields _ _ _ _ _ _ _ _ H Hb0) as (-> & ?). naive_solver.
Qed.

(** A certificate store without certificates, a network that answers 200, and a
    sender with a bearer token and encryption. *)
Definition no_pki : pki := mkPki Empty_set (fun _ => false) (fun _ _ => Err (External "no key pair")).
Definition ok_network : network no_pki := mkNetwork (fun _ => Ok tt) (fun _ _ _ => Ok 200%Z).
Definition example_sender : HTTPSender no_oauth2 no_pki :=
  mkHTTPSender "http://logs/" 2 Second (mkClient (10 * Second) None) (mkSlice 0 0 2)
    false false true (Some (TokenAuthProvider "tok")) (Some (AESGCMProvider toy_aead "k1")).

Lemma batch_request_payload_witness :
  exists req, batch_request ok_network zero_random canonical_order example_sender
      [go_bytes "a"; go_bytes "b"] = Ok req /\
    header_Get (req_header req) "X-Key-ID" = "k1" /\
    exists data, Decrypt (AESGCMProvider toy_aead "k1") (req_body req) = Ok data /\
      json_denotes data = Some [go_bytes "a"; go_bytes "b"].
Proof.
  eexists. split; [reflexivity|].
  edestruct (batch_request_payload ok_network zero_random canonical_order example_sender
    [go_bytes "a"; go_bytes "b"]) as (_ & _ & Hp & Hh).
  - exact no_oauth2_laws.
  - exact zero_random_fills.
  - intros p [= <-]. exact toy_aead_laws.
  - reflexivity.
  - split.
    + apply Hh; [|vm_compute; discriminate].
      apply elem_of_cons; right. apply elem_of_cons; right. apply elem_of_cons; left. reflexivity.
    + apply Hp; reflexivity.
Defined.

Definition negative_batch : Config.t :=
  let c := ConfigProperties.raw_example in
  Config.mk (Config.LogPath c) (Config.ServerURL c) (-1) (Config.FlushInterval c)
    (Config.LogSourceType c) (Config.Namespace c) (Config.PodName c) (Config.ContainerName c)
    (Config.PodSelector c) (Config.NamespaceSelector c) (Config.WindowsEventLogName c)
    (Config.WindowsEventLogLevel c) (Config.MacOSLogQuery c) (Config.Telemetry c) (Config.Security c).

Lemma NewSecureHTTPSender_loaded_witness :
  let h := ConfigProperties.example_host in
  let new raw := NewSecureHTTPSender (O := no_oauth2) (P := no_pki) id toy_ciphers h 0 []
                   (set_defaults h raw) in
  (exists s hp', new ConfigProperties.raw_example = Ok (s, hp') /\ (1 <= batchSize s)%Z) /\
  new negative_batch = Panic "makeslice: cap out of range".
Proof.
  cbv zeta. split.
  - eexists _, _. split; [reflexivity|].
    eapply (NewSecureHTTPSender_loaded (fun _ => Ok ConfigProperties.raw_example) id toy_ciphers
      ConfigProperties.example_host 0 "config.yaml" []); reflexivity.
  - apply (NewSecureHTTPSender_loaded (fun _ => Ok negative_batch) id toy_ciphers
      ConfigProperties.example_host 0 "config.yaml" []); reflexivity.
Defined.

End SenderProperties.
