(* ===== verification/SenderSystem.v ===== *)
(** * The HTTP sender as a concurrent system

    Models the goroutines and channels of [src/pkg/sender/http_sender.go]:
    [Start], [flushLoop], [Stop], the callers of [Send] and the goroutines that
    [flushLockedWithContext] starts.  A step is what happens atomically: a
    critical section under [s.lock], one communication of a [select], one
    [close], one delivery (which only reads a slice nobody writes any more; that
    this is so is part of the invariant).  An interleaving is a list of labels;
    [exec] runs one label and is undefined when the step is not enabled. *)
From S2P Require Import Prelude MapRange Http Host Auth Tls Encryption Slices Sender.

(** Where a [flushLoop] goroutine is: in its [select]; in the deferred function,
    before the flush; after the flush; done. *)
Inductive loop_pc := Looping | Deferred | Flushed | Exited.

(** Where a call of [Stop] is: waiting for [stoppedCh]; returned from waiting;
    returned at once because [stopCh] was closed already. *)
Inductive stop_pc := Waiting | Returned | AlreadyStopped.

#[global] Instance loop_pc_eq_dec : EqDecision loop_pc.
Proof. solve_decision. Defined.
#[global] Instance stop_pc_eq_dec : EqDecision stop_pc.
Proof. solve_decision. Defined.

(** A call of [Stop], with the lines that had been accepted when it was made. *)
Record stop_call := mkStop { stop_at : stop_pc; stop_saw : list bytes }.

(** The whole system.  [accepted] (every line given to [Send], in order) and
    [dispatched] (the contents of every slice handed to a goroutine, in order)
    are history: no step looks at them. *)
Record system (O : oauth2) (P : pki) := mkSystem {
  snd_ : HTTPSender O P;
  hp_ : line_heap;
  loops : list loop_pc;
  stops : list stop_call;
  inflight : list (context * slice);
  finished : list (list bytes * result unit);
  panicked : option string;
  accepted : list bytes;
  dispatched : list (list bytes);
}.
Arguments mkSystem {O P}.
Arguments snd_ {O P}.
Arguments hp_ {O P}.
Arguments loops {O P}.
Arguments stops {O P}.
Arguments inflight {O P}.
Arguments finished {O P}.
Arguments panicked {O P}.
Arguments accepted {O P}.
Arguments dispatched {O P}.

Inductive label (P : pki) :=
| LSend (ctx : context) (line : bytes)    (* SendWithContext *)
| LStart                                  (* Start *)
| LTick (i : nat)                         (* flushLoop i: case <-ticker.C *)
| LLoopStop (i : nat)                     (* flushLoop i: case <-s.stopCh *)
| LDeferFlush (i : nat)                   (* flushLoop i: deferred s.flush() *)
| LClose (i : nat)                        (* flushLoop i: close(s.stoppedCh) *)
| LStop                                   (* Stop, up to the receive *)
| LStopReturn (j : nat)                   (* call j of Stop: <-s.stoppedCh *)
| LDeliver (k : nat) (net : network P) (rnd : randomness) (order : map_order string).
Arguments LSend {P}.
Arguments LStart {P}.
Arguments LTick {P}.
Arguments LLoopStop {P}.
Arguments LDeferFlush {P}.
Arguments LClose {P}.
Arguments LStop {P}.
Arguments LStopReturn {P}.
Arguments LDeliver {P}.

Section system.
Context {O : oauth2} {P : pki} (grow : nat -> nat).
Abbreviation sys := (system O P).

(** A freshly constructed sender. *)
Definition initial (s : HTTPSender O P) (hp : line_heap) : sys :=
  mkSystem s hp [] [] [] [] None [] [].

(** The result of an operation on the batch; a started goroutine joins the ones
    in flight. *)
Definition after_batch (y : sys) (lps : list loop_pc) (acc : list bytes)
    (r : HTTPSender O P * line_heap * option (context * slice)) : sys :=
  let '(s, hp, sp) := r in
  mkSystem s hp lps (stops y)
    (inflight y ++ match sp with Some g => [g] | None => [] end) (finished y) (panicked y) acc
    (dispatched y ++ match sp with Some (_, t) => [contents hp t] | None => [] end).

Definition with_loops (y : sys) (s : HTTPSender O P) (lps : list loop_pc) : sys :=
  mkSystem s (hp_ y) lps (stops y) (inflight y) (finished y) (panicked y) (accepted y) (dispatched y).
Definition with_stops (y : sys) (s : HTTPSender O P) (sts : list stop_call) : sys :=
  mkSystem s (hp_ y) (loops y) sts (inflight y) (finished y) (panicked y) (accepted y) (dispatched y).
Definition with_panic (y : sys) (msg : string) : sys :=
  mkSystem (snd_ y) (hp_ y) (loops y) (stops y) (inflight y) (finished y) (Some msg)
    (accepted y) (dispatched y).

(** [if loop i is at pc then k] *)
Definition at_pc (y : sys) (i : nat) (pc : loop_pc) (k : option sys) : option sys :=
  if bool_decide (loops y !! i = Some pc) then k else None.

Definition step_Start (y : sys) : sys := with_loops y (snd_ y) (loops y ++ [Looping]).

(** [close(s.stopCh)] by a call of [Stop] that then waits; closing a closed
    channel panics. *)
Definition close_stopCh (y : sys) : sys :=
  if stopCh (snd_ y) then with_panic y "close of closed channel"
  else with_stops y (with_stopCh true (snd_ y)) (stops y ++ [mkStop Waiting (accepted y)]).

(** [Stop], up to its receive: the [select] on [stopCh] under [s.lock]. *)
Definition step_Stop (y : sys) : sys :=
  if stopCh (snd_ y) then with_stops y (snd_ y) (stops y ++ [mkStop AlreadyStopped (accepted y)])
  else close_stopCh y.

Definition step_StopReturn (j : nat) (y : sys) : option sys :=
  match stops y !! j with
  | Some (mkStop Waiting saw) =>
      if stoppedCh (snd_ y) then Some (with_stops y (snd_ y) (<[j := mkStop Returned saw]> (stops y)))
      else None
  | _ => None
  end.

Definition step_Close (i : nat) (y : sys) : sys :=
  if stoppedCh (snd_ y) then with_panic y "close of closed channel"
  else with_loops y (with_stoppedCh true (snd_ y)) (<[i := Exited]> (loops y)).

(** One delivery.  The packages it calls return; a step in which one of them
    panicked is not a step of the system. *)
Definition step_Deliver (k : nat) (net : network P) rnd order (y : sys) : option sys :=
  match inflight y !! k with
  | Some (ctx, t) =>
      let lines := contents (hp_ y) t in
      let r := sendBatchWithContext net rnd order (snd_ y) ctx lines in
      if is_panic r.2 then None
      else Some (mkSystem (snd_ y) (hp_ y) (loops y) (stops y) (delete k (inflight y))
                   (finished y ++ [(lines, r.2)]) (panicked y) (accepted y) (dispatched y))
  | None => None
  end.

Definition exec (l : label P) (y : sys) : option sys :=
  match panicked y with
  | Some _ => None
  | None =>
      match l with
      | LSend ctx line =>
          Some (after_batch y (loops y) (accepted y ++ [line])
                  (SendWithContext grow ctx line (snd_ y) (hp_ y)))
      | LStart => Some (step_Start y)
      | LTick i => at_pc y i Looping (Some (after_batch y (loops y) (accepted y) (flush (snd_ y) (hp_ y))))
      | LLoopStop i => at_pc y i Looping
          (if stopCh (snd_ y) then Some (with_loops y (snd_ y) (<[i := Deferred]> (loops y))) else None)
      | LDeferFlush i => at_pc y i Deferred
          (Some (after_batch y (<[i := Flushed]> (loops y)) (accepted y) (flush (snd_ y) (hp_ y))))
      | LClose i => at_pc y i Flushed (Some (step_Close i y))
      | LStop => Some (step_Stop y)
      | LStopReturn j => step_StopReturn j y
      | LDeliver k net rnd order => step_Deliver k net rnd order y
      end
  end.

Fixpoint run (tr : list (label P)) (y : sys) : option sys :=
  match tr with
  | [] => Some y
  | l :: tr => y' ← exec l y; run tr y'
  end.

(** The systems an interleaving can lead to. *)
Inductive reachable (y0 : sys) : list (label P) -> sys -> Prop :=
| reach_here : reachable y0 [] y0
| reach_step tr y l y' : reachable y0 tr y -> exec l y = Some y' -> reachable y0 (tr ++ [l]) y'.

(** The lines given to [Send] and the number of calls of [Start] in a trace. *)
Definition sends (tr : list (label P)) : list bytes :=
  omap (fun l => match l with LSend _ line => Some line | _ => None end) tr.
Definition starts (tr : list (label P)) : nat :=
  length (List.filter (fun l => match l with LStart => true | _ => false end) tr).

End system.

(** ** The data invariant *)

Section invariants.
Context {O : oauth2} {P : pki} (grow : nat -> nat) (grow_ok : forall n, (n <= grow n)%nat).
Implicit Types (y : system O P).

Definition pending y : list bytes := contents (hp_ y) (batch (snd_ y)).
Definition carried y : list (list bytes) :=
  map (fun g => contents (hp_ y) g.2) (inflight y) ++ map fst (finished y).

Record data_inv (n : Z) y : Prop := {
  inv_size : batchSize (snd_ y) = n;
  inv_batch : slice_ok (hp_ y) (batch (snd_ y));
  inv_private : Forall (fun g => private (snd_ y) (hp_ y) g.2) (inflight y);
  inv_order : concat (dispatched y) ++ pending y = accepted y;
  inv_carried : carried y ≡ₚ dispatched y;
  inv_bounds : Forall (fun b => b <> [] /\ (zlen b <= Z.max 1 n)%Z) (dispatched y);
  inv_pending : (zlen (pending y) < Z.max 1 n)%Z;
}.

(** Slices handed out earlier keep their contents over an operation on the batch. *)
Lemma private_kept y (s' : HTTPSender O P) hp' :
  Forall (fun g => private (snd_ y) (hp_ y) g.2) (inflight y) ->
  (forall t, private (snd_ y) (hp_ y) t -> private s' hp' t /\ contents hp' t = contents (hp_ y) t) ->
  Forall (fun g => private s' hp' g.2) (inflight y) /\
  map (fun g => contents hp' g.2) (inflight y) = map (fun g => contents (hp_ y) g.2) (inflight y).
Proof.
  intros HF Hk. split.
  - eapply Forall_impl; [exact HF|]. intros g Hg. by apply Hk.
  - apply map_ext_in. intros g Hg%list_elem_of_In. rewrite Forall_forall in HF. by apply Hk, HF.
Qed.

Lemma after_batch_inv n y lps lines acc r :
  data_inv n y -> batch_step (snd_ y) (hp_ y) lines r ->
  acc = concat (dispatched y) ++ lines -> (zlen lines <= Z.max 1 n)%Z ->
  (r.2 = None -> zlen lines < Z.max 1 n)%Z ->
  data_inv n (after_batch y lps acc r).
Proof.
  intros [Hsz Hb Hp Ho Hc Hbd Hpd] Hstep -> Hle Hlt.
  destruct r as [[s' hp'] [[c t]|]]; simpl in Hlt; unfold after_batch, batch_step in *;
    destruct Hstep as (Es & Hb' & Hk & Hr);
    destruct (private_kept y s' hp' Hp Hk) as [HF HM];
    constructor; unfold pending, carried in *; simpl.
  - by rewrite Es.
  - done.
  - apply Forall_app. split; [done|]. apply Forall_singleton. apply Hr.
  - destruct Hr as (_ & -> & _ & ->). by rewrite concat_snoc, app_nil_r.
  - rewrite map_app, HM; simpl. rewrite <- Hc.
    rewrite <- !(assoc_L (++)). f_equiv. apply Permutation_app_comm.
  - destruct Hr as (_ & -> & Hne & _). apply Forall_app. split; [done|]. by apply Forall_singleton.
  - destruct Hr as (_ & _ & _ & ->). unfold zlen; simpl. lia.
  - by rewrite Es.
  - done.
  - by rewrite app_nil_r.
  - by rewrite app_nil_r, Hr.
  - by rewrite !app_nil_r, HM.
  - by rewrite app_nil_r.
  - rewrite Hr. by apply Hlt.
Qed.

Lemma flush_inv n y lps :
  data_inv n y -> data_inv n (after_batch y lps (accepted y) (flush (snd_ y) (hp_ y))).
Proof.
  intros H. unfold flush. set (ctx := if tracer _ then _ else _).
  destruct (flushLocked_step ctx (snd_ y) (hp_ y) (inv_batch _ _ H)) as (Hs & Hn & _).
  pose proof (inv_pending _ _ H). unfold pending in *.
  eapply after_batch_inv; [done|done| |lia|done]. by rewrite <- (inv_order _ _ H).
Qed.

(** After a flush nothing is pending: everything accepted has been dispatched. *)
Lemma flush_empties n y lps :
  data_inv n y ->
  let y' := after_batch y lps (accepted y) (flush (snd_ y) (hp_ y)) in
  pending y' = [] /\ concat (dispatched y') = accepted y.
Proof.
  intros H y'. pose proof (inv_order _ _ (flush_inv n y lps H)) as Ho. fold y' in Ho.
  assert (pending y' = []) as Hp.
  { subst y'. unfold flush, pending. set (ctx := if tracer _ then _ else _).
    destruct (flushLocked_step ctx (snd_ y) (hp_ y) (inv_batch _ _ H)) as (Hs & Hn & _).
    destruct (flushLockedWithContext ctx _ _) as [[s' hp'] [[c t]|]] eqn:E; simpl in *.
    - apply Hs.
    - destruct Hs as (_ & _ & _ & ->). by apply Hn. }
  split; [done|]. rewrite Hp, app_nil_r in Ho. rewrite Ho. subst y'. unfold after_batch.
  by destruct (flush _ _) as [[? ?] ?].
Qed.

Lemma send_inv n y ctx line :
  data_inv n y ->
  data_inv n (after_batch y (loops y) (accepted y ++ [line])
                (SendWithContext grow ctx line (snd_ y) (hp_ y))).
Proof.
  intros H. destruct (SendWithContext_step grow ctx line (snd_ y) (hp_ y) (inv_batch _ _ H) grow_ok)
    as (Hs & Hn). pose proof (inv_pending _ _ H) as Hp. unfold pending in Hp.
  rewrite (inv_size _ _ H) in Hn. eapply after_batch_inv; [done|done| | |].
  - by rewrite <- (inv_order _ _ H), (assoc_L (++)).
  - rewrite zlen_app. unfold zlen at 2; simpl. lia.
  - intros E. apply Hn in E. lia.
Qed.

(** Only the fields that the data invariant does not mention change. *)
Lemma control_inv n y y' :
  data_inv n y -> batchSize (snd_ y') = batchSize (snd_ y) -> batch (snd_ y') = batch (snd_ y) ->
  hp_ y' = hp_ y -> inflight y' = inflight y -> finished y' = finished y ->
  accepted y' = accepted y -> dispatched y' = dispatched y -> data_inv n y'.
Proof.
  intros [] E1 E2 E3 E4 E5 E6 E7. unfold pending, carried, private in *.
  constructor; unfold pending, carried, private in *;
    rewrite ?E1, ?E2, ?E3, ?E4, ?E5, ?E6, ?E7; done.
Qed.

Lemma deliver_inv n y k net rnd order y' :
  data_inv n y -> step_Deliver k net rnd order y = Some y' -> data_inv n y'.
Proof.
  intros [Hsz Hb Hp Ho Hc Hbd Hpd]. unfold step_Deliver.
  destruct (inflight y !! k) as [[c t]|] eqn:E; [|done]. simpl.
  destruct (is_panic _); [done|]. intros [= <-].
  constructor; unfold pending, carried in *; simpl; try done.
  - by apply Forall_delete.
  - rewrite <- Hc. rewrite map_app; simpl.
    rewrite (delete_Permutation _ _ _ E) at 2; simpl.
    rewrite (assoc_L (++)), <- Permutation_cons_append. done.
Qed.

Lemma exec_data_inv n y l y' : data_inv n y -> exec grow l y = Some y' -> data_inv n y'.
Proof.
  intros H. unfold exec, at_pc, step_Start, step_Stop, close_stopCh, step_StopReturn, step_Close.
  destruct (panicked y); [done|]. destruct l; intros E.
  - injection E as <-. by apply send_inv.
  - injection E as <-. by eapply control_inv.
  - case_bool_decide; simplify_eq. by apply flush_inv.
  - case_bool_decide; [|done]. case_match; simplify_eq. by eapply control_inv.
  - case_bool_decide; simplify_eq. by apply flush_inv.
  - case_bool_decide; [|done]. case_match; simplify_eq; by eapply control_inv.
  - case_match; simplify_eq; by eapply control_inv.
  - repeat case_match; simplify_eq; by eapply control_inv.
  - by eapply deliver_inv.
Qed.

(** ** The control invariant *)

Record ctl_inv y : Prop := {
  ctl_loops : forall i pc, loops y !! i = Some pc -> pc <> Looping -> stopCh (snd_ y) = true;
  ctl_stopped : stoppedCh (snd_ y) = true -> exists i, loops y !! i = Some Exited;
  ctl_saw : Forall (fun c => stopCh (snd_ y) = true /\ stop_saw c `prefix_of` accepted y) (stops y);
  ctl_flushed : forall i, loops y !! i = Some Flushed \/ loops y !! i = Some Exited ->
    Forall (fun c => stop_at c <> AlreadyStopped ->
                     stop_saw c `prefix_of` concat (dispatched y)) (stops y);
  ctl_returned : forall c, c ∈ stops y -> stop_at c = Returned -> stoppedCh (snd_ y) = true;
  ctl_panic : panicked y <> None -> (2 <= length (loops y))%nat;
}.

(** Accepting and dispatching more lines keeps it. *)
Lemma ctl_mono y y' :
  ctl_inv y -> loops y' = loops y -> stops y' = stops y ->
  stopCh (snd_ y') = stopCh (snd_ y) -> stoppedCh (snd_ y') = stoppedCh (snd_ y) ->
  panicked y' = panicked y -> accepted y `prefix_of` accepted y' ->
  concat (dispatched y) `prefix_of` concat (dispatched y') -> ctl_inv y'.
Proof.
  intros [H1 H2 H3 H4 H5 H6] E1 E2 E3 E4 E5 Ha Hd. constructor; rewrite ?E1, ?E2, ?E3, ?E4, ?E5; auto.
  - eapply Forall_impl; [exact H3|]. intros c [? ?]. split; [done|by etrans].
  - intros i Hi. eapply Forall_impl; [exact (H4 i Hi)|]. intros c Hc Hn. etrans; [by apply Hc|done].
Qed.

(** A loop moves on, to [Deferred] or, when everything accepted has been
    dispatched, further. *)
Lemma ctl_loop_moves y y' i pc0 pc :
  ctl_inv y -> loops y !! i = Some pc0 -> pc0 <> Exited -> stopCh (snd_ y) = true ->
  loops y' = <[i := pc]> (loops y) -> stops y' = stops y ->
  stopCh (snd_ y') = true -> panicked y' = panicked y ->
  accepted y' = accepted y -> dispatched y' = dispatched y ->
  (stoppedCh (snd_ y') = stoppedCh (snd_ y) \/ (stoppedCh (snd_ y') = true /\ pc = Exited)) ->
  (pc = Deferred \/ Forall (fun c => stop_at c <> AlreadyStopped ->
                      stop_saw c `prefix_of` concat (dispatched y)) (stops y)) ->
  ctl_inv y'.
Proof.
  intros [H1 H2 H3 H4 H5 H6] Hi Hne Hsc E1 E2 E3 E4 E5 E6 Hst Hpc.
  constructor; rewrite ?E1, ?E2, ?E3, ?E4, ?E5, ?E6.
  - done.
  - intros Hs. destruct Hst as [Hst|[_ ->]].
    + rewrite Hst in Hs. destruct (H2 Hs) as [i' Hi']. exists i'.
      rewrite list_lookup_insert_ne; [done|]. intros <-. congruence.
    + exists i. apply list_lookup_insert_eq. by eapply lookup_lt_Some.
  - by rewrite Hsc in H3.
  - intros i' Hi'. destruct Hpc as [->|Hpc]; [|done].
    destruct (decide (i = i')) as [<-|Hni].
    + rewrite list_lookup_insert_eq in Hi' by (by eapply lookup_lt_Some). naive_solver.
    + rewrite list_lookup_insert_ne in Hi' by done. by eapply H4.
  - intros c Hc Hr. destruct Hst as [-> | [? _]]; [by eapply H5|done].
  - rewrite length_insert. done.
Qed.

Lemma after_batch_fields n y lps lines acc r :
  data_inv n y -> batch_step (snd_ y) (hp_ y) lines r ->
  let y' := after_batch y lps acc r in
  loops y' = lps /\ stops y' = stops y /\ stopCh (snd_ y') = stopCh (snd_ y) /\
  stoppedCh (snd_ y') = stoppedCh (snd_ y) /\ panicked y' = panicked y /\ accepted y' = acc /\
  concat (dispatched y) `prefix_of` concat (dispatched y').
Proof.
  intros _ Hs. destruct r as [[s' hp'] sp]. destruct Hs as (-> & _). simpl. split_and!; try done.
  destruct sp as [[c t]|]; rewrite ?concat_snoc, ?app_nil_r; [by eexists|done].
Qed.

Lemma flush_fields n y lps :
  data_inv n y ->
  let y' := after_batch y lps (accepted y) (flush (snd_ y) (hp_ y)) in
  loops y' = lps /\ stops y' = stops y /\ stopCh (snd_ y') = stopCh (snd_ y) /\
  stoppedCh (snd_ y') = stoppedCh (snd_ y) /\ panicked y' = panicked y /\
  accepted y' = accepted y /\ concat (dispatched y) `prefix_of` concat (dispatched y').
Proof.
  intros H. eapply after_batch_fields; [done|]. apply flushLocked_step, (inv_batch _ _ H).
Qed.

Lemma start_ctl y : ctl_inv y -> ctl_inv (step_Start y).
Proof.
  intros [H1 H2 H3 H4 H5 H6]. constructor; simpl; try done.
  - intros i pc Hi Hpc. apply lookup_app_Some in Hi as [Hi|[_ Hi]]; [eauto|].
    apply list_lookup_singleton_Some in Hi as [_ <-]. done.
  - intros Hs. destruct (H2 Hs) as [i Hi]. exists i. by apply lookup_app_l_Some.
  - intros i Hi. apply (H4 i). rewrite !lookup_app_Some, !list_lookup_singleton_Some in Hi.
    naive_solver.
  - intros Hp. rewrite length_app. specialize (H6 Hp). lia.
Qed.

Lemma stop_ctl y : ctl_inv y -> ctl_inv (step_Stop y).
Proof.
  intros [H1 H2 H3 H4 H5 H6]. unfold step_Stop, close_stopCh.
  destruct (stopCh (snd_ y)) eqn:E; constructor; simpl; try done.
  - rewrite E. apply Forall_app. split; [done|]. by apply Forall_singleton.
  - intros i Hi. apply Forall_app. split; [by eapply H4|]. by apply Forall_singleton.
  - intros c [Hc|Hc]%elem_of_app; [by apply H5|]. by apply list_elem_of_singleton in Hc as ->.
  - apply Forall_app. split; [|by apply Forall_singleton].
    eapply Forall_impl; [exact H3|]. naive_solver.
  - intros i [Hi|Hi]; by specialize (H1 i _ Hi ltac:(done)).
  - intros c [Hc|Hc]%elem_of_app; [by apply H5|]. by apply list_elem_of_singleton in Hc as ->.
Qed.

Lemma stop_return_ctl y j y' : ctl_inv y -> step_StopReturn j y = Some y' -> ctl_inv y'.
Proof.
  intros [H1 H2 H3 H4 H5 H6]. unfold step_StopReturn.
  destruct (stops y !! j) as [[[] saw]|] eqn:Ej; try done.
  destruct (stoppedCh (snd_ y)) eqn:Es; [|done]. intros [= <-].
  assert (forall Q : stop_call -> Prop, Forall Q (stops y) ->
    (Q (mkStop Waiting saw) -> Q (mkStop Returned saw)) ->
    Forall Q (<[j:=mkStop Returned saw]> (stops y))) as Hins.
  { intros Q HQ Hw. apply Forall_insert; [done|]. apply Hw. by eapply Forall_lookup_1 in HQ. }
  constructor; simpl; try done.
  - intros _. by apply H2.
  - by apply Hins.
  - intros i Hi. apply Hins; [by eapply H4|naive_solver].
Qed.

Lemma close_ctl y i : ctl_inv y -> loops y !! i = Some Flushed -> ctl_inv (step_Close i y).
Proof.
  intros H Hi. pose proof (ctl_loops y H i _ Hi ltac:(done)) as Hs. unfold step_Close.
  destruct (stoppedCh (snd_ y)) eqn:Est.
  - destruct (ctl_stopped y H Est) as [i' Hi'].
    assert (2 <= length (loops y))%nat as Hlen.
    { apply lookup_lt_Some in Hi as ?, Hi' as ?.
      destruct (decide (i = i')) as [->|]; [congruence|lia]. }
    destruct H. by constructor.
  - eapply (ctl_loop_moves y _ i Flushed Exited); simpl; try done; [by right|].
    right. apply (ctl_flushed y H i). by left.
Qed.

Lemma defer_flush_ctl n y i :
  data_inv n y -> ctl_inv y -> loops y !! i = Some Deferred ->
  ctl_inv (after_batch y (<[i := Flushed]> (loops y)) (accepted y) (flush (snd_ y) (hp_ y))).
Proof.
  intros Hd H Hi. pose proof (ctl_loops y H i _ Hi ltac:(done)) as Hs.
  destruct (flush_fields n y (loops y) Hd) as (E1 & E2 & E3 & E4 & E5 & E6 & E7).
  destruct (flush_empties n y (loops y) Hd) as [_ Hall].
  set (y1 := after_batch y (loops y) (accepted y) (flush (snd_ y) (hp_ y))) in *.
  assert (ctl_inv y1) as H1 by (eapply ctl_mono; try done; by rewrite E6).
  assert (forall lps, after_batch y lps (accepted y) (flush (snd_ y) (hp_ y))
    = with_loops y1 (snd_ y1) lps) as Eq.
  { intros lps. subst y1. unfold after_batch. by destruct (flush _ _) as [[? ?] ?]. }
  rewrite Eq. eapply (ctl_loop_moves y1 _ i Deferred Flushed); simpl; try done; try congruence.
  - by left.
  - right. eapply Forall_impl; [exact (ctl_saw y1 H1)|]. intros c [_ Hc] _. congruence.
Qed.

Lemma exec_ctl_inv n y l y' :
  data_inv n y -> ctl_inv y -> exec grow l y = Some y' -> ctl_inv y'.
Proof.
  intros Hd H. unfold exec, at_pc. destruct (panicked y) eqn:Ep; [done|]. destruct l; intros E.
  - injection E as <-.
    destruct (SendWithContext_step grow ctx line (snd_ y) (hp_ y) (inv_batch _ _ Hd) grow_ok) as [Hs _].
    destruct (after_batch_fields n y (loops y) _ (accepted y ++ [line]) _ Hd Hs)
      as (E1 & E2 & E3 & E4 & E5 & E6 & E7).
    eapply ctl_mono; try done. rewrite E6. by eexists.
  - injection E as <-. by apply start_ctl.
  - case_bool_decide; simplify_eq.
    destruct (flush_fields n y (loops y) Hd) as (E1 & E2 & E3 & E4 & E5 & E6 & E7).
    eapply ctl_mono; try done. by rewrite E6.
  - case_bool_decide as Hi; [|done]. case_match eqn:Es; simplify_eq.
    eapply (ctl_loop_moves y _ i Looping Deferred); try done; by left.
  - case_bool_decide; simplify_eq. by eapply defer_flush_ctl.
  - case_bool_decide; simplify_eq. by apply close_ctl.
  - injection E as <-. by apply stop_ctl.
  - by eapply stop_return_ctl.
  - unfold step_Deliver in E. repeat case_match; simplify_eq. by eapply ctl_mono.
Qed.

(** ** Reachable systems *)

Lemma initial_inv (s : HTTPSender O P) hp :
  slice_ok hp (batch s) -> contents hp (batch s) = [] -> stopCh s = false -> stoppedCh s = false ->
  data_inv (batchSize s) (initial s hp) /\ ctl_inv (initial s hp).
Proof.
  intros Hb Hc H1 H2. split; constructor; unfold pending, carried; simpl; try done.
  - rewrite Hc. unfold zlen. simpl. lia.
  - congruence.
  - by intros c ?%not_elem_of_nil.
Qed.

Lemma reachable_inv n y0 tr y :
  data_inv n y0 -> ctl_inv y0 -> reachable grow y0 tr y -> data_inv n y /\ ctl_inv y.
Proof.
  intros Hd Hc. induction 1 as [|tr y l y' _ [IHd IHc] E]; [done|].
  split; [by eapply exec_data_inv|by eapply exec_ctl_inv].
Qed.

End invariants.

(** ** Traces *)

Section traces.
Context {O : oauth2} {P : pki} (grow : nat -> nat).
Implicit Types (y : system O P).

(** What both constructors return. *)
Definition fresh (s : HTTPSender O P) (hp : line_heap) : Prop :=
  slice_ok hp (batch s) /\ contents hp (batch s) = [] /\ stopCh s = false /\ stoppedCh s = false.

Lemma NewHTTPSender_fresh hp url size interval s hp' :
  NewHTTPSender hp url size interval = Ok (s, hp') -> fresh s hp' /\ (1 <= batchSize s)%Z.
Proof.
  unfold NewHTTPSender. set (n := if (size <=? 0)%Z then 1%Z else size).
  assert (1 <= n)%Z by (subst n; destruct (Z.leb_spec size 0); lia).
  rewrite make_ok by lia. intros [= <- <-]. split; [|done]. split_and!; try done.
  apply slice_ok_new. lia.
Qed.

Lemma sends_snoc tr l :
  sends (P := P) (tr ++ [l]) = sends tr ++ match l with LSend _ line => [line] | _ => [] end.
Proof. unfold sends. rewrite omap_app. by destruct l. Qed.

Lemma starts_snoc tr l :
  starts (P := P) (tr ++ [l]) = (starts tr + match l with LStart => 1 | _ => 0 end)%nat.
Proof. unfold starts. rewrite List.filter_app, length_app. by destruct l. Qed.

(** What a step does to the history of accepted lines, to the number of loops
    and to the calls of [Stop]. *)
Lemma exec_history y l y' :
  exec grow l y = Some y' ->
  accepted y' = accepted y ++ match l with LSend _ line => [line] | _ => [] end /\
  length (loops y') = (length (loops y) + match l with LStart => 1 | _ => 0 end)%nat /\
  (forall j c, stops y !! j = Some c ->
     exists c', stops y' !! j = Some c' /\ stop_saw c' = stop_saw c).
Proof.
  unfold exec, at_pc, step_Start, step_Stop, close_stopCh, step_StopReturn, step_Close, step_Deliver, after_batch.
  destruct (panicked y); [done|].
  destruct l; intros E; simplify_eq/=; repeat (case_match; simplify_eq/=);
    rewrite ?app_nil_r, ?length_app, ?length_insert, ?Nat.add_0_r; split_and!; eauto using lookup_app_l_Some.
  intros j' c Hc. destruct (decide (j = j')) as [<-|Hne].
  - rewrite list_lookup_insert_eq by (by eapply lookup_lt_Some). naive_solver.
  - rewrite list_lookup_insert_ne by done. eauto.
Qed.

Lemma reachable_history s hp tr y :
  reachable grow (initial s hp) tr y -> accepted y = sends tr /\ length (loops y) = starts tr.
Proof.
  induction 1 as [|tr y l y' _ [IH1 IH2] E]; [done|].
  apply exec_history in E as (-> & -> & _). by rewrite sends_snoc, starts_snoc, IH1, IH2.
Qed.

Lemma run_reachable y0 tr y tr' y' :
  reachable grow y0 tr y -> run grow tr' y = Some y' -> reachable grow y0 (tr ++ tr') y'.
Proof.
  revert tr y. induction tr' as [|l tr' IH]; intros tr y Hr; simpl.
  - intros [= <-]. by rewrite app_nil_r.
  - destruct (exec grow l y) as [y1|] eqn:E; simpl; [|done]. intros Hrun.
    rewrite cons_middle, (assoc_L (++)). eapply IH; [|done]. by econstructor.
Qed.

Lemma run_saw tr y y' j c :
  run grow tr y = Some y' -> stops y !! j = Some c ->
  exists c', stops y' !! j = Some c' /\ stop_saw c' = stop_saw c.
Proof.
  revert y c. induction tr as [|l tr IH]; intros y c; simpl; [naive_solver|].
  destruct (exec grow l y) as [y1|] eqn:E; simpl; [|done]. intros Hrun Hc.
  apply exec_history in E as (_ & _ & Hs). destruct (Hs j c Hc) as (c1 & Hc1 & <-).
  by eapply IH.
Qed.

End traces.

(** ** What a stopping loop does on its own *)

Section stopping.
Context {O : oauth2} {P : pki} (grow : nat -> nat) (grow_ok : forall n, (n <= grow n)%nat).
Implicit Types (y : system O P).

(** The remaining steps of a loop after [stopCh] is closed. *)
Definition loop_rest (i : nat) (pc : loop_pc) : list (label P) :=
  match pc with
  | Looping => [LLoopStop i; LDeferFlush i; LClose i]
  | Deferred => [LDeferFlush i; LClose i]
  | Flushed => [LClose i]
  | Exited => []
  end.

Lemma close_runs n y :
  data_inv n y -> ctl_inv y -> panicked y = None -> loops y = [Flushed] ->
  exists y', run grow (loop_rest 0 Flushed) y = Some y' /\ panicked y' = None /\
    stoppedCh (snd_ y') = true /\ stops y' = stops y /\ inflight y' = inflight y /\ hp_ y' = hp_ y.
Proof.
  intros Hd Hc Hp Hl. simpl. unfold exec, at_pc. rewrite Hp, Hl; simpl. unfold step_Close.
  destruct (stoppedCh (snd_ y)) eqn:Es.
  - destruct (ctl_stopped y Hc Es) as [[|i] Hi]; by rewrite Hl in Hi.
  - eexists. split_and!; done.
Qed.

Lemma defer_runs n y :
  data_inv n y -> ctl_inv y -> panicked y = None -> loops y = [Deferred] ->
  exists y', run grow (loop_rest 0 Deferred) y = Some y' /\ panicked y' = None /\
    stoppedCh (snd_ y') = true /\ stops y' = stops y /\
    (pending y <> [] ->
     exists c t, inflight y' = inflight y ++ [(c, t)] /\ contents (hp_ y') t = pending y).
Proof.
  intros Hd Hc Hp Hl.
  set (y1 := after_batch y [Flushed] (accepted y) (flush (snd_ y) (hp_ y))).
  assert (exec grow (LDeferFlush 0) y = Some y1) as E1.
  { unfold exec, at_pc. by rewrite Hp, Hl. }
  destruct (flush_fields n y [Flushed] Hd) as (F1 & F2 & _ & _ & F5 & _). fold y1 in F1, F2, F5.
  destruct (close_runs n y1) as (y2 & Hrun & ? & ? & Es & Ei & Eh).
  { by eapply exec_data_inv. } { by eapply exec_ctl_inv. } { congruence. } { done. }
  exists y2. simpl in *. rewrite E1; simpl. split_and!; try done; [congruence|].
  intros Hne. rewrite Ei, Eh. subst y1. unfold flush, pending in *.
  set (ctx := if tracer _ then _ else _) in *.
  destruct (flushLocked_step ctx (snd_ y) (hp_ y) (inv_batch _ _ Hd)) as (Hs & Hn & _).
  destruct (flushLockedWithContext ctx _ _) as [[s' hp'] [[c t]|]]; simpl in *.
  - exists c, t. split; [done|]. apply Hs.
  - by destruct Hn as [Hn _]; specialize (Hn eq_refl).
Qed.

(** From every point, the loop's own steps end with [stoppedCh] closed; whatever
    was pending when it left its [select] is then in flight. *)
Lemma loop_rest_runs n y pc :
  data_inv n y -> ctl_inv y -> panicked y = None -> loops y = [pc] ->
  stopCh (snd_ y) = true -> (pc = Exited -> stoppedCh (snd_ y) = true) ->
  exists y', run grow (loop_rest 0 pc) y = Some y' /\ panicked y' = None /\
    stoppedCh (snd_ y') = true /\ stops y' = stops y /\
    (pending y <> [] -> pc = Looping \/ pc = Deferred ->
     exists c t, inflight y' = inflight y ++ [(c, t)] /\ contents (hp_ y') t = pending y).
Proof.
  intros Hd Hc Hp Hl Hs Hx. destruct pc.
  - set (y1 := with_loops y (snd_ y) [Deferred]).
    assert (exec grow (LLoopStop 0) y = Some y1) as E1.
    { unfold exec, at_pc. by rewrite Hp, Hl, Hs. }
    destruct (defer_runs n y1) as (y' & Hrun & ? & ? & ? & ?); try done.
    { by eapply exec_data_inv. } { by eapply exec_ctl_inv. }
    exists y'. simpl in *. rewrite E1; simpl. split_and!; auto.
  - destruct (defer_runs n y) as (y' & ?&?&?&?&?); try done. exists y'. split_and!; auto.
  - destruct (close_runs n y) as (y' & ?&?&?&?&?&?); try done. exists y'. split_and!; naive_solver.
  - exists y. split_and!; try done; [by apply Hx|naive_solver].
Qed.

Lemma stop_return_runs y j saw :
  panicked y = None -> stoppedCh (snd_ y) = true -> stops y !! j = Some (mkStop Waiting saw) ->
  exists y', run grow [LStopReturn j] y = Some y' /\ inflight y' = inflight y /\ hp_ y' = hp_ y /\
    stops y' !! j = Some (mkStop Returned saw).
Proof.
  intros Hp Hs Hj. simpl. unfold exec, step_StopReturn. rewrite Hp, Hj, Hs. simpl.
  eexists. split_and!; try done. simpl. apply list_lookup_insert_eq. by eapply lookup_lt_Some.
Qed.

Lemma run_app tr1 tr2 y y1 :
  run grow tr1 y = Some y1 -> run grow (tr1 ++ tr2) y = run grow tr2 y1.
Proof.
  revert y. induction tr1 as [|l tr1 IH]; intros y; simpl; [by intros [= ->]|].
  destruct (exec grow l y); simpl; [apply IH|done].
Qed.

(** An exited loop has closed [stoppedCh]. *)
Lemma exited_closed y0 tr y i :
  loops y0 = [] -> reachable grow y0 tr y -> panicked y = None ->
  loops y !! i = Some Exited -> stoppedCh (snd_ y) = true.
Proof.
  intros H0 Hr. revert i. induction Hr as [|tr y l y' _ IH E]; intros i Hp Hi.
  { by rewrite H0 in Hi. }
  unfold exec, at_pc, step_Start, step_Stop, close_stopCh, step_StopReturn, step_Close, step_Deliver, after_batch,
    flush, SendWithContext, flushLockedWithContext in E.
  destruct (panicked y) eqn:Epy; [done|]. specialize (fun i => IH i eq_refl).
  assert (forall i' pc, pc <> Exited -> <[i' := pc]> (loops y) !! i = Some Exited ->
    loops y !! i = Some Exited) as Hins.
  { intros i' pc Hpc Hl. apply list_lookup_insert_Some in Hl. naive_solver. }
  destruct l; simplify_eq/=; repeat (case_match; simplify_eq/=); eauto.
  1: apply lookup_app_Some in Hi as [Hi|[_ Hi]]; [eauto|];
     apply list_lookup_singleton_Some in Hi; naive_solver.
  all: eapply IH, Hins; [|exact Hi]; done.
Qed.

End stopping.

(** Everything known of a reachable system. *)
Section reachable_facts.
Context {O : oauth2} {P : pki} (grow : nat -> nat) (grow_ok : forall n, (n <= grow n)%nat).
Context (s : HTTPSender O P) (hp : line_heap) (Hfresh : fresh s hp).

Lemma reach_facts tr y :
  reachable grow (initial s hp) tr y ->
  data_inv (batchSize s) y /\ ctl_inv y /\ accepted y = sends tr /\ length (loops y) = starts tr.
Proof.
  destruct Hfresh as (H1 & H2 & H3 & H4). intros Hr.
  destruct (initial_inv s hp H1 H2 H3 H4) as [Hd Hc].
  destruct (reachable_inv grow grow_ok _ _ _ _ Hd Hc Hr). split_and!; try done;
    by apply (reachable_history grow s hp tr y).
Qed.

Lemma reach_no_panic tr y :
  reachable grow (initial s hp) tr y -> (starts tr <= 1)%nat -> panicked y = None.
Proof.
  intros (_ & Hc & _ & Hl)%reach_facts Hs. destruct (panicked y) eqn:E; [|done].
  pose proof (ctl_panic _ Hc ltac:(by rewrite E)). lia.
Qed.

End reachable_facts.

Module SenderSystemProperties.

Section statements.
Context {O : oauth2} {P : pki} (grow : nat -> nat) (grow_ok : forall n, (n <= grow n)%nat).
Context (s : HTTPSender O P) (hp : line_heap) (Hfresh : fresh s hp).
Implicit Types (y : system O P) (tr : list (label P)).

(** C3. Nothing is lost, duplicated or reordered by batching.  After any
    interleaving of calls of [Send], ticks, [Start], [Stop] and deliveries, the
    batches handed to goroutines, concatenated in order, followed by the pending
    batch, are exactly the lines given to [Send], in order; each batch has
    between one and [batchSize] lines and the pending batch fewer than
    [batchSize]; and the batches that deliveries read (now or later, through
    their slices) are, as a multiset, exactly the batches handed out: no batch
    is overwritten by later lines although the batch array is reused. *)
Theorem sender_conserves tr y :
  reachable grow (initial s hp) tr y ->
  concat (dispatched y) ++ pending y = sends tr /\
  carried y ≡ₚ dispatched y /\
  Forall (fun b => b <> [] /\ (zlen b <= Z.max 1 (batchSize s))%Z) (dispatched y) /\
  (zlen (pending y) < Z.max 1 (batchSize s))%Z.
Proof.
  intros ([] & _ & <- & _)%(reach_facts grow grow_ok s hp Hfresh). done.
Qed.

(** C6. [Stop] flushes: when the call that closed [stopCh] has returned, every
    line that had been accepted before the call has left the batch and been
    handed to a goroutine, whatever else ran concurrently. *)
Theorem Stop_flushes tr1 y1 y2 tr2 y3 saw :
  reachable grow (initial s hp) tr1 y1 -> exec grow LStop y1 = Some y2 ->
  run grow tr2 y2 = Some y3 -> stops y3 !! length (stops y1) = Some (mkStop Returned saw) ->
  sends tr1 `prefix_of` concat (dispatched y3).
Proof.
  intros Hr1 E Hrun Hj.
  assert (reachable grow (initial s hp) ((tr1 ++ [LStop]) ++ tr2) y3) as Hr3.
  { eapply run_reachable; [|done]. by econstructor. }
  destruct (reach_facts grow grow_ok s hp Hfresh _ _ Hr3) as (_ & Hc3 & _).
  assert (exists st, stops y2 !! length (stops y1) = Some (mkStop st (accepted y1))) as [st Hst].
  { unfold exec, step_Stop, close_stopCh in E. repeat case_match; simplify_eq/=;
      eexists; by rewrite lookup_app_r, Nat.sub_diag. }
  destruct (run_saw grow _ _ _ _ _ Hrun Hst) as (c' & Hc' & Hsaw). simplify_eq/=.
  destruct (reach_facts grow grow_ok s hp Hfresh _ _ Hr1) as (_ & _ & <- & _).
  pose proof (ctl_returned _ Hc3 _ (list_elem_of_lookup_2 _ _ _ Hj) eq_refl) as Hcl.
  destruct (ctl_stopped _ Hc3 Hcl) as [i Hi].
  pose proof (ctl_flushed _ Hc3 i (or_intror Hi)) as HF.
  eapply Forall_lookup_1 in HF; [|exact Hj]. by apply HF.
Qed.

(** C28. With at most one call of [Start] the sender never panics: [stopCh] and
    [stoppedCh] are closed at most once, however often and from however many
    goroutines [Stop] is called. *)
Theorem sender_never_panics tr y :
  reachable grow (initial s hp) tr y -> (starts tr <= 1)%nat -> panicked y = None.
Proof.
  apply (reach_no_panic grow grow_ok s hp Hfresh).
Qed.

(** C29. A waiting [Stop] can always be completed: in every reachable system with
    one started loop, at most three steps of the loop and one of the caller lead
    to its return (no deadlock), and those steps are enabled. *)
Theorem Stop_returns tr y j saw :
  reachable grow (initial s hp) tr y -> starts tr = 1%nat ->
  stops y !! j = Some (mkStop Waiting saw) ->
  exists tr' y', (length tr' <= 4)%nat /\ run grow tr' y = Some y' /\
    stops y' !! j = Some (mkStop Returned saw).
Proof.
  intros Hr Hs Hj.
  destruct (reach_facts grow grow_ok s hp Hfresh _ _ Hr) as (Hd' & Hc' & _ & Hl). rewrite Hs in Hl.
  destruct (loops y) as [|pc [|? ?]] eqn:El; try done.
  assert (panicked y = None) as Hp by (apply (reach_no_panic grow grow_ok s hp Hfresh tr); [done|lia]).
  assert (stopCh (snd_ y) = true) as Hst.
  { pose proof (ctl_saw _ Hc') as HF. eapply Forall_lookup_1 in HF; [|exact Hj]. apply HF. }
  destruct (loop_rest_runs grow grow_ok _ y pc Hd' Hc' Hp El Hst) as (y1 & Hr1 & Hp1 & Hs1 & Ej & _).
  { intros ->. eapply (exited_closed grow (initial s hp) tr y 0 eq_refl Hr Hp). by rewrite El. }
  rewrite <- Ej in Hj.
  destruct (stop_return_runs grow y1 j saw Hp1 Hs1 Hj) as (y2 & Hr2 & _ & _ & Hret).
  exists (loop_rest 0 pc ++ [LStopReturn j]), y2. split_and!; [by destruct pc; simpl; lia| |done].
  by rewrite (run_app grow _ _ _ _ Hr1).
Qed.

(** Without [Start], [Stop] never returns from its wait. *)
Theorem Stop_without_Start_waits tr y :
  reachable grow (initial s hp) tr y -> starts tr = 0%nat ->
  Forall (fun c => stop_at c <> Returned) (stops y).
Proof.
  intros Hr Hs.
  destruct (reach_facts grow grow_ok s hp Hfresh _ _ Hr) as (_ & Hc' & _ & Hl). rewrite Hs in Hl.
  apply Forall_forall. intros c Hin Hret.
  destruct (ctl_stopped _ Hc' (ctl_returned _ Hc' c Hin Hret)) as [i Hi].
  destruct (loops y); [by destruct i|done].
Qed.

(** [Stop] does not wait for deliveries: whenever it is called with lines
    pending, there is a run in which it returns while the batch of those lines
    is still in flight, so a caller that exits then loses them. *)
Theorem Stop_returns_before_delivery tr y y1 :
  reachable grow (initial s hp) tr y -> loops y = [Looping] -> stopCh (snd_ y) = false ->
  pending y <> [] -> exec grow LStop y = Some y1 ->
  exists tr' y' saw c t, run grow tr' y1 = Some y' /\
    stops y' !! length (stops y) = Some (mkStop Returned saw) /\
    (c, t) ∈ inflight y' /\ contents (hp_ y') t = pending y.
Proof.
  intros Hr Hl Hst Hpend E.
  assert (reachable grow (initial s hp) (tr ++ [LStop]) y1) as Hr1 by (by econstructor).
  destruct (reach_facts grow grow_ok s hp Hfresh _ _ Hr1) as (Hd1 & Hc1 & _).
  unfold exec, step_Stop, close_stopCh in E. rewrite Hst in E. destruct (panicked y) eqn:Ep; [done|].
  injection E as <-. set (y1 := with_stops _ _ _) in *.
  destruct (loop_rest_runs grow grow_ok _ y1 Looping Hd1 Hc1 Ep Hl eq_refl) as
    (y2 & Hr2 & Hp2 & Hs2 & Ej & Hin); [done|].
  destruct (Hin Hpend (or_introl eq_refl)) as (c & t & Ei & Ec).
  destruct (stop_return_runs grow y2 (length (stops y)) (accepted y) Hp2 Hs2) as
    (y3 & Hr3 & Ei3 & Eh3 & Hret).
  { rewrite Ej. simpl. by rewrite lookup_app_r, Nat.sub_diag. }
  exists (loop_rest 0 Looping ++ [LStopReturn (length (stops y))]), y3, (accepted y), c, t.
  split_and!; [by rewrite (run_app grow _ _ _ _ Hr2)|done| |by rewrite Eh3].
  rewrite Ei3, Ei. set_solver.
Qed.

End statements.

(** ** Concrete runs: batches of two lines, capacity doubled when it runs out *)

Definition double (n : nat) : nat := (n + n)%nat.

Lemma double_ok n : (n <= double n)%nat.
Proof. unfold double. lia. Qed.

Definition demo_sender : HTTPSender no_oauth2 SenderProperties.no_pki :=
  mkHTTPSender "http://logs/" 2 Second (mkClient (10 * Second) None) (mkSlice 0 0 2)
    false false false None None.
Definition demo_heap : line_heap := [[[]; []]].

Lemma demo_fresh : fresh demo_sender demo_heap.
Proof. split_and!; try reflexivity. exists [[]; []]. split_and!; simpl; auto. Qed.

Definition line_a := go_bytes "a".
Definition line_b := go_bytes "b".
Definition line_c := go_bytes "c".

Definition demo_init : system no_oauth2 SenderProperties.no_pki := initial demo_sender demo_heap.

(** Three lines; the first batch is delivered after its array was reused. *)
Definition demo_trace : list (label SenderProperties.no_pki) :=
  [LStart; LSend Background line_a; LSend Background line_b; LSend Background line_c;
   LDeliver 0 SenderProperties.ok_network zero_random canonical_order].

Definition demo_run (tr : list (label SenderProperties.no_pki)) := run double tr demo_init.

Lemma demo_reachable tr y : demo_run tr = Some y -> reachable double demo_init tr y.
Proof. apply (run_reachable double demo_init [] demo_init). constructor. Qed.

Lemma sender_conserves_witness :
  exists y, demo_run demo_trace = Some y /\ finished y = [([line_a; line_b], Ok tt)] /\
    concat (dispatched y) ++ pending y = [line_a; line_b; line_c].
Proof.
  eexists. split; [vm_compute; reflexivity|]. split; [reflexivity|].
  apply (sender_conserves double double_ok demo_sender demo_heap demo_fresh demo_trace).
  apply demo_reachable. vm_compute. reflexivity.
Defined.

Definition demo_stop : list (label SenderProperties.no_pki) :=
  [LLoopStop 0; LDeferFlush 0; LClose 0; LStopReturn 0].

Lemma Stop_flushes_witness :
  exists y, demo_run (demo_trace ++ LStop :: demo_stop) = Some y /\
    [line_a; line_b; line_c] `prefix_of` concat (dispatched y).
Proof.
  eexists. split; [vm_compute; reflexivity|].
  eapply (Stop_flushes double double_ok demo_sender demo_heap demo_fresh demo_trace _ _ demo_stop).
  - apply demo_reachable. vm_compute. reflexivity.
  - vm_compute. reflexivity.
  - vm_compute. reflexivity.
  - vm_compute. reflexivity.
Defined.

Lemma sender_never_panics_witness :
  exists y, demo_run (demo_trace ++ LStop :: LStop :: demo_stop) = Some y /\ panicked y = None.
Proof.
  eexists. split; [vm_compute; reflexivity|].
  apply (sender_never_panics double double_ok demo_sender demo_heap demo_fresh
    (demo_trace ++ LStop :: LStop :: demo_stop)).
  - apply demo_reachable. vm_compute. reflexivity.
  - vm_compute. lia.
Defined.

(** A second [Start] does lead to a panic, when both loops close [stoppedCh]. *)
Example two_starts_panic :
  exists y, demo_run [LStart; LStart; LStop; LLoopStop 0; LDeferFlush 0; LClose 0;
                      LLoopStop 1; LDeferFlush 1; LClose 1] = Some y /\
    panicked y = Some "close of closed channel".
Proof. eexists. split; vm_compute; reflexivity. Qed.

Lemma Stop_returns_witness :
  exists y, demo_run [LStart; LStop] = Some y /\
  exists tr' y', (length tr' <= 4)%nat /\ run double tr' y = Some y' /\
    stops y' !! 0 = Some (mkStop Returned []).
Proof.
  eexists. split; [vm_compute; reflexivity|].
  apply (Stop_returns double double_ok demo_sender demo_heap demo_fresh [LStart; LStop]).
  - apply demo_reachable. vm_compute. reflexivity.
  - reflexivity.
  - reflexivity.
Defined.

Lemma Stop_without_Start_waits_witness :
  exists y, demo_run [LSend Background line_a; LStop] = Some y /\
    Forall (fun c => stop_at c <> Returned) (stops y).
Proof.
  eexists. split; [vm_compute; reflexivity|].
  apply (Stop_without_Start_waits double double_ok demo_sender demo_heap demo_fresh
    [LSend Background line_a; LStop]).
  - apply demo_reachable. vm_compute. reflexivity.
  - reflexivity.
Defined.

Definition demo_y := default demo_init (demo_run demo_trace).
Definition demo_y1 := default demo_init (exec double LStop demo_y).

Lemma Stop_returns_before_delivery_witness :
  pending demo_y = [line_c] /\
  exists tr' y' saw c t, run double tr' demo_y1 = Some y' /\
    stops y' !! length (stops demo_y) = Some (mkStop Returned saw) /\
    (c, t) ∈ inflight y' /\ contents (hp_ y') t = pending demo_y.
Proof.
  split; [vm_compute; reflexivity|].
  apply (Stop_returns_before_delivery double double_ok demo_sender demo_heap demo_fresh demo_trace).
  - apply demo_reachable. vm_compute. reflexivity.
  - vm_compute. reflexivity.
  - vm_compute. reflexivity.
  - vm_compute. discriminate.
  - vm_compute. reflexivity.
Defined.

End SenderSystemProperties.
