(* ===== verification/LogReader.v ===== *)
(** * The interface [LogReader]

    The interface of [src/pkg/reader/reader_factory.go] as a type class, over
    the type [W] of a reader together with its surroundings.  [Lines()] is a
    channel, so the interface shows what is in it and how a line is received;
    [Stop()] is a call that closes a channel and then waits.  The laws are what
    a client that forwards lines relies on: the channel is a queue. *)
From S2P Require Import Prelude.

Class LogReader (W : Type) := {
  reader_label : Type;
  (** A step of the reader's goroutines or of its environment. *)
  reader_exec : reader_label -> W -> option W;
  (** The contents of the channel [Lines()]. *)
  queued : W -> list bytes;
  (** The channel has been closed. *)
  lines_closed : W -> bool;
  (** [line, ok := <-r.Lines()] with [ok]. *)
  receive : W -> option (bytes * W);
  (** What has been received so far. *)
  taken : W -> list bytes;
  (** The part of [Stop()] before its wait; [None] when it panics. *)
  stop_call : W -> option W;
  (** The wait at the end of [Stop()] is over. *)
  stop_done : W -> bool;
}.

Class LogReaderLaws (W : Type) `{LogReader W} : Prop := {
  receive_spec w x w' :
    receive w = Some (x, w') -> queued w = x :: queued w' /\ taken w' = taken w ++ [x];
  step_fifo l w w' :
    reader_exec l w = Some w' -> queued w `prefix_of` queued w' /\ taken w' = taken w;
  stop_keeps w w' : stop_call w = Some w' -> queued w' = queued w /\ taken w' = taken w;
}.

(** What a client does with a reader: it lets it run, receives and calls
    [Stop].  [Q] restricts the steps of the reader and its environment. *)
Section moves.
Context {W : Type} {RW : LogReader W}.

Inductive reader_moves (Q : reader_label -> Prop) (w0 : W) : W -> Prop :=
| moves_here : reader_moves Q w0 w0
| moves_step w l w' : reader_moves Q w0 w -> Q l -> reader_exec l w = Some w' -> reader_moves Q w0 w'
| moves_receive w x w' : reader_moves Q w0 w -> receive w = Some (x, w') -> reader_moves Q w0 w'
| moves_stop w w' : reader_moves Q w0 w -> stop_call w = Some w' -> reader_moves Q w0 w'.

End moves.
