(* ===== verification/ReaderLoop.v ===== *)
(** * A reader with one goroutine

    [WindowsEventLogReader] and [MacOSLogReader] have the same frame: [Start]
    sets [running] and starts a goroutine; the goroutine sends lines until it
    returns, then sets [running] to false and closes [stoppedCh]; [Stop] closes
    [stopCh], waits for [stoppedCh] and closes [lines].  This file models the
    frame once, as a transition system over any body of the goroutine (the class
    [ReaderBody]), shows that it implements the interface [LogReader], and proves
    what holds whatever the body does. *)
From S2P Require Import Prelude LogReader.

(** The body of the goroutine, up to the end of its deferred function's critical
    section. *)
Class ReaderBody (B : Type) := {
  body_label : Type;
  (** One step; the booleans are "[stopCh] is closed" and "a send on [lines]
      would not block".  A line is returned when the step sends it. *)
  body_step : body_label -> bool -> bool -> B -> option (B * option bytes);
  (** The goroutine holds [r.lock]. *)
  body_locks : B -> bool;
  (** It is about to set [running] to false and to unlock. *)
  body_over : B -> bool;
  (** The next step of a goroutine that the body has started and may leave
      behind; the boolean is "some goroutine of the reader is still before
      [body_over]".  [Panic] when the step panics. *)
  body_aside : bool -> B -> option (result B);
  aside_over c b b' : body_aside c b = Some (Ok b') -> body_over b' = body_over b;
}.

Module ReaderLoop.

(** The capacity of [lines] in both readers. *)
Definition linesCap : nat := 1000.

(** The mutable fields: the contents of [lines] and whether it is closed, the
    two channels that are only ever closed, and the flag. *)
Record t := mk {
  lines : list bytes;
  closed : bool;
  stopCh : bool;
  stoppedCh : bool;
  running : bool;
}.

Definition new_reader : t := mk [] false false false false.

(** A goroutine: in its body; between [r.lock.Unlock()] and [close(r.stoppedCh)];
    gone.  It keeps the state its body ended in. *)
Inductive pc (B : Type) := Body (b : B) | Closing (b : B) | Done (b : B).
Arguments Body {B}.
Arguments Closing {B}.
Arguments Done {B}.

Definition body_of {B} (p : pc B) : B := match p with Body b | Closing b | Done b => b end.
Definition with_body {B} (b : B) (p : pc B) : pc B :=
  match p with Body _ => Body b | Closing _ => Closing b | Done _ => Done b end.

(** [procs] are the goroutines ever started; [waiting] counts the calls of [Stop]
    at their receive from [stoppedCh]. *)
Record world (B : Type) := mkWorld {
  rd : t;
  procs : list (pc B);
  received : list bytes;
  waiting : nat;
  panicked : bool;
}.
Arguments mkWorld {B}.
Arguments rd {B}.
Arguments procs {B}.
Arguments received {B}.
Arguments waiting {B}.
Arguments panicked {B}.

Section loop.
Context {B : Type} {RB : ReaderBody B}.
Implicit Types (w : world B).

Inductive label :=
| LStart (b : result B)              (* Start, with what the new goroutine begins with *)
| LStop                              (* Stop, up to its receive *)
| LStopReturn                        (* the rest of Stop *)
| LBody (i : nat) (l : body_label)   (* goroutine i, in its body *)
| LExit (i : nat)                    (* r.running = false; r.lock.Unlock() *)
| LClose (i : nat)                   (* close(r.stoppedCh) *)
| LAside (i : nat)                   (* a goroutine started by the body of goroutine i *)
| LRecv.                             (* the consumer receives a line *)

Definition set_rd (r : t) w : world B := mkWorld r (procs w) (received w) (waiting w) (panicked w).
Definition set_proc (i : nat) (p : pc B) w : world B :=
  mkWorld (rd w) (<[i := p]> (procs w)) (received w) (waiting w) (panicked w).
Definition panic w : world B := mkWorld (rd w) (procs w) (received w) (waiting w) true.

(** Nobody holds [r.lock] across steps. *)
Definition unlocked w : bool :=
  forallb (fun p => match p with Body b => negb (body_locks b) | _ => true end) (procs w).

(** The goroutine started last is still before [body_over]. *)
Definition busy (ps : list (pc B)) : bool :=
  match last ps with Some (Body b) => negb (body_over b) | _ => false end.

Definition room (r : t) : bool := closed r || (length (lines r) <? linesCap)%nat.

(** [Start]: with [r.lock] held, nothing if it runs already. *)
Definition Start (b : result B) w : world B * result unit :=
  let r := rd w in
  if running r then (w, Ok tt)
  else match b with
       | Ok b => (mkWorld (mk (lines r) (closed r) (stopCh r) (stoppedCh r) true)
                    (procs w ++ [Body b]) (received w) (waiting w) (panicked w), Ok tt)
       | Err e => (w, Err e)
       | Panic p => (panic w, Panic p)
       end.

(** [Stop], up to [<-r.stoppedCh]. *)
Definition Stop w : world B :=
  let r := rd w in
  if negb (running r) then w
  else if stopCh r then panic w               (* close of closed channel *)
  else mkWorld (mk (lines r) (closed r) true (stoppedCh r) (running r)) (procs w) (received w)
         (S (waiting w)) (panicked w).

(** [<-r.stoppedCh; close(r.lines)] *)
Definition Stop_rest w : option (world B) :=
  let r := rd w in
  match waiting w with
  | S n =>
      if negb (stoppedCh r) then None
      else if closed r then Some (panic w)
      else Some (mkWorld (mk (lines r) true (stopCh r) true (running r)) (procs w) (received w) n
                   (panicked w))
  | O => None
  end.

(** A step of the body; sending on a closed channel panics. *)
Definition step_body (i : nat) (l : body_label) w : option (world B) :=
  match procs w !! i with
  | Some (Body b) =>
      '(b', x) ← body_step l (stopCh (rd w)) (room (rd w)) b;
      match x with
      | None => Some (set_proc i (Body b') w)
      | Some x =>
          let r := rd w in
          if closed r then Some (panic w)
          else Some (set_proc i (Body b')
                 (set_rd (mk (lines r ++ [x]) (closed r) (stopCh r) (stoppedCh r) (running r)) w))
      end
  | _ => None
  end.

Definition exec (l : label) w : option (world B) :=
  if panicked w then None else
  let r := rd w in
  match l with
  | LStart b => if unlocked w then Some (Start b w).1 else None
  | LStop => if unlocked w then Some (Stop w) else None
  | LStopReturn => Stop_rest w
  | LBody i l => step_body i l w
  | LExit i =>
      match procs w !! i with
      | Some (Body b) =>
          if body_over b then
            Some (set_proc i (Closing b)
              (set_rd (mk (lines r) (closed r) (stopCh r) (stoppedCh r) false) w))
          else None
      | _ => None
      end
  | LClose i =>
      match procs w !! i with
      | Some (Closing b) =>
          if stoppedCh r then Some (panic w)
          else Some (set_proc i (Done b) (set_rd (mk (lines r) (closed r) (stopCh r) true (running r)) w))
      | _ => None
      end
  | LAside i =>
      p ← procs w !! i;
      match body_aside (busy (procs w)) (body_of p) with
      | Some (Ok b) => Some (set_proc i (with_body b p) w)
      | Some (Panic _) => Some (panic w)
      | _ => None
      end
  | LRecv =>
      match lines r with
      | [] => None
      | x :: ls => Some (mkWorld (mk ls (closed r) (stopCh r) (stoppedCh r) (running r)) (procs w)
                           (received w ++ [x]) (waiting w) (panicked w))
      end
  end.

Fixpoint run (tr : list label) w : option (world B) :=
  match tr with
  | [] => Some w
  | l :: tr => w' ← exec l w; run tr w'
  end.

(** Everything that was sent. *)
Definition output w : list bytes := received w ++ lines (rd w).

Definition is_start (l : label) : bool := match l with LStart _ => true | _ => false end.

(** ** The interface [LogReader] *)

Definition internal (l : label) : bool :=
  match l with LRecv | LStop | LStart _ => false | _ => true end.

#[global] Instance loop_log_reader : LogReader (world B) := {|
  reader_label := label;
  reader_exec l w := if internal l then exec l w else None;
  queued w := lines (rd w);
  lines_closed w := closed (rd w);
  receive w := w' ← exec LRecv w; x ← head (lines (rd w)); Some (x, w');
  taken := received;
  stop_call w := w' ← exec LStop w; if panicked w' then None else Some w';
  stop_done w := bool_decide (waiting w = 0);
|}.

End loop.
Arguments label B {RB}.
Arguments Start {B}.
Arguments Stop {B}.

Definition new_world {B} : world B := mkWorld new_reader [] [] 0 false.

End ReaderLoop.

Module ReaderLoopLemmas.
Import ReaderLoop.

Section lemmas.
Context {B : Type} {RB : ReaderBody B}.
Implicit Types (w : world B) (p : pc B).

(** ** The channel is a queue *)

(** What a step does to the queue: it appends at most one line, which is one
    the body sent; only [LRecv] removes one. *)
Lemma exec_queue l w w' :
  exec l w = Some w' -> l <> LRecv ->
  received w' = received w /\
  exists new, lines (rd w') = lines (rd w) ++ new /\
    match l with LBody _ _ => True | _ => new = [] end.
Proof.
  unfold exec. destruct (panicked w); [done|]. intros E Hl.
  destruct l; try done.
  - destruct (unlocked w); [|done]. injection E as <-. unfold Start.
    destruct (running (rd w)); [|destruct b]; simpl; (split; [done|]; exists []; by rewrite app_nil_r).
  - destruct (unlocked w); [|done]. injection E as <-. unfold Stop.
    destruct (negb _); [|destruct (stopCh _)]; simpl; (split; [done|]; exists []; by rewrite app_nil_r).
  - unfold Stop_rest in E. repeat case_match; simplify_eq/=;
      (split; [done|]; exists []; by rewrite app_nil_r).
  - unfold step_body in E. destruct (procs w !! i) as [[]|]; try done.
    destruct (body_step _ _ _ _) as [[b' x]|]; simplify_eq/=. destruct x as [x|].
    + destruct (closed _); simplify_eq/=; (split; [done|]); [exists []; by rewrite app_nil_r|by exists [x]].
    + simplify_eq/=. split; [done|]. exists []. by rewrite app_nil_r.
  - repeat case_match; simplify_eq/=; (split; [done|]; exists []; by rewrite app_nil_r).
  - repeat case_match; simplify_eq/=; (split; [done|]; exists []; by rewrite app_nil_r).
  - destruct (procs w !! i); simpl in E; [|done].
    repeat case_match; simplify_eq/=; (split; [done|]; exists []; by rewrite app_nil_r).
Qed.

#[global] Instance loop_log_reader_laws : LogReaderLaws (world B).
Proof.
  split; simpl.
  - intros w x w'. unfold exec. destruct (panicked w); [done|].
    destruct (lines (rd w)) as [|y ls] eqn:E; simpl; [done|]. by intros [= <- <-].
  - intros l w w' E. destruct (internal l) eqn:Ei; [|done].
    destruct (exec_queue l w w' E ltac:(by intros ->)) as (-> & new & -> & _).
    split; [by eexists|done].
  - intros w w' E. destruct (exec LStop w) as [w1|] eqn:E1; simpl in E; [|done].
    destruct (panicked w1); simplify_eq. apply exec_queue in E1 as (-> & new & -> & ->); [|done].
    by rewrite app_nil_r.
Qed.

(** ** One goroutine *)

Definition is_body p : bool := match p with Body _ => true | _ => false end.
Definition is_done p : bool := match p with Done _ => true | _ => false end.

(** A goroutine the body left behind is about to panic. *)
Definition crashes p : Prop := exists m, body_aside (busy [p]) (body_of p) = Some (Panic m).

(** The state after one [Start], with [Stop] called any number of times. *)
Record ctl p w : Prop := {
  ctl_procs : procs w = [p];
  ctl_running : running (rd w) = is_body p;
  ctl_stopped : stoppedCh (rd w) = is_done p;
  ctl_waiting : waiting w = if stopCh (rd w) && negb (closed (rd w)) then 1 else 0;
  ctl_closed : closed (rd w) = true -> stopCh (rd w) = true /\ is_done p = true;
  ctl_panic : panicked w = true -> crashes p;
}.

(** A step after the start whose calls of [Stop] do not overlap. *)
Definition proper (l : label B) w : Prop :=
  is_start l = false /\ (l = LStop -> waiting w = 0).

(** What the goroutine may do in one step. *)
Inductive proc_step (w : world B) : pc B -> pc B -> option bytes -> Prop :=
| ps_idle p : proc_step w p p None
| ps_body l b b' x : body_step l (stopCh (rd w)) (room (rd w)) b = Some (b', x) ->
    proc_step w (Body b) (Body b') x
| ps_exit b : body_over b = true -> proc_step w (Body b) (Closing b) None
| ps_close b : proc_step w (Closing b) (Done b) None
| ps_aside p b c : body_aside c (body_of p) = Some (Ok b) -> proc_step w p (with_body b p) None.

Lemma ctl_open p w : ctl p w -> is_done p = false -> closed (rd w) = false.
Proof. intros Hc Hp. destruct (closed (rd w)) eqn:E; [|done]. destruct (ctl_closed _ _ Hc E). congruence. Qed.

Lemma is_body_with b p : is_body (with_body b p) = is_body p.
Proof. by destruct p. Qed.
Lemma is_done_with b p : is_done (with_body b p) = is_done p.
Proof. by destruct p. Qed.

Lemma ctl_step l w w' p :
  ctl p w -> proper l w -> exec l w = Some w' ->
  exists p' x, proc_step w p p' x /\ ctl p' w' /\ output w' = output w ++ option_list x.
Proof.
  intros HC [Hl Hst] E. pose proof HC as [Hp Hr Hs Hw Hc _]. unfold exec in E.
  destruct (panicked w) eqn:Hn; [done|].
  destruct l as [b| | |i l|i|i|i|]; try done.
  - destruct (unlocked w); [|done]. injection E as <-. exists p, None. split; [constructor|].
    unfold output, Stop. rewrite app_nil_r. specialize (Hst eq_refl). rewrite Hst in Hw.
    destruct (running (rd w)) eqn:Er; simpl; [|split; [|done]; split; try done; congruence].
    destruct p as [b|b|b]; try done. rewrite (ctl_open _ _ HC eq_refl) in *.
    destruct (stopCh (rd w)) eqn:Es; simpl in Hw; [done|].
    split; [|done]. split; simpl; try done; congruence.
  - unfold Stop_rest in E. destruct (waiting w) as [|n] eqn:Ew; [done|].
    destruct (stoppedCh (rd w)) eqn:Es; simpl in E; [|done].
    destruct (closed (rd w)) eqn:Ecl; simpl in Hw; [by rewrite andb_false_r in Hw|].
    rewrite andb_true_r in Hw. destruct (stopCh (rd w)) eqn:Eq; [|done]. injection E as <-.
    exists p, None. split; [constructor|]. unfold output; simpl. rewrite app_nil_r. split; [|done].
    split; simpl; try done; try congruence; try lia.
  - unfold step_body in E. rewrite Hp in E. destruct i; [|done]. simpl in E.
    destruct p as [b|b|b]; try done. destruct (body_step _ _ _ _) as [[b' x]|] eqn:Eb; [|done]. simpl in E.
    pose proof (ctl_open _ _ HC eq_refl) as Hcl.
    exists (Body b'), x. split; [by econstructor|]. rewrite Hcl in Hw.
    destruct x; rewrite ?Hcl in E; simplify_eq/=; unfold output; simpl;
      rewrite <- ?(assoc_L (++)), ?app_nil_r; (split; [|done]); split; simpl; rewrite ?Hp, ?Hcl; try done; congruence.
  - rewrite Hp in E. destruct i; [|done]. simpl in E. destruct p as [b|b|b]; try done.
    destruct (body_over b) eqn:Eo; [|done]. injection E as <-.
    pose proof (ctl_open _ _ HC eq_refl) as Hcl.
    exists (Closing b), None. split; [by constructor|]. rewrite Hcl in Hw. unfold output; simpl. rewrite app_nil_r.
    split; [|done]. split; simpl; rewrite ?Hp, ?Hcl; try done; congruence.
  - rewrite Hp in E. destruct i; [|done]. simpl in E. destruct p as [b|b|b]; try done.
    simpl in Hs. rewrite Hs in E. injection E as <-.
    pose proof (ctl_open _ _ HC eq_refl) as Hcl.
    exists (Done b), None. split; [by constructor|]. rewrite Hcl in Hw. unfold output; simpl. rewrite app_nil_r.
    split; [|done]. split; simpl; rewrite ?Hp, ?Hcl; try done; congruence.
  - rewrite Hp in E. destruct i; [|done]. simpl in E.
    destruct (body_aside _ _) as [[b|e|m]|] eqn:Ea; try done; injection E as <-.
    + exists (with_body b p), None. split; [by econstructor|]. unfold output; simpl. rewrite app_nil_r.
      split; [|done]. split; simpl; rewrite ?is_body_with, ?is_done_with, ?Hp; try done; congruence.
    + exists p, None. split; [constructor|]. unfold output; simpl. rewrite app_nil_r.
      split; [|done]. split; simpl; try done. intros _. by exists m.
  - destruct (lines (rd w)) as [|x ls] eqn:El; [done|]. injection E as <-.
    exists p, None. split; [constructor|]. unfold output; simpl. rewrite El, app_nil_r, <- (assoc_L (++)).
    split; [|done]. split; simpl; try done; congruence.
Qed.

(** The worlds reached from [w0] by proper steps. *)
Inductive life (w0 : world B) : world B -> Prop :=
| life_here : life w0 w0
| life_step w l w' : life w0 w -> proper l w -> exec l w = Some w' -> life w0 w'.

Lemma life_run w0 tr w :
  Forall (fun l => is_start l = false /\ l <> LStop) tr -> run tr w0 = Some w -> life w0 w.
Proof.
  intros Htr. assert (forall w1, life w0 w1 -> run tr w1 = Some w -> life w0 w) as H; [|apply H, life_here].
  induction Htr as [|l tr [H1 H2] _ IH]; intros w1 Hw1; simpl; [by intros [= <-]|].
  destruct (exec l w1) as [w2|] eqn:E; simpl; [|done]. apply IH.
  eapply life_step; [exact Hw1| |exact E]. split; [done|]. intros ->. done.
Qed.

Lemma started_ctl b : ctl (Body b) (Start (Ok b) new_world).1 /\ output (Start (Ok b) new_world).1 = [].
Proof. split; [|done]. by split. Qed.

(** A body and what it has sent: an invariant of its steps is one of the
    reader, until the goroutine is gone, and after that about the state in which
    it returned. *)
Definition body_fact (I : B -> list bytes -> Prop) p (out : list bytes) : Prop :=
  I (body_of p) out /\ (is_body p = true \/ body_over (body_of p) = true).

Lemma life_inv (I : B -> list bytes -> Prop) p0 w0 w :
  (forall l s r b out b' x, I b out -> body_step l s r b = Some (b', x) -> I b' (out ++ option_list x)) ->
  (forall c b out b', I b out -> body_aside c b = Some (Ok b') -> I b' out) ->
  ctl p0 w0 -> body_fact I p0 (output w0) -> life w0 w ->
  exists p, ctl p w /\ body_fact I p (output w).
Proof.
  intros HI HA H0 Hb. induction 1 as [|w l w' _ (p & Hc & Hf & Ho) Hpr E]; [eauto|].
  destruct (ctl_step l w w' p Hc Hpr E) as (p' & x & Hs & Hc' & ->).
  exists p'. split; [done|].
  destruct Hs as [p|l' b b' x Hs|b Hb'|b|p b c Ha]; simpl in *; rewrite ?app_nil_r; unfold body_fact; simpl.
  - auto.
  - eauto.
  - auto.
  - split; [done|]. destruct Ho; [done|by right].
  - rewrite is_body_with. pose proof (HA _ _ _ _ Hf Ha). apply aside_over in Ha. destruct p; simpl in *; by rewrite Ha.
Qed.

Lemma life_ctl p0 w0 w : ctl p0 w0 -> life w0 w -> exists p, ctl p w.
Proof.
  intros H0. induction 1 as [|w l w' _ [p Hc] Hpr E]; [eauto|].
  destruct (ctl_step l w w' p Hc Hpr E) as (p' & x & _ & ? & _). eauto.
Qed.

(** A client lives by these rules: a call of [Stop] that overlaps another one
    either does nothing, because the goroutine is gone, or crashes. *)
Lemma moves_life p0 w0 w Q :
  ctl p0 w0 -> reader_moves Q w0 w -> life w0 w.
Proof.
  intros H0. induction 1 as [|v l v' _ IH _ E|v x v' _ IH E|v v' _ IH E]; simpl in *.
  - constructor.
  - destruct (internal l) eqn:Hi; [|done]. eapply life_step; [exact IH| |exact E].
    split; [by destruct l|]. by intros ->.
  - destruct (exec LRecv v) as [v1|] eqn:E1; simpl in E; [|done].
    destruct (head _); simpl in E; [|done]. injection E as _ <-. by eapply life_step; [exact IH| |exact E1].
  - destruct (exec LStop v) as [v1|] eqn:E1; simpl in E; [|done].
    destruct (panicked v1) eqn:Hp; simplify_eq.
    destruct (life_ctl p0 w0 v H0 IH) as (p & HC). pose proof (ctl_waiting p v HC) as Hw.
    destruct (waiting v) eqn:Ew; [eapply (life_step w0 v LStop); [exact IH|done|exact E1]|].
    unfold exec in E1. destruct (panicked v); [done|]. destruct (unlocked v); [|done]. injection E1 as <-.
    unfold Stop in *. destruct (running (rd v)); simpl in *; [|done].
    by destruct (stopCh (rd v)).
Qed.

(** After [Stop] has returned, the goroutine can finish only by a panic, and
    nothing is sent any more, also when [Start] is called again. *)
Definition finished w : nat := length (filter (fun p => is_done p = true) (procs w)).

Lemma filter_insert_keep (Q : pc B -> Prop) `{forall p, Decision (Q p)} ps i p q :
  ps !! i = Some p -> ~ Q p -> ~ Q q -> length (filter Q (<[i := q]> ps)) = length (filter Q ps).
Proof.
  revert i. induction ps as [|r ps IH]; intros [|i]; simpl; try done.
  - intros [= ->] Hp Hq. by rewrite !filter_cons_False.
  - intros Hi Hp Hq. rewrite !filter_cons. destruct (decide (Q r)); simpl; by rewrite (IH i).
Qed.

Lemma finished_with ps i p b :
  ps !! i = Some p ->
  length (filter (fun p => is_done p = true) (<[i := with_body b p]> ps)) =
  length (filter (fun p => is_done p = true) ps).
Proof.
  revert i. induction ps as [|r ps IH]; intros [|i]; simpl; try done.
  - intros [= ->]. rewrite !filter_cons, is_done_with. by destruct (decide _).
  - intros Hi. rewrite !filter_cons. destruct (decide _); simpl; by rewrite (IH i).
Qed.

Lemma stopped_for_good w tr w' :
  closed (rd w) = true -> stoppedCh (rd w) = true -> run tr w = Some w' ->
  output w' = output w /\ finished w' = finished w.
Proof.
  revert w. induction tr as [|l tr IH]; intros w Hc Hs; simpl; [by intros [= <-]|].
  destruct (exec l w) as [w1|] eqn:E; simpl; [|done]. intros Hr.
  enough (closed (rd w1) = true /\ stoppedCh (rd w1) = true /\ output w1 = output w /\
          finished w1 = finished w) as (Hc1 & Hs1 & <- & <-) by (by apply IH).
  clear IH Hr. unfold exec in E. destruct (panicked w) eqn:Hn; [done|]. unfold output, finished.
  destruct l as [b| | |i l|i|i|i|]; simpl in E.
  - destruct (unlocked w); [|done]. injection E as <-. unfold Start.
    destruct (running (rd w)); [|destruct b]; simpl; split_and!; try done.
    rewrite filter_app, length_app. simpl. lia.
  - destruct (unlocked w); [|done]. injection E as <-. unfold Stop.
    destruct (negb _); [|destruct (stopCh _)]; done.
  - unfold Stop_rest in E. rewrite Hs, Hc in E. simpl in E. destruct (waiting w); by simplify_eq/=.
  - unfold step_body in E. destruct (procs w !! i) as [[b|b|b]|] eqn:Hi; try done.
    destruct (body_step _ _ _ _) as [[b' x]|]; [|done]. simpl in E. rewrite Hc in E.
    destruct x; simplify_eq/=; [done|]. split_and!; try done. by eapply filter_insert_keep.
  - destruct (procs w !! i) as [[b|b|b]|] eqn:Hi; try done. destruct (body_over b); [|done].
    simplify_eq/=. split_and!; try done. by eapply filter_insert_keep.
  - destruct (procs w !! i) as [[b|b|b]|] eqn:Hi; try done. rewrite Hs in E. by simplify_eq/=.
  - destruct (procs w !! i) as [p|] eqn:Hi; simpl in E; [|done].
    destruct (body_aside _ _) as [[b|e|m]|]; try done; simplify_eq/=; [|done].
    split_and!; try done. by apply finished_with.
  - destruct (lines (rd w)) as [|x ls]; [done|]. simplify_eq/=. by rewrite <- (assoc_L (++)).
Qed.

(** The way from the end of the body to the return of [Stop]. *)
Lemma finish_stop b w :
  ctl (Body b) w -> panicked w = false -> body_over b = true -> stopCh (rd w) = true ->
  exists w', run [LExit 0; LClose 0; LStopReturn] w = Some w' /\
    waiting w' = 0 /\ closed (rd w') = true /\ output w' = output w.
Proof.
  intros HC Hn Ho Hs. pose proof (ctl_open _ _ HC eq_refl) as Hcl.
  destruct w as [[ls cl sc st rn] ps rc wt pn]. destruct HC as [Hp Hr Hst Hw _ _]. simpl in *.
  subst. simpl. unfold exec; simpl. rewrite Ho; simpl. eexists. by split.
Qed.

End lemmas.
End ReaderLoopLemmas.
