(* ===== verification/WindowsReader.v ===== *)
(** * The Windows event reader

    Models [src/pkg/reader/windows_event_reader.go]: the goroutine [readEvents]
    as a body of [ReaderLoop] (which has [Start] and [Stop]), the event and its
    text, and [getLatestEvents] as it is, a placeholder that makes up one event
    per tick.  The constructor is [ReaderFactory.NewWindowsEventLogReader]. *)
From stdpp Require Import pretty.
From S2P Require Import Prelude Lines GoStrings LogReader ReaderLoop.

Module WindowsReader.
Import ReaderLoop.

Record windowsEvent := mkEvent {
  TimeCreated : string;
  Source : string;
  EventID : Z;
  Level : string;
  Computer : string;
  RecordID : Z;
  Message : string;
}.

(** [formatAsLogLine] *)
Definition formatAsLogLine (e : windowsEvent) : string :=
  "[" +:+ TimeCreated e +:+ "] " +:+ Source e +:+ " EventID=" +:+ pretty (EventID e) +:+
  " Computer=" +:+ Computer e +:+ " Provider=" +:+ Source e +:+ " Level=" +:+ Level e +:+
  " RecordID=" +:+ pretty (RecordID e) +:+ " Message=" +:+ ReplaceByte (Message e) nl " ".

(** The fields that do not change. *)
Record reader := mkReader { logName : string; minLevel : string }.

(** [getLatestEvents], at the time [now] as [time.RFC3339] prints it. *)
Definition getLatestEvents (r : reader) (now : string) (lastRecord : Z) : result (list windowsEvent) :=
  let mockEvent := {|
    TimeCreated := now;
    Source := logName r;
    EventID := 1000;
    Level := minLevel r;
    Computer := "localhost";
    RecordID := wrap64 (lastRecord + 1);
    Message := "This is a mock Windows event log entry for testing" |} in
  Ok [mockEvent].

(** Where [readEvents] is: at the outer [select]; at the inner one, with the
    event to send and the events after it; in its deferred function. *)
Inductive pc :=
| AtSelect (lastRecord : Z)
| Sending (e : windowsEvent) (rest : list windowsEvent) (lastRecord : Z)
| Returning.

Record body := mkBody { self : reader; at_ : pc }.

Inductive label :=
| Tick (now : string)   (* case <-ticker.C *)
| Send                  (* case r.lines <- event.formatAsLogLine() *)
| SeeStop.              (* case <-r.stopCh *)

(** The next round of [for _, event := range events], or the outer [select]. *)
Definition next_event (events : list windowsEvent) (lastRecord : Z) : pc :=
  match events with
  | [] => AtSelect lastRecord
  | e :: rest => Sending e rest lastRecord
  end.

(** [readEvents] *)
Definition readEvents (l : label) (stopped room : bool) (b : body) : option (body * option bytes) :=
  let r := self b in
  match l, at_ b with
  | Tick now, AtSelect last =>
      match getLatestEvents r now last with
      | Ok events => Some (mkBody r (next_event events last), None)
      | Err err =>                             (* a send that does not wait *)
          let msg := go_bytes (Sprintf1 "Error reading Windows Event log: %v" (Error err)) in
          Some (mkBody r (AtSelect last), if room then Some msg else None)
      | Panic _ => None
      end
  | SeeStop, AtSelect _ => if stopped then Some (mkBody r Returning, None) else None
  | Send, Sending e rest last =>
      if room then
        let last := if (RecordID e >? last)%Z then RecordID e else last in
        Some (mkBody r (next_event rest last), Some (go_bytes (formatAsLogLine e)))
      else None
  | SeeStop, Sending _ _ _ => if stopped then Some (mkBody r Returning, None) else None
  | _, _ => None
  end.

#[global] Instance windows_body : ReaderBody body := {|
  body_label := label;
  body_step := readEvents;
  body_locks _ := false;
  body_over b := match at_ b with Returning => true | _ => false end;
  body_aside _ _ := None;
  aside_over c b b' H := ltac:(discriminate H);
|}.

Abbreviation world := (ReaderLoop.world body).

(** [Start] starts [readEvents], which begins with [lastRecord = 0]. *)
Definition Start (r : reader) (w : world) : world * result unit :=
  ReaderLoop.Start (Ok (mkBody r (AtSelect 0))) w.

Definition started (r : reader) : world := (Start r new_world).1.

(** The line for the event made up at the time [now] after [n] others. *)
Definition event_line (r : reader) (n : nat) (now : string) : bytes :=
  match getLatestEvents r now (Z.of_nat n) with
  | Ok (e :: _) => go_bytes (formatAsLogLine e)
  | _ => []
  end.

End WindowsReader.

Module WindowsReaderLemmas.
Import ReaderLoop ReaderLoopLemmas WindowsReader.

(** The body and what it has sent, for fewer than [2 ^ 63 - 1] events. *)
Definition sent_ok (r : reader) (b : body) (out : list bytes) : Prop :=
  (zlen out < 2 ^ 63 - 1)%Z ->
  self b = r /\ exists times, out = imap (event_line r) times /\
    match at_ b with
    | AtSelect last => last = zlen times
    | Sending e rest last => rest = [] /\ last = zlen times /\
        exists now, getLatestEvents r now last = Ok [e]
    | Returning => True
    end.

Lemma sent_ok_step r l s rm b out b' x :
  sent_ok r b out -> readEvents l s rm b = Some (b', x) -> sent_ok r b' (out ++ option_list x).
Proof.
  intros HI E Hlen. rewrite zlen_app in Hlen. pose proof (zlen_nonneg (option_list x)).
  destruct HI as (Hr & times & -> & Hat); [lia|]. destruct b as [r' p]. simpl in *. subst r'.
  unfold readEvents in E. simpl in E. destruct l as [now| |], p as [last|e rest last|]; try done.
  - injection E as <- <-. simpl. split; [done|]. exists times. rewrite app_nil_r.
    split_and!; try done. by exists now.
  - destruct rm; [|done]. destruct Hat as (-> & -> & now & Ee). injection E as <- <-.
    injection Ee as Ee. simpl. split; [done|]. exists (times ++ [now]).
    rewrite imap_app. simpl. rewrite Nat.add_0_r. split.
    + f_equal. unfold event_line. rewrite <- Ee. done.
    + rewrite <- Ee. simpl. unfold zlen in *. rewrite length_imap in Hlen. rewrite wrap64_id.
      * rewrite length_app; simpl. destruct (Z.gtb_spec (Z.of_nat (length times) + 1) (Z.of_nat (length times))); lia.
      * unfold int64_range. simpl in *. lia.
  - destruct s; [|done]. injection E as <- <-. split; [done|]. exists times. by rewrite app_nil_r.
  - destruct s; [|done]. injection E as <- <-. split; [done|]. exists times. by rewrite app_nil_r.
Qed.

Lemma windows_life r w :
  life (started r) w -> exists p, ctl p w /\ body_fact (sent_ok r) p (output w).
Proof.
  apply (life_inv (sent_ok r) (Body (mkBody r (AtSelect 0)))).
  - intros l s rm b out b' x HI E. by eapply sent_ok_step.
  - done.
  - apply started_ctl.
  - split; [|by left]. intros _. split; [done|]. by exists [].
Qed.

(** No goroutine is left behind, so nothing panics. *)
Lemma windows_calm p w : ctl (RB := windows_body) p w -> panicked w = false.
Proof. intros Hc. destruct (panicked w) eqn:E; [|done]. by destruct (ctl_panic _ _ Hc E). Qed.

(** From any point after [close(r.stopCh)], the goroutine's own steps lead to
    the return of [Stop]. *)
Lemma windows_finish p w :
  ctl p w -> waiting w = 1 ->
  exists tr w', length tr <= 4 /\ Forall (fun l => internal l = true) tr /\
    run tr w = Some w' /\ waiting w' = 0 /\ closed (rd w') = true /\ output w' = output w.
Proof.
  intros Hc Hw. pose proof (ctl_waiting p w Hc) as Hwt. rewrite Hw in Hwt.
  pose proof (windows_calm p w Hc) as Hn.
  assert (stopCh (rd w) = true /\ closed (rd w) = false) as [Hs Hcl]
    by (destruct (stopCh (rd w)), (closed (rd w)); simpl in Hwt; done).
  destruct p as [b|b|b].
  - destruct (body_over b) eqn:Ho.
    { destruct (finish_stop b w Hc Hn Ho Hs) as (w' & Hr & H1 & H2 & H3).
      exists [LExit 0; LClose 0; LStopReturn], w'. simpl. split_and!; try done; [lia|].
      repeat constructor. }
    set (w1 := set_proc 0 (Body (mkBody (self b) Returning)) w).
    assert (exec (LBody 0 SeeStop) w = Some w1) as E.
    { unfold exec, step_body. rewrite Hn, (ctl_procs _ _ Hc). simpl.
      unfold readEvents. rewrite Hs. destruct b as [r []]; done. }
    assert (ctl (Body (mkBody (self b) Returning)) w1 /\ output w1 = output w) as [Hc1 Ho1].
    { destruct Hc as [Hp Hrn Hst Hw' Hc' Hpn]. split; [|done].
      split; simpl; rewrite ?Hp; try done; congruence. }
    destruct (finish_stop (RB := windows_body) _ w1 Hc1 Hn eq_refl Hs) as (w' & Hr & H1 & H2 & H3).
    exists [LBody (RB := windows_body) 0 SeeStop; LExit 0; LClose 0; LStopReturn], w'. split; [simpl; lia|]. split_and!; try done.
    + repeat constructor.
    + change (run (LBody (RB := windows_body) 0 SeeStop :: [LExit 0; LClose 0; LStopReturn]) w) with
        (w2 ← exec (LBody (RB := windows_body) 0 SeeStop) w; run [LExit 0; LClose 0; LStopReturn] w2).
      by rewrite E.
  - destruct w as [[ls cl sc st rn] ps rc wt pn], Hc as [Hp Hrn Hst _ _ _]; simpl in *; subst.
    exists [LClose 0; LStopReturn]. eexists. split; [simpl; lia|]. split; [repeat constructor|].
    split; [reflexivity|]. done.
  - destruct w as [[ls cl sc st rn] ps rc wt pn], Hc as [Hp Hrn Hst _ _ _]; simpl in *; subst.
    exists [LStopReturn]. eexists. split; [simpl; lia|]. split; [repeat constructor|].
    split; [reflexivity|]. done.
Qed.

Lemma no_nl_replace s c : c <> nl -> no_nl (go_bytes (ReplaceByte s nl c)).
Proof.
  intros Hc. unfold ReplaceByte. rewrite go_bytes_string. unfold no_nl.
  induction (go_bytes s) as [|d b IH]; simpl; [set_solver|].
  apply not_elem_of_cons. split; [|done]. destruct (Ascii.eqb_spec d nl); congruence.
Qed.

Lemma windows_sent r w :
  life (started r) w -> (zlen (output w) < 2 ^ 63 - 1)%Z ->
  panicked w = false /\ exists times, output w = imap (event_line r) times.
Proof.
  intros (p & Hc & Hf & _)%windows_life Hlen. split; [apply (windows_calm p w Hc)|].
  apply Hf in Hlen as (_ & times & ? & _). eauto.
Qed.

End WindowsReaderLemmas.

Module WindowsReaderProperties.
Import ReaderLoop ReaderLoopLemmas WindowsReader WindowsReaderLemmas.


(** Stopping the Windows reader needs nobody's help: at any moment after [Stop]
    was called, at most four steps of the reader's own lead to its return, with
    [lines] closed and nothing lost of what was sent. *)
Theorem windows_stop_returns r w :
  life (started r) w -> waiting w = 1 ->
  exists tr w', length tr <= 4 /\ Forall (fun l => internal l = true) tr /\
    run tr w = Some w' /\ stop_done w' = true /\ lines_closed w' = true /\ output w' = output w.
Proof.
  intros (p & Hc & _)%windows_life Hw.
  destruct (windows_finish p w Hc Hw) as (tr & w' & H1 & H2 & H3 & H4 & H5 & H6).
  exists tr, w'. split_and!; try done. simpl. by rewrite H4.
Qed.

(** C24. A stopped reader cannot be used again.  After [Stop] has returned, nothing
    more is ever delivered, whatever is called, [Start] included; and a new
    [Start] is accepted, its goroutine sees the closed [stopCh] at once and
    crashes the process when it closes [stoppedCh] a second time. *)
Theorem windows_restart_crashes r w :
  life (started r) w -> lines_closed w = true ->
  (forall tr w', run tr w = Some w' -> output w' = output w) /\
  exists w', run [LStart (Ok (mkBody r (AtSelect 0))); LBody (RB := windows_body) 1 SeeStop; LExit 1; LClose 1] w
    = Some w' /\ panicked w' = true.
Proof.
  intros (p & Hc & _)%windows_life Hcl. simpl in Hcl.
  destruct (ctl_closed _ _ Hc Hcl) as [Hs Hd]. pose proof (windows_calm p w Hc) as Hn.
  assert (stoppedCh (rd w) = true) as Hst by (by rewrite (ctl_stopped _ _ Hc)).
  split; [intros tr w' Hr; by apply (stopped_for_good w tr)|].
  destruct Hc as [Hp Hrn _ _ _ _]. destruct p as [b|b|b]; try done.
  destruct w as [[ls cl sc st rn] ps rc wt pn]; simpl in *; subst.
  eexists. split; reflexivity.
Qed.

(** An event is one line whatever its message holds, provided the name of the
    log and the other fields have no newline. *)
Theorem event_is_one_line e :
  no_nl (go_bytes (formatAsLogLine e)) <->
  no_nl (go_bytes (TimeCreated e)) /\ no_nl (go_bytes (Source e)) /\
  no_nl (go_bytes (pretty (EventID e))) /\ no_nl (go_bytes (Computer e)) /\
  no_nl (go_bytes (Level e)) /\ no_nl (go_bytes (pretty (RecordID e))).
Proof.
  unfold formatAsLogLine. rewrite !go_bytes_app, !no_nl_app.
  assert (no_nl (go_bytes (ReplaceByte (Message e) nl " "))) by (by apply no_nl_replace).
  assert (forall s, bool_decide (nl ∉ go_bytes s) = true -> no_nl (go_bytes s)) as Hs
    by (intros s; apply bool_decide_eq_true).
  pose proof (Hs "[" eq_refl). pose proof (Hs "] " eq_refl). pose proof (Hs " EventID=" eq_refl).
  pose proof (Hs " Computer=" eq_refl). pose proof (Hs " Provider=" eq_refl).
  pose proof (Hs " Level=" eq_refl). pose proof (Hs " RecordID=" eq_refl).
  pose proof (Hs " Message=" eq_refl). tauto.
Qed.

Definition demo : reader := mkReader "Application" "Information".
Abbreviation step l := (LBody (RB := windows_body) 0 l).

Definition demo_trace : list (ReaderLoop.label body) :=
  [step (Tick "t1"); step Send; LRecv; step (Tick "t2"); step Send; LStop].
Definition demo_stopping : world := default (started demo) (run demo_trace (started demo)).

Lemma demo_life : life (started demo) demo_stopping.
Proof.
  eapply (life_step _ (default (started demo) (run (take 5 demo_trace) (started demo))) LStop).
  - apply (life_run _ (take 5 demo_trace)); [|vm_compute; reflexivity].
    repeat (apply Forall_cons_2; [split; [reflexivity|discriminate]|]). apply Forall_nil_2.
  - split; [reflexivity|]. intros _. vm_compute. reflexivity.
  - vm_compute. reflexivity.
Qed.


Lemma windows_stop_returns_witness :
  length (output demo_stopping) = 2 /\
  exists tr w', length tr <= 4 /\ Forall (fun l => internal l = true) tr /\
    run tr demo_stopping = Some w' /\ stop_done w' = true /\ lines_closed w' = true /\
    output w' = output demo_stopping.
Proof.
  split; [vm_compute; reflexivity|].
  apply (windows_stop_returns demo); [exact demo_life|]. vm_compute. reflexivity.
Defined.

Definition demo_stopped : world :=
  default demo_stopping (run [step SeeStop; LExit 0; LClose 0; LStopReturn] demo_stopping).

Lemma windows_restart_crashes_witness :
  output demo_stopped = output demo_stopping /\
  exists w', run [LStart (Ok (mkBody demo (AtSelect 0))); LBody (RB := windows_body) 1 SeeStop; LExit 1; LClose 1]
    demo_stopped = Some w' /\ panicked w' = true.
Proof.
  split; [vm_compute; reflexivity|].
  refine (proj2 (windows_restart_crashes demo demo_stopped _ _)); [|vm_compute; reflexivity].
  pose proof demo_life as H.
  eapply (life_step _ (default demo_stopping (run [step SeeStop; LExit 0; LClose 0] demo_stopping)) LStopReturn);
    [|split; [reflexivity|discriminate]|vm_compute; reflexivity].
  eapply (life_step _ (default demo_stopping (run [step SeeStop; LExit 0] demo_stopping)) (LClose 0));
    [|split; [reflexivity|discriminate]|vm_compute; reflexivity].
  eapply (life_step _ (default demo_stopping (run [step SeeStop] demo_stopping)) (LExit 0));
    [|split; [reflexivity|discriminate]|vm_compute; reflexivity].
  eapply (life_step _ demo_stopping (step SeeStop)); [exact H|split; [reflexivity|discriminate]|].
  vm_compute. reflexivity.
Defined.

End WindowsReaderProperties.
