(* ===== verification/MacosReader.v ===== *)
(** * The macOS log reader

    Models [src/pkg/reader/macos_log_reader.go]: the command [Start] runs, the
    goroutine [readLogs] with its [bufio.Scanner] as a body of [ReaderLoop]
    (which has the rest of [Start] and [Stop]), the goroutine its deferred
    function starts to wait for the command, and the signals the command gets.
    What the command writes, and whether it ends in time, comes with the labels.
    [r.cmd] is not nil exactly while the goroutine started last has not got past
    [r.cmd = nil]; the one exception, a [Start] that failed, is not followed. *)
From S2P Require Import Prelude Lines Utf8 GoStrings LogReader ReaderLoop.

Module MacosReader.
Import ReaderLoop.

(** [bufio.MaxScanTokenSize] *)
Definition MaxScanTokenSize : Z := 64 * 1024.

(** [dropCR] of [bufio.ScanLines] *)
Definition CR : ascii := "013"%char.
Definition dropCR (l : bytes) : bytes :=
  match last l with
  | Some c => if Ascii.eqb c CR then removelast l else l
  | None => l
  end.

(** [strings.TrimSpace(line) == ""] *)
Definition blank (l : bytes) : bool := bool_decide (TrimSpace_bytes l = []).

(** The lines that are sent for the lines [ls] of the stream. *)
Definition tokens (ls : list bytes) : list bytes :=
  filter (fun l => blank l = false) (map dropCR ls).

Inductive signal := SIGTERM | SIGKILL.

(** Why the loop ended: the end of the output, an error of the scanner, or
    [stopCh]. *)
Inductive reason := AtEOF | OnError (e : error) | OnStop.

(** Where [readLogs] is.  [Scanning buf err]: inside [scanner.Scan()], with the
    scanner's unread bytes and its error, if the pipe has reported one;
    [Sending]: at the [select] of the loop; [Scanned]: after the loop;
    [Deferring]: before the deferred function has the lock; [Terminating]: in
    its [select]; [Reaped]: after it. *)
Inductive pc :=
| Scanning (buf : bytes) (err : option error)
| Sending (line buf : bytes) (err : option error)
| Scanned (e : error)
| Deferring (why : reason)
| Terminating (why : reason)
| Reaped (why : reason).

(** [data] is everything the pipe has delivered, [signals] what the command was
    sent; [waits]: the goroutine started by the deferred function has evaluated
    [r.cmd] and called its [Wait]. *)
Record body := mkBody {
  cmd_args : list string;
  data : bytes;
  signals : list signal;
  waits : bool;
  at_ : pc;
}.

Inductive label :=
| Scan                                    (* the scanner looks at its buffer *)
| Read (chunk : bytes) (err : option error) (* it reads from the pipe *)
| Send                                    (* case r.lines <- line *)
| SeeStop                                 (* case <-r.stopCh *)
| Report                                  (* the selects after the loop *)
| Terminate                               (* r.lock.Lock(); Signal(SIGTERM) *)
| Exited                                  (* case <-done; r.cmd = nil *)
| Timeout.                                (* case <-time.After(2 * time.Second); Kill(); r.cmd = nil *)

Definition ErrTooLong : error := Errorf "bufio.Scanner: token too long".

Definition goto (p : pc) (b : body) : body := mkBody (cmd_args b) (data b) (signals b) (waits b) p.
Definition kill (s : signal) (b : body) : body :=
  mkBody (cmd_args b) (data b) (signals b ++ [s]) (waits b) (at_ b).

(** A token was found: the loop's body, up to the [select]. *)
Definition on_token (raw buf : bytes) (err : option error) (b : body) : body :=
  let line := dropCR raw in
  goto (if blank line then Scanning buf err else Sending line buf err) b.

(** [Scan] without reading: a line of the buffer; at the end of the input the
    rest of the buffer, then the end; a buffer that is full without a line. *)
Definition scan_buffer (buf : bytes) (err : option error) (b : body) : option body :=
  match index_nl buf, err with
  | Some i, _ => Some (on_token (take i buf) (drop (i + 1) buf) err b)
  | None, Some e =>
      if bool_decide (buf = []) then
        Some (goto (if bool_decide (e = EOF) then Deferring AtEOF else Scanned e) b)
      else Some (on_token buf [] err b)
  | None, None =>
      if (MaxScanTokenSize <=? zlen buf)%Z then Some (goto (Scanned ErrTooLong) b) else None
  end.

(** [readLogs] *)
Definition readLogs (l : label) (stopped room : bool) (b : body) : option (body * option bytes) :=
  match l, at_ b with
  | Scan, Scanning buf err => b' ← scan_buffer buf err b; Some (b', None)
  | Read chunk err, Scanning buf None =>
      if bool_decide (index_nl buf = None) && (zlen buf + zlen chunk <=? MaxScanTokenSize)%Z
         && (zlen buf <? MaxScanTokenSize)%Z
      then Some (mkBody (cmd_args b) (data b ++ chunk) (signals b) (waits b) (Scanning (buf ++ chunk) err), None)
      else None
  | Send, Sending line buf err =>
      if room then Some (goto (Scanning buf err) b, Some line) else None
  | SeeStop, Sending _ _ _ => if stopped then Some (goto (Deferring OnStop) b, None) else None
  | Report, Scanned e =>
      if stopped then Some (goto (Deferring OnStop) b, None)
      else
        let errorMsg := go_bytes (Sprintf1 "Error reading macOS logs: %v" (Error e)) in
        Some (goto (Deferring (OnError e)) b, if room then Some errorMsg else None)
  | Terminate, Deferring why => Some (kill SIGTERM (goto (Terminating why) b), None)
  | Exited, Terminating why => if waits b then Some (goto (Reaped why) b, None) else None
  | Timeout, Terminating why => Some (kill SIGKILL (goto (Reaped why) b), None)
  | _, _ => None
  end.

(** [go func() { done <- r.cmd.Wait() }()], up to the call of [Wait]: [r.cmd] is
    looked up when the goroutine runs, and may be nil by then. *)
Definition wait_for_command (cmd_set : bool) (b : body) : option (result body) :=
  match at_ b with
  | Terminating _ | Reaped _ =>
      if waits b then None
      else if cmd_set then Some (Ok (mkBody (cmd_args b) (data b) (signals b) true (at_ b)))
      else Some (Panic "invalid memory address or nil pointer dereference")
  | _ => None
  end.

Lemma wait_for_command_at c b b' :
  wait_for_command c b = Some (Ok b') ->
  at_ b' = at_ b /\ data b' = data b /\ signals b' = signals b /\ waits b' = true.
Proof. unfold wait_for_command. repeat case_match; by intros [= <-]. Qed.

Lemma wait_for_command_over c b b' :
  wait_for_command c b = Some (Ok b') ->
  (match at_ b' with Reaped _ => true | _ => false end) = (match at_ b with Reaped _ => true | _ => false end).
Proof. by intros (-> & _)%wait_for_command_at. Qed.

#[global] Instance macos_body : ReaderBody body := {|
  body_label := label;
  body_step := readLogs;
  body_locks b := match at_ b with Terminating _ | Reaped _ => true | _ => false end;
  body_over b := match at_ b with Reaped _ => true | _ => false end;
  body_aside := wait_for_command;
  aside_over := wait_for_command_over;
|}.

Abbreviation world := (ReaderLoop.world body).

(** The arguments of the command [log]. *)
Definition command_args (query : string) : list string :=
  ["stream"] ++ (if negb (String.eqb query "") then ["--predicate"; query] else []) ++
  ["--style"; "syslog"].

(** [Start]; [pipe] and [launch] are the answers of [cmd.StdoutPipe] and
    [cmd.Start]. *)
Definition Start (query : string) (pipe launch : result unit) (w : world) : world * result unit :=
  ReaderLoop.Start
    (_ ← wrap_err "failed to get stdout pipe: %v" pipe;
     _ ← wrap_err "failed to start log command: %v" launch;
     Ok (mkBody (command_args query) [] [] false (Scanning [] None))) w.

Definition started (query : string) : world := (Start query (Ok tt) (Ok tt) new_world).1.

End MacosReader.

Module MacosReaderLemmas.
Import ReaderLoop ReaderLoopLemmas MacosReader.

Lemma tokens_app ls ks : tokens (ls ++ ks) = tokens ls ++ tokens ks.
Proof. unfold tokens. by rewrite map_app, filter_app. Qed.

Lemma tokens_one l :
  tokens [l] = if blank (dropCR l) then [] else [dropCR l].
Proof. unfold tokens; simpl. rewrite filter_cons, filter_nil. by destruct (blank (dropCR l)). Qed.

Lemma tokens_prefix ls ks : tokens ls `prefix_of` tokens (ls ++ ks).
Proof. rewrite tokens_app. by eexists. Qed.

(** The lines [out] were taken from the stream, with [buf] left in the scanner:
    complete lines before the buffer, or the whole stream at its end. *)
Definition scanned (out : list bytes) (buf dat : bytes) (ended : bool) : Prop :=
  (exists ls, Forall no_nl ls /\ dat = unlines ls ++ buf /\ out = tokens ls) \/
  (ended = true /\ buf = [] /\ out = tokens (all_lines dat)).

Definition has_err (err : option error) : bool := match err with Some _ => true | None => false end.

(** What was sent when the scanner gave up: the complete lines, or all of them if
    the pipe reported the error. *)
Definition all_scanned (dat : bytes) (out : list bytes) : Prop :=
  out = tokens (complete_lines dat) \/ out = tokens (all_lines dat).

(** The goroutine and what it has sent. *)
Definition delivered (b : body) (out : list bytes) : Prop :=
  match at_ b with
  | Scanning buf err => scanned out buf (data b) (has_err err)
  | Sending line buf err => scanned (out ++ [line]) buf (data b) (has_err err)
  | Scanned _ => all_scanned (data b) out
  | Deferring why | Terminating why | Reaped why =>
      match why with
      | AtEOF => out = tokens (all_lines (data b))
      | OnStop => out `prefix_of` tokens (all_lines (data b))
      | OnError e => exists lines msg, out = lines ++ msg /\ all_scanned (data b) lines /\
          (msg = [] \/ msg = [go_bytes (Sprintf1 "Error reading macOS logs: %v" (Error e))])
      end
  end.

Lemma scanned_prefix out buf dat ended : scanned out buf dat ended -> out `prefix_of` tokens (all_lines dat).
Proof.
  intros [(ls & H & -> & ->)|(_ & _ & ->)]; [|done]. rewrite all_lines_unlines by done. apply tokens_prefix.
Qed.

Lemma all_scanned_prefix dat out : all_scanned dat out -> out `prefix_of` tokens (all_lines dat).
Proof.
  intros [->| ->]; [|done]. unfold all_lines. rewrite tokens_app. by eexists.
Qed.

(** A token leaves the buffer: it is sent, or skipped when it is blank. *)
Lemma scanned_token out raw buf' dat ended b err :
  scanned (out ++ tokens [raw]) buf' dat ended -> data b = dat -> has_err err = ended ->
  delivered (on_token raw buf' err b) out.
Proof.
  rewrite tokens_one. unfold on_token, delivered. destruct (blank (dropCR raw)); simpl.
  - rewrite app_nil_r. by intros ? -> ->.
  - by intros ? -> ->.
Qed.

Lemma scan_buffer_ok buf err b b' out :
  scanned out buf (data b) (has_err err) -> scan_buffer buf err b = Some b' -> delivered b' out.
Proof.
  intros Hs. unfold scan_buffer. destruct (index_nl buf) as [i|] eqn:Ei.
  - intros [= <-]. apply index_nl_Some in Ei as (l & c & -> & Hl & <-).
    destruct Hs as [(ls & H & Ed & ->)|(_ & E & _)]; [|by destruct l].
    rewrite take_app_length.
    apply (scanned_token _ _ _ (data b) (has_err err)); [|done|done]. left. exists (ls ++ [l]).
    rewrite <- tokens_app, unlines_app, Ed. split_and!; [apply Forall_app; auto| |done].
    change (unlines [l]) with (terminate l ++ []). unfold terminate. rewrite app_nil_r, <- !(assoc_L (++)).
    do 2 f_equal. replace (l ++ nl :: c) with ((l ++ [nl]) ++ c) by (by rewrite <- (assoc_L (++))).
    by rewrite drop_app_length' by (by rewrite length_app).
  - apply index_nl_None in Ei. destruct err as [e|].
    + case_bool_decide as Hb.
      * subst buf. intros [= <-]. assert (out = tokens (all_lines (data b))) as ->.
        { destruct Hs as [(ls & H & Ed & ->)|(_ & _ & ->)]; [|done].
          by rewrite Ed, all_lines_unlines, app_nil_r. }
        case_bool_decide; unfold delivered; simpl; [done|by right].
      * intros [= <-]. destruct Hs as [(ls & H & Ed & ->)|(_ & E & _)]; [|done].
        apply (scanned_token _ _ _ (data b) true); [|done|done]. right. rewrite <- tokens_app. split_and!; [done|done|].
        by rewrite Ed, all_lines_unlines, (all_lines_last buf).
    + destruct (MaxScanTokenSize <=? zlen buf)%Z; [|done]. intros [= <-].
      unfold delivered; simpl. destruct Hs as [(ls & H & -> & ->)|(? & _)]; [|done].
      left. by rewrite (proj1 (split_nl_unique _ ls buf eq_refl H Ei)).
Qed.

Lemma delivered_step l s r b out b' x :
  delivered b out -> readLogs l s r b = Some (b', x) -> delivered b' (out ++ option_list x).
Proof.
  intros HI E. unfold readLogs in E. unfold delivered in *.
  destruct l, (at_ b) as [buf er|line buf er|e|why|why|why] eqn:Hat; try done.
  - destruct (scan_buffer buf er b) as [b1|] eqn:Es; simplify_eq/=. rewrite app_nil_r.
    by apply (scan_buffer_ok buf er b b').
  - destruct er; [done|]. destruct (_ && _ && _); simplify_eq/=. rewrite app_nil_r. simpl in *.
    destruct HI as [(ls & H & Ed & ->)|(? & _)]; [|done]. left. exists ls. rewrite Ed.
    split_and!; [done|by rewrite <- (assoc_L (++))|done].
  - destruct r; simplify_eq/=. done.
  - destruct s; simplify_eq/=. rewrite app_nil_r. simpl.
    apply scanned_prefix in HI. etrans; [|exact HI]. by eexists.
  - destruct s; simplify_eq/=; [rewrite app_nil_r; by apply all_scanned_prefix|]. exists out. eexists. split; [done|].
    split; [done|]. destruct r; simpl; auto.
  - simplify_eq/=. rewrite app_nil_r. destruct why; done.
  - destruct (waits b); simplify_eq/=. rewrite app_nil_r. destruct why; done.
  - simplify_eq/=. rewrite app_nil_r. destruct why; done.
Qed.

Lemma delivered_aside c b out b' :
  delivered b out -> wait_for_command c b = Some (Ok b') -> delivered b' out.
Proof. unfold delivered. by intros H (-> & -> & _)%wait_for_command_at. Qed.

(** The command is told to end before the goroutine is gone; it is killed
    unless somebody waited for it. *)
Definition signalled (b : body) (_ : list bytes) : Prop :=
  match at_ b with
  | Terminating _ => signals b = [SIGTERM]
  | Reaped _ => (signals b = [SIGTERM] /\ waits b = true) \/ signals b = [SIGTERM; SIGKILL]
  | _ => signals b = []
  end.

Lemma signalled_aside c b out b' :
  signalled b out -> wait_for_command c b = Some (Ok b') -> signalled b' out.
Proof.
  unfold signalled. intros H (-> & _ & -> & ->)%wait_for_command_at.
  destruct (at_ b); try done. destruct H as [[? _]|?]; auto.
Qed.

Lemma signalled_step l s r b out b' x :
  signalled b out -> readLogs l s r b = Some (b', x) -> signalled b' (out ++ option_list x).
Proof.
  intros HI E. unfold readLogs in E. unfold signalled in *.
  destruct l, (at_ b) as [buf er|line buf er|e|why|why|why] eqn:Hat; try done.
  - destruct (scan_buffer buf er b) as [b1|] eqn:Es; simplify_eq/=.
    unfold scan_buffer, on_token in Es. repeat case_match; by simplify_eq/=.
  - destruct er; [done|]. destruct (_ && _ && _); by simplify_eq/=.
  - destruct r; by simplify_eq/=.
  - destruct s; by simplify_eq/=.
  - destruct s; by simplify_eq/=.
  - simplify_eq/=. by rewrite HI.
  - destruct (waits b) eqn:Ew; simplify_eq/=. left. by rewrite Ew.
  - simplify_eq/=. right. by rewrite HI.
Qed.

Lemma macos_life q w :
  life (started q) w ->
  exists p, ctl p w /\ body_fact (fun b out => delivered b out /\ signalled b out) p (output w).
Proof.
  apply (life_inv _ (Body (mkBody (command_args q) [] [] false (Scanning [] None)))).
  - intros l s rm b out b' x [H1 H2] E.
    split; [by eapply delivered_step|by eapply signalled_step].
  - intros c b out b' [H1 H2] E. split; [by eapply delivered_aside|by eapply signalled_aside].
  - apply started_ctl.
  - split; [|by left]. split; [|done]. left. by exists [].
Qed.

(** While the scanner waits for the pipe, only the pipe can move it. *)
Definition reading (b : body) : Prop :=
  exists buf, at_ b = Scanning buf None /\ index_nl buf = None /\ (zlen buf < MaxScanTokenSize)%Z.

Definition no_read (l : ReaderLoop.label body) : Prop :=
  match l with LBody _ (Read _ _) | LStart _ => False | _ => True end.

Lemma reading_step b l w w' :
  reading b -> ctl (Body b) w -> waiting w = 1 -> no_read l -> exec l w = Some w' ->
  panicked w' = true \/ (ctl (Body b) w' /\ waiting w' = 1).
Proof.
  intros (buf & Hat & Hi & Hlen) Hc Hw Hl E. pose proof Hc as [Hp Hr Hst Hwt Hcl Hn].
  unfold exec, step_body in E. destruct (panicked w) eqn:Epn; [done|]. rewrite Hp in E.
  destruct l as [| | |i bl|i|i|i|]; try done.
  - left. rewrite Hw in Hwt. destruct (unlocked w); [|done]. injection E as <-. unfold Stop.
    rewrite Hr. by destruct (stopCh (rd w)).
  - unfold Stop_rest in E. rewrite Hst, Hw in E. done.
  - destruct i; [|done]. simpl in E. exfalso.
    destruct bl; unfold readLogs in E; rewrite Hat in E; try done.
    simpl in E. unfold scan_buffer in E. rewrite Hi in E.
    destruct (Z.leb_spec MaxScanTokenSize (zlen buf)); [lia|done].
  - destruct i; [|done]. simpl in E. by rewrite Hat in E.
  - destruct i; done.
  - destruct i; [|done]. simpl in E. unfold wait_for_command in E. by rewrite Hat in E.
  - destruct (lines (rd w)) as [|x ls]; [done|]. injection E as <-. right. split; [|done].
    split; simpl; try done; congruence.
Qed.

Lemma macos_delivered q w :
  life (started q) w ->
  exists p, procs w = [p] /\ delivered (body_of p) (output w) /\
    (is_body p = false -> head (signals (body_of p)) = Some SIGTERM) /\
    (panicked w = true -> signals (body_of p) = [SIGTERM; SIGKILL] /\ waits (body_of p) = false).
Proof.
  intros (p & Hc & [Hd Hs] & Ho)%macos_life. exists p. split; [apply (ctl_procs _ _ Hc)|].
  unfold signalled in Hs. split; [done|]. split.
  - intros Hp. destruct Ho as [?|Ho]; [congruence|]. simpl in Ho.
    destruct (at_ (body_of p)); try done. by destruct Hs as [[-> _]| ->].
  - intros Hpn. destruct (ctl_panic _ _ Hc Hpn) as [m Hm]. simpl in Hm. unfold wait_for_command in Hm.
    destruct (waits (body_of p)) eqn:Ew; [by destruct (at_ (body_of p))|]. split; [|done].
    destruct (at_ (body_of p)) eqn:Hat; try done.
    + destruct p as [b|b|b]; simpl in *; [|by destruct Ho; rewrite ?Hat in *..].
      unfold busy in Hm. simpl in Hm. by rewrite Hat in Hm.
    + by destruct Hs as [[_ ?]|?].
Qed.

End MacosReaderLemmas.

Module MacosReaderProperties.
Import ReaderLoop ReaderLoopLemmas MacosReader MacosReaderLemmas.

(** C18. The macOS reader, started once, delivers the output of its command exactly,
    whatever the sizes of the reads and the schedule, as long as [Start] is not
    called again and calls of [Stop] do not overlap.  With [data] what the pipe
    has given to the reader's goroutine: what was sent so far are the non-blank
    lines of [data] before the scanner's buffer, without a carriage return at
    their end; after the end of the output all lines of [data], an unterminated
    last one included; after an error of the scanner its complete lines or all of
    them, and at most one line that reports the error; after a stop a beginning
    of them.  When the goroutine is gone the command has been signalled.  The
    process can crash in one way: the two seconds for the command to end were
    over, and the command killed, before the goroutine that waits for it ran. *)
Theorem macos_exact q w :
  life (started q) w ->
  exists p, procs w = [p] /\ delivered (body_of p) (output w) /\
    (is_body p = false -> head (signals (body_of p)) = Some SIGTERM) /\
    (panicked w = true -> signals (body_of p) = [SIGTERM; SIGKILL] /\ waits (body_of p) = false).
Proof. apply macos_delivered. Qed.

(** C40. [Stop] hangs while the command is silent: when the scanner waits for output,
    closing [stopCh] does not wake it, and the signal that would end the command
    is only sent after the scanner returns.  Unless the command writes something
    or ends, [Stop] does not return and the command is never signalled. *)
Theorem macos_stop_hangs q b w tr w' :
  life (started q) w -> procs w = [Body b] -> reading b -> waiting w = 1 ->
  Forall no_read tr -> run tr w = Some w' ->
  panicked w' = true \/ (stop_done w' = false /\ procs w' = [Body b] /\ signals b = []).
Proof.
  intros (p & Hc & Hf)%macos_life Hp Hrd Hw Htr. rewrite (ctl_procs _ _ Hc) in Hp.
  injection Hp as ->. destruct Hf as [[_ Hsig] _]. simpl in Hsig. clear q.
  assert (signals b = []) as Hs by (destruct Hrd as (buf & Hat & _); unfold signalled in Hsig; by rewrite Hat in Hsig).
  revert w Hc Hw Hsig. induction Htr as [|l tr Hl _ IH]; intros w Hc Hw _; simpl.
  - intros [= <-]. right. rewrite Hw. split_and!; [done|apply (ctl_procs _ _ Hc)|done].
  - destruct (exec l w) as [w1|] eqn:E; simpl; [|done]. intros Hrun.
    destruct (reading_step b l w w1 Hrd Hc Hw Hl E) as [Hpn|[Hc1 Hw1]].
    + left. destruct tr as [|l2 tr]; simpl in Hrun; [by injection Hrun as <-|].
      unfold exec in Hrun. by rewrite Hpn in Hrun.
    + apply (IH w1); try done. unfold signalled. destruct Hrd as (buf & -> & _). done.
Qed.

(** When the goroutine ends by itself, at the end of the output or after a line
    the scanner finds too long, nobody is told: [running] is false by then, so
    [Stop] returns at once, and [lines] is never closed. *)
Theorem macos_silent_end q w w' b :
  life (started q) w -> procs w = [Done b] -> stopCh (rd w) = false -> life w w' ->
  panicked w' = true \/ (lines_closed w' = false /\ stop_call w' = Some w').
Proof.
  intros (p & Hc & _)%macos_life Hp Hs Hl. rewrite (ctl_procs _ _ Hc) in Hp. injection Hp as ->.
  assert (exists b', ctl (Done b') w' /\ stopCh (rd w') = false) as (b' & Hc' & Hs').
  { induction Hl as [|w1 l w2 _ (b1 & Hc1 & Hs1) Hpr E]; [eauto|].
    destruct (ctl_step l w1 w2 _ Hc1 Hpr E) as (p & x & Hst & Hc2 & _).
    assert (exists b2, p = Done b2) as [b2 ->] by (inversion Hst; subst; eauto).
    exists b2. split; [done|].
    pose proof (ctl_waiting _ _ Hc1) as Hw1. rewrite Hs1 in Hw1. simpl in Hw1.
    unfold exec, step_body in E. destruct (panicked w1); [done|]. rewrite (ctl_procs _ _ Hc1) in E.
    destruct Hpr as [Hns _]. destruct l as [| | |i bl|i|i|i|]; try done.
    - destruct (unlocked w1); [|done]. injection E as <-. unfold Stop. by rewrite (ctl_running _ _ Hc1).
    - unfold Stop_rest in E. by rewrite Hw1 in E.
    - destruct i; done.
    - destruct i; done.
    - destruct i; done.
    - destruct i; [|done]. simpl in E. repeat case_match; by simplify_eq/=.
    - destruct (lines (rd w1)); by simplify_eq/=. }
  destruct (panicked w') eqn:Epn; [by left|]. right. simpl. split.
  - destruct (closed (rd w')) eqn:Ecl; [|done]. destruct (ctl_closed _ _ Hc' Ecl). congruence.
  - unfold exec. rewrite Epn.
    assert (unlocked w' = true) as -> by (unfold unlocked; by rewrite (ctl_procs _ _ Hc')).
    simpl. unfold Stop. rewrite (ctl_running _ _ Hc'). simpl. by rewrite Epn.
Qed.

(** ** Concrete runs *)

Abbreviation step l := (LBody (RB := macos_body) 0 l).
Definition CRLF : bytes := [CR; nl].

Definition read_two : list (ReaderLoop.label body) :=
  [step (Read (go_bytes "one" ++ CRLF ++ [nl] ++ go_bytes "tw") None); step Scan; step Send; step Scan;
   step (Read (go_bytes "o") (Some EOF)); step Scan; step Send; step Scan; step Terminate;
   LAside 0; step Exited; LExit 0; LClose 0].
Definition demo_ended : world := default (started "") (run read_two (started "")).

Lemma proper_labels tr :
  forallb (fun l : ReaderLoop.label body => match l with LStop | LStart _ => false | _ => true end) tr = true ->
  Forall (fun l => is_start l = false /\ l <> LStop) tr.
Proof.
  induction tr as [|l tr IH]; simpl; intros H; constructor; destruct l; simpl in *; try done; by apply IH.
Qed.

Lemma demo_ended_life : life (started "") demo_ended.
Proof.
  apply (life_run _ read_two); [apply proper_labels; reflexivity|vm_compute; reflexivity].
Qed.

Lemma macos_exact_witness :
  output demo_ended = [go_bytes "one"; go_bytes "two"] /\
  exists p, procs demo_ended = [p] /\ delivered (body_of p) (output demo_ended).
Proof.
  split; [vm_compute; reflexivity|].
  destruct (macos_exact "" demo_ended demo_ended_life) as (p & H1 & H2 & _). by exists p.
Defined.

(** The crash: the command is killed before anybody waits for it. *)
Example macos_waiter_crashes :
  exists w, run [step (Read [] (Some EOF)); step Scan; step Terminate; step Timeout; LExit 0; LClose 0; LAside 0]
    (started "") = Some w /\ panicked w = true.
Proof. eexists. split; [vm_compute; reflexivity|reflexivity]. Qed.

(** One line is in the channel and the command is silent in the middle of the
    next, when [Stop] is called; the consumer then receives the line. *)
Definition read_partial : list (ReaderLoop.label body) :=
  [step (Read (go_bytes "a" ++ nl :: go_bytes "par") None); step Scan; step Send].
Definition waiting_body : body :=
  mkBody (command_args "") (go_bytes "a" ++ nl :: go_bytes "par") [] false (Scanning (go_bytes "par") None).
Definition demo_partial : world := default (started "") (run read_partial (started "")).
Definition demo_hanging : world := default demo_partial (exec LStop demo_partial).
Definition demo_received : world := default demo_hanging (exec LRecv demo_hanging).

Lemma macos_stop_hangs_witness :
  received demo_received = [go_bytes "a"] /\
  (panicked demo_received = true \/
   (stop_done demo_received = false /\ procs demo_received = [Body waiting_body] /\
    signals waiting_body = [])).
Proof.
  split; [vm_compute; reflexivity|].
  apply (macos_stop_hangs "" waiting_body demo_hanging [LRecv] demo_received).
  - apply (life_step _ demo_partial LStop).
    + apply (life_run _ read_partial); [apply proper_labels; reflexivity|]. vm_compute. reflexivity.
    + split; [reflexivity|]. intros _. vm_compute. reflexivity.
    + vm_compute. reflexivity.
  - vm_compute. reflexivity.
  - exists (go_bytes "par"). split; [reflexivity|]. split; [reflexivity|]. vm_compute. reflexivity.
  - vm_compute. reflexivity.
  - repeat constructor.
  - vm_compute. reflexivity.
Defined.

Lemma macos_silent_end_witness :
  panicked demo_ended = true \/ (lines_closed demo_ended = false /\ stop_call demo_ended = Some demo_ended).
Proof.
  eapply (macos_silent_end "" demo_ended); [exact demo_ended_life|vm_compute; reflexivity..|apply life_here].
Defined.

End MacosReaderProperties.
