(* ===== verification/FileReader.v ===== *)
(** * The file reader

    Models [src/pkg/reader/file_reader.go]: the struct, [NewFileReader], [Start],
    [Stop], the goroutine [tailFile] with [readLine] and [reopen], and the
    buffered channel [lines].  What the program runs on is modelled too, as far
    as it shows: a file system with one path of interest, open files with a
    position, and [bufio.Reader.ReadString].

    A step of the goroutine is one that can be interleaved with other processes:
    one system call, one channel operation, one return from a sleep.  The mutex
    plays no part after [Start]: only the goroutine takes it. *)
From S2P Require Import Prelude Lines LogReader.

(** ** The file system *)

(** Inodes with their contents, and the inode the path of the log names. *)
Record fsys := mkFs { inodes : list bytes; at_path : option nat }.

Definition inode (fs : fsys) (i : nat) : bytes := default [] (inodes fs !! i).

(** An [os.File]. *)
Record os_file := mkFile { ino : nat; pos : nat }.

(** Faults the operating system may inject into one step. *)
Record faults := mkFaults { open_fails : bool; stat_fails : bool; seek_fails : bool; read_fails : bool }.
Definition no_faults : faults := mkFaults false false false false.

(** [os.Open] *)
Definition os_Open (f : faults) (fs : fsys) : result os_file :=
  if open_fails f then Err (External "open failed")
  else match at_path fs with
       | Some i => Ok (mkFile i 0)
       | None => Err (External "no such file or directory")
       end.

(** [File.Stat().Size()] *)
Definition file_Size (f : faults) (fs : fsys) (fl : os_file) : result Z :=
  if stat_fails f then Err (External "stat failed") else Ok (zlen (inode fs (ino fl))).

(** [File.Seek(offset, io.SeekStart)]: a negative position is refused. *)
Definition file_Seek (f : faults) (offset : Z) (fl : os_file) : result os_file :=
  if seek_fails f || (offset <? 0)%Z then Err (External "seek failed")
  else Ok (mkFile (ino fl) (Z.to_nat offset)).

(** [File.Read] into a buffer with room for [room] bytes, of which the system
    delivers [n], but at least one if there is one. *)
Definition file_Read (f : faults) (fs : fsys) (n room : nat) (fl : os_file) : result (bytes * os_file) :=
  if read_fails f then Err (External "read failed")
  else match drop (pos fl) (inode fs (ino fl)) with
       | [] => Err EOF
       | avail =>
           let got := take (1 `max` (n `min` room)) avail in
           Ok (got, mkFile (ino fl) (pos fl + length got))
       end.

Module FileReader.

(** The size of the buffer of [bufio.NewReader]. *)
Definition defaultBufSize : nat := 4096.
(** The capacity of the channel [lines]. *)
Definition linesCap : nat := 1000.

(** The struct.  [buf] is what [reader] has read ahead of [offset]; [lines] is
    what is in the channel.  The path is the file system's [at_path]. *)
Record t := mk {
  file : option os_file;
  buf : bytes;
  offset : Z;
  lines : list bytes;
  stopCh : bool;      (* closed? *)
  stoppedCh : bool;   (* closed? *)
}.

(** Where the goroutine [tailFile] is.  [Reading acc]: inside [ReadString], with
    the fragments [acc] collected so far. *)
Inductive pc :=
| NotStarted
| AtSelect
| Reading (acc : bytes)
| SleepingBeforeReopen
| Sending (line : bytes)
| SleepingBriefly
| Returning
| Done.

#[global] Instance pc_eq_dec : EqDecision pc.
Proof. solve_decision. Defined.

Definition NewFileReader : t := mk None [] 0 [] false false.

Definition with_file (f : option os_file) (r : t) : t :=
  mk f (buf r) (offset r) (lines r) (stopCh r) (stoppedCh r).

(** [Start]: the file is opened and positioned at its end. *)
Definition Start (f : faults) (fs : fsys) (r : t) : result t :=
  fl ← wrap_err "error opening file: %v" (os_Open f fs);
  fl ← wrap_err "error seeking file: %v"
         (file_Seek f (zlen (inode fs (ino fl))) fl);
  Ok (mk (Some fl) [] (Z.of_nat (pos fl)) (lines r) (stopCh r) (stoppedCh r)).

(** One round of the loop inside [ReadString('\n')] (that is, of [ReadSlice]):
    a newline in the buffer ends it; a full buffer becomes a fragment; otherwise
    one read.  The error path returns the buffered bytes with the error, and
    [readLine] drops them. *)
Inductive read_outcome := ReadMore (acc : bytes) | ReadLine (line : bytes) | ReadErr (e : error).

Definition ReadString_round (f : faults) (fs : fsys) (n : nat) (acc : bytes) (fl : os_file) (r : t)
    : read_outcome * t :=
  match index_nl (buf r) with
  | Some i =>
      (ReadLine (acc ++ take (i + 1) (buf r)),
       mk (file r) (drop (i + 1) (buf r)) (offset r) (lines r) (stopCh r) (stoppedCh r))
  | None =>
      if (defaultBufSize <=? length (buf r))%nat then
        (ReadMore (acc ++ buf r), mk (file r) [] (offset r) (lines r) (stopCh r) (stoppedCh r))
      else
        match file_Read f fs n (defaultBufSize - length (buf r)) fl with
        | Ok (got, fl') =>
            (ReadMore acc,
             mk (Some fl') (buf r ++ got) (offset r) (lines r) (stopCh r) (stoppedCh r))
        | Err e => (ReadErr e, mk (file r) [] (offset r) (lines r) (stopCh r) (stoppedCh r))
        | Panic m => (ReadErr (External m), r)
        end
  end.

(** The rest of [readLine] after [ReadString] returned a line: advance the
    offset, trim the newline. *)
Definition trim_nl (line : bytes) : bytes :=
  match last line with
  | Some c => if decide (c = nl) then removelast line else line
  | None => line
  end.

Definition readLine_done (line : bytes) (r : t) : bytes * t :=
  (trim_nl line,
   mk (file r) (buf r) (wrap64 (offset r + zlen line)) (lines r) (stopCh r) (stoppedCh r)).

(** [reopen] *)
Definition reopen (f : faults) (fs : fsys) (r : t) : t :=
  match os_Open f fs with
  | Ok fl =>
      match file_Size f fs fl with
      | Ok size =>
          let off := if (size <? offset r)%Z then 0%Z else offset r in
          match file_Seek f off fl with
          | Ok fl => mk (Some fl) [] off (lines r) (stopCh r) (stoppedCh r)
          | _ => mk None (buf r) off (lines r) (stopCh r) (stoppedCh r)
          end
      | _ => with_file None r
      end
  | _ => with_file None r
  end.

(** One step of [tailFile]; [None] when it is blocked or over. *)
Definition tail_step (f : faults) (fs : fsys) (n : nat) (p : pc) (r : t) : option (pc * t) :=
  match p with
  | NotStarted => None
  | AtSelect =>
      if stopCh r then Some (Returning, r)
      else match file r with
           | None => Some (SleepingBeforeReopen, r)   (* file is closed *)
           | Some _ => Some (Reading [], r)
           end
  | Reading acc =>
      match file r with
      | None => None
      | Some fl =>
          match ReadString_round f fs n acc fl r with
          | (ReadMore acc, r) => Some (Reading acc, r)
          | (ReadLine line, r) =>
              let '(line, r) := readLine_done line r in
              if decide (line = []) then Some (SleepingBriefly, r) else Some (Sending line, r)
          | (ReadErr _, r) => Some (SleepingBeforeReopen, r)
          end
      end
  | SleepingBeforeReopen => Some (AtSelect, reopen f fs r)
  | Sending line =>
      if (length (lines r) <? linesCap)%nat then
        Some (AtSelect, mk (file r) (buf r) (offset r) (lines r ++ [line]) (stopCh r) (stoppedCh r))
      else None
  | SleepingBriefly => Some (AtSelect, r)
  | Returning => Some (Done, mk None (buf r) (offset r) (lines r) (stopCh r) true)
  | Done => None
  end.

(** ** The reader in its environment *)

(** [received] is what the consumer took from the channel; [stopping] tells that
    [Stop] has been called (it then waits for [stoppedCh]). *)
Record world := mkWorld {
  fs_ : fsys;
  rd : t;
  at_ : pc;
  received : list bytes;
  stopping : bool;
  panicked : bool;
}.

Inductive label :=
| LStart (f : faults)
| LTail (n : nat) (f : faults)        (* a step of tailFile *)
| LRecv                               (* the consumer receives a line *)
| LStop                               (* Stop, up to the receive *)
| LAppend (i : nat) (data : bytes)    (* somebody appends to inode i *)
| LRotate (data : bytes)              (* the path names a new file *)
| LRemove                             (* the path names nothing *)
| LTruncate (i : nat).                (* inode i is emptied in place *)

(** The size a file can have: positions are [int64]. *)
Definition fits (b : bytes) : bool := (zlen b <? 2 ^ 63)%Z.

Definition exec (l : label) (w : world) : option world :=
  if panicked w then None else
  match l with
  | LStart f =>
      if decide (at_ w = NotStarted) then
        match Start f (fs_ w) (rd w) with
        | Ok r => Some (mkWorld (fs_ w) r AtSelect (received w) (stopping w) false)
        | _ => Some w
        end
      else None
  | LTail n f =>
      '(p, r) ← tail_step f (fs_ w) n (at_ w) (rd w);
      Some (mkWorld (fs_ w) r p (received w) (stopping w) false)
  | LRecv =>
      match lines (rd w) with
      | [] => None
      | l :: ls =>
          let r := rd w in
          Some (mkWorld (fs_ w) (mk (file r) (buf r) (offset r) ls (stopCh r) (stoppedCh r))
                  (at_ w) (received w ++ [l]) (stopping w) false)
      end
  | LStop =>
      let r := rd w in
      if stopCh r then Some (mkWorld (fs_ w) r (at_ w) (received w) (stopping w) true)
      else Some (mkWorld (fs_ w) (mk (file r) (buf r) (offset r) (lines r) true (stoppedCh r))
                   (at_ w) (received w) true false)
  | LAppend i data =>
      if (i <? length (inodes (fs_ w)))%nat && fits (inode (fs_ w) i ++ data) then
        Some (mkWorld (mkFs (<[i := inode (fs_ w) i ++ data]> (inodes (fs_ w))) (at_path (fs_ w)))
                (rd w) (at_ w) (received w) (stopping w) false)
      else None
  | LRotate data =>
      if fits data then
        Some (mkWorld (mkFs (inodes (fs_ w) ++ [data]) (Some (length (inodes (fs_ w)))))
                (rd w) (at_ w) (received w) (stopping w) false)
      else None
  | LRemove => Some (mkWorld (mkFs (inodes (fs_ w)) None) (rd w) (at_ w) (received w) (stopping w) false)
  | LTruncate i =>
      Some (mkWorld (mkFs (<[i := []]> (inodes (fs_ w))) (at_path (fs_ w)))
              (rd w) (at_ w) (received w) (stopping w) false)
  end.

Fixpoint run (tr : list label) (w : world) : option world :=
  match tr with
  | [] => Some w
  | l :: tr => w' ← exec l w; run tr w'
  end.

(** Everything the reader has got out of the file so far: received, in the
    channel, or about to be sent. *)
Definition output (w : world) : list bytes :=
  received w ++ lines (rd w) ++ match at_ w with Sending l => [l] | _ => [] end.

(** The non-empty lines of a text; the goroutine takes an empty line for the
    absence of one. *)
Definition log_lines (b : bytes) : list bytes := filter (fun l => l <> []) (complete_lines b).

(** [Stop] has returned. *)
Definition stop_returned (w : world) : bool := stopping w && stoppedCh (rd w).

(** ** The interface [LogReader] *)

(** The steps that are neither the consumer's nor the owner's. *)
Definition internal (l : label) : bool :=
  match l with LRecv | LStop | LStart _ => false | _ => true end.

#[global] Instance file_log_reader : LogReader world := {|
  reader_label := label;
  reader_exec l w := if internal l then exec l w else None;
  queued w := lines (rd w);
  lines_closed _ := false;
  receive w := w' ← exec LRecv w; x ← head (lines (rd w)); Some (x, w');
  taken := received;
  stop_call w := w' ← exec LStop w; if panicked w' then None else Some w';
  stop_done := stop_returned;
|}.

End FileReader.

Module FileReaderLemmas.
Import FileReader.

(** ** Log lines *)

Lemma partial_line_terminated l : no_nl l -> partial_line (l ++ [nl]) = [].
Proof. intros H. by rewrite partial_line_line. Qed.

Lemma log_lines_app b c :
  partial_line b = [] -> log_lines (b ++ c) = log_lines b ++ log_lines c.
Proof. intros H. unfold log_lines. by rewrite complete_lines_app, H, filter_app. Qed.

Lemma partial_line_app b c :
  partial_line b = [] -> partial_line (b ++ c) = partial_line c.
Proof. intros H. rewrite (proj2 (split_nl_app b c)). by rewrite H. Qed.

Lemma log_lines_no_nl b : no_nl b -> log_lines b = [].
Proof. intros H. unfold log_lines. by rewrite complete_lines_no_nl. Qed.

Lemma log_lines_line l : no_nl l -> log_lines (l ++ [nl]) = (if decide (l = []) then [] else [l]).
Proof.
  intros H. unfold log_lines. rewrite complete_lines_line by done. simpl.
  rewrite filter_cons. by repeat case_decide.
Qed.

Lemma trim_nl_line l : trim_nl (l ++ [nl]) = l.
Proof.
  unfold trim_nl. rewrite last_snoc, decide_True by done. apply removelast_last.
Qed.

(** Lines of a longer text extend the lines of a shorter one. *)
Lemma log_lines_prefix b c : log_lines b `prefix_of` log_lines (b ++ c).
Proof.
  unfold log_lines. rewrite complete_lines_app, filter_app. by eexists.
Qed.

(** ** The invariant while a file is being tailed

    Inode [i] is [pre ++ seen ++ rest]: [pre] lies before the place where the
    tailing began, [seen] are whole lines that the output accounts for, and the
    buffered bytes are the beginning of [rest]. *)

Definition buffered (i : nat) (before rest acc : bytes) (r : t) (fl : os_file) : Prop :=
  ino fl = i /\ no_nl acc /\
  exists rest', rest = acc ++ buf r ++ rest' /\ pos fl = length (before ++ acc ++ buf r).

Definition reading_ok (i : nat) (before rest : bytes) (p : pc) (r : t) : Prop :=
  match p with
  | NotStarted => False
  | Reading acc => exists fl, file r = Some fl /\ buffered i before rest acc r fl
  | AtSelect => forall fl, file r = Some fl -> buffered i before rest [] r fl
  | Sending _ | SleepingBriefly => exists fl, file r = Some fl /\ buffered i before rest [] r fl
  | SleepingBeforeReopen => True
  | Returning | Done => stopCh r = true
  end.

Record tailing (i : nat) (pre : bytes) (out0 : list bytes) (seen rest : bytes) (w : world) : Prop := {
  t_path : at_path (fs_ w) = Some i;
  t_inode : inodes (fs_ w) !! i = Some (pre ++ seen ++ rest);
  t_fits : fits (pre ++ seen ++ rest) = true;
  t_offset : offset (rd w) = zlen (pre ++ seen);
  t_whole : partial_line seen = [];
  t_output : output w = out0 ++ log_lines seen;
  t_reading : reading_ok i (pre ++ seen) rest (at_ w) (rd w);
}.

Lemma inode_lookup fs i c : inodes fs !! i = Some c -> inode fs i = c.
Proof. intros E. unfold inode. by rewrite E. Qed.

Lemma fits_bound b : fits b = true -> int64_range (zlen b).
Proof. unfold fits, int64_range. intros H%Z.ltb_lt. pose proof (zlen_nonneg b). lia. Qed.

(** Reopening a file of which the first [offset] bytes are still there, or a
    shorter one. *)
Lemma reopen_spec f fs r i c :
  at_path fs = Some i -> inodes fs !! i = Some c -> (0 <= offset r)%Z ->
  let off := if (zlen c <? offset r)%Z then 0%Z else offset r in
  (reopen f fs r = mk (Some (mkFile i (Z.to_nat off))) [] off (lines r) (stopCh r) (stoppedCh r)) \/
  (f <> no_faults /\ file (reopen f fs r) = None /\ lines (reopen f fs r) = lines r /\
   stopCh (reopen f fs r) = stopCh r /\ stoppedCh (reopen f fs r) = stoppedCh r /\
   (offset (reopen f fs r) = offset r \/ offset (reopen f fs r) = off)).
Proof.
  intros Ep Ei Ho. cbv zeta. unfold reopen, os_Open, file_Size, file_Seek.
  destruct (open_fails f) eqn:E1; [right|].
  { split_and!; try done; [by intros ->|by left]. }
  rewrite Ep; simpl. rewrite (inode_lookup _ _ _ Ei).
  destruct (stat_fails f) eqn:E2; [right|].
  { split_and!; try done; [by intros ->|by left]. }
  set (off := if (zlen c <? offset r)%Z then 0%Z else offset r).
  assert (0 <= off)%Z by (subst off; destruct (zlen c <? offset r)%Z; lia).
  destruct (seek_fails f) eqn:E3; simpl.
  { right. split_and!; try done; [by intros ->|by right]. }
  destruct (Z.ltb_spec off 0); [lia|]. by left.
Qed.

Lemma zlen_to_nat {A} (l : list A) : Z.to_nat (zlen l) = length l.
Proof. unfold zlen. lia. Qed.

(** A line found in the buffer. *)
Lemma found_line acc l b (rest rest' : bytes) :
  no_nl acc -> no_nl l -> rest = acc ++ (l ++ nl :: b) ++ rest' ->
  rest = ((acc ++ l) ++ [nl]) ++ b ++ rest' /\ no_nl (acc ++ l).
Proof.
  intros Ha Hl ->. split; [|by apply no_nl_app]. by rewrite <- !(assoc_L (++)).
Qed.

Lemma take_line (l b : bytes) : take (length l + 1) (l ++ nl :: b) = l ++ [nl].
Proof. rewrite take_app_add. by destruct b. Qed.
Lemma drop_line (l b : bytes) : drop (length l + 1) (l ++ nl :: b) = b.
Proof. rewrite drop_app_add. by destruct b. Qed.

(** One round of [ReadString]. *)
Lemma round_spec f fs n acc fl r i before rest :
  inodes fs !! i = Some (before ++ rest) -> file r = Some fl -> buffered i before rest acc r fl ->
  match ReadString_round f fs n acc fl r with
  | (ReadLine line, r') => exists l rest2, line = l ++ [nl] /\ no_nl l /\ rest = line ++ rest2 /\
      file r' = Some fl /\ buffered i (before ++ line) rest2 [] r' fl /\
      offset r' = offset r /\ lines r' = lines r /\ stopCh r' = stopCh r /\ stoppedCh r' = stoppedCh r
  | (ReadMore acc', r') => exists fl', file r' = Some fl' /\ buffered i before rest acc' r' fl' /\
      offset r' = offset r /\ lines r' = lines r /\ stopCh r' = stopCh r /\ stoppedCh r' = stoppedCh r /\
      (pos fl < pos fl' \/ (pos fl' = pos fl /\ buf r <> [] /\ buf r' = []))%nat
  | (ReadErr e, r') => offset r' = offset r /\ lines r' = lines r /\
      stopCh r' = stopCh r /\ stoppedCh r' = stoppedCh r /\
      (f = no_faults -> no_nl rest)
  end.
Proof.
  intros Ei Ef (Hino & Hacc & rest' & Hrest & Hpos). unfold ReadString_round.
  destruct (index_nl (buf r)) as [k|] eqn:Ek.
  - apply index_nl_Some in Ek as (l & b & Eb & Hl & <-). rewrite Eb in Hrest, Hpos |- *.
    destruct (found_line acc l b rest rest' Hacc Hl Hrest) as [Hr Hn].
    rewrite take_line, drop_line, (assoc_L (++)).
    exists (acc ++ l), (b ++ rest'). split_and!; try done.
    split_and!; [done|apply no_nl_nil|]. exists rest'. split; [done|]. simpl.
    rewrite Hpos, !length_app; simpl. rewrite ?length_app; simpl. lia.
  - apply index_nl_None in Ek.
    destruct (Nat.leb_spec defaultBufSize (length (buf r))) as [Hfull|Hroom].
    + exists fl. simpl. split_and!; try done.
      * split_and!; [done|by apply no_nl_app|]. exists rest'. simpl.
        rewrite <- !(assoc_L (++)). split; [done|]. by rewrite app_nil_r.
      * right. split_and!; try done. intros En. rewrite En in Hfull. unfold defaultBufSize in Hfull.
        simpl in Hfull. lia.
    + unfold file_Read. destruct (read_fails f) eqn:Erf.
      { simpl. split_and!; try done. by intros ->. }
      rewrite Hino, (inode_lookup _ _ _ Ei).
      assert (drop (pos fl) (before ++ rest) = rest') as ->.
      { rewrite Hpos, Hrest. replace (before ++ acc ++ buf r ++ rest')
          with ((before ++ acc ++ buf r) ++ rest') by (by rewrite <- !(assoc_L (++))).
        apply drop_app_length. }
      destruct rest' as [|x rest'].
      { simpl. split_and!; try done. intros _. rewrite Hrest, app_nil_r. by apply no_nl_app. }
      set (got := take _ (x :: rest')).
      assert (1 <= length got)%nat by (subst got; rewrite length_take; simpl; lia).
      exists (mkFile i (pos fl + length got)). simpl. split_and!; try done.
      * split_and!; [done|done|].
        exists (drop (1 `max` (n `min` (defaultBufSize - length (buf r)))) (x :: rest')). simpl.
        split.
        -- rewrite Hrest, <- !(assoc_L (++)). subst got. by rewrite take_drop.
        -- rewrite Hpos, !length_app. lia.
      * left. lia.
Qed.

(** ** Every step keeps the invariant *)

Section steps.
Context (i : nat) (pre : bytes) (out0 : list bytes).
Implicit Types (w : world) (seen rest : bytes).

(** A step that leaves the file and the accounting alone. *)
Lemma tailing_keep seen rest w w' :
  tailing i pre out0 seen rest w -> fs_ w' = fs_ w -> offset (rd w') = offset (rd w) ->
  output w' = output w -> reading_ok i (pre ++ seen) rest (at_ w') (rd w') ->
  tailing i pre out0 seen rest w'.
Proof. intros [] E1 E2 E3 Hr. constructor; rewrite ?E1, ?E2, ?E3; done. Qed.

Lemma reopen_tailing f seen rest w :
  tailing i pre out0 seen rest w -> at_ w = SleepingBeforeReopen ->
  tailing i pre out0 seen rest
    (mkWorld (fs_ w) (reopen f (fs_ w) (rd w)) AtSelect (received w) (stopping w) false).
Proof.
  intros [Hp Hi Hf Ho Hw Hout Hr] Hat.
  assert ((zlen (pre ++ seen ++ rest) <? offset (rd w))%Z = false) as Hsz.
  { rewrite Ho. apply Z.ltb_ge. rewrite (assoc_L (++)), (zlen_app (pre ++ seen)).
    pose proof (zlen_nonneg rest). lia. }
  assert (0 <= offset (rd w))%Z as Hpos by (rewrite Ho; apply zlen_nonneg).
  assert (output w = received w ++ lines (rd w)) as Eo.
  { unfold output. by rewrite Hat, app_nil_r. }
  destruct (reopen_spec f (fs_ w) (rd w) i _ Hp Hi Hpos) as [E|(_ & E1 & E2 & _ & _ & E3)];
    rewrite Hsz in *.
  - rewrite E. constructor; try done; unfold output in *; simpl.
    + by rewrite app_nil_r, <- Eo.
    + intros fl [= <-]. split_and!; [done|apply no_nl_nil|]. exists rest. split; [done|].
      simpl. rewrite Ho, app_nil_r. apply zlen_to_nat.
  - constructor; try done; unfold output in *; simpl.
    + by destruct E3 as [->| ->].
    + by rewrite E2, app_nil_r, <- Eo.
    + by rewrite E1.
Qed.

(** The rest of [readLine] once a line was found, and the decision to send it. *)
Lemma line_tailing seen l rest2 w r1 p r fl :
  tailing i pre out0 seen ((l ++ [nl]) ++ rest2) w -> output w = received w ++ lines (rd w) ->
  no_nl l -> file r1 = Some fl -> buffered i ((pre ++ seen) ++ l ++ [nl]) rest2 [] r1 fl ->
  offset r1 = offset (rd w) -> lines r1 = lines (rd w) ->
  (let '(line, r) := readLine_done (l ++ [nl]) r1 in
   if decide (line = []) then Some (SleepingBriefly, r) else Some (Sending line, r)) = Some (p, r) ->
  tailing i pre out0 (seen ++ l ++ [nl]) rest2
    (mkWorld (fs_ w) r p (received w) (stopping w) false).
Proof.
  intros [Hp Hi Hf Ho Hw Hout Hr] Eo Hl Ef Hb E1 E2.
  rewrite <- (assoc_L (++) pre seen) in Hb.
  assert (pre ++ seen ++ (l ++ [nl]) ++ rest2 = pre ++ (seen ++ l ++ [nl]) ++ rest2) as Ec
    by (by rewrite <- !(assoc_L (++))).
  rewrite Ec in Hi, Hf.
  assert (wrap64 (offset r1 + zlen (l ++ [nl])) = zlen (pre ++ seen ++ l ++ [nl])) as Eoff.
  { rewrite E1, Ho, <- zlen_app, <- (assoc_L (++)). apply wrap64_id.
    apply fits_bound in Hf. unfold int64_range in *. rewrite !zlen_app in *.
    pose proof (zlen_nonneg rest2). pose proof (zlen_nonneg pre). pose proof (zlen_nonneg seen).
    pose proof (zlen_nonneg l). pose proof (zlen_nonneg [nl]). lia. }
  unfold readLine_done. rewrite trim_nl_line, Eoff. intros E.
  assert (partial_line (seen ++ l ++ [nl]) = []) as Hw'.
  { rewrite partial_line_app by done. by apply partial_line_terminated. }
  assert (out0 ++ log_lines (seen ++ l ++ [nl]) =
    received w ++ lines r1 ++ (if decide (l = []) then [] else [l])) as Eo'.
  { rewrite log_lines_app, log_lines_line by done.
    by rewrite (assoc_L (++)), <- Hout, Eo, E2, <- (assoc_L (++)). }
  case_decide; injection E as <- <-; constructor; try done; by exists fl.
Qed.

Lemma round_tailing f n acc fl seen rest w p r :
  tailing i pre out0 seen rest w -> at_ w = Reading acc -> file (rd w) = Some fl ->
  tail_step f (fs_ w) n (Reading acc) (rd w) = Some (p, r) ->
  exists seen' rest', seen' ++ rest' = seen ++ rest /\
    tailing i pre out0 seen' rest' (mkWorld (fs_ w) r p (received w) (stopping w) false).
Proof.
  intros HT Hat Efl. pose proof HT as [Hp Hi Hf Ho Hw Hout Hr].
  rewrite Hat in Hr. destruct Hr as (fl' & E' & Hb).
  rewrite Efl in E'. injection E' as <-. rewrite (assoc_L (++)) in Hi.
  assert (output w = received w ++ lines (rd w)) as Eo.
  { unfold output. by rewrite Hat, app_nil_r. }
  pose proof (round_spec f (fs_ w) n acc fl (rd w) i _ _ Hi Efl Hb) as HR.
  unfold tail_step. rewrite Efl.
  destruct (ReadString_round f (fs_ w) n acc fl (rd w)) as [[acc'|line|e] r'].
  - destruct HR as (fl2 & Ef & Hb2 & E1 & E2 & _). intros [= <- <-].
    exists seen, rest. split; [done|]. apply (tailing_keep _ _ w); try done; [|by exists fl2].
    rewrite Eo. unfold output; simpl. by rewrite E2, app_nil_r.
  - destruct HR as (l & rest2 & -> & Hl & -> & Ef & Hb2 & E1 & E2 & _). intros E.
    exists (seen ++ l ++ [nl]), rest2. split; [by rewrite <- !(assoc_L (++))|].
    by apply (line_tailing seen l rest2 w r' p r fl).
  - destruct HR as (E1 & E2 & _). intros [= <- <-]. exists seen, rest. split; [done|].
    apply (tailing_keep _ _ w); try done. rewrite Eo. unfold output; simpl. by rewrite E2, app_nil_r.
Qed.

Lemma buffered_append before rest acc data r fl :
  buffered i before rest acc r fl -> buffered i before (rest ++ data) acc r fl.
Proof.
  intros (? & ? & rest' & -> & ?). split_and!; try done. exists (rest' ++ data).
  by rewrite <- !(assoc_L (++)).
Qed.

Lemma append_tailing data j seen rest w w' :
  tailing i pre out0 seen rest w -> exec (LAppend j data) w = Some w' ->
  exists rest', tailing i pre out0 seen rest' w' /\ rest `prefix_of` rest'.
Proof.
  intros [Hp Hi Hf Ho Hw Hout Hr]. unfold exec. destruct (panicked w); [done|].
  destruct (Nat.ltb_spec j (length (inodes (fs_ w)))); simpl; [|done].
  destruct (fits (inode (fs_ w) j ++ data)) eqn:Ef; [|done]. intros [= <-].
  destruct (decide (j = i)) as [->|Hne].
  - rewrite (inode_lookup _ _ _ Hi), <- !(assoc_L (++)) in *. exists (rest ++ data).
    split; [|by eexists]. constructor; try done; simpl.
    + by rewrite list_lookup_insert_eq.
    + unfold reading_ok in *. destruct (at_ w); try done; eauto using buffered_append;
        destruct Hr as (fl & Efl & Hb); eauto using buffered_append.
  - exists rest. split; [|done]. constructor; try done; simpl. by rewrite list_lookup_insert_ne.
Qed.

(** Steps that leave the path and the contents already written alone. *)
Definition append_only (l : label) : Prop :=
  match l with LRotate _ | LRemove | LTruncate _ => False | _ => True end.

Lemma tail_step_tailing f n seen rest w w' :
  tailing i pre out0 seen rest w -> exec (LTail n f) w = Some w' ->
  exists seen' rest', seen' ++ rest' = seen ++ rest /\ tailing i pre out0 seen' rest' w'.
Proof.
  intros HT. pose proof (t_reading _ _ _ _ _ _ HT) as Hr. unfold exec.
  destruct (panicked w); [done|].
  destruct (tail_step f (fs_ w) n (at_ w) (rd w)) as [[p r]|] eqn:E; simpl; [|done]. intros [= <-].
  assert (forall a, at_ w = a -> (forall l, a <> Sending l) ->
    output w = received w ++ lines (rd w)) as Eo.
  { intros a <- Ha. unfold output. destruct (at_ w) eqn:Ea; rewrite ?app_nil_r; try done.
    by destruct (Ha line). }
  destruct (at_ w) eqn:Ea; simpl in Hr; try done.
  - exists seen, rest. split; [done|]. simpl in E.
    assert (forall q r, (forall l, q <> Sending l) -> lines r = lines (rd w) ->
      output (mkWorld (fs_ w) r q (received w) (stopping w) false) = output w) as Eq.
    { intros q r' Hq El. rewrite (Eo _ eq_refl) by done. unfold output; simpl. rewrite El.
      destruct q; rewrite ?app_nil_r; try done. by destruct (Hq line). }
    destruct (stopCh (rd w)) eqn:Es; [|destruct (file (rd w)) as [fl|] eqn:Ef]; simplify_eq;
      apply (tailing_keep _ _ w); try done; try (by apply Eq).
    exists fl. split; [done|]. by apply Hr.
  - destruct Hr as (fl & Efl & _). by eapply round_tailing.
  - simpl in E. injection E as <- <-. exists seen, rest. split; [done|]. by apply reopen_tailing.
  - exists seen, rest. split; [done|]. simpl in E.
    destruct (length (lines (rd w)) <? linesCap)%nat; simplify_eq.
    apply (tailing_keep _ _ w); try done; [by unfold output; rewrite Ea; simpl; rewrite app_nil_r|].
    intros fl Ef. destruct Hr as (fl' & Ef' & Hb). simpl in Ef. rewrite Ef' in Ef.
    injection Ef as <-. exact Hb.
  - simpl in E. simplify_eq. exists seen, rest. split; [done|].
    apply (tailing_keep _ _ w); try done; [by unfold output; rewrite Ea|].
    intros fl Ef. destruct Hr as (fl' & Ef' & Hb). simpl in Ef. rewrite Ef' in Ef.
    injection Ef as <-. exact Hb.
  - simpl in E. simplify_eq. exists seen, rest. split; [done|].
    apply (tailing_keep _ _ w); try done.
    unfold output; rewrite Ea; simpl. done.
Qed.

Lemma exec_tailing l seen rest w w' :
  tailing i pre out0 seen rest w -> append_only l -> exec l w = Some w' ->
  exists seen' rest', tailing i pre out0 seen' rest' w' /\ seen ++ rest `prefix_of` seen' ++ rest'.
Proof.
  intros HT Hl E. destruct l; try done.
  - pose proof (t_reading _ _ _ _ _ _ HT) as Hr. unfold exec in E.
    destruct (panicked w); [done|]. case_decide as Ea; [|done]. by rewrite Ea in Hr.
  - destruct (tail_step_tailing f n seen rest w w' HT E) as (seen' & rest' & Eq & HT').
    exists seen', rest'. by rewrite Eq.
  - exists seen, rest. split; [|done]. unfold exec in E. destruct (panicked w); [done|].
    destruct (lines (rd w)) as [|x ls] eqn:El; [done|]. injection E as <-.
    apply (tailing_keep _ _ w); try done; [|by apply HT].
    unfold output; simpl. rewrite El. by rewrite <- !(assoc_L (++)).
  - exists seen, rest. split; [|done]. unfold exec in E. destruct (panicked w); [done|].
    pose proof (t_reading _ _ _ _ _ _ HT) as Hr.
    destruct (stopCh (rd w)) eqn:Es; injection E as <-; (apply (tailing_keep _ _ w); try done).
    by destruct (at_ w).
  - destruct (append_tailing data i0 seen rest w w' HT E) as (rest' & HT' & Hpre).
    exists seen, rest'. split; [done|]. by apply prefix_app.
Qed.

Lemma run_tailing tr seen rest w w' :
  tailing i pre out0 seen rest w -> Forall append_only tr -> run tr w = Some w' ->
  exists seen' rest', tailing i pre out0 seen' rest' w' /\ seen ++ rest `prefix_of` seen' ++ rest'.
Proof.
  intros HT Htr. revert seen rest w HT. induction Htr as [|l tr Hl Htr IH]; intros seen rest w HT; simpl.
  - intros [= <-]. eauto.
  - destruct (exec l w) as [w1|] eqn:E; simpl; [|done]. intros Hrun.
    destruct (exec_tailing l seen rest w w1 HT Hl E) as (s1 & r1 & HT1 & Hp1).
    destruct (IH s1 r1 w1 HT1 Hrun) as (s2 & r2 & HT2 & Hp2). exists s2, r2. split; [done|]. by etrans.
Qed.

End steps.

(** ** Catching up

    Without faults, with a consumer that receives when the channel is full, the
    goroutine's steps lead to the end of the file. *)

Section progress.
Context (i : nat) (pre : bytes) (out0 : list bytes).
Implicit Types (w : world) (seen rest : bytes).

(** The steps of the goroutine and of the consumer. *)
Definition reader_step (l : label) : Prop :=
  match l with LTail _ f => f = no_faults | LRecv => True | _ => False end.

Definition steps w w' : Prop :=
  exists tr, Forall reader_step tr /\ run tr w = Some w'.

Lemma steps_refl w : steps w w.
Proof. exists []. by split; [constructor|]. Qed.

Lemma steps_cons l w w1 w2 : reader_step l -> exec l w = Some w1 -> steps w1 w2 -> steps w w2.
Proof.
  intros Hl E (tr & Htr & Hr). exists (l :: tr). split; [by constructor|]. simpl. by rewrite E.
Qed.

(** Alive: started, not stopped, not crashed. *)
Definition alive w : Prop := panicked w = false /\ stopCh (rd w) = false.

(** A state from which reading goes on, [n] bytes being left. *)
Definition unread (n : nat) w : Prop :=
  alive w /\ exists seen rest, tailing i pre out0 seen rest w /\ length rest = n.

Definition caught_up w : Prop :=
  exists seen rest, tailing i pre out0 seen rest w /\ no_nl rest /\ forall l, at_ w <> Sending l.

Lemma exec_tail w n p r :
  panicked w = false -> tail_step no_faults (fs_ w) n (at_ w) (rd w) = Some (p, r) ->
  exec (LTail n no_faults) w = Some (mkWorld (fs_ w) r p (received w) (stopping w) false).
Proof. intros Hp E. unfold exec. by rewrite Hp, E. Qed.

Lemma steps_one l w w1 : reader_step l -> exec l w = Some w1 -> steps w w1.
Proof. intros Hl E. eapply steps_cons; [done|done|apply steps_refl]. Qed.

Lemma steps_trans w1 w2 w3 : steps w1 w2 -> steps w2 w3 -> steps w1 w3.
Proof.
  intros (tr & Htr & Hr) H2. revert w1 Hr. induction Htr as [|l tr Hl Htr IH]; intros w1; simpl.
  - by intros [= ->].
  - destruct (exec l w1) as [w|] eqn:E; simpl; [|done]. intros Hr.
    eapply steps_cons; [done|done|]. by apply IH.
Qed.

(** The offset determines how the file is divided. *)
Lemma same_offset seen rest seen1 rest1 w w1 :
  tailing i pre out0 seen rest w -> tailing i pre out0 seen1 rest1 w1 ->
  fs_ w1 = fs_ w -> offset (rd w1) = offset (rd w) -> seen1 = seen /\ rest1 = rest.
Proof.
  intros H H1 Efs Eo. pose proof (t_inode _ _ _ _ _ _ H) as Hi.
  pose proof (t_inode _ _ _ _ _ _ H1) as Hi1. rewrite Efs, Hi in Hi1.
  injection Hi1 as Hi1. apply app_inv_head in Hi1.
  rewrite (t_offset _ _ _ _ _ _ H), (t_offset _ _ _ _ _ _ H1) in Eo.
  rewrite !zlen_app in Eo. unfold zlen in Eo.
  symmetry in Hi1. apply app_inj_1 in Hi1; [done|lia].
Qed.

(** [ReadString] ends: a line is found, or the end of the file is reached.  Each
    round that finds no line reads at least one byte or empties the buffer. *)
Lemma rounds_end m w acc fl seen rest :
  alive w -> tailing i pre out0 seen rest w -> at_ w = Reading acc -> file (rd w) = Some fl ->
  (2 * (length (pre ++ seen ++ rest) - pos fl) + length (firstn 1 (buf (rd w))) <= m)%nat ->
  exists w', steps w w' /\ alive w' /\ fs_ w' = fs_ w /\
    (caught_up w' \/
     exists n line fl', unread n w' /\ (n < length rest)%nat /\ file (rd w') = Some fl' /\
       (at_ w' = Sending line \/ at_ w' = SleepingBriefly)).
Proof.
  revert w acc fl. induction m as [m IH] using lt_wf_ind. intros w acc fl [Hp Hs] HT Hat Efl Hm.
  pose proof (t_reading _ _ _ _ _ _ HT) as Hr. rewrite Hat in Hr.
  destruct Hr as (fl' & E' & Hb). rewrite Efl in E'. injection E' as <-.
  pose proof (t_inode _ _ _ _ _ _ HT) as Hi. rewrite (assoc_L (++)) in Hi.
  pose proof (round_spec no_faults (fs_ w) 1 acc fl (rd w) i _ _ Hi Efl Hb) as HR.
  destruct (tail_step no_faults (fs_ w) 1 (at_ w) (rd w)) as [[p r]|] eqn:E; cycle 1.
  { rewrite Hat in E. simpl in E. rewrite Efl in E.
    destruct (ReadString_round _ _ _ _ _ _) as [[]?]; try done. simpl in E. by case_decide. }
  pose proof (exec_tail w 1 p r Hp E) as Ex.
  destruct (tail_step_tailing i pre out0 no_faults 1 seen rest w _ HT Ex) as (s1 & r1 & Eq & HT1).
  rewrite Hat in E. simpl in E. rewrite Efl in E.
  set (w1 := mkWorld _ _ _ _ _ _) in *.
  assert (steps w w1) as Hst by (eapply steps_one; [|exact Ex]; done).
  destruct (ReadString_round no_faults (fs_ w) 1 acc fl (rd w)) as [[acc'|line|e] r'].
  - destruct HR as (fl2 & Ef2 & Hb2 & Eo & _ & Es & _ & Hdec). injection E as <- <-.
    destruct (same_offset seen rest s1 r1 w w1 HT HT1 eq_refl Eo) as [-> ->].
    assert (pos fl2 <= length (pre ++ seen ++ rest))%nat as Hle.
    { destruct Hb2 as (_ & _ & rest' & -> & ->). rewrite !length_app. lia. }
    assert (forall b : bytes, length (firstn 1 b) = if decide (b = []) then 0 else 1)%nat as Hf.
    { by intros []. }
    destruct (IH (2 * (length (pre ++ seen ++ rest) - pos fl2) + length (firstn 1 (buf r')))%nat)
      with (w := w1) (acc := acc') (fl := fl2) as (w' & Hst' & Ha' & Efs & Hw'); try done.
    { rewrite !Hf in *. destruct Hdec as [?|(-> & ? & ->)]; repeat case_decide; try done; lia. }
    { split; [done|]. simpl. congruence. }
    exists w'. split_and!; try done. by eapply steps_trans.
  - destruct HR as (l & rest2 & -> & Hl & -> & Ef & Hb2 & Eo & El & Es & _).
    assert (tailing i pre out0 (seen ++ l ++ [nl]) rest2 w1) as HT2.
    { apply (line_tailing i pre out0 seen l rest2 w r' p r fl); try done.
      unfold output. by rewrite Hat, app_nil_r. }
    assert (alive w1) as Ha1.
    { split; [done|]. simpl. unfold readLine_done in E. case_decide; injection E as <- <-;
      simpl; congruence. }
    exists w1. split_and!; [done|done|done|]. right.
    exists (length rest2), l, fl. split_and!; [by split; eauto|rewrite !length_app; simpl; lia| |].
    + simpl. unfold readLine_done in E. by case_decide; injection E as <- <-.
    + simpl. unfold readLine_done in E. rewrite trim_nl_line in E.
      case_decide; injection E as <- <-; auto.
  - destruct HR as (Eo & _ & Es & _ & Hn). injection E as <- <-.
    destruct (same_offset seen rest s1 r1 w w1 HT HT1 eq_refl Eo) as [-> ->].
    exists w1. split_and!; [done|split; [done|simpl; congruence]|done|]. left. exists seen, rest. split_and!; [done|by auto|done].
Qed.

(** One step of the goroutine that does not move the offset. *)
Lemma one_step seen rest w n p r :
  alive w -> tailing i pre out0 seen rest w ->
  tail_step no_faults (fs_ w) n (at_ w) (rd w) = Some (p, r) ->
  stopCh r = false -> offset r = offset (rd w) ->
  let w' := mkWorld (fs_ w) r p (received w) (stopping w) false in
  steps w w' /\ alive w' /\ tailing i pre out0 seen rest w'.
Proof.
  intros [Hp Hs] HT E Hsr Ho w'. apply exec_tail in E; [|done]. fold w' in E.
  destruct (tail_step_tailing i pre out0 no_faults n seen rest w _ HT E) as (s1 & r1 & _ & HT1).
  destruct (same_offset seen rest s1 r1 w w' HT HT1 eq_refl Ho) as [-> ->].
  split_and!; [|by split|done]. by apply (steps_one (LTail n no_faults)).
Qed.

(** The consumer empties the channel. *)
Lemma drain seen rest w :
  alive w -> tailing i pre out0 seen rest w ->
  exists w', steps w w' /\ alive w' /\ fs_ w' = fs_ w /\ tailing i pre out0 seen rest w' /\
    at_ w' = at_ w /\ file (rd w') = file (rd w) /\ lines (rd w') = [].
Proof.
  remember (lines (rd w)) as ls eqn:El. revert w El.
  induction ls as [|x ls IH]; intros w El Ha HT.
  { exists w. split_and!; try done. apply steps_refl. }
  assert (exists w1, exec LRecv w = Some w1 /\ fs_ w1 = fs_ w /\ at_ w1 = at_ w /\
    file (rd w1) = file (rd w) /\ lines (rd w1) = ls /\ alive w1 /\
    offset (rd w1) = offset (rd w)) as (w1 & E1 & Ef & Ea & Efl & Els & Ha1 & Eo).
  { destruct Ha as [Hp Hs]. unfold exec. rewrite Hp, <- El. eexists. split_and!; try done. }
  destruct (exec_tailing i pre out0 LRecv seen rest w w1 HT I E1) as (s1 & r1 & HT1 & _).
  destruct (same_offset seen rest s1 r1 w w1 HT HT1 Ef Eo) as [-> ->].
  destruct (IH w1 (eq_sym Els) Ha1 HT1) as (w2 & Hst & Ha2 & Ef2 & HT2 & Ea2 & Efl2 & El2).
  exists w2. split_and!; try done; try congruence. by apply (steps_cons LRecv _ w1).
Qed.

(** From a send or a short sleep, back to the [select]. *)
Lemma to_select seen rest w line fl :
  alive w -> tailing i pre out0 seen rest w -> file (rd w) = Some fl ->
  at_ w = Sending line \/ at_ w = SleepingBriefly ->
  exists w', steps w w' /\ alive w' /\ fs_ w' = fs_ w /\ tailing i pre out0 seen rest w' /\
    at_ w' = AtSelect /\ file (rd w') = Some fl.
Proof.
  intros Ha HT Efl Hat.
  destruct (drain seen rest w Ha HT) as (w1 & Hst & Ha1 & Ef & HT1 & Ea & Efl1 & El).
  rewrite <- Ea in Hat.
  assert (exists r, tail_step no_faults (fs_ w1) 0 (at_ w1) (rd w1) = Some (AtSelect, r) /\
    stopCh r = false /\ offset r = offset (rd w1) /\ file r = Some fl) as (r & E & Hs & Ho & Hf).
  { destruct Ha1 as [_ Hs1]. rewrite Efl in Efl1.
    destruct Hat as [-> | ->]; simpl; rewrite ?El; eexists; split_and!; done. }
  destruct (one_step seen rest w1 0 AtSelect r Ha1 HT1 E Hs Ho) as (Hst2 & Ha2 & HT2).
  eexists. split_and!; [by eapply steps_trans|done|done|done|done|done].
Qed.

Lemma select_catches_up n w fl :
  unread n w -> at_ w = AtSelect -> file (rd w) = Some fl ->
  exists w', steps w w' /\ alive w' /\ fs_ w' = fs_ w /\ caught_up w'.
Proof.
  revert w fl. induction n as [n IH] using lt_wf_ind. intros w fl (Ha & seen & rest & HT & Hn) Hat Efl.
  destruct (one_step seen rest w 0 (Reading []) (rd w) Ha HT) as (Hst1 & Ha1 & HT1).
  { rewrite Hat. simpl. destruct Ha as [_ ->]. by rewrite Efl. } { apply Ha. } { done. }
  set (w1 := mkWorld _ _ _ _ _ _) in *.
  destruct (rounds_end _ w1 [] fl seen rest Ha1 HT1 eq_refl Efl (le_n _))
    as (w2 & Hst2 & Ha2 & Ef2 & [Hc|(k & line & fl' & (_ & s2 & r2 & HT2 & Hk) & Hlt & Efl2 & Hat2)]).
  { exists w2. split_and!; try done. by eapply steps_trans. }
  destruct (to_select s2 r2 w2 line fl' Ha2 HT2 Efl2 Hat2) as (w3 & Hst3 & Ha3 & Ef3 & HT3 & Hat3 & Efl3).
  destruct (IH k ltac:(lia) w3 fl') as (w4 & Hst4 & Ha4 & Ef4 & Hc); [|done|done|].
  { split; [done|]. exists s2, r2. done. }
  exists w4. split_and!; try done; [|by rewrite Ef4, Ef3, Ef2].
  eapply steps_trans; [exact Hst1|]. eapply steps_trans; [exact Hst2|]. by eapply steps_trans.
Qed.

(** Reopening without faults gives an open file again. *)
Lemma reopen_select seen rest w :
  alive w -> tailing i pre out0 seen rest w -> at_ w = SleepingBeforeReopen ->
  exists w' fl, steps w w' /\ alive w' /\ fs_ w' = fs_ w /\ tailing i pre out0 seen rest w' /\
    at_ w' = AtSelect /\ file (rd w') = Some fl.
Proof.
  intros Ha HT Hat. pose proof HT as [Hp Hi Hf Ho _ _ _].
  destruct (reopen_spec no_faults (fs_ w) (rd w) i _ Hp Hi) as [E|[? _]]; [|  |done].
  { rewrite Ho. apply zlen_nonneg. }
  assert ((zlen (pre ++ seen ++ rest) <? offset (rd w))%Z = false) as Hsz.
  { rewrite Ho. apply Z.ltb_ge. rewrite (assoc_L (++)), (zlen_app (pre ++ seen)).
    pose proof (zlen_nonneg rest). lia. }
  rewrite Hsz in E.
  destruct (one_step seen rest w 0 AtSelect (reopen no_faults (fs_ w) (rd w)) Ha HT)
    as (Hst & Ha' & HT').
  { by rewrite Hat. } { rewrite E. apply Ha. } { by rewrite E. }
  eexists _, _. split_and!; [done|done|done|done|done|]. simpl. by rewrite E.
Qed.

Lemma catches_up seen rest w :
  alive w -> tailing i pre out0 seen rest w ->
  exists w', steps w w' /\ alive w' /\ fs_ w' = fs_ w /\ caught_up w'.
Proof.
  intros Ha HT.
  assert (forall w0 seen0 rest0 fl, steps w w0 -> alive w0 -> fs_ w0 = fs_ w ->
    tailing i pre out0 seen0 rest0 w0 -> at_ w0 = AtSelect -> file (rd w0) = Some fl ->
    exists w', steps w w' /\ alive w' /\ fs_ w' = fs_ w /\ caught_up w') as Hsel.
  { intros w0 seen0 rest0 fl Hst Ha0 Ef HT0 Hat Efl.
    destruct (select_catches_up (length rest0) w0 fl) as (w' & Hst' & ? & Ef' & ?); try done.
    { split; [done|]. by exists seen0, rest0. }
    exists w'. split_and!; try done; [by eapply steps_trans|congruence]. }
  assert (forall w0, steps w w0 -> alive w0 -> fs_ w0 = fs_ w -> tailing i pre out0 seen rest w0 ->
    at_ w0 = SleepingBeforeReopen ->
    exists w', steps w w' /\ alive w' /\ fs_ w' = fs_ w /\ caught_up w') as Hre.
  { intros w0 Hst Ha0 Ef HT0 Hat.
    destruct (reopen_select seen rest w0 Ha0 HT0 Hat) as (w1 & fl & Hst1 & Ha1 & Ef1 & HT1 & Hat1 & Efl).
    apply (Hsel w1 seen rest fl); try done; [by eapply steps_trans|congruence]. }
  pose proof (t_reading _ _ _ _ _ _ HT) as Hr. pose proof (steps_refl w) as H0.
  destruct (at_ w) as [| |acc| |line| | |] eqn:Hat; simpl in Hr; try done;
    try (destruct Ha as [_ Hs]; congruence).
  - destruct (file (rd w)) as [fl|] eqn:Efl; [by apply (Hsel w seen rest fl)|].
    destruct (one_step seen rest w 0 SleepingBeforeReopen (rd w) Ha HT) as (Hst & Ha' & HT').
    { rewrite Hat. simpl. destruct Ha as [_ ->]. by rewrite Efl. } { apply Ha. } { done. }
    by eapply Hre.
  - destruct Hr as (fl & Efl & _).
    destruct (rounds_end _ w acc fl seen rest Ha HT Hat Efl (le_n _))
      as (w2 & Hst2 & Ha2 & Ef2 & [Hc|(k & line & fl' & (_ & s2 & r2 & HT2 & _) & _ & Efl2 & Hat2)]).
    { by exists w2. }
    destruct (to_select s2 r2 w2 line fl' Ha2 HT2 Efl2 Hat2)
      as (w3 & Hst3 & Ha3 & Ef3 & HT3 & Hat3 & Efl3).
    apply (Hsel w3 s2 r2 fl'); try done; [by eapply steps_trans|congruence].
  - by apply (Hre w).
  - destruct Hr as (fl & Efl & _).
    destruct (to_select seen rest w line fl Ha HT Efl (or_introl Hat))
      as (w3 & Hst3 & Ha3 & Ef3 & HT3 & Hat3 & Efl3). by apply (Hsel w3 seen rest fl).
  - destruct Hr as (fl & Efl & _).
    destruct (to_select seen rest w [] fl Ha HT Efl (or_intror Hat))
      as (w3 & Hst3 & Ha3 & Ef3 & HT3 & Hat3 & Efl3). by apply (Hsel w3 seen rest fl).
Qed.

End progress.

(** ** The channel is a queue *)

Lemma internal_queue l w w' :
  internal l = true -> exec l w = Some w' ->
  lines (rd w) `prefix_of` lines (rd w') /\ received w' = received w.
Proof.
  intros Hl E. unfold exec in E. destruct (panicked w); [done|].
  destruct l; try done; simpl in E; try (by repeat (case_match || case_decide); simplify_eq/=).
  destruct (tail_step f (fs_ w) n (at_ w) (rd w)) as [[p r]|] eqn:Et; simpl in E; simplify_eq/=.
  split; [|done]. destruct (at_ w); simpl in Et; try done.
  - by repeat case_match; simplify_eq/=.
  - destruct (file (rd w)) as [fl|]; [|done].
    assert (lines (ReadString_round f (fs_ w) n acc fl (rd w)).2 = lines (rd w)) as El.
    { unfold ReadString_round. by repeat case_match. }
    destruct (ReadString_round f (fs_ w) n acc fl (rd w)) as [[acc'|line|e] r']; simpl in *;
      [|case_decide|]; simplify_eq/=; by rewrite El.
  - injection Et as <- <-. unfold reopen, with_file. by repeat case_match.
  - destruct (_ <? _)%nat; simplify_eq/=. by eexists.
  - by simplify_eq/=.
  - by simplify_eq/=.
Qed.

#[global] Instance file_reader_laws : LogReaderLaws world.
Proof.
  split.
  - intros w x w'. simpl. unfold exec. destruct (panicked w); [done|].
    destruct (lines (rd w)) as [|y ls] eqn:El; simpl; [done|]. intros [= <- <-]. done.
  - intros l w w'. simpl. destruct (internal l) eqn:Hl; [|done]. by apply internal_queue.
  - intros w w'. simpl. unfold exec. destruct (panicked w); [done|].
    destruct (stopCh (rd w)); simpl; [done|]. by intros [= <-].
Qed.

(** In the hands of a client, too, the reader keeps its account of the file. *)
Lemma moves_tailing i c seen rest w0 w :
  tailing i c [] seen rest w0 -> reader_moves append_only w0 w ->
  exists seen' rest', tailing i c [] seen' rest' w.
Proof.
  intros H0. assert (forall l w w', append_only l -> exec l w = Some w' ->
    (exists s r, tailing i c [] s r w) -> exists s r, tailing i c [] s r w') as Hex.
  { intros l v v' Hl E (s & r & HT).
    destruct (exec_tailing i c [] l s r _ _ HT Hl E) as (s' & r' & ? & _). eauto. }
  induction 1 as [|v l v' _ IH Hl E|v x v' _ IH E|v v' _ IH E]; simpl in *; [eauto| | |].
  - destruct (internal l); [|done]. by apply (Hex l v).
  - destruct (exec LRecv v) as [v1|] eqn:E1; simpl in E; [|done].
    destruct (head _); simpl in E; [|done]. injection E as _ <-. by apply (Hex LRecv v).
  - destruct (exec LStop v) as [v1|] eqn:E1; simpl in E; [|done].
    destruct (panicked v1); simplify_eq. by apply (Hex LStop v).
Qed.

(** ** A goroutine that cannot send *)

Definition blocked (line : bytes) (w : world) : Prop :=
  at_ w = Sending line /\ (linesCap <= length (lines (rd w)))%nat /\ stoppedCh (rd w) = false.

Lemma blocked_step line l w w1 :
  blocked line w -> LRecv <> l -> exec l w = Some w1 -> blocked line w1.
Proof.
  intros (Hat & Hl & Hs) Hne E. unfold exec in E. destruct (panicked w); [done|]. unfold blocked.
  destruct l; simpl in E; try (by repeat (case_match || case_decide); simplify_eq/=).
  - case_decide as Hn; [by rewrite Hn in Hat|done].
  - rewrite Hat in E. simpl in E. by rewrite (proj2 (Nat.ltb_ge _ _) Hl) in E.
Qed.

End FileReaderLemmas.

Module FileReaderProperties.
Import FileReader FileReaderLemmas.

(** The reader holds the file open at [off], nothing buffered: what [Start] and
    [reopen] establish. *)
Lemma positioned i off c w :
  at_path (fs_ w) = Some i -> inodes (fs_ w) !! i = Some c -> fits c = true ->
  at_ w = AtSelect -> file (rd w) = Some (mkFile i off) -> buf (rd w) = [] ->
  offset (rd w) = Z.of_nat off -> (off <= length c)%nat ->
  tailing i (take off c) (output w) [] (drop off c) w.
Proof.
  intros Hp Hi Hf Hat Efl Hb Ho Hle.
  assert (length (take off c) = off) as Hlen by (rewrite length_take; lia).
  constructor; simpl; rewrite ?take_drop, ?app_nil_r; try done.
  - rewrite Ho. unfold zlen. by rewrite Hlen.
  - rewrite Hat. simpl. intros fl Efl'. rewrite Efl in Efl'. injection Efl' as <-.
    split_and!; [done|apply no_nl_nil|]. exists (drop off c). rewrite Hb; simpl.
    by rewrite app_nil_r, Hlen.
Qed.

(** The world before [Start]. *)
Definition new_world (fs : fsys) : world := mkWorld fs NewFileReader NotStarted [] false false.

Lemma start_tailing fs i c w :
  at_path fs = Some i -> inodes fs !! i = Some c -> fits c = true ->
  exec (LStart no_faults) (new_world fs) = Some w ->
  tailing i c [] [] [] w /\ panicked w = false /\ stopCh (rd w) = false.
Proof.
  intros Hp Hi Hf. unfold exec; simpl. unfold Start, os_Open; simpl. rewrite Hp; simpl.
  unfold file_Seek; simpl. rewrite (inode_lookup _ _ _ Hi).
  destruct (Z.ltb_spec (zlen c) 0); [pose proof (zlen_nonneg c); lia|]. simpl. intros [= <-].
  split_and!; try done. rewrite zlen_to_nat.
  pose proof (positioned i (length c) c (mkWorld fs (mk (Some (mkFile i (length c))) []
    (Z.of_nat (length c)) [] false false) AtSelect [] false false)) as H1.
  rewrite take_ge, drop_ge in H1 by done. by apply H1.
Qed.

(** C4. What the tailer delivers from a file that only grows.  At every moment
    after [Start], under any interleaving of appends (also in the middle of a
    line), reads of any size, receives and I/O faults, the file is the old
    contents, followed by whole lines [seen], followed by the rest; the lines
    received, queued in the channel or about to be sent are exactly the
    non-empty lines of [seen], each once and in order; and the offset is the
    length of the accounted part, without overflow. *)
Theorem tail_exact fs i c w tr w' :
  at_path fs = Some i -> inodes fs !! i = Some c -> fits c = true ->
  exec (LStart no_faults) (new_world fs) = Some w ->
  Forall append_only tr -> run tr w = Some w' ->
  exists seen rest, inode (fs_ w') i = c ++ seen ++ rest /\ partial_line seen = [] /\
    output w' = log_lines seen /\ offset (rd w') = zlen (c ++ seen).
Proof.
  intros Hp Hi Hf E Htr Hrun. destruct (start_tailing fs i c w Hp Hi Hf E) as (HT & _).
  destruct (run_tailing i c [] tr [] [] w w' HT Htr Hrun) as (seen & rest & [] & _).
  exists seen, rest. split_and!; try done. by apply inode_lookup.
Qed.

(** C5. The tailer catches up.  After [Start] on a file that only grew since, at any
    moment at which [Stop] was not called and nothing crashed, some further steps
    of the goroutine, without faults, and of the consumer alone lead to a state
    in which the consumer has received exactly the complete non-empty lines
    appended since [Start], each once and in order, and the channel is empty. *)
Theorem tail_catches_up fs i c w tr w' :
  at_path fs = Some i -> inodes fs !! i = Some c -> fits c = true ->
  exec (LStart no_faults) (new_world fs) = Some w ->
  Forall append_only tr -> run tr w = Some w' ->
  panicked w' = false -> stopCh (rd w') = false ->
  exists tr2 w2 new, Forall reader_step tr2 /\ run tr2 w' = Some w2 /\ fs_ w2 = fs_ w' /\
    inode (fs_ w') i = c ++ new /\ received w2 = log_lines new /\ lines (rd w2) = [].
Proof.
  intros Hp Hi Hf E Htr Hrun Hpk Hs. destruct (start_tailing fs i c w Hp Hi Hf E) as (HT & _).
  destruct (run_tailing i c [] tr [] [] w w' HT Htr Hrun) as (seen & rest & HT' & _).
  destruct (catches_up i c [] seen rest w' (conj Hpk Hs) HT')
    as (w2 & Hst2 & Ha2 & Ef2 & seen2 & rest2 & HT2 & Hn & Hat).
  destruct (drain i c [] seen2 rest2 w2 Ha2 HT2) as (w3 & Hst3 & _ & Ef3 & HT3 & Hat3 & _ & Hl3).
  destruct (steps_trans _ _ _ Hst2 Hst3) as (tr2 & Htr2 & Hrun2).
  exists tr2, w3, (seen2 ++ rest2). split_and!; try done; [congruence| |].
  - rewrite <- Ef2, <- Ef3. apply inode_lookup, (t_inode _ _ _ _ _ _ HT3).
  - pose proof (t_output _ _ _ _ _ _ HT3) as Ho. unfold output in Ho. rewrite Hl3, Hat3 in Ho.
    rewrite log_lines_app, (log_lines_no_nl rest2), app_nil_r by (done || apply (t_whole _ _ _ _ _ _ HT2)).
    destruct (at_ w2) as [| | | |l| | |]; try (by rewrite !app_nil_r in Ho). by destruct (Hat l).
Qed.

(** What reopening makes of a file that replaced the old one: if it is
    shorter than the offset, it is read from its beginning, and otherwise the
    first [offset] bytes of the new file are skipped.  From then on the output
    grows only by the non-empty lines of what is not skipped. *)
Theorem reopen_position i c n w w1 tr w2 :
  at_ w = SleepingBeforeReopen -> at_path (fs_ w) = Some i -> inodes (fs_ w) !! i = Some c ->
  fits c = true -> (0 <= offset (rd w))%Z ->
  exec (LTail n no_faults) w = Some w1 -> Forall append_only tr -> run tr w1 = Some w2 ->
  let skipped := if (zlen c <? offset (rd w))%Z then 0%nat else Z.to_nat (offset (rd w)) in
  exists new, inode (fs_ w2) i = c ++ new /\
    output w2 `prefix_of` output w ++ log_lines (drop skipped (c ++ new)).
Proof.
  intros Hat Hp Hi Hf Ho E Htr Hrun skipped.
  unfold exec in E. destruct (panicked w); [done|]. rewrite Hat in E. simpl in E. injection E as <-.
  destruct (reopen_spec no_faults (fs_ w) (rd w) i c Hp Hi Ho) as [Er|[? _]]; [|done].
  set (w1 := mkWorld _ _ _ _ _ _) in *.
  assert (skipped <= length c)%nat as Hle.
  { subst skipped. destruct (Z.ltb_spec (zlen c) (offset (rd w))); unfold zlen in *; lia. }
  assert (tailing i (take skipped c) (output w1) [] (drop skipped c) w1) as HT.
  { apply positioned; try done; simpl; rewrite Er; simpl; try done;
      subst skipped; destruct (zlen c <? offset (rd w))%Z; try done. lia. }
  destruct (run_tailing _ _ _ tr [] _ w1 w2 HT Htr Hrun) as (seen & rest & HT2 & [new Hnew]).
  simpl in Hnew. pose proof (t_inode _ _ _ _ _ _ HT2) as Hi2.
  rewrite Hnew, (assoc_L (++)), take_drop in Hi2.
  exists new. split; [by apply inode_lookup|].
  rewrite (t_output _ _ _ _ _ _ HT2).
  assert (output w1 = output w) as ->.
  { unfold output. rewrite Hat. simpl. rewrite Er. done. }
  apply prefix_app. rewrite drop_app_ge, <- Hnew by done. apply log_lines_prefix.
Qed.

(** [Stop] can hang: when the goroutine is about to send and the channel is
    full, then no run in which nobody receives makes [Stop] return, because the
    send does not watch [stopCh]. *)
Theorem Stop_hangs_without_consumer w line tr w' :
  at_ w = Sending line -> (linesCap <= length (lines (rd w)))%nat -> stoppedCh (rd w) = false ->
  LRecv ∉ tr -> run tr w = Some w' -> stop_returned w' = false.
Proof.
  intros Hat Hl Hs Htr Hrun. assert (blocked line w) as Hb by done. clear Hat Hl Hs.
  enough (blocked line w') as (_ & _ & H) by (unfold stop_returned; rewrite H; apply andb_false_r).
  revert w Hb Hrun. induction tr as [|l tr IH]; intros w Hb; simpl; [by intros [= <-]|].
  apply not_elem_of_cons in Htr as [Hne Htr].
  destruct (exec l w) as [w1|] eqn:E; simpl; [|done]. apply IH; [done|].
  by apply (blocked_step line l w).
Qed.

(** ** Concrete runs *)

Definition text (s : string) : bytes := go_bytes s ++ [nl].
Definition demo_fs : fsys := mkFs [text "old"] (Some 0%nat).
Definition demo_started : world :=
  default (new_world demo_fs) (exec (LStart no_faults) (new_world demo_fs)).
Definition tail (n : nat) : label := LTail n no_faults.

(** A line arrives in two pieces, with a blank line and the start of another. *)
Definition demo_trace : list label :=
  [LAppend 0 (go_bytes "fir"); tail 0; tail 2; LAppend 0 (text "st" ++ [nl] ++ go_bytes "sec");
   tail 9; tail 1; tail 9; tail 0; tail 0; tail 0; LRecv].

Lemma tail_exact_witness :
  exists w', run demo_trace demo_started = Some w' /\ received w' = [go_bytes "first"] /\
  exists seen rest, inode (fs_ w') 0 = text "old" ++ seen ++ rest /\ partial_line seen = [] /\
    output w' = log_lines seen /\ offset (rd w') = zlen (text "old" ++ seen).
Proof.
  eexists. split; [vm_compute; reflexivity|]. split; [reflexivity|].
  apply (tail_exact demo_fs 0 (text "old") demo_started demo_trace);
    try (vm_compute; reflexivity).
  repeat apply Forall_cons_2; try exact I. apply Forall_nil_2.
Defined.

Lemma tail_catches_up_witness :
  exists w', run demo_trace demo_started = Some w' /\
  exists tr2 w2 new, Forall reader_step tr2 /\ run tr2 w' = Some w2 /\ fs_ w2 = fs_ w' /\
    inode (fs_ w') 0 = text "old" ++ new /\ received w2 = log_lines new /\ lines (rd w2) = [].
Proof.
  eexists. split; [vm_compute; reflexivity|].
  apply (tail_catches_up demo_fs 0 (text "old") demo_started demo_trace);
    try (vm_compute; reflexivity).
  repeat apply Forall_cons_2; try exact I. apply Forall_nil_2.
Defined.

(** The reader is at the end of the old file (4 bytes) when a longer one takes
    its place: the line [lost] is never delivered. *)
Definition demo_rotated : world :=
  default demo_started (run [tail 0; tail 0; LRotate (text "lost" ++ text "kept")] demo_started).
Definition demo_reopened : world := default demo_started (exec (tail 0) demo_rotated).
Definition demo_read : list label := [tail 0; tail 9; tail 0; tail 0; tail 0; tail 0; tail 0].
Definition demo_end : world := default demo_started (run demo_read demo_reopened).

Lemma reopen_position_witness :
  at_ demo_rotated = SleepingBeforeReopen /\ output demo_end = [go_bytes "kept"] /\
  exists new, inode (fs_ demo_end) 1 = (text "lost" ++ text "kept") ++ new /\
    output demo_end `prefix_of`
      output demo_rotated ++ log_lines (drop 4 ((text "lost" ++ text "kept") ++ new)).
Proof.
  split; [reflexivity|]. split; [vm_compute; reflexivity|].
  apply (reopen_position 1 (text "lost" ++ text "kept") 0 demo_rotated demo_reopened demo_read);
    try (vm_compute; reflexivity).
  - vm_compute. discriminate.
  - repeat apply Forall_cons_2; try exact I. apply Forall_nil_2.
Defined.

Definition demo_full : world :=
  mkWorld demo_fs (mk (Some (mkFile 0 4)) [] 4 (replicate linesCap (go_bytes "x")) false false)
    (Sending (go_bytes "y")) [] false false.

Lemma Stop_hangs_without_consumer_witness :
  exists w', run [LStop; LAppend 0 (text "z")] demo_full = Some w' /\ stopping w' = true /\
    stop_returned w' = false.
Proof.
  eexists. split; [vm_compute; reflexivity|]. split; [reflexivity|].
  apply (Stop_hangs_without_consumer demo_full (go_bytes "y") [LStop; LAppend 0 (text "z")]).
  - reflexivity.
  - apply Nat.leb_le. vm_compute. reflexivity.
  - reflexivity.
  - apply not_elem_of_cons; split; [discriminate|].
    apply not_elem_of_cons; split; [discriminate|]. apply not_elem_of_nil.
  - vm_compute. reflexivity.
Defined.

End FileReaderProperties.
