(* ===== verification/ReaderFactory.v ===== *)
(** * Choosing a log reader

    Models [src/pkg/reader/reader_factory.go] and the constructors it calls
    ([NewFileReader], [NewContainerReader], [NewWindowsEventLogReader],
    [NewMacOSLogReader]), together with the agent's translation of its
    configuration ([setupLogReader] of [src/cmd/agent/main.go], up to [Start]).
    The Kubernetes client library is the parameter [kube]. *)
From S2P Require Import Prelude Utf8 GoStrings Host Config.

(** [LogSourceType] and its constants. *)
Definition FileSourceType : string := "file".
Definition ContainerSourceType : string := "container".
Definition PodSourceType : string := "pod".
Definition WindowsEventSourceType : string := "windows_event".
Definition MacOSASLSourceType : string := "macos_asl".

Definition source_types : list string :=
  [FileSourceType; ContainerSourceType; PodSourceType; WindowsEventSourceType; MacOSASLSourceType].

Module LogSourceConfig.
Record t := mk {
  Type_ : string;
  Path : string;
  Namespace : string;
  PodName : string;
  ContainerName : string;
  PodSelector : string;
  NamespaceSelector : string;
  WindowsEventLogName : string;
  WindowsEventLogLevel : string;
  MacOSLogQuery : string;
}.
End LogSourceConfig.

(** [rest.InClusterConfig] and [kubernetes.NewForConfig]. *)
Record kube := mkKube {
  rest_config : Type;
  clientset : Type;
  InClusterConfig : result rest_config;
  NewForConfig : rest_config -> result clientset;
}.

(** The readers that implement the interface [LogReader], with what their
    constructors store. *)
Inductive log_reader (K : kube) : Type :=
| FileLogReader (path : string)
| ContainerLogReader (namespace podName containerName : string) (cs : clientset K)
| WindowsLogReader (logName minLevel : string)
| MacOSLogReader (query : string).
Arguments FileLogReader {K}.
Arguments ContainerLogReader {K}.
Arguments WindowsLogReader {K}.
Arguments MacOSLogReader {K}.

Section factory.
Context (K : kube) (table : N -> N) (h : host).

(** [ParseSourceType] *)
Definition ParseSourceType (sourceType : string) : result string :=
  let s := ToLower table sourceType in
  if bool_decide (s = FileSourceType) then Ok FileSourceType
  else if bool_decide (s = ContainerSourceType) then Ok ContainerSourceType
  else if bool_decide (s = PodSourceType) then Ok PodSourceType
  else if bool_decide (s ∈@{list string} [WindowsEventSourceType; "windows"; "event"])
  then Ok WindowsEventSourceType
  else if bool_decide (s ∈@{list string} [MacOSASLSourceType; "macos"; "asl"])
  then Ok MacOSASLSourceType
  else Err (ErrorfArg "unknown log source type: %s" sourceType).

(** [NewContainerReader] *)
Definition NewContainerReader (namespace podName containerName : string) : result (log_reader K) :=
  config ← wrap_err "error creating in-cluster config: %v" (InClusterConfig K);
  cs ← wrap_err "error creating kubernetes client: %v" (NewForConfig K config);
  Ok (ContainerLogReader namespace podName containerName cs).

(** [NewWindowsEventLogReader] *)
Definition NewWindowsEventLogReader (logName minLevel : string) : result (log_reader K) :=
  let logName := if String.eqb logName "" then "Application" else logName in
  let level := if String.eqb minLevel "" then "Information" else minLevel in
  Ok (WindowsLogReader logName level).

(** [windowsEventLogReaderFactory]: the build for Windows replaces the default. *)
Definition windowsEventLogReaderFactory (logName minLevel : string) : result (log_reader K) :=
  if bool_decide (GOOS h = "windows") then NewWindowsEventLogReader logName minLevel
  else Err (Errorf "windows event log reader is only available on Windows").

(** [macosLogReaderFactory]: the build for macOS replaces the default. *)
Definition macosLogReaderFactory (query : string) : result (log_reader K) :=
  if bool_decide (GOOS h = "darwin") then Ok (MacOSLogReader query)
  else Err (Errorf "macOS log reader is only available on macOS").

(** [NewReader] *)
Definition NewReader (c : LogSourceConfig.t) : result (log_reader K) :=
  let ty := LogSourceConfig.Type_ c in
  if bool_decide (ty = FileSourceType) then
    _ ← fail_if (String.eqb (LogSourceConfig.Path c) "")
          (Errorf "path is required for file source type");
    Ok (FileLogReader (LogSourceConfig.Path c))
  else if bool_decide (ty = ContainerSourceType) then
    _ ← fail_if (String.eqb (LogSourceConfig.Namespace c) "")
          (Errorf "namespace is required for container source type");
    _ ← fail_if (String.eqb (LogSourceConfig.PodName c) "")
          (Errorf "pod name is required for container source type");
    _ ← fail_if (String.eqb (LogSourceConfig.ContainerName c) "")
          (Errorf "container name is required for container source type");
    NewContainerReader (LogSourceConfig.Namespace c) (LogSourceConfig.PodName c)
      (LogSourceConfig.ContainerName c)
  else if bool_decide (ty = PodSourceType) then
    Err (Errorf "pod source type not implemented yet")
  else if bool_decide (ty = WindowsEventSourceType) then
    _ ← fail_if (negb (bool_decide (GOOS h = "windows")))
          (Errorf "windows event log source type is only supported on Windows");
    let name := if String.eqb (LogSourceConfig.WindowsEventLogName c) "" then "Application"
                else LogSourceConfig.WindowsEventLogName c in
    let level := if String.eqb (LogSourceConfig.WindowsEventLogLevel c) "" then "Information"
                 else LogSourceConfig.WindowsEventLogLevel c in
    windowsEventLogReaderFactory name level
  else if bool_decide (ty = MacOSASLSourceType) then
    _ ← fail_if (negb (bool_decide (GOOS h = "darwin")))
          (Errorf "macOS ASL source type is only supported on macOS");
    macosLogReaderFactory (LogSourceConfig.MacOSLogQuery c)
  else Err (ErrorfArg "unknown log source type: %s" ty).

(** The source configuration the agent derives from its own: [setupLogReader]. *)
Definition source_config (cfg : Config.t) : LogSourceConfig.t := {|
  LogSourceConfig.Type_ := Config.LogSourceType cfg;
  LogSourceConfig.Path := Config.LogPath cfg;
  LogSourceConfig.Namespace := Config.Namespace cfg;
  LogSourceConfig.PodName := Config.PodName cfg;
  LogSourceConfig.ContainerName := Config.ContainerName cfg;
  LogSourceConfig.PodSelector := "";
  LogSourceConfig.NamespaceSelector := "";
  LogSourceConfig.WindowsEventLogName := Config.WindowsEventLogName cfg;
  LogSourceConfig.WindowsEventLogLevel := Config.WindowsEventLogLevel cfg;
  LogSourceConfig.MacOSLogQuery := Config.MacOSLogQuery cfg;
|}.

(** What a source type needs to be usable. *)
Definition source_supported (cfg : Config.t) : Prop :=
  (Config.LogSourceType cfg = FileSourceType) \/
  (Config.LogSourceType cfg = ContainerSourceType /\
     exists rc cs, InClusterConfig K = Ok rc /\ NewForConfig K rc = Ok cs) \/
  (Config.LogSourceType cfg = WindowsEventSourceType) \/
  (Config.LogSourceType cfg = MacOSASLSourceType).

End factory.

Module ReaderFactoryProperties.

(** Validation at load time is in step with construction: for a loaded
    configuration, building the reader succeeds exactly when the source type is
    [file], [windows_event] or [macos_asl], or is [container] and the agent runs
    in a cluster.  None of the per-field or per-platform checks of the factory
    can fail then. *)
Theorem loaded_config_reader (K : kube) unmarshal h path cfg :
  LoadConfig unmarshal h path = Ok cfg ->
  is_ok (NewReader K h (source_config cfg)) = true <-> source_supported K cfg.
Proof.
  intros (raw & _ & (Hs & _))%LoadConfig_inv. destruct Hs as (Hf & Hc & _ & Hw & Hm).
  unfold NewReader, source_config, source_supported, windowsEventLogReaderFactory,
    macosLogReaderFactory, NewContainerReader, NewWindowsEventLogReader; simpl.
  unfold FileSourceType, ContainerSourceType, PodSourceType, WindowsEventSourceType,
    MacOSASLSourceType, FileLogSource, ContainerLogSource, WindowsEventLogSource,
    MacOSASLLogSource in *.
  destruct (decide (Config.LogSourceType cfg = "file")) as [E|N1].
  { rewrite E in *; simpl. rewrite (proj2 (String.eqb_neq _ _) (Hf eq_refl)). simpl. split; auto. }
  rewrite (bool_decide_eq_false_2 _ N1).
  destruct (decide (Config.LogSourceType cfg = "container")) as [E|N2].
  { rewrite E in *; simpl. destruct (Hc eq_refl) as (H1 & H2 & H3).
    apply String.eqb_neq in H1, H2, H3. rewrite H1, H2, H3; simpl.
    destruct (InClusterConfig K) as [rc| |]; simpl;
      [destruct (NewForConfig K rc) as [cs| |] eqn:En; simpl| |].
    1: split; [intros _; right; left; eauto|done].
    all: split; [done|intros [?|[(_ & ? & ? & ? & ?)|[?|?]]]; congruence]. }
  rewrite (bool_decide_eq_false_2 _ N2).
  destruct (decide (Config.LogSourceType cfg = "pod")) as [E|N3].
  { rewrite E in *; simpl. split; [done|]. intros [?|[[? _]|[?|?]]]; congruence. }
  rewrite (bool_decide_eq_false_2 _ N3).
  destruct (decide (Config.LogSourceType cfg = "windows_event")) as [E|N4].
  { rewrite E in *; simpl. rewrite Hw by done. simpl. split; auto. }
  rewrite (bool_decide_eq_false_2 _ N4).
  destruct (decide (Config.LogSourceType cfg = "macos_asl")) as [E|N5].
  { rewrite E in *; simpl. rewrite Hm by done. simpl. split; auto 6. }
  rewrite (bool_decide_eq_false_2 _ N5). simpl. split; [done|].
  by intros [?|[[? _]|[?|?]]].
Qed.

(** A configuration of type [pod], which loading accepts (and for which it
    demands a selector), can never be run: no reader exists for it. *)
Theorem pod_source_unusable (K : kube) h cfg :
  Config.LogSourceType cfg = PodLogSource ->
  (validate_source h cfg = Ok tt <-> Config.PodSelector cfg <> ∅) /\
  NewReader K h (source_config cfg) = Err (Errorf "pod source type not implemented yet").
Proof.
  intros E. split; [|unfold NewReader, source_config; simpl; by rewrite E].
  rewrite validate_source_ok. unfold source_ok. rewrite E. naive_solver.
Qed.

(** [ParseSourceType] is the identity on the names of the source types, in
    any capitalisation, and its result is always one of them. *)
Theorem ParseSourceType_spec table s t :
  ParseSourceType table s = Ok t ->
  t ∈ source_types /\
  (ToLower table s = t \/
   (t = WindowsEventSourceType /\ ToLower table s ∈@{list string} ["windows"; "event"]) \/
   (t = MacOSASLSourceType /\ ToLower table s ∈@{list string} ["macos"; "asl"])).
Proof.
  unfold ParseSourceType, source_types.
  repeat case_bool_decide; intros [= <-]; set_solver.
Qed.

Definition in_cluster : kube := mkKube unit unit (Ok tt) (fun _ => Ok tt).

Lemma loaded_config_reader_witness :
  is_ok (NewReader in_cluster ConfigProperties.example_host
    (source_config (set_defaults ConfigProperties.example_host ConfigProperties.raw_example))) = true.
Proof.
  apply (loaded_config_reader in_cluster (fun _ => Ok ConfigProperties.raw_example)
    ConfigProperties.example_host "config.yaml"); [reflexivity|]. left. reflexivity.
Defined.

Definition pod_config : Config.t :=
  let c := ConfigProperties.raw_example in
  Config.mk (Config.LogPath c) (Config.ServerURL c) (Config.BatchSize c) (Config.FlushInterval c)
    "pod" "" "" "" {[ "app" := "web" ]} ∅ "" "" "" (Config.Telemetry c) (Config.Security c).

Lemma pod_source_unusable_witness :
  validate_source ConfigProperties.example_host pod_config = Ok tt /\
  NewReader in_cluster ConfigProperties.example_host (source_config pod_config) =
    Err (Errorf "pod source type not implemented yet").
Proof.
  split; [reflexivity|].
  apply (pod_source_unusable in_cluster ConfigProperties.example_host pod_config). reflexivity.
Defined.

Lemma ParseSourceType_spec_witness :
  ParseSourceType id "Windows" = Ok WindowsEventSourceType /\ WindowsEventSourceType ∈ source_types.
Proof.
  split; [reflexivity|]. apply (ParseSourceType_spec id "Windows"). reflexivity.
Defined.

End ReaderFactoryProperties.
