(* ===== verification/ContainerReader.v ===== *)
(** * The container reader

    Models [ContainerReader] of [src/pkg/reader/container_reader.go]: [Start],
    [Stop] and the goroutine [tailContainer], which reads lines from a log
    stream of the Kubernetes API with the splitter of [LineReader] and puts them
    into the channel [lines].  What the API answers (opening a stream, the data
    of each [Read], whether the pod exists) comes with the labels of the steps. *)
From S2P Require Import Prelude Lines LineReader LogReader.

Module ContainerReader.

(** The capacity of the channel [lines]. *)
Definition linesCap : nat := 1000.

(** The struct's mutable part: the channel's contents, the two channels that are
    only ever closed, and the flag under the lock. *)
Record t := mk { lines : list bytes; stopCh : bool; stoppedCh : bool; isRunning : bool }.
Definition NewContainerReader : t := mk [] false false false.

(** Where [tailContainer] is.  [Reading buf]: inside [ReadLine], with the
    splitter's buffer [buf]; [Sending line buf]: at the inner [select]. *)
Inductive pc :=
| NotStarted
| AtSelect
| Opening
| Reading (buf : bytes)
| Sending (line buf : bytes)
| CheckingPod
| Sleeping
| Returning
| Done.

(** A stream: what it has delivered and whether it has reported its end. *)
Record stream := mkStream { data : bytes; ended : bool }.

(** [past] are the streams read to their end, with how they ended ([true] for
    [io.EOF]); [dropped] is the line given up when the goroutine was told to
    stop; [waiting] counts the calls of [Stop] at their receive. *)
Record world := mkWorld {
  rd : t;
  at_ : pc;
  cur : stream;
  past : list (bytes * bool);
  received : list bytes;
  dropped : list bytes;
  waiting : nat;
  panicked : bool;
}.

Inductive label :=
| LStart
| LStop                                     (* Stop, up to the receive *)
| LStopReturn                               (* the rest of Stop *)
| LTail                                     (* a step of the goroutine by itself *)
| LOpen (ok : bool)                         (* the answer of req.Stream *)
| LRead (chunk : bytes) (err : option error)  (* the answer of stream.Read *)
| LSend                                     (* case r.lines <- line *)
| LGiveUp                                   (* case <-r.stopCh *)
| LPod (exists_ : bool)                     (* the answer of Pods().Get *)
| LRecv.                                    (* the consumer receives a line *)

Definition set_at (p : pc) (w : world) : world :=
  mkWorld (rd w) p (cur w) (past w) (received w) (dropped w) (waiting w) (panicked w).
Definition set_rd (r : t) (w : world) : world :=
  mkWorld r (at_ w) (cur w) (past w) (received w) (dropped w) (waiting w) (panicked w).
Definition panic (w : world) : world :=
  mkWorld (rd w) (at_ w) (cur w) (past w) (received w) (dropped w) (waiting w) true.

(** The stream is over: [break] and [stream.Close()]. *)
Definition end_stream (clean : bool) (w : world) : world :=
  mkWorld (rd w) CheckingPod (mkStream [] false) (past w ++ [(data (cur w), clean)])
    (received w) (dropped w) (waiting w) (panicked w).

(** One result of [Read] inside [ReadLine], called with no newline in [buf].
    After its end a stream delivers nothing more. *)
Definition on_read (buf chunk : bytes) (err : option error) (w : world) : option world :=
  if ended (cur w) && negb (bool_decide (chunk = [] /\ err = Some EOF)) then None else
  let w := mkWorld (rd w) (at_ w)
             (mkStream (data (cur w) ++ match err with None | Some EOF => chunk | _ => [] end)
                (ended (cur w) || bool_decide (err = Some EOF)))
             (past w) (received w) (dropped w) (waiting w) (panicked w) in
  match err with
  | Some EOF =>
      if decide (chunk = []) then
        match buf with
        | [] => Some (end_stream true w)
        | _ => Some (set_at (Sending buf []) w)
        end
      else Some (set_at (Reading (buf ++ chunk)) w)
  | Some _ => Some (end_stream false w)
  | None => Some (set_at (Reading (buf ++ chunk)) w)
  end.

Definition exec (l : label) (w : world) : option world :=
  if panicked w then None else
  let r := rd w in
  match l, at_ w with
  | LStart, _ =>
      if isRunning r then Some w
      else Some (set_at AtSelect (set_rd (mk (lines r) (stopCh r) (stoppedCh r) true) w))
  | LStop, _ =>
      if negb (isRunning r) then Some w
      else if stopCh r then Some (panic w)    (* close of closed channel *)
      else Some (mkWorld (mk (lines r) true (stoppedCh r) (isRunning r)) (at_ w) (cur w) (past w)
                   (received w) (dropped w) (S (waiting w)) false)
  | LStopReturn, _ =>
      match waiting w with
      | S n => if stoppedCh r then
                 Some (mkWorld (mk (lines r) (stopCh r) true false) (at_ w) (cur w) (past w)
                         (received w) (dropped w) n false)
               else None
      | O => None
      end
  | LTail, AtSelect => Some (set_at (if stopCh r then Returning else Opening) w)
  | LOpen ok, Opening => Some (set_at (if ok then Reading [] else Sleeping) w)
  | LTail, Reading buf =>
      match index_nl buf with
      | Some i => Some (set_at (Sending (take i buf) (drop (i + 1) buf)) w)
      | None => None
      end
  | LRead chunk err, Reading buf =>
      match index_nl buf with
      | Some _ => None
      | None => on_read buf chunk err w
      end
  | LSend, Sending line buf =>
      if (length (lines r) <? linesCap)%nat then
        Some (set_at (Reading buf) (set_rd (mk (lines r ++ [line]) (stopCh r) (stoppedCh r) (isRunning r)) w))
      else None
  | LGiveUp, Sending line _ =>
      if stopCh r then
        Some (mkWorld r Returning (cur w) (past w) (received w) (dropped w ++ [line]) (waiting w) false)
      else None
  | LPod ok, CheckingPod => Some (set_at (if ok then Sleeping else Returning) w)
  | LTail, Sleeping => Some (set_at AtSelect w)
  | LTail, Returning =>                       (* defer close(r.stoppedCh) *)
      if stoppedCh r then Some (panic w)
      else Some (set_at Done (set_rd (mk (lines r) (stopCh r) true (isRunning r)) w))
  | LRecv, _ =>
      match lines r with
      | [] => None
      | x :: ls => Some (mkWorld (mk ls (stopCh r) (stoppedCh r) (isRunning r)) (at_ w) (cur w) (past w)
                           (received w ++ [x]) (dropped w) (waiting w) false)
      end
  | _, _ => None
  end.

Fixpoint run (tr : list label) (w : world) : option world :=
  match tr with
  | [] => Some w
  | l :: tr => w' ← exec l w; run tr w'
  end.

Definition new_world : world :=
  mkWorld NewContainerReader NotStarted (mkStream [] false) [] [] [] 0 false.

(** Every line that came out of the splitter. *)
Definition output (w : world) : list bytes :=
  received w ++ lines (rd w) ++ match at_ w with Sending l _ => [l] | _ => [] end ++ dropped w.

(** The lines a finished stream owes: all of them after [io.EOF], the terminated
    ones after another error. *)
Definition stream_lines (s : bytes * bool) : list bytes :=
  if s.2 then all_lines s.1 else complete_lines s.1.

(** ** The interface [LogReader] *)

Definition internal (l : label) : bool :=
  match l with LRecv | LStop | LStart => false | _ => true end.

#[global] Instance container_log_reader : LogReader world := {|
  reader_label := label;
  reader_exec l w := if internal l then exec l w else None;
  queued w := lines (rd w);
  lines_closed _ := false;
  receive w := w' ← exec LRecv w; x ← head (lines (rd w)); Some (x, w');
  taken := received;
  stop_call w := w' ← exec LStop w; if panicked w' then None else Some w';
  stop_done w := negb (isRunning (rd w));
|}.

End ContainerReader.

Module ContainerReaderLemmas.
Import ContainerReader.

(** ** The control invariant *)

Definition ctl (w : world) : Prop :=
  let r := rd w in
  waiting w <= 1 /\
  match at_ w with
  | NotStarted => r = mk (lines r) false false false /\ waiting w = 0
  | Done => stoppedCh r = true /\ (isRunning r = false -> stopCh r = true) /\
            (0 < waiting w -> isRunning r = true /\ stopCh r = true)
  | p =>
      isRunning r = true /\ (0 < waiting w -> stopCh r = true) /\
      (stoppedCh r = true -> waiting w = 0 /\ stopCh r = true /\ (p = AtSelect \/ p = Returning))
  end.

(** ** The data invariant *)

Definition fresh : stream := mkStream [] false.

(** The lines [out] taken from stream [c] so far, with [buf] in the splitter. *)
Definition splitting (out : list bytes) (buf : bytes) (c : stream) : Prop :=
  (Forall no_nl out /\ data c = unlines out ++ buf) \/
  (ended c = true /\ buf = [] /\ out = all_lines (data c)).

Definition cur_ok (p : pc) (stop : bool) (c : stream) (out : list bytes) : Prop :=
  match p with
  | NotStarted | Opening | Sleeping | CheckingPod => c = fresh /\ out = []
  | AtSelect => (c = fresh /\ out = []) \/ (stop = true /\ out `prefix_of` all_lines (data c))
  | Reading buf => splitting out buf c
  | Sending l buf => splitting out buf c
  | Returning | Done => out `prefix_of` all_lines (data c)
  end.

Definition quiet (p : pc) : Prop := p = AtSelect \/ p = Returning \/ p = Done.

Definition accounted (w : world) : Prop :=
  exists out, output w = concat (map stream_lines (past w)) ++ out /\
    cur_ok (at_ w) (stopCh (rd w)) (cur w) out /\
    (dropped w <> [] -> stopCh (rd w) = true /\ quiet (at_ w)).

Lemma splitting_prefix out buf c : splitting out buf c -> out `prefix_of` all_lines (data c).
Proof.
  intros [[H ->]|(_ & _ & ->)]; [|done]. rewrite all_lines_unlines by done. by eexists.
Qed.

(** The splitter finds a line in its buffer. *)
Lemma splitting_line out buf c i :
  splitting out buf c -> index_nl buf = Some i ->
  splitting (out ++ [take i buf]) (drop (i + 1) buf) c.
Proof.
  intros Hs (l & b & -> & Hl & <-)%index_nl_Some.
  destruct Hs as [[H E]|(_ & E & _)]; [|by destruct l]. left.
  rewrite take_app_length. replace (drop (length l + 1) (l ++ nl :: b)) with b.
  - split; [apply Forall_app; auto|]. rewrite E, unlines_app.
    change (unlines [l]) with (terminate l ++ []). unfold terminate.
    rewrite app_nil_r. by rewrite <- !(assoc_L (++)).
  - replace (l ++ nl :: b) with ((l ++ [nl]) ++ b) by (by rewrite <- (assoc_L (++))).
    by rewrite drop_app_length' by (by rewrite length_app).
Qed.

(** At the end of a stream its lines are accounted for. *)
Lemma splitting_end out c : splitting out [] c -> out = all_lines (data c).
Proof.
  intros [[H ->]|(_ & _ & ->)]; [|done]. rewrite all_lines_unlines by done. by rewrite app_nil_r.
Qed.

Lemma splitting_error out buf c :
  splitting out buf c -> no_nl buf -> ended c = false -> out = complete_lines (data c).
Proof.
  intros [[H E]|(E & _)] Hb He; [|congruence].
  symmetry. by apply (split_nl_unique _ _ buf E H Hb).
Qed.

Lemma splitting_flush out buf c :
  splitting out buf c -> no_nl buf -> buf <> [] ->
  splitting (out ++ [buf]) [] (mkStream (data c) true).
Proof.
  intros [[H E]|(_ & E & _)] Hb Hne; [|done]. right. simpl. split_and!; try done.
  rewrite E, all_lines_unlines, all_lines_last by done. done.
Qed.

Lemma on_read_accounted buf chunk err w w' :
  accounted w -> at_ w = Reading buf -> no_nl buf -> on_read buf chunk err w = Some w' -> accounted w'.
Proof.
  intros (out & Ho & Hc & Hd) Hat Hb. rewrite Hat in Hc. simpl in Hc.
  assert (dropped w = []) as Hd0.
  { destruct (dropped w) eqn:E; [done|]. rewrite Hat in Hd. destruct Hd as [_ [?|[?|?]]]; done. }
  unfold output in Ho. rewrite Hat, Hd0, !app_nil_r in Ho. unfold on_read.
  destruct (ended (cur w)) eqn:Ee; simpl.
  - case_bool_decide as Hx; [|done]. destruct Hx as [-> ->]; simpl.
    destruct buf as [|x buf]; intros [= <-].
    + exists []. unfold output; simpl. rewrite Hd0, map_app, concat_app, !app_nil_r; simpl.
      rewrite app_nil_r. unfold stream_lines; simpl. rewrite <- (splitting_end _ _ Hc). done.
    + exists (out ++ [x :: buf]). unfold output; simpl.
      rewrite Hd0, !app_nil_r, (assoc_L (++) (concat _)), <- Ho, (assoc_L (++)).
      split_and!; [done|by apply splitting_flush|done].
  - assert (forall e, splitting out (buf ++ chunk) (mkStream (data (cur w) ++ chunk) e)) as Hmore.
    { destruct Hc as [[H E]|(? & _)]; [|congruence]. left. simpl. split; [done|].
      by rewrite E, <- (assoc_L (++)). }
    destruct err as [e|]; simpl.
    + destruct (decide (e = EOF)) as [->|Hne].
      * destruct (decide (chunk = [])) as [->|Hch]; [destruct buf as [|x buf]|]; intros [= <-].
        -- exists []. unfold output; simpl. rewrite Hd0, map_app, concat_app, !app_nil_r; simpl.
           rewrite app_nil_r. unfold stream_lines; simpl. rewrite <- (splitting_end _ _ Hc). done.
        -- exists (out ++ [x :: buf]). unfold output; simpl.
           rewrite Hd0, !app_nil_r, (assoc_L (++) (concat _)), <- Ho, (assoc_L (++)).
           split_and!; [done|by apply splitting_flush|done].
        -- exists out. unfold output; simpl. rewrite Hd0, !app_nil_r. split_and!; [done|apply Hmore|done].
      * assert (match e with EOF => chunk | _ => [] end = []) as -> by (by destruct e).
        rewrite app_nil_r. intros E. assert (w' = end_stream false (mkWorld (rd w) (at_ w)
          (mkStream (data (cur w)) (bool_decide (Some e = Some EOF))) (past w) (received w) (dropped w)
          (waiting w) (panicked w))) as -> by (destruct e; congruence).
        exists []. unfold output; simpl. rewrite Hd0, map_app, concat_app, !app_nil_r; simpl.
        rewrite app_nil_r. unfold stream_lines; simpl.
        rewrite <- (splitting_error _ _ _ Hc Hb Ee). done.
    + intros [= <-]. exists out. unfold output; simpl. rewrite Hd0, !app_nil_r.
      split_and!; [done|apply Hmore|done].
Qed.

Lemma on_read_ctl buf chunk err w w' :
  ctl w -> at_ w = Reading buf -> on_read buf chunk err w = Some w' -> ctl w'.
Proof.
  unfold ctl. intros [H1 Hc] Hat. rewrite Hat in Hc. destruct Hc as (Hr & Hw & Hs).
  assert (stoppedCh (rd w) = false) as Hs0.
  { destruct (stoppedCh (rd w)); [|done]. destruct (Hs eq_refl) as (_ & _ & [?|?]); done. }
  unfold on_read. intros E. repeat (case_match || case_decide); simplify_eq/=;
    rewrite Hs0; split_and!; done.
Qed.

(** Calls of [Start] and [Stop]. *)
Lemma call_ctl l w w' :
  l = LStart \/ l = LStop \/ l = LStopReturn ->
  ctl w -> exec l w = Some w' -> panicked w' = false -> ctl w'.
Proof.
  intros Hl [Hn Hc]. unfold exec. destruct (panicked w) eqn:Ep; [done|].
  destruct w as [[ls st sd ru] p c pa re dr wa pn]; simpl in *.
  destruct Hl as [->|[->| ->]]; simpl.
  - destruct ru; intros [= <-] _; [by split|]. split; [done|]. simpl.
    destruct p; simpl in Hc; destruct Hc as (H1 & H2); try done.
    + injection H1 as -> ->. subst wa. split_and!; try done; lia.
    + destruct H2 as [H2 H3]. rewrite H2 by done.
      assert (wa = 0) as -> by (destruct wa; [done|]; destruct H3; [lia|done]).
      split_and!; auto.
  - destruct ru; simpl; [|intros [= <-]; by split]. destruct st; intros [= <-]; [done|]. intros _.
    assert (wa = 0) as ->.
    { destruct p; simpl in Hc; destruct Hc as (H1 & H2 & H3) || destruct Hc as (H1 & H2); try done;
        destruct wa; try done; by (destruct H2; lia) || (destruct H3; lia). }
    split; [done|]. simpl.
    destruct p; simpl in *; destruct Hc as (H1 & H2 & H3) || destruct Hc as (H1 & H2); try done;
      split_and!; try done; intros Hs; destruct (H3 Hs) as (_ & ? & _); done.
  - destruct wa as [|n]; [done|]. destruct sd; [|done]. intros [= <-] _. split; [simpl; lia|]. simpl.
    assert (n = 0) as -> by lia.
    destruct p; simpl in *; destruct Hc as (H1 & H2 & H3) || destruct Hc as (H1 & H2); try done.
    all: try (destruct (H3 eq_refl); done).
    destruct H3; [lia|]. split_and!; try done. lia.
Qed.

Lemma exec_ctl l w w' : ctl w -> exec l w = Some w' -> panicked w' = false -> ctl w'.
Proof.
  intros Hc E Hp. pose proof Hc as [Hn Hm].
  destruct l; try (apply (call_ctl _ w w') in E; [done|solve [auto]|done|done]).
  all: unfold exec in E; destruct (panicked w) eqn:Ep; [done|];
    destruct w as [[ls st sd ru] p c pa re dr wa pn]; simpl in *; subst pn; destruct p; simpl in *; try done.
  all: try (destruct (index_nl buf) eqn:Ei; try done; by (eapply on_read_ctl; [exact Hc| |exact E])).
  all: repeat case_match; simplify_eq/=; try done; split; try done; simpl;
    first [destruct Hm as (H1 & H2 & H3)|destruct Hm as (H1 & H2)]; simplify_eq/=; split_and!; try done.
  all: try (intros ->; destruct (H3 eq_refl) as (? & ? & [?|?]); by auto).
  auto.
Qed.

(** A step that takes nothing out of the stream. *)
Lemma accounted_keep w w' :
  accounted w -> output w' = output w -> past w' = past w ->
  (forall out, cur_ok (at_ w) (stopCh (rd w)) (cur w) out -> cur_ok (at_ w') (stopCh (rd w')) (cur w') out) ->
  (dropped w' <> [] -> stopCh (rd w') = true /\ quiet (at_ w')) ->
  accounted w'.
Proof.
  intros (out & Ho & Hc & Hd) Eo Ep Hcur Hd'. exists out. rewrite Eo, Ep. auto.
Qed.

Lemma ctl_start w : ctl w -> isRunning (rd w) = false -> at_ w = NotStarted \/ (at_ w = Done /\ stopCh (rd w) = true).
Proof.
  intros [_ Hc] Hr. destruct (at_ w); auto; destruct Hc as (H1 & H2 & _); auto; congruence.
Qed.

Lemma not_dropped w :
  accounted w -> ~ quiet (at_ w) -> dropped w = [].
Proof.
  intros (out & _ & _ & Hd) Hq. destruct (dropped w); [done|]. destruct Hd; done.
Qed.

Lemma active_not_quiet p :
  match p with AtSelect | Returning | Done => True | _ => ~ quiet p end.
Proof. destruct p; try done; by intros [?|[?|?]]. Qed.

(** Calls of [Start] and [Stop]. *)
Lemma call_accounted l w w' :
  l = LStart \/ l = LStop \/ l = LStopReturn ->
  ctl w -> accounted w -> exec l w = Some w' -> accounted w'.
Proof.
  intros Hl Hctl HA E. pose proof (not_dropped w HA) as Hdr. pose proof HA as (out & Ho & Hc & Hd).
  unfold exec in E. destruct (panicked w) eqn:Ep; [done|]. destruct Hl as [->|[->| ->]].
  - destruct (isRunning (rd w)) eqn:Er; simplify_eq; [done|].
    destruct (ctl_start w Hctl Er) as [Hat|[Hat Hs]];
      apply (accounted_keep w); try done; unfold output; simpl; rewrite ?Hat; try done; simpl.
    + intros o Hf. by left.
    + intros []. apply Hdr. rewrite Hat. apply (active_not_quiet NotStarted).
    + intros o Hp. by right.
    + intros _. split; [done|]. by left.
  - destruct (isRunning (rd w)); simpl in E; [|by simplify_eq].
    destruct (stopCh (rd w)) eqn:Es; simplify_eq; apply (accounted_keep w); try done; simpl.
    + by rewrite Es.
    + intros o. rewrite Es. destruct (at_ w); simpl; try done. by intros [?|[? _]]; [left|].
    + intros Hne. split; [done|]. by destruct (Hd Hne).
  - destruct (waiting w); [done|]. destruct (stoppedCh (rd w)) eqn:Es; simplify_eq.
    by apply (accounted_keep w).
Qed.

(** Steps of the goroutine by itself. *)
Lemma tail_accounted w w' : accounted w -> exec LTail w = Some w' -> accounted w'.
Proof.
  intros HA E. pose proof (not_dropped w HA) as Hdr. pose proof HA as (out & Ho & Hc & Hd).
  unfold exec in E. destruct (panicked w) eqn:Ep; [done|].
  pose proof (active_not_quiet (at_ w)) as Hq. destruct (at_ w) as [| | |buf| | | | |] eqn:Hat; try done.
  - injection E as <-. apply (accounted_keep w); try done; unfold output; simpl; rewrite ?Hat.
    + by destruct (stopCh (rd w)).
    + intros o. simpl. destruct (stopCh (rd w)); simpl; intros [[-> ->]|[? ?]]; done || apply prefix_nil.
    + intros Hne. destruct (Hd Hne) as [-> _]. split; [done|]. right; by left.
  - destruct (index_nl buf) as [i|] eqn:Ei; simplify_eq. simpl in Hc.
    exists (out ++ [take i buf]). unfold output in *; simpl. rewrite Hat in Ho. rewrite (Hdr Hq) in *.
    rewrite !app_nil_r in *. rewrite (assoc_L (++)), Ho, <- (assoc_L (++)).
    split_and!; [done|by apply splitting_line|done].
  - injection E as <-. apply (accounted_keep w); try done; unfold output; simpl; rewrite ?Hat; try done.
    + intros o Hf. by left.
    + by rewrite (Hdr Hq).
  - destruct (stoppedCh (rd w)); simplify_eq; apply (accounted_keep w); try done;
      unfold output; simpl; rewrite ?Hat; try done.
    intros Hne. destruct (Hd Hne) as [-> _]. split; [done|]. right; by right.
Qed.

Lemma exec_accounted l w w' :
  ctl w -> accounted w -> exec l w = Some w' -> accounted w'.
Proof.
  intros Hctl HA E. pose proof E as E0.
  destruct l; try (by apply (tail_accounted w)); try (apply (call_accounted _ w) in E; [done|solve [auto]|done|done]).
  all: pose proof (not_dropped w HA) as Hdr; pose proof HA as (out & Ho & Hc & Hd);
    pose proof (active_not_quiet (at_ w)) as Hq; unfold exec in E; destruct (panicked w) eqn:Ep; [done|].
  - destruct (at_ w) eqn:Hat; try done. injection E as <-.
    apply (accounted_keep w); try done; unfold output; simpl; rewrite ?Hat, ?(Hdr Hq); try done;
      destruct ok; try done.
    intros o [-> ->]. by left.
  - destruct (at_ w) eqn:Hat; try done. destruct (index_nl buf) eqn:Ei; [done|].
    apply index_nl_None in Ei. by eapply on_read_accounted.
  - destruct (at_ w) eqn:Hat; try done. destruct (_ <? _)%nat; simplify_eq.
    apply (accounted_keep w); try done; unfold output; simpl; rewrite ?Hat, ?(Hdr Hq); try done.
    by rewrite !app_nil_r.
  - destruct (at_ w) eqn:Hat; try done. destruct (stopCh (rd w)) eqn:Es; simplify_eq.
    apply (accounted_keep w); try done; unfold output; simpl; rewrite ?Hat, ?(Hdr Hq); try done.
    + intros o. apply splitting_prefix.
    + intros _. split; [done|]. right; by left.
  - destruct (at_ w) eqn:Hat; try done. injection E as <-.
    apply (accounted_keep w); try done; unfold output; simpl; rewrite ?Hat, ?(Hdr Hq); try done;
      destruct exists_; try done.
    intros o [-> ->]. apply prefix_nil.
  - destruct (lines (rd w)) eqn:El; [done|]. simplify_eq.
    apply (accounted_keep w); try done; unfold output; simpl; rewrite ?El; try done.
    by rewrite <- (assoc_L (++)).
Qed.

Lemma exec_not_panicked l w w' : exec l w = Some w' -> panicked w = false.
Proof. unfold exec. by destruct (panicked w). Qed.

Lemma run_inv tr w w' :
  ctl w -> accounted w -> run tr w = Some w' -> accounted w' /\ (panicked w' = false -> ctl w').
Proof.
  revert w. induction tr as [|l tr IH]; intros w Hc HA; simpl; [by intros [= <-]|].
  destruct (exec l w) as [w1|] eqn:E; simpl; [|done]. intros Hr.
  pose proof (exec_accounted l w w1 Hc HA E) as HA1.
  destruct tr as [|l2 tr]; simpl in Hr.
  - injection Hr as <-. split; [done|]. intros Hp. by apply (exec_ctl l w).
  - apply (IH w1); [|done|done]. destruct (exec l2 w1) eqn:E2; [|done].
    apply exec_not_panicked in E2. by apply (exec_ctl l w).
Qed.

Lemma new_world_inv : ctl new_world /\ accounted new_world.
Proof. split; [split; [simpl; lia|done]|]. exists []. by split_and!. Qed.

(** ** The channel is a queue *)

#[global] Instance container_reader_laws : LogReaderLaws world.
Proof.
  split.
  - intros w x w'. simpl. unfold exec. destruct (panicked w); [done|].
    destruct (lines (rd w)) as [|y ls] eqn:El; simpl; [done|].
    intros [= <- <-]. done.
  - intros l w w'. simpl. destruct (internal l) eqn:Hl; [|done]. unfold exec.
    destruct (panicked w); [done|]. intros E.
    destruct l; try done; destruct (at_ w); try done; unfold on_read in E;
      repeat case_match; simplify_eq/=; split; try done; by eexists.
  - intros w w'. simpl. unfold exec. destruct (panicked w); [done|].
    repeat case_match; simplify_eq/=; try done; intros E; repeat case_match; by simplify_eq/=.
Qed.

(** What a client makes of the reader is a run of it. *)
Lemma moves_run Q w0 w : reader_moves Q w0 w -> exists tr, run tr w0 = Some w.
Proof.
  assert (forall v l v' tr, run tr w0 = Some v -> exec l v = Some v' ->
    exists tr', run tr' w0 = Some v') as Hex.
  { intros v l v' tr Hr E. exists (tr ++ [l]). revert Hr. generalize w0.
    induction tr as [|l' tr IH]; intros u; simpl; [intros [= ->]; by rewrite E|].
    destruct (exec l' u); simpl; [apply IH|done]. }
  induction 1 as [|v l v' _ [tr IH] _ E|v x v' _ [tr IH] E|v v' _ [tr IH] E]; simpl in *.
  - by exists [].
  - destruct (internal l); [|done]. by eapply Hex.
  - destruct (exec LRecv v) as [v1|] eqn:E1; simpl in E; [|done].
    destruct (head _); simpl in E; [|done]. injection E as _ <-. by eapply Hex.
  - destruct (exec LStop v) as [v1|] eqn:E1; simpl in E; [|done].
    destruct (panicked v1); simplify_eq. by eapply Hex.
Qed.

(** ** A goroutine waiting for its stream *)

Definition waits_for_stream (w : world) : Prop :=
  (exists buf, at_ w = Reading buf /\ no_nl buf) /\ stopCh (rd w) = true /\
  stoppedCh (rd w) = false /\ isRunning (rd w) = true.

Definition not_read (l : label) : Prop := match l with LRead _ _ => False | _ => True end.

Lemma waits_step l w w' : waits_for_stream w -> not_read l -> exec l w = Some w' -> panicked w' = false ->
  waits_for_stream w'.
Proof.
  intros ((buf & Hat & Hb) & Hs & Hd & Hr) Hl E Hp. unfold exec in E. destruct (panicked w); [done|].
  rewrite Hat, Hs, Hd, Hr in E. apply index_nl_None in Hb as Ei. rewrite ?Ei in E.
  destruct l; simpl in E; repeat case_match; simplify_eq/=; try done;
    split_and!; try done; by exists buf.
Qed.

Lemma run_lines tr w :
  run tr new_world = Some w ->
  exists out, received w ++ lines (rd w) ++ match at_ w with Sending l _ => [l] | _ => [] end ++ dropped w =
      concat (map stream_lines (past w)) ++ out /\
    out `prefix_of` all_lines (data (cur w)).
Proof.
  intros Hr. destruct new_world_inv as [Hc HA].
  destruct (run_inv tr _ _ Hc HA Hr) as [(out & Ho & Hcur & _) _].
  exists out. split; [exact Ho|]. destruct (at_ w); simpl in Hcur;
    try (by eapply splitting_prefix); try done; try (destruct Hcur as [_ ->]; apply prefix_nil).
  destruct Hcur as [[_ ->]|[_ ?]]; [apply prefix_nil|done].
Qed.

End ContainerReaderLemmas.

Module ContainerReaderProperties.
Import ContainerReader ContainerReaderLemmas.

(** C17. What the container reader delivers: under any interleaving of the
    goroutine, the consumer, calls of [Start] and [Stop] and answers of the API,
    the lines received, queued, being sent or given up at a stop are exactly the
    lines of the finished streams, in order, followed by a beginning of the
    lines of the current one.  A stream that ended with [io.EOF] has all its
    lines delivered, the unterminated last one included; one that broke off has
    its terminated lines delivered. *)
Theorem container_exact tr w :
  run tr new_world = Some w ->
  exists out, received w ++ lines (rd w) ++ match at_ w with Sending l _ => [l] | _ => [] end ++ dropped w =
      concat (map stream_lines (past w)) ++ out /\
    out `prefix_of` all_lines (data (cur w)).
Proof. apply run_lines. Qed.

(** [Stop] waits for the stream: once the goroutine is inside a [Read] when
    [Stop] closes the channel, [Stop] does not return until the API answers that
    [Read], whatever else happens; a container that logs nothing keeps the agent
    from shutting down. *)
Theorem container_stop_waits tr w w' :
  waits_for_stream w -> Forall not_read tr -> run tr w = Some w' -> panicked w' = false ->
  exec LStopReturn w' = None.
Proof.
  intros Hw Htr Hr Hp. assert (waits_for_stream w') as (_ & _ & Hd & _).
  { revert w Hw Hr. induction Htr as [|l tr Hl Htr IH]; intros w Hw; simpl; [by intros [= <-]|].
    destruct (exec l w) as [w1|] eqn:E; simpl; [|done]. intros Hr.
    apply (IH w1); [|done]. apply (waits_step l w); try done.
    destruct tr as [|l2 tr]; simpl in Hr; [by simplify_eq|].
    destruct (exec l2 w1) eqn:E2; [|done]. by apply exec_not_panicked in E2. }
  unfold exec. rewrite Hp, Hd. by destruct (waiting w').
Qed.

(** A reader that was stopped cannot be used again: [Start] after a [Stop]
    that returned succeeds, and the goroutine it starts panics at once, on the
    channel that the first one closed. *)
Theorem container_restart_panics tr w :
  run tr new_world = Some w -> panicked w = false -> at_ w <> NotStarted -> isRunning (rd w) = false ->
  exists w', run [LStart; LTail; LTail] w = Some w' /\ panicked w' = true.
Proof.
  intros Hr Hp Hat Hrun. destruct new_world_inv as [Hc HA].
  destruct (run_inv tr _ _ Hc HA Hr) as [_ Hctl].
  destruct (ctl_start w (Hctl Hp) Hrun) as [?|[Hd Hs]]; [done|].
  assert (stoppedCh (rd w) = true) as Hst by (destruct (Hctl Hp) as [_ H]; rewrite Hd in H; apply H).
  clear Hr Hctl. destruct w as [[ls st sd ru] p c pa re dr wa pn]; simpl in *; subst. by eexists.
Qed.

Definition a_line : bytes := go_bytes "a" ++ [nl].

(** A connection that delivers one line and ends; the pod is still there, so the
    goroutine connects again and asks for the last ten lines, which hold the
    same line. *)
Definition reconnect : list label :=
  [LStart; LTail; LOpen true; LRead a_line None; LTail; LSend; LRead [] (Some EOF); LPod true; LTail;
   LTail; LOpen true; LRead a_line None; LTail; LSend].

Example reconnect_repeats :
  output <$> run reconnect new_world = Some [go_bytes "a"; go_bytes "a"].
Proof. vm_compute. reflexivity. Qed.

Definition reconnected : world := default new_world (run reconnect new_world).

Lemma container_exact_witness :
  exists out, received reconnected ++ lines (rd reconnected) ++
      match at_ reconnected with Sending l _ => [l] | _ => [] end ++ dropped reconnected =
      concat (map stream_lines (past reconnected)) ++ out /\
    out `prefix_of` all_lines (data (cur reconnected)).
Proof. apply (container_exact reconnect). vm_compute. reflexivity. Defined.

(** The goroutine reads, [Stop] closes the channel, the consumer goes on. *)
Definition stopping : world := default new_world (run (reconnect ++ [LStop]) new_world).

Lemma container_stop_waits_witness :
  exists w, run [LRecv; LRecv] stopping = Some w /\ exec LStopReturn w = None.
Proof.
  exists (default new_world (run [LRecv; LRecv] stopping)).
  split; [vm_compute; reflexivity|].
  apply (container_stop_waits [LRecv; LRecv] stopping).
  - split_and!; [|vm_compute; reflexivity..]. exists [].
    split; [vm_compute; reflexivity|apply no_nl_nil].
  - repeat constructor.
  - vm_compute. reflexivity.
  - vm_compute. reflexivity.
Defined.

(** [Start], [Stop] and the return of both goroutine and [Stop]. *)
Definition stopped_run : list label := [LStart; LStop; LTail; LTail; LStopReturn].

Lemma container_restart_panics_witness :
  exists w', run [LStart; LTail; LTail] (default new_world (run stopped_run new_world)) = Some w' /\
    panicked w' = true.
Proof.
  apply (container_restart_panics stopped_run).
  - vm_compute. reflexivity.
  - vm_compute. reflexivity.
  - vm_compute. discriminate.
  - vm_compute. reflexivity.
Defined.

End ContainerReaderProperties.
