(* ===== verification/Readers.v ===== *)
(** * The readers behind the interface

    A [reader.LogReader] in the agents is one of four readers.  The interface
    value is a sum: two implementations of [LogReader] give one on their sum, so
    everything proved about any [LogReader] holds of whichever reader the factory
    built.  [start_reader] is the call [logReader.Start()], dispatched on the
    reader that [ReaderFactory.NewReader] returned. *)
From S2P Require Import Prelude Config ReaderFactory LogReader FileReader ContainerReader ReaderLoop WindowsReader MacosReader.

(** ** Two readers behind one interface *)

Section sum.
Context {W1 W2 : Type} {R1 : LogReader W1} {R2 : LogReader W2}.

#[global] Instance sum_log_reader : LogReader (W1 + W2) := {|
  reader_label := (reader_label (W := W1) + reader_label (W := W2))%type;
  reader_exec l w :=
    match l, w with
    | inl l, inl w => inl <$> reader_exec l w
    | inr l, inr w => inr <$> reader_exec l w
    | _, _ => None
    end;
  queued w := match w with inl w => queued w | inr w => queued w end;
  lines_closed w := match w with inl w => lines_closed w | inr w => lines_closed w end;
  receive w :=
    match w with
    | inl w => '(x, w) ← receive w; Some (x, inl w)
    | inr w => '(x, w) ← receive w; Some (x, inr w)
    end;
  taken w := match w with inl w => taken w | inr w => taken w end;
  stop_call w := match w with inl w => inl <$> stop_call w | inr w => inr <$> stop_call w end;
  stop_done w := match w with inl w => stop_done w | inr w => stop_done w end;
|}.

#[global] Instance sum_log_reader_laws `{!LogReaderLaws W1, !LogReaderLaws W2} :
  LogReaderLaws (W1 + W2).
Proof.
  split; simpl.
  - intros [w|w] x w' E.
    + destruct (receive w) as [[y v]|] eqn:Er; simplify_eq/=. by apply receive_spec.
    + destruct (receive w) as [[y v]|] eqn:Er; simplify_eq/=. by apply receive_spec.
  - intros [l|l] [w|w] w' E; try done.
    + destruct (reader_exec l w) as [v|] eqn:Er; simplify_eq/=. by eapply step_fifo.
    + destruct (reader_exec l w) as [v|] eqn:Er; simplify_eq/=. by eapply step_fifo.
  - intros [w|w] w' E.
    + destruct (stop_call w) as [v|] eqn:Er; simplify_eq/=. by apply stop_keeps.
    + destruct (stop_call w) as [v|] eqn:Er; simplify_eq/=. by apply stop_keeps.
Qed.

(** A client of the interface is a client of the reader behind it. *)
Lemma moves_inl (Q : reader_label (W := W1) + reader_label (W := W2) -> Prop) (w0 : W1) w :
  reader_moves (W := W1 + W2) Q (inl w0) w -> exists v, w = inl v /\ reader_moves (fun l => Q (inl l)) w0 v.
Proof.
  induction 1 as [|u l u' _ (v & -> & Hv) Hl E|u x u' _ (v & -> & Hv) E|u u' _ (v & -> & Hv) E];
    simpl in E || idtac.
  - exists w0. split; [done|constructor].
  - destruct l as [l|l]; [|done]. destruct (reader_exec l v) as [v'|] eqn:Er; simplify_eq/=.
    exists v'. split; [done|]. by eapply moves_step.
  - destruct (receive v) as [[y v']|] eqn:Er; simplify_eq/=. exists v'. split; [done|].
    by eapply moves_receive.
  - destruct (stop_call v) as [v'|] eqn:Er; simplify_eq/=. exists v'. split; [done|]. by eapply moves_stop.
Qed.

Lemma moves_inr (Q : reader_label (W := W1) + reader_label (W := W2) -> Prop) (w0 : W2) w :
  reader_moves (W := W1 + W2) Q (inr w0) w -> exists v, w = inr v /\ reader_moves (fun l => Q (inr l)) w0 v.
Proof.
  induction 1 as [|u l u' _ (v & -> & Hv) Hl E|u x u' _ (v & -> & Hv) E|u u' _ (v & -> & Hv) E];
    simpl in E || idtac.
  - exists w0. split; [done|constructor].
  - destruct l as [l|l]; [done|]. destruct (reader_exec l v) as [v'|] eqn:Er; simplify_eq/=.
    exists v'. split; [done|]. by eapply moves_step.
  - destruct (receive v) as [[y v']|] eqn:Er; simplify_eq/=. exists v'. split; [done|].
    by eapply moves_receive.
  - destruct (stop_call v) as [v'|] eqn:Er; simplify_eq/=. exists v'. split; [done|]. by eapply moves_stop.
Qed.

End sum.

(** ** The four *)

Abbreviation windows_world := (ReaderLoop.world WindowsReader.body).
Abbreviation macos_world := (ReaderLoop.world MacosReader.body).
Definition any_world : Type :=
  (FileReader.world + (ContainerReader.world + (windows_world + macos_world)))%type.

#[global] Instance any_log_reader : LogReader any_world := sum_log_reader.
#[global] Instance any_log_reader_laws : LogReaderLaws any_world := sum_log_reader_laws.

Definition AFile (w : FileReader.world) : any_world := inl w.
Definition AContainer (w : ContainerReader.world) : any_world := inr (inl w).
Definition AWindows (w : windows_world) : any_world := inr (inr (inl w)).
Definition AMacOS (w : macos_world) : any_world := inr (inr (inr w)).

(** What the readers meet when they start: the file system seen through a path,
    the faults of opening and seeking, the answers to [cmd.StdoutPipe] and
    [cmd.Start]. *)
Record surroundings := mkSurroundings {
  file_system : string -> fsys;
  open_faults : faults;
  log_pipe : result unit;
  log_launch : result unit;
}.

Section start.
Context {K : kube}.

(** A newly constructed reader, in its surroundings. *)
Definition fresh_reader (E : surroundings) (r : log_reader K) : any_world :=
  match r with
  | FileLogReader path => AFile (FileReaderProperties.new_world (file_system E path))
  | ContainerLogReader _ _ _ _ => AContainer ContainerReader.new_world
  | WindowsLogReader _ _ => AWindows ReaderLoop.new_world
  | MacOSLogReader _ => AMacOS ReaderLoop.new_world
  end.

(** [logReader.Start()] of a newly constructed reader. *)
Definition start_reader (E : surroundings) (r : log_reader K) : result any_world :=
  match r with
  | FileLogReader path =>
      let w := FileReaderProperties.new_world (file_system E path) in
      rd ← FileReader.Start (open_faults E) (FileReader.fs_ w) (FileReader.rd w);
      Ok (AFile (FileReader.mkWorld (FileReader.fs_ w) rd FileReader.AtSelect [] false false))
  | ContainerLogReader _ _ _ _ =>
      let w := ContainerReader.new_world in
      Ok (AContainer (default w (ContainerReader.exec ContainerReader.LStart w)))
  | WindowsLogReader name level =>
      let '(w, err) := WindowsReader.Start (WindowsReader.mkReader name level) ReaderLoop.new_world in
      _ ← err; Ok (AWindows w)
  | MacOSLogReader query =>
      let '(w, err) := MacosReader.Start query (log_pipe E) (log_launch E) ReaderLoop.new_world in
      _ ← err; Ok (AMacOS w)
  end.

(** Whether [Start] of a reader succeeds. *)
Definition can_start (E : surroundings) (r : log_reader K) : bool :=
  match r with
  | FileLogReader path =>
      negb (open_fails (open_faults E)) && negb (seek_fails (open_faults E)) &&
      bool_decide (is_Some (at_path (file_system E path)))
  | MacOSLogReader _ => is_ok (log_pipe E) && is_ok (log_launch E)
  | _ => true
  end.

(** A started reader has delivered nothing yet and is open. *)
Lemma start_reader_fresh E r w :
  start_reader E r = Ok w -> taken w = [] /\ queued w = [] /\ lines_closed w = false.
Proof.
  destruct r as [path|ns pod ctr cs|name level|query]; simpl.
  - destruct (FileReader.Start _ _ _) as [rd| |] eqn:E1; simpl; try done. intros [= <-].
    unfold FileReader.Start in E1. simpl in E1. destruct (os_Open _ _); simpl in E1; try done.
    destruct (file_Seek _ _ _); simpl in E1; try done. by injection E1 as <-.
  - by intros [= <-].
  - by intros [= <-].
  - unfold MacosReader.Start, ReaderLoop.Start. simpl.
    destruct (log_pipe E) as [[]| |]; simpl; try done.
    destruct (log_launch E) as [[]| |]; simpl; try done. by intros [= <-].
Qed.

Lemma start_reader_ok E r : is_ok (start_reader E r) = can_start E r.
Proof.
  destruct r as [path|ns pod ctr cs|name level|query]; simpl; try done.
  - unfold FileReader.Start, os_Open, file_Seek. simpl.
    destruct (open_fails _); simpl; [done|]. destruct (at_path _) as [i|] eqn:Ep; simpl.
    + rewrite (proj2 (Z.ltb_ge _ 0)) by apply zlen_nonneg. rewrite orb_false_r.
      destruct (seek_fails _); simpl; [done|]. done.
    + by rewrite andb_false_r.
  - unfold MacosReader.Start, ReaderLoop.Start. simpl.
    destruct (log_pipe E) as [[]| |]; simpl; try done.
    destruct (log_launch E) as [[]| |]; simpl; done.
Qed.

End start.
