(* ===== verification/KubeUtils.v ===== *)
(** * Kubernetes utilities

    Models [src/pkg/utils/k8s_utils.go].  The client library is the parameter
    [kube_client]: how a configuration is found, what the API answers, and a log
    stream as the results of its successive reads. *)
From S2P Require Import Prelude GoStrings Host ReaderFactory.

(** [corev1.PodLogOptions] *)
Record PodLogOptions := mkPodLogOptions { plo_Container : string; TailLines : option Z }.

(** The result of one [Read]: bytes, and an error ([EOF] at the end). *)
Abbreviation read_result := (bytes * option error)%type.

Record kube_client (K : kube) := mkKubeClient {
  BuildConfigFromFlags : string -> result (rest_config K);
  Stat : string -> result unit;
  GetLogs : string -> string -> PodLogOptions -> result (list read_result);
  ListPods : string -> string -> result (list string);
}.
Arguments BuildConfigFromFlags {K}.
Arguments Stat {K}.
Arguments GetLogs {K}.
Arguments ListPods {K}.

Section utils.
Context {K : kube} (A : kube_client K) (h : host).

(** The path of the kubeconfig outside a cluster. *)
Definition kubeconfig_path : string :=
  let env := Getenv h "KUBECONFIG" in
  if negb (String.eqb env "") then env else path_Join h [Getenv h "HOME"; ".kube"; "config"].

(** [GetKubernetesClient] *)
Definition GetKubernetesClient : result (clientset K) :=
  match InClusterConfig K with
  | Ok config => NewForConfig K config
  | Err _ => config ← BuildConfigFromFlags A kubeconfig_path; NewForConfig K config
  | Panic p => Panic p
  end.

(** [IsRunningInKubernetes] *)
Definition IsRunningInKubernetes : bool :=
  is_ok (Stat A "/var/run/secrets/kubernetes.io/serviceaccount/token").

(** [io.Copy] into a buffer: until the end of the stream or an error.  A stream
    that has no further read to offer is at its end. *)
Fixpoint io_Copy (buf : bytes) (reads : list read_result) : result bytes :=
  match reads with
  | [] => Ok buf
  | (b, None) :: reads => io_Copy (buf ++ b) reads
  | (b, Some EOF) :: _ => Ok (buf ++ b)
  | (_, Some e) :: _ => Err e
  end.

Definition log_options (containerName : string) (tailLines : Z) : PodLogOptions :=
  mkPodLogOptions containerName (if (0 <? tailLines)%Z then Some tailLines else None).

(** [GetPodLogs] *)
Definition GetPodLogs (namespace podName containerName : string) (tailLines : Z) : result string :=
  _ ← fail_if (String.eqb namespace "" || String.eqb podName "")
        (Errorf "namespace and pod name must be specified");
  podLogs ← GetLogs A namespace podName (log_options containerName tailLines);
  buf ← io_Copy [] podLogs;
  Ok (go_string buf).

(** [ListNamespacedPods] *)
Definition ListNamespacedPods (namespace labelSelector : string) : result (list string) :=
  _ ← fail_if (String.eqb namespace "") (Errorf "namespace must be specified");
  ListPods A namespace labelSelector.

End utils.

(** A pod as far as its containers go. *)
Record pod_container := mkPodContainer { pc_Name : string; pc_Image : string }.

(** [GetPodContainers]: the names of the containers, none for a nil pod. *)
Definition GetPodContainers (pod : option (list pod_container)) : list string :=
  match pod with None => [] | Some containers => map pc_Name containers end.

Module KubeUtilsProperties.

(** The stream of a log, and how it ends: cleanly or with an error. *)
Definition stream_of (reads : list read_result) (data : bytes) (err : option error) : Prop :=
  exists chunks last, reads = map (fun b => (b, None)) chunks ++ [(last, Some (default EOF err))] /\
    data = concat chunks ++ match err with None => last | Some _ => [] end.

Lemma io_Copy_chunks buf chunks rest :
  io_Copy buf (map (fun b => (b, None)) chunks ++ rest) = io_Copy (buf ++ concat chunks) rest.
Proof.
  revert buf. induction chunks as [|b chunks IH]; intros buf; simpl; [by rewrite app_nil_r|].
  by rewrite IH, <- (assoc_L (++)).
Qed.

(** [GetPodLogs] returns the whole log, however the stream is cut into reads, or
    the error that ended it, in which case what was read is not returned; it
    asks for the last lines only when a positive number is given, and asks for
    nothing without a namespace and a pod. *)
Theorem GetPodLogs_spec {K : kube} (A : kube_client K) namespace pod container n :
  (namespace = "" \/ pod = "" -> is_ok (GetPodLogs A namespace pod container n) = false) /\
  forall reads data err, namespace <> "" -> pod <> "" -> err <> Some EOF ->
    GetLogs A namespace pod
      (mkPodLogOptions container (if decide (0 < n)%Z then Some n else None)) = Ok reads ->
    stream_of reads data err ->
    GetPodLogs A namespace pod container n =
      match err with None => Ok (go_string data) | Some e => Err e end.
Proof.
  unfold GetPodLogs, log_options. split.
  { intros [-> | ->]; simpl; [done|]. by rewrite orb_true_r. }
  intros reads data err Hns Hp He Hlog (chunks & last & -> & ->).
  rewrite (proj2 (String.eqb_neq _ _) Hns), (proj2 (String.eqb_neq _ _) Hp). simpl.
  replace (if (0 <? n)%Z then Some n else None) with (if decide (0 < n)%Z then Some n else None).
  - rewrite Hlog. simpl. rewrite io_Copy_chunks. simpl. destruct err as [e|]; simpl; [|done].
    by destruct e.
  - destruct (Z.ltb_spec 0 n), (decide (0 < n)%Z); done || lia.
Qed.

(** Outside a cluster the client is built from [$KUBECONFIG], or from the file
    in the home directory when that is not set; inside, neither is looked at. *)
Theorem GetKubernetesClient_spec {K : kube} (A : kube_client K) h :
  (forall rc, InClusterConfig K = Ok rc -> GetKubernetesClient A h = NewForConfig K rc) /\
  (forall e, InClusterConfig K = Err e ->
     GetKubernetesClient A h =
       (rc ← BuildConfigFromFlags A
          (if decide (Getenv h "KUBECONFIG" = "") then path_Join h [Getenv h "HOME"; ".kube"; "config"]
           else Getenv h "KUBECONFIG");
        NewForConfig K rc)).
Proof.
  unfold GetKubernetesClient, kubeconfig_path. split; [by intros rc ->|]. intros e ->.
  destruct (String.eqb_spec (Getenv h "KUBECONFIG") ""), (decide (Getenv h "KUBECONFIG" = "")); done.
Qed.

Definition demo_client : kube_client ReaderFactoryProperties.in_cluster :=
  mkKubeClient ReaderFactoryProperties.in_cluster (fun _ => Ok tt) (fun _ => Ok tt)
    (fun _ _ _ => Ok [(go_bytes "a", None); (go_bytes "b", Some EOF)]) (fun _ _ => Ok []).

Lemma GetPodLogs_spec_witness : GetPodLogs demo_client "ns" "pod" "" 0 = Ok "ab".
Proof.
  apply (proj2 (GetPodLogs_spec demo_client "ns" "pod" "" 0)
    [(go_bytes "a", None); (go_bytes "b", Some EOF)] (go_bytes "ab") None);
    [discriminate|discriminate|discriminate|reflexivity|].
  exists [go_bytes "a"], (go_bytes "b"). split; reflexivity.
Defined.

End KubeUtilsProperties.
