(* ===== verification/Health.v ===== *)
(** * The health server

    Models [src/pkg/http/health.go]: the server's state, its constructors, the
    authentication wrapper, the three handlers, readiness, and starting and
    stopping.  Which server an agent builds ([setupHealthServer] of
    [src/cmd/agent/main.go], the same lines of [src/cmd/agent.go]) is here too.
    [net/http]'s listener is not modelled: a request that reaches the mux is an
    argument of [serve]. *)
From S2P Require Import Prelude Lines Utf8 Http Json GoStrings GoCodec MapRange Host Config Auth.

(** [http.Server] as far as the code touches it. *)
Record http_server := mkServer {
  Addr : string;
  has_TLSConfig : bool;
  shut_down : bool;
}.

Record HealthServer (O : oauth2) := mkHealth {
  listenAddr : string;
  server : option http_server;
  ready : bool;
  health_auth : option (AuthProvider O);
  useTLS : bool;
  certFile : string;
  keyFile : string;
}.
Arguments mkHealth {O}.
Arguments listenAddr {O}.
Arguments server {O}.
Arguments ready {O}.
Arguments health_auth {O}.
Arguments useTLS {O}.
Arguments certFile {O}.
Arguments keyFile {O}.

(** [HealthStatus] without the optional [Info], which no handler sets. *)
Record HealthStatus := mkStatus { Status : string; Timestamp : string; Version : string }.

Section health.
Context {O : oauth2}.
Implicit Types (s : HealthServer O).

Definition NewHealthServer (addr : string) : HealthServer O :=
  mkHealth addr None false None false "" "".

Definition NewSecureHealthServer (h : host) (addr : string) (sec : SecurityConfig.t)
    : result (HealthServer O) :=
  let tls := SecurityConfig.TLS sec in
  let on := TLSConfig.Enabled tls in
  auth ← (if negb (bool_decide (AuthConfig.Type_ (SecurityConfig.Auth sec) = "none"))
          then NewAuthProvider h (SecurityConfig.Auth sec) else Ok None);
  Ok (mkHealth addr None false auth on
        (if on then TLSConfig.CertFile tls else "") (if on then TLSConfig.KeyFile tls else "")).

(** ** Responses *)

(** [http.Error] *)
Definition http_Error (msg : string) (code : Z) : Response :=
  mkResponse code
    (header_Set (header_Set ∅ "Content-Type" "text/plain; charset=utf-8")
       "X-Content-Type-Options" "nosniff")
    (go_bytes msg ++ [nl]).

Definition json_field (name value : string) : bytes :=
  json_string (go_bytes name) ++ ":"%char :: json_string (go_bytes value).

(** [json.NewEncoder(w).Encode(status)] *)
Definition encode_status (st : HealthStatus) : bytes :=
  "{"%char :: json_field "status" (Status st) ++ ","%char ::
  json_field "timestamp" (Timestamp st) ++ ","%char ::
  json_field "version" (Version st) ++ ["}"%char; nl].

Definition json_response (code : Z) (st : HealthStatus) : Response :=
  mkResponse code (header_Set ∅ "Content-Type" "application/json") (encode_status st).

(** ** Handlers, at the time [now] *)

Definition IsReady s : bool := ready s.

Definition healthHandler (now : string) s (r : Request) : Response :=
  json_response StatusOK (mkStatus "ok" now "1.0.0").

Definition readyHandler (now : string) s (r : Request) : Response :=
  if IsReady s then json_response StatusOK (mkStatus "ready" now "1.0.0")
  else json_response StatusServiceUnavailable (mkStatus "not ready" now "1.0.0").

Definition metricsHandler s (r : Request) : Response :=
  mkResponse StatusOK (header_Set ∅ "Content-Type" "text/plain")
    (go_bytes "# HELP tailpost_up Whether the Tailpost agent is running" ++ [nl] ++
     go_bytes "# TYPE tailpost_up gauge" ++ [nl] ++ go_bytes "tailpost_up 1" ++ [nl]).

(** [withAuth]; [order] is the order in which a header map is visited. *)
Definition withAuth (order : map_order string) s (handler : Request -> Response) (r : Request)
    : Response :=
  match health_auth s with
  | None => handler r
  | Some p =>
      match Authenticate order p r with
      | Ok true => handler r
      | Ok false => http_Error "Unauthorized" StatusUnauthorized
      | _ => http_Error "Authentication error" StatusInternalServerError
      end
  end.

(** The routes [Start] registers.  [None]: the mux answers for itself. *)
Definition serve (order : map_order string) (now path : string) s (r : Request) : option Response :=
  if bool_decide (path = "/health") then Some (withAuth order s (healthHandler now s) r)
  else if bool_decide (path = "/ready") then Some (withAuth order s (readyHandler now s) r)
  else if bool_decide (path = "/metrics") then Some (withAuth order s (metricsHandler s) r)
  else None.

(** ** Life cycle *)

Definition with_server (srv : option http_server) s : HealthServer O :=
  mkHealth (listenAddr s) srv (ready s) (health_auth s) (useTLS s) (certFile s) (keyFile s).

(** [Start] replaces the server and always succeeds; listening happens in a
    goroutine whose error is only logged. *)
Definition Start s : result (HealthServer O) :=
  Ok (with_server (Some (mkServer (listenAddr s) false false)) s).

(** [Stop]; [shutdown] is the answer of [http.Server.Shutdown]. *)
Definition Stop (shutdown : result unit) s : result (HealthServer O) :=
  match server s with
  | Some srv =>
      _ ← shutdown;
      Ok (with_server (Some (mkServer (Addr srv) (has_TLSConfig srv) true)) s)
  | None => Ok s
  end.

Definition SetReady (b : bool) s : HealthServer O :=
  mkHealth (listenAddr s) (server s) b (health_auth s) (useTLS s) (certFile s) (keyFile s).

Definition SetTLSConfig (tls : bool) s : HealthServer O :=
  match server s with
  | Some srv => if tls then with_server (Some (mkServer (Addr srv) true (shut_down srv))) s else s
  | None => s
  end.

(** The agent's choice of server, started. *)
Definition setupHealthServer (h : host) (addr : string) (cfg : Config.t) : result (HealthServer O) :=
  let sec := Config.Security cfg in
  s ← (if TLSConfig.Enabled (SecurityConfig.TLS sec)
          || negb (bool_decide (AuthConfig.Type_ (SecurityConfig.Auth sec) = "none"))
       then NewSecureHealthServer h addr sec
       else Ok (NewHealthServer addr));
  Start s.

(** ** Lemmas *)

Lemma setup_auth h addr cfg s :
  setupHealthServer h addr cfg = Ok s ->
  ready s = false /\ server s <> None /\
  (if bool_decide (AuthConfig.Type_ (SecurityConfig.Auth (Config.Security cfg)) = "none")
   then health_auth s = None
   else NewAuthProvider h (SecurityConfig.Auth (Config.Security cfg)) = Ok (health_auth s)) /\
  useTLS s = TLSConfig.Enabled (SecurityConfig.TLS (Config.Security cfg)).
Proof.
  unfold setupHealthServer, NewSecureHealthServer, Start.
  destruct (TLSConfig.Enabled _) eqn:Et; simpl; case_bool_decide as Ea; simpl.
  - intros [= <-]. done.
  - destruct (NewAuthProvider _ _); simpl; try done. by intros [= <-].
  - intros [= <-]. done.
  - destruct (NewAuthProvider _ _); simpl; try done. by intros [= <-].
Qed.

End health.

(** What the configuration admits, in terms of the configuration. *)
Definition admitted (h : host) (c : AuthConfig.t) (r : Request) : Prop :=
  let auth := header_Get (req_header r) "Authorization" in
  let ty := AuthConfig.Type_ c in
  (ty = "none") \/
  (ty = "basic" /\ (":"%char ∉ go_bytes (AuthConfig.Username c)) /\
     exists enc, auth = "Basic " +:+ enc /\
       b64_DecodeString enc =
       Ok (go_bytes (basic_credentials (AuthConfig.Username c) (AuthConfig.Password c)))) \/
  (ty = "token" /\ exists data, ReadFile h (AuthConfig.TokenFile c) = Ok data /\
     auth = "Bearer " +:+ TrimSpace (go_string data)) \/
  (ty = "header" /\ forall k v, AuthConfig.Headers c !! k = Some v -> header_Get (req_header r) k = v).

Lemma provider_admits {O : oauth2} h c (p : AuthProvider O) r :
  NewAuthProvider h c = Ok (Some p) -> accepts p r <-> admitted h c r.
Proof.
  unfold NewAuthProvider, NewTokenAuthProvider, admitted.
  generalize (AuthConfig.Type_ c) as ty. intros ty.
  repeat case_bool_decide; subst; simpl; try done.
  - intros [= <-]. simpl. naive_solver.
  - destruct (ReadFile h (AuthConfig.TokenFile c)) as [data| |] eqn:E; simpl; try done.
    intros [= <-]. simpl. naive_solver.
  - intros [= <-]. simpl. naive_solver.
  - intros [= <-]. simpl. naive_solver.
Qed.

(** A response of the wrapper is the handler's or a refusal. *)
Lemma withAuth_cases {O : oauth2} order (s : HealthServer O) handler r :
  (withAuth order s handler r = handler r /\ forall p, health_auth s = Some p -> accepts p r) \/
  (exists p, health_auth s = Some p /\ ~ accepts p r /\
     (withAuth order s handler r = http_Error "Unauthorized" StatusUnauthorized \/
      withAuth order s handler r = http_Error "Authentication error" StatusInternalServerError)).
Proof.
  unfold withAuth. destruct (health_auth s) as [p|]; [|by left].
  destruct (Authenticate order p r) as [[]| |] eqn:E.
  - left. split; [done|]. intros q [= <-]. by apply (Authenticate_true order).
  - right. exists p. rewrite <- (Authenticate_true order), E. naive_solver.
  - right. exists p. rewrite <- (Authenticate_true order), E. naive_solver.
  - right. exists p. rewrite <- (Authenticate_true order), E. naive_solver.
Qed.

(** What an admitted request is answered, path by path. *)
Inductive answered (now : string) (is_ready : bool) : string -> Response -> Prop :=
  | answered_health :
      answered now is_ready "/health" (json_response 200 (mkStatus "ok" now "1.0.0"))
  | answered_ready : is_ready = true ->
      answered now is_ready "/ready" (json_response 200 (mkStatus "ready" now "1.0.0"))
  | answered_not_ready : is_ready = false ->
      answered now is_ready "/ready" (json_response 503 (mkStatus "not ready" now "1.0.0"))
  | answered_metrics resp :
      resp_status resp = 200%Z -> resp_body resp = unlines (map go_bytes
        ["# HELP tailpost_up Whether the Tailpost agent is running";
         "# TYPE tailpost_up gauge"; "tailpost_up 1"]) ->
      answered now is_ready "/metrics" resp.

(** A request to one of the three paths is refused or answered. *)
Lemma setup_serves {O : oauth2} h addr cfg (s0 : HealthServer O) order now path b r resp :
  setupHealthServer h addr cfg = Ok s0 -> serve order now path (SetReady b s0) r = Some resp ->
  let adm := admitted h (SecurityConfig.Auth (Config.Security cfg)) r in
  adm /\ answered now b path resp \/
  ~ adm /\ (resp = http_Error "Unauthorized" StatusUnauthorized \/
            resp = http_Error "Authentication error" StatusInternalServerError).
Proof.
  intros (_ & _ & Ha & _)%setup_auth Hs adm.
  assert (forall handler, withAuth order (SetReady b s0) handler r = handler r /\ adm \/
    ~ adm /\ (withAuth order (SetReady b s0) handler r = http_Error "Unauthorized" StatusUnauthorized \/
      withAuth order (SetReady b s0) handler r
      = http_Error "Authentication error" StatusInternalServerError)) as Hw.
  { intros handler. case_bool_decide as Et.
    - left. unfold withAuth. simpl. rewrite Ha. split; [done|]. by left.
    - destruct (health_auth s0) as [p|] eqn:Ep.
      + pose proof (provider_admits h _ p r Ha) as Hp. subst adm.
        destruct (withAuth_cases order (SetReady b s0) handler r) as [[E Hacc]|(q & Eq & Hn & E)].
        * left. split; [done|]. apply Hp, Hacc. done.
        * right. simpl in Eq. rewrite Ep in Eq. injection Eq as <-. naive_solver.
      + unfold NewAuthProvider in Ha. repeat case_bool_decide; try done. by go_inv. }
  clear Ha. unfold serve in Hs. repeat case_bool_decide; try done; injection Hs as <-; subst path.
  - destruct (Hw (healthHandler now (SetReady b s0))) as [[-> ?]|?]; [left|by right].
    split; [done|constructor].
  - destruct (Hw (readyHandler now (SetReady b s0))) as [[-> ?]|?]; [left|by right].
    split; [done|]. unfold readyHandler, IsReady. simpl. destruct b; by constructor.
  - destruct (Hw (metricsHandler (SetReady b s0))) as [[-> ?]|?]; [left|by right].
    split; [done|]. by constructor.
Qed.

Module HealthProperties.

(** C31. Who gets which answer from the agent's health server, on its three paths.  A
    request the configuration admits gets the answer of its path: [/health] and
    [/metrics] status 200, [/ready] status 200 when the agent has been marked
    ready and 503 with a status of its own otherwise.  A request it does not
    admit gets one of two fixed refusals, which depend on neither the path nor
    the agent's state.  So the status is 200 exactly for an admitted request, and
    on [/ready] only while the agent is ready. *)
Theorem health_access {O : oauth2} h addr cfg s0 order now path b r resp :
  setupHealthServer (O := O) h addr cfg = Ok s0 ->
  serve order now path (SetReady b s0) r = Some resp ->
  let adm := admitted h (SecurityConfig.Auth (Config.Security cfg)) r in
  (adm -> answered now b path resp) /\
  (~ adm -> resp = http_Error "Unauthorized" StatusUnauthorized \/
            resp = http_Error "Authentication error" StatusInternalServerError) /\
  (resp_status resp = StatusOK <-> adm /\ (path = "/ready" -> b = true)).
Proof.
  intros Hs Hr adm. destruct (setup_serves h addr cfg s0 order now path b r resp Hs Hr) as [[Ha H]|[Ha H]].
  - split; [done|]. split; [done|]. destruct H; simpl; naive_solver.
  - split; [done|]. split; [done|]. destruct H as [-> | ->]; split; done || by intros [? _].
Qed.

(** With OAuth2 authentication, which loading accepts, the health server
    answers every probe with 500: a Kubernetes liveness probe can never
    succeed. *)
Theorem oauth2_health_always_fails {O : oauth2} h addr cfg s order now path r resp :
  setupHealthServer (O := O) h addr cfg = Ok s ->
  AuthConfig.Type_ (SecurityConfig.Auth (Config.Security cfg)) = "oauth2" ->
  serve order now path s r = Some resp -> resp_status resp = StatusInternalServerError.
Proof.
  intros (_ & _ & Ha & _)%setup_auth Ht Hs. unfold NewAuthProvider in Ha. rewrite Ht in Ha.
  simpl in Ha. injection Ha as Ha. unfold serve, withAuth in Hs. rewrite <- Ha in Hs. simpl in Hs.
  by repeat case_bool_decide; simplify_eq.
Qed.

(** The agent of [cmd/agent/main.go] never marks itself ready: the server it
    sets up answers [/ready] with a status other than 200, whoever asks. *)
Theorem main_agent_never_ready {O : oauth2} h addr cfg s order now r resp :
  setupHealthServer (O := O) h addr cfg = Ok s ->
  serve order now "/ready" s r = Some resp -> resp_status resp <> StatusOK.
Proof.
  intros (Hr & _)%setup_auth. unfold serve; simpl. intros [= <-].
  destruct (withAuth_cases order s (readyHandler now s) r) as [[-> _]|(p & _ & _ & [-> | ->])]; try done.
  unfold readyHandler, IsReady. by rewrite Hr.
Qed.

Definition auth_config (a : AuthConfig.t) : Config.t :=
  let c := ConfigProperties.raw_example in
  Config.mk (Config.LogPath c) (Config.ServerURL c) 10 Second "file" "" "" "" ∅ ∅ "" "" ""
    (Config.Telemetry c)
    (SecurityConfig.mk (SecurityConfig.TLS DefaultSecurityConfig) a
       (SecurityConfig.Encryption DefaultSecurityConfig)).
Definition token_auth : AuthConfig.t := AuthConfig.mk "token" "" "" "tok" "" "" "" [] ∅.
Definition token_host : host := unix_host "linux" ∅ {[ "tok" := go_bytes "s3cret" ++ [nl] ]}.
Definition probe (v : string) : Request :=
  set_header AuthProperties.blank_request "authorization" v.

Definition set_up (a : AuthConfig.t) : HealthServer no_oauth2 :=
  match setupHealthServer token_host ":8080" (auth_config a) with
  | Ok s => s | _ => NewHealthServer "" end.

Lemma health_access_witness :
  exists resp, setupHealthServer token_host ":8080" (auth_config token_auth) = Ok (set_up token_auth) /\
    serve canonical_order "now" "/ready" (SetReady true (set_up token_auth)) (probe "Bearer s3cret")
      = Some resp /\
    resp_status resp = StatusOK.
Proof.
  eexists. split; [reflexivity|]. split; [reflexivity|].
  apply (health_access (O := no_oauth2) token_host ":8080" (auth_config token_auth) (set_up token_auth)
    canonical_order "now" "/ready" true (probe "Bearer s3cret")); [reflexivity|reflexivity|].
  split; [|reflexivity]. right. right. left. split; [reflexivity|].
  exists (go_bytes "s3cret" ++ [nl]). split; vm_compute; reflexivity.
Defined.

Definition oauth2_auth : AuthConfig.t := AuthConfig.mk "oauth2" "" "" "" "id" "secret" "http://t" [] ∅.

Lemma oauth2_health_always_fails_witness :
  exists resp, setupHealthServer token_host ":8080" (auth_config oauth2_auth) = Ok (set_up oauth2_auth) /\
    serve canonical_order "now" "/health" (set_up oauth2_auth) (probe "x") = Some resp /\
    resp_status resp = StatusInternalServerError.
Proof.
  eexists. split; [reflexivity|]. split; [reflexivity|].
  apply (oauth2_health_always_fails (O := no_oauth2) token_host ":8080" (auth_config oauth2_auth)
    (set_up oauth2_auth)    canonical_order "now" "/health" (probe "x")); reflexivity.
Defined.

Lemma main_agent_never_ready_witness :
  exists resp, setupHealthServer token_host ":8080" (auth_config token_auth) = Ok (set_up token_auth) /\
    serve canonical_order "now" "/ready" (set_up token_auth) (probe "Bearer s3cret") = Some resp /\
    resp_status resp <> StatusOK.
Proof.
  eexists. split; [reflexivity|]. split; [reflexivity|].
  apply (main_agent_never_ready (O := no_oauth2) token_host ":8080" (auth_config token_auth)
    (set_up token_auth)    canonical_order "now" (probe "Bearer s3cret")); reflexivity.
Defined.

End HealthProperties.
