(* ===== verification/Agent.v ===== *)
(** * The agent

    Models what the two agent programs do once their components are built:
    the goroutine that forwards lines from the reader to the sender
    ([processLogs] of [src/cmd/agent/main.go], the anonymous goroutine of
    [src/cmd/agent.go]) and the main goroutine, which waits for a signal and
    shuts down.  The reader is any implementation of the interface
    [LogReader]; the sender is the system of [SenderSystem]. *)
From S2P Require Import Prelude Lines MapRange Http Host Auth Tls Encryption Slices Sender SenderSystem LogReader FileReader.

(** Where the forwarding goroutine is: in its [select]; holding a line it has
    received; done. *)
Inductive proc_pc := PSelect | PHolding (line : bytes) | PDone.

#[global] Instance proc_pc_eq_dec : EqDecision proc_pc.
Proof. solve_decision. Defined.

(** What the main goroutine still has to do. *)
Inductive action :=
| WaitSignal            (* sig := <-sigCh *)
| Cancel                (* cancel() *)
| SetNotReady           (* healthServer.SetReady(false) *)
| StopHealth            (* healthServer.Stop() *)
| StopSender            (* httpSender.Stop(), up to its wait *)
| AwaitSender           (* the wait of httpSender.Stop() *)
| StopReader            (* logReader.Stop(), up to its wait *)
| AwaitReader           (* the wait of logReader.Stop() *)
| AwaitProcessing (timeout : bool).  (* <-processingDone, or the timed select *)

#[global] Instance action_eq_dec : EqDecision action.
Proof. solve_decision. Defined.

(** [src/cmd/agent.go], lines 413-452. *)
Definition agent_plan : list action :=
  [WaitSignal; Cancel; SetNotReady; StopHealth; StopSender; AwaitSender; StopReader; AwaitReader;
   AwaitProcessing true].

(** [handleSignals] of [src/cmd/agent/main.go]. *)
Definition main_plan : list action :=
  [WaitSignal; Cancel; StopReader; AwaitReader; StopSender; AwaitSender; StopHealth;
   AwaitProcessing false].

Record agent (W : Type) (O : oauth2) (P : pki) := mkAgent {
  rd_ : W;
  sys_ : system O P;
  proc : proc_pc;
  cancelled : bool;
  health_ready : bool;
  plan : list action;   (* empty: the process has exited *)
}.
Arguments mkAgent {W O P}.
Arguments rd_ {W O P}.
Arguments sys_ {W O P}.
Arguments proc {W O P}.
Arguments cancelled {W O P}.
Arguments health_ready {W O P}.
Arguments plan {W O P}.

(** The steps of the sender that its own goroutines take. *)
Definition sender_internal {P} (l : label P) : bool :=
  match l with
  | LTick _ | LLoopStop _ | LDeferFlush _ | LClose _ | LDeliver _ _ _ _ => true
  | LSend _ _ | LStart | LStop | LStopReturn _ => false
  end.

Section agent.
Context {W : Type} {RW : LogReader W} {O : oauth2} {P : pki} (grow : nat -> nat).
(** The context the forwarding goroutine sends with. *)
Context (ctx : context).
Abbreviation agent := (agent W O P).

Inductive agent_label :=
| AReader (l : reader_label)       (* the reader, or its environment *)
| ASender (l : label P)            (* a goroutine of the sender *)
| AReceive                         (* case line := <-linesCh *)
| AForward                         (* SendWithContext(ctx, line) *)
| ACtxDone                         (* case <-ctx.Done() *)
| AClosed                          (* case line, ok := <-linesCh with !ok *)
| AMain (timed_out : bool).        (* the main goroutine *)

Definition with_reader (a : agent) (w : W) : agent :=
  mkAgent w (sys_ a) (proc a) (cancelled a) (health_ready a) (plan a).
Definition with_sender (a : agent) (y : system O P) : agent :=
  mkAgent (rd_ a) y (proc a) (cancelled a) (health_ready a) (plan a).
Definition with_plan (a : agent) (p : list action) : agent :=
  mkAgent (rd_ a) (sys_ a) (proc a) (cancelled a) (health_ready a) p.

(** The last call of the sender's [Stop] has returned. *)
Definition sender_stopped (y : system O P) : option (system O P) :=
  let j := pred (length (stops y)) in
  match stops y !! j with
  | Some (mkStop Waiting _) => exec grow (LStopReturn j) y
  | Some _ => Some y
  | None => None
  end.

(** One action of the main goroutine; [None] while it is blocked. *)
Definition main_step (timed_out : bool) (act : action) (a : agent) : option agent :=
  match act with
  | WaitSignal => Some a
  | Cancel => Some (mkAgent (rd_ a) (sys_ a) (proc a) true (health_ready a) (plan a))
  | SetNotReady => Some (mkAgent (rd_ a) (sys_ a) (proc a) (cancelled a) false (plan a))
  | StopHealth => Some a
  | StopSender => y ← exec grow LStop (sys_ a); Some (with_sender a y)
  | AwaitSender => y ← sender_stopped (sys_ a); Some (with_sender a y)
  | StopReader => w ← stop_call (rd_ a); Some (with_reader a w)
  | AwaitReader => if stop_done (rd_ a) then Some a else None
  | AwaitProcessing t =>
      if bool_decide (proc a = PDone) || (t && timed_out) then Some a else None
  end.

Definition agent_exec (l : agent_label) (a : agent) : option agent :=
  match plan a with
  | [] => None                                   (* the process has exited *)
  | act :: rest =>
      match l with
      | AReader l => w ← reader_exec l (rd_ a); Some (with_reader a w)
      | ASender l =>
          if sender_internal l then y ← exec grow l (sys_ a); Some (with_sender a y) else None
      | AReceive =>
          if bool_decide (proc a = PSelect) then
            '(x, w) ← receive (rd_ a);
            Some (mkAgent w (sys_ a) (PHolding x) (cancelled a) (health_ready a) (plan a))
          else None
      | AForward =>
          match proc a with
          | PHolding x =>
              y ← exec grow (LSend ctx x) (sys_ a);
              Some (mkAgent (rd_ a) y PSelect (cancelled a) (health_ready a) (plan a))
          | _ => None
          end
      | ACtxDone =>
          if bool_decide (proc a = PSelect) && cancelled a then
            Some (mkAgent (rd_ a) (sys_ a) PDone (cancelled a) (health_ready a) (plan a))
          else None
      | AClosed =>
          if bool_decide (proc a = PSelect) && lines_closed (rd_ a)
             && bool_decide (queued (rd_ a) = []) then
            Some (mkAgent (rd_ a) (sys_ a) PDone (cancelled a) (health_ready a) (plan a))
          else None
      | AMain t => a' ← main_step t act a; Some (with_plan a' rest)
      end
  end.

Fixpoint agent_run (tr : list agent_label) (a : agent) : option agent :=
  match tr with
  | [] => Some a
  | l :: tr => a' ← agent_exec l a; agent_run tr a'
  end.

Inductive agent_reachable (a0 : agent) : agent -> Prop :=
| agent_here : agent_reachable a0 a0
| agent_step a l a' : agent_reachable a0 a -> agent_exec l a = Some a' -> agent_reachable a0 a'.

(** The line between the reader and the sender. *)
Definition held (a : agent) : list bytes := match proc a with PHolding x => [x] | _ => [] end.

(** The agent after [logReader.Start()] and [httpSender.Start()]. *)
Definition started (w : W) (s : HTTPSender O P) (hp : line_heap) (ready : bool) (p : list action)
    : agent :=
  mkAgent w (with_loops (initial s hp) s [Looping]) PSelect false ready p.

End agent.

(** ** What the steps do to the sender and to the plan *)

Section lemmas.
Context {W : Type} {RW : LogReader W} {RL : LogReaderLaws W} {O : oauth2} {P : pki}.
Context (grow : nat -> nat) (grow_ok : forall n, (n <= grow n)%nat) (ctx : context).
Implicit Types (a : agent W O P).

Lemma sender_stopped_exec y y' :
  sender_stopped (O := O) (P := P) grow y = Some y' ->
  y' = y \/ exists j, exec grow (LStopReturn j) y = Some y'.
Proof.
  unfold sender_stopped. destruct (stops y !! _) as [[[] saw]|]; try done; naive_solver.
Qed.

(** Every agent step is a step of the sender, or leaves it alone. *)
Lemma agent_sender_step l a a' :
  agent_exec grow ctx l a = Some a' ->
  sys_ a' = sys_ a \/ exists l', exec grow l' (sys_ a) = Some (sys_ a').
Proof.
  unfold agent_exec. destruct (plan a) as [|act rest]; [done|]. intros E.
  destruct l; simpl in E.
  - destruct (reader_exec l (rd_ a)); simplify_eq/=. by left.
  - destruct (sender_internal l); [|done]. destruct (exec grow l (sys_ a)) eqn:El; simplify_eq/=.
    right. eauto.
  - case_bool_decide; [|done]. destruct (receive (rd_ a)) as [[x w]|]; simplify_eq/=. by left.
  - destruct (proc a); try done. destruct (exec grow _ (sys_ a)) eqn:El; simplify_eq/=. right. eauto.
  - destruct (_ && _); simplify_eq/=. by left.
  - destruct (_ && _); simplify_eq/=. by left.
  - destruct (main_step grow timed_out act a) as [a1|] eqn:Em; simplify_eq/=.
    destruct act; simpl in Em; simplify_eq/=; try (by left).
    + destruct (exec grow LStop (sys_ a)) eqn:El; simplify_eq/=. right. eauto.
    + destruct (sender_stopped grow (sys_ a)) as [y|] eqn:El; simplify_eq/=.
      apply sender_stopped_exec in El as [->|[j ?]]; [by left|right; eauto].
    + destruct (stop_call (rd_ a)); simplify_eq/=. by left.
    + destruct (stop_done (rd_ a)); simplify_eq/=. by left.
    + destruct (_ || _); simplify_eq/=. by left.
Qed.

Record agent_inv (n : Z) a : Prop := {
  ai_data : data_inv n (sys_ a);
  ai_ctl : ctl_inv (sys_ a);
  ai_flow : accepted (sys_ a) ++ held a = taken (rd_ a);
}.

(** A step of the sender that accepts no line. *)
Lemma exec_accepts_nothing (l : label P) y y' :
  exec (O := O) grow l y = Some y' -> (forall c x, l <> LSend c x) -> accepted y' = accepted y.
Proof.
  intros (-> & _)%exec_history Hl. destruct l; rewrite ?app_nil_r; try done. by destruct (Hl ctx0 line).
Qed.

Lemma agent_flow_step l a a' :
  accepted (sys_ a) ++ held a = taken (rd_ a) -> agent_exec grow ctx l a = Some a' ->
  accepted (sys_ a') ++ held a' = taken (rd_ a').
Proof.
  intros Hf. unfold agent_exec. destruct (plan a) as [|act rest]; [done|]. intros E.
  destruct l; simpl in E.
  - destruct (reader_exec l (rd_ a)) eqn:Er; simplify_eq/=.
    apply step_fifo in Er as [_ ->]. done.
  - destruct (sender_internal l) eqn:Ei; [|done].
    destruct (exec grow l (sys_ a)) eqn:El; simplify_eq/=.
    apply exec_accepts_nothing in El as ->; [done|]. by intros c x ->.
  - case_bool_decide as Hp; [|done]. destruct (receive (rd_ a)) as [[x w]|] eqn:Er; simplify_eq/=.
    apply receive_spec in Er as [_ ->]. unfold held in *. rewrite Hp, app_nil_r in Hf. simpl.
    by rewrite Hf.
  - destruct (proc a) eqn:Hp; try done. destruct (exec grow _ (sys_ a)) eqn:El; simplify_eq/=.
    apply exec_history in El as (-> & _). unfold held in *. rewrite Hp in Hf. simpl.
    by rewrite app_nil_r.
  - destruct (bool_decide_reflect (proc a = PSelect)) as [Hp|]; [|done].
    destruct (cancelled a); simplify_eq/=. unfold held in *. by rewrite Hp in Hf.
  - destruct (bool_decide_reflect (proc a = PSelect)) as [Hp|]; [|done].
    destruct (_ && _); simplify_eq/=. unfold held in *. by rewrite Hp in Hf.
  - destruct (main_step grow timed_out act a) as [a1|] eqn:Em; simplify_eq/=.
    destruct act; simpl in Em; simplify_eq/=; try done.
    + destruct (exec grow LStop (sys_ a)) eqn:El; simplify_eq/=.
      by apply exec_accepts_nothing in El as ->.
    + destruct (sender_stopped grow (sys_ a)) as [y|] eqn:El; simplify_eq/=.
      apply sender_stopped_exec in El as [->|[j Ej]]; [done|].
      by apply exec_accepts_nothing in Ej as ->.
    + destruct (stop_call (rd_ a)) eqn:Er; simplify_eq/=. by apply stop_keeps in Er as [_ ->].
    + destruct (stop_done (rd_ a)); simplify_eq/=. done.
    + destruct (_ || _); simplify_eq/=. done.
Qed.

Lemma agent_inv_step n l a a' :
  agent_inv n a -> agent_exec grow ctx l a = Some a' -> agent_inv n a'.
Proof.
  intros [Hd Hc Hf] E.
  pose proof (agent_flow_step l a a' Hf E) as Hf'.
  apply agent_sender_step in E as [Es|[l' E]].
  - split; [by rewrite Es|by rewrite Es|done].
  - split; [by eapply exec_data_inv|by eapply exec_ctl_inv|done].
Qed.

Lemma agent_inv_reachable n a0 a :
  agent_inv n a0 -> agent_reachable grow ctx a0 a -> agent_inv n a.
Proof. intros H0. induction 1; [done|]. by eapply agent_inv_step. Qed.

Lemma started_inv w s hp ready p :
  fresh s hp -> taken w = [] -> agent_inv (batchSize s) (started w s hp ready p).
Proof.
  intros (H1 & H2 & H3 & H4) Ht. destruct (initial_inv s hp H1 H2 H3 H4) as [Hd Hc].
  assert (exec grow LStart (initial s hp) = Some (with_loops (initial s hp) s [Looping])) as E
    by reflexivity.
  split; simpl; [by eapply exec_data_inv|by eapply exec_ctl_inv|by rewrite Ht].
Qed.

(** ** Stopping the sender *)

Lemma exec_keeps_stops (l : label P) y y' :
  exec (O := O) grow l y = Some y' -> sender_internal l = true \/ (exists c x, l = LSend c x) ->
  stops y' = stops y /\ stopCh (snd_ y') = stopCh (snd_ y).
Proof.
  assert (forall (s s' : HTTPSender O P) hp hp' sp c, flushLockedWithContext c s hp = (s', hp', sp) ->
    stopCh s' = stopCh s) as Hf.
  { intros s0 s0' hp0 hp0' sp c. unfold flushLockedWithContext. destruct (_ =? _)%nat; by intros [= <- _ _]. }
  assert (forall lps r, (let '(s', _, _) := r in stopCh s' = stopCh (snd_ y)) ->
    forall acc, stops (after_batch y lps acc r) = stops y /\
    stopCh (snd_ (after_batch y lps acc r)) = stopCh (snd_ y)) as Hab.
  { intros lps [[s' hp'] sp] Hs acc. done. }
  unfold exec, at_pc, step_Close, step_Deliver. destruct (panicked y); [done|].
  intros E [Hl|(c & x & ->)].
  - destruct l; try done; repeat case_bool_decide; try done.
    + injection E as <-. apply Hab. unfold flush.
      destruct (flushLockedWithContext _ _ _) as [[? ?] ?] eqn:Ef. by eapply Hf.
    + destruct (stopCh (snd_ y)) eqn:Es; simplify_eq/=. by rewrite Es.
    + injection E as <-. apply Hab. unfold flush.
      destruct (flushLockedWithContext _ _ _) as [[? ?] ?] eqn:Ef. by eapply Hf.
    + destruct (stoppedCh (snd_ y)); by simplify_eq/=.
    + repeat case_match; by simplify_eq/=.
  - injection E as <-. apply Hab. unfold SendWithContext.
    destruct (append _ _ _ _ _) as [b hp1]. destruct (_ <=? _)%Z; [|done].
    destruct (flushLockedWithContext _ _ _) as [[? ?] ?] eqn:Ef. by apply Hf in Ef.
Qed.

(** What a step does to the calls of the sender's [Stop] and to the plan. *)
Lemma agent_plan_step l a a' :
  agent_exec grow ctx l a = Some a' ->
  (stops (sys_ a') = stops (sys_ a) /\ stopCh (snd_ (sys_ a')) = stopCh (snd_ (sys_ a)) /\
    (plan a' = plan a \/ exists act, plan a = act :: plan a' /\ act <> StopSender /\ act <> AwaitSender)) \/
  (plan a = StopSender :: plan a' /\ exec grow LStop (sys_ a) = Some (sys_ a')) \/
  (plan a = AwaitSender :: plan a' /\ sender_stopped grow (sys_ a) = Some (sys_ a')).
Proof.
  unfold agent_exec. destruct (plan a) as [|act rest] eqn:Ep; [done|]. intros E.
  destruct l; simpl in E.
  - destruct (reader_exec l (rd_ a)); simplify_eq/=. rewrite ?Ep. auto.
  - destruct (sender_internal l) eqn:Ei; [|done].
    destruct (exec grow l (sys_ a)) eqn:El; simplify_eq/=.
    apply exec_keeps_stops in El as [-> ->]; [|by left]. rewrite ?Ep. auto.
  - case_bool_decide; [|done]. destruct (receive (rd_ a)) as [[x w]|]; simplify_eq/=. rewrite ?Ep. auto.
  - destruct (proc a); try done. destruct (exec grow _ (sys_ a)) eqn:El; simplify_eq/=.
    apply exec_keeps_stops in El as [-> ->]; [|right; eauto]. rewrite ?Ep. auto.
  - destruct (_ && _); simplify_eq/=. rewrite ?Ep. auto.
  - destruct (_ && _); simplify_eq/=. rewrite ?Ep. auto.
  - destruct (main_step grow timed_out act a) as [a1|] eqn:Em; simplify_eq/=.
    destruct act; simpl in Em; simplify_eq/=; try (left; split_and!; [done|done|]; right; eexists; done).
    + destruct (exec grow LStop (sys_ a)) eqn:El; simplify_eq/=. auto.
    + destruct (sender_stopped grow (sys_ a)) as [y|] eqn:El; simplify_eq/=. auto.
    + destruct (stop_call (rd_ a)); simplify_eq/=. left; split_and!; [done|done|]; right; eexists; done.
    + destruct (stop_done (rd_ a)); simplify_eq/=. left; split_and!; [done|done|]; right; eexists; done.
    + destruct (_ || _); simplify_eq/=. left; split_and!; [done|done|]; right; eexists; done.
Qed.

(** The phases of a shutdown whose plan is [_ ++ StopSender :: AwaitSender :: rest]:
    before the call, during its wait, after it. *)
Inductive phase (rest : list action) (saw : list bytes) a : Prop :=
| stop_waiting : plan a = AwaitSender :: rest -> stops (sys_ a) = [mkStop Waiting saw] ->
    phase rest saw a
| stop_over pre : rest = pre ++ plan a -> stops (sys_ a) = [mkStop Returned saw] ->
    phase rest saw a.

Lemma phase_step rest saw l a a' :
  StopSender ∉ rest -> AwaitSender ∉ rest -> phase rest saw a ->
  agent_exec grow ctx l a = Some a' -> phase rest saw a'.
Proof.
  intros Hr1 Hr2 Hph E.
  destruct (agent_plan_step l a a' E) as [(Es & _ & Hp)|[[Hp El]|[Hp El]]];
    destruct Hph as [Hpl Hst|pre Hpl Hst].
  - destruct Hp as [Hp|(act & Hp & _ & Hne)]; [|congruence].
    apply stop_waiting; congruence.
  - destruct Hp as [Hp|(act & Hp & _)]; [apply (stop_over _ _ _ pre); congruence|].
    apply (stop_over _ _ _ (pre ++ [act])); [|congruence]. by rewrite <- (assoc_L (++)); simpl; rewrite <- Hp.
  - congruence.
  - exfalso. apply Hr1. rewrite Hpl, Hp. set_solver.
  - rewrite Hpl in Hp. injection Hp as Hp. unfold sender_stopped in El. rewrite Hst in El. simpl in El.
    unfold exec, step_StopReturn in El. rewrite Hst in El. simpl in El.
    destruct (panicked _); [done|]. destruct (stoppedCh _); [|done]. injection El as El.
    apply (stop_over _ _ _ []); [by rewrite Hp|]. by rewrite <- El.
  - exfalso. apply Hr2. rewrite Hpl, Hp. set_solver.
Qed.

Lemma phase_run rest saw tr a a' :
  StopSender ∉ rest -> AwaitSender ∉ rest -> phase rest saw a ->
  agent_run grow ctx tr a = Some a' -> phase rest saw a'.
Proof.
  intros Hr1 Hr2. revert a. induction tr as [|l tr IH]; intros a Hph; simpl; [by intros [= <-]|].
  destruct (agent_exec grow ctx l a) as [a1|] eqn:E; simpl; [|done].
  apply IH. by eapply phase_step.
Qed.

(** Until the plan reaches it, the sender's [Stop] has not been called. *)
Lemma not_yet_stopped w s hp ready p a :
  fresh s hp -> agent_reachable grow ctx (started w s hp ready p) a ->
  exists past, p = past ++ plan a /\
    (StopSender ∉ past -> AwaitSender ∉ past ->
     stops (sys_ a) = [] /\ stopCh (snd_ (sys_ a)) = false).
Proof.
  intros (_ & _ & Hs & _) Hr. induction Hr as [|a l a' _ (past & Hp & IH) E].
  { by exists []. }
  destruct (agent_plan_step l a a' E) as [(Es & Ec & Hpl)|[[Hpl El]|[Hpl El]]].
  - destruct Hpl as [Hpl|(act & Hpl & _)].
    + exists past. by rewrite Hpl, Es, Ec.
    + exists (past ++ [act]). rewrite <- (assoc_L (++)); simpl. rewrite <- Hpl, Es, Ec.
      split; [done|]. intros Hn1 Hn2. apply IH; set_solver.
  - exists (past ++ [StopSender]). rewrite <- (assoc_L (++)); simpl. rewrite <- Hpl.
    split; [done|]. by intros [_ [? _]%not_elem_of_cons]%not_elem_of_app.
  - exists (past ++ [AwaitSender]). rewrite <- (assoc_L (++)); simpl. rewrite <- Hpl.
    split; [done|]. by intros _ [_ [? _]%not_elem_of_cons]%not_elem_of_app.
Qed.

(** What a step does to the reader. *)
Lemma agent_reader_step l a a' :
  agent_exec grow ctx l a = Some a' ->
  rd_ a' = rd_ a \/ (exists l', l = AReader l' /\ reader_exec l' (rd_ a) = Some (rd_ a')) \/
  (exists x, receive (rd_ a) = Some (x, rd_ a')) \/ stop_call (rd_ a) = Some (rd_ a').
Proof.
  unfold agent_exec. destruct (plan a) as [|act rest]; [done|]. intros E.
  destruct l; simpl in E.
  - destruct (reader_exec l (rd_ a)) eqn:Er; simplify_eq/=. eauto.
  - destruct (sender_internal l); [|done]. destruct (exec grow l (sys_ a)); simplify_eq/=. auto.
  - case_bool_decide; [|done]. destruct (receive (rd_ a)) as [[x w]|] eqn:Er; simplify_eq/=. eauto.
  - destruct (proc a); try done. destruct (exec grow _ (sys_ a)); simplify_eq/=. auto.
  - destruct (_ && _); simplify_eq/=. auto.
  - destruct (_ && _); simplify_eq/=. auto.
  - destruct (main_step grow timed_out act a) as [a1|] eqn:Em; simplify_eq/=.
    destruct act; simpl in Em; simplify_eq/=; auto.
    + destruct (exec grow LStop (sys_ a)); simplify_eq/=. auto.
    + destruct (sender_stopped grow (sys_ a)); simplify_eq/=. auto.
    + destruct (stop_call (rd_ a)) eqn:Er; simplify_eq/=. auto.
    + destruct (stop_done (rd_ a)); simplify_eq/=. auto.
    + destruct (_ || _); simplify_eq/=. auto.
Qed.

Lemma agent_run_reachable a0 tr a a' :
  agent_reachable grow ctx a0 a -> agent_run grow ctx tr a = Some a' -> agent_reachable grow ctx a0 a'.
Proof.
  revert a. induction tr as [|l tr IH]; intros a Hr; simpl; [by intros [= <-]|].
  destruct (agent_exec grow ctx l a) as [a1|] eqn:E; simpl; [|done].
  apply IH. by econstructor.
Qed.

(** Once the forwarder has left, nothing more is received or accepted. *)
Lemma abandoned_step l a a' :
  proc a = PDone -> agent_exec grow ctx l a = Some a' ->
  proc a' = PDone /\ accepted (sys_ a') = accepted (sys_ a) /\ taken (rd_ a') = taken (rd_ a) /\
  queued (rd_ a) `prefix_of` queued (rd_ a').
Proof.
  intros Hp. unfold agent_exec. destruct (plan a) as [|act rest]; [done|]. intros E.
  destruct l; simpl in E; rewrite ?Hp in E; try done.
  - destruct (reader_exec l (rd_ a)) eqn:Er; simplify_eq/=. by apply step_fifo in Er as [? ->].
  - destruct (sender_internal l) eqn:Ei; [|done].
    destruct (exec grow l (sys_ a)) eqn:El; simplify_eq/=.
    apply exec_accepts_nothing in El as ->; [done|]. by intros c x ->.
  - destruct (main_step grow timed_out act a) as [a1|] eqn:Em; simplify_eq/=.
    destruct act; simpl in Em; simplify_eq/=; try done.
    + destruct (exec grow LStop (sys_ a)) eqn:El; simplify_eq/=.
      by apply exec_accepts_nothing in El as ->.
    + destruct (sender_stopped grow (sys_ a)) as [y|] eqn:El; simplify_eq/=.
      apply sender_stopped_exec in El as [->|[j Ej]]; [done|].
      by apply exec_accepts_nothing in Ej as ->.
    + destruct (stop_call (rd_ a)) eqn:Er; simplify_eq/=. by apply stop_keeps in Er as [-> ->].
    + destruct (stop_done (rd_ a)); by simplify_eq/=.
    + destruct (_ || _); by simplify_eq/=.
Qed.

Lemma abandoned_run tr a a' :
  proc a = PDone -> agent_run grow ctx tr a = Some a' ->
  proc a' = PDone /\ accepted (sys_ a') = accepted (sys_ a) /\ taken (rd_ a') = taken (rd_ a) /\
  queued (rd_ a) `prefix_of` queued (rd_ a').
Proof.
  revert a. induction tr as [|l tr IH]; intros a Hp; simpl; [by intros [= <-]|].
  destruct (agent_exec grow ctx l a) as [a1|] eqn:E; simpl; [|done]. intros Hr.
  destruct (abandoned_step l a a1 Hp E) as (Hp1 & <- & <- & Hq).
  destruct (IH a1 Hp1 Hr) as (? & ? & ? & ?). split_and!; try done. by trans (queued (rd_ a1)).
Qed.

(** The sender's loops are all gone. *)
Definition loops_gone (y : system O P) : Prop := Forall (eq Exited) (loops y).

(** Without a loop, only a [Send] moves lines out of the batch. *)
Lemma gone_exec (l : label P) y y' :
  loops_gone y -> exec grow l y = Some y' -> (forall c x, l <> LSend c x) -> l <> LStart ->
  loops_gone y' /\ dispatched y' = dispatched y /\ pending y' = pending y.
Proof.
  intros Hg E Hl Hs. unfold exec, at_pc, step_Stop, close_stopCh, step_StopReturn, step_Deliver in E.
  assert (forall i pc, loops y !! i = Some pc -> pc = Exited) as Hex.
  { intros i pc Hi. unfold loops_gone in Hg. eapply Forall_lookup_1 in Hg; [|exact Hi]. done. }
  destruct (panicked y); [done|]. destruct l; try done.
  - by destruct (Hl ctx0 line).
  - case_bool_decide as Hi; [|done]. by apply Hex in Hi.
  - case_bool_decide as Hi; [|done]. by apply Hex in Hi.
  - case_bool_decide as Hi; [|done]. by apply Hex in Hi.
  - case_bool_decide as Hi; [|done]. by apply Hex in Hi.
  - destruct (stopCh (snd_ y)); by simplify_eq/=.
  - repeat case_match; by simplify_eq/=.
  - repeat case_match; by simplify_eq/=.
Qed.

Lemma gone_step l a a' :
  proc a = PDone -> loops_gone (sys_ a) -> agent_exec grow ctx l a = Some a' ->
  loops_gone (sys_ a') /\ dispatched (sys_ a') = dispatched (sys_ a) /\
  pending (sys_ a') = pending (sys_ a).
Proof.
  intros Hp Hg. unfold agent_exec. destruct (plan a) as [|act rest]; [done|]. intros E.
  destruct l; simpl in E; rewrite ?Hp in E; try done.
  - destruct (reader_exec l (rd_ a)) eqn:Er; by simplify_eq/=.
  - destruct (sender_internal l) eqn:Ei; [|done].
    destruct (exec grow l (sys_ a)) eqn:El; simplify_eq/=.
    apply (gone_exec l); try done; [by intros c x ->|by intros ->].
  - destruct (main_step grow timed_out act a) as [a1|] eqn:Em; simplify_eq/=.
    destruct act; simpl in Em; simplify_eq/=; try done.
    + destruct (exec grow LStop (sys_ a)) eqn:El; simplify_eq/=. by apply (gone_exec LStop).
    + destruct (sender_stopped grow (sys_ a)) as [y|] eqn:El; simplify_eq/=.
      apply sender_stopped_exec in El as [->|[j Ej]]; [done|]. by apply (gone_exec (LStopReturn j)).
    + destruct (stop_call (rd_ a)) eqn:Er; by simplify_eq/=.
    + destruct (stop_done (rd_ a)); by simplify_eq/=.
    + destruct (_ || _); by simplify_eq/=.
Qed.

Lemma gone_run tr a a' :
  proc a = PDone -> loops_gone (sys_ a) -> agent_run grow ctx tr a = Some a' ->
  dispatched (sys_ a') = dispatched (sys_ a) /\ pending (sys_ a') = pending (sys_ a).
Proof.
  revert a. induction tr as [|l tr IH]; intros a Hp Hg; simpl; [by intros [= <-]|].
  destruct (agent_exec grow ctx l a) as [a1|] eqn:E; simpl; [|done]. intros Hr.
  destruct (abandoned_step l a a1 Hp E) as (Hp1 & _). destruct (gone_step l a a1 Hp Hg E) as (Hg1 & <- & <-).
  by apply IH.
Qed.

(** The reader of an agent only ever does what a client may make it do. *)
Definition reader_label_ok (Q : reader_label (W := W) -> Prop) (l : agent_label (P := P)) : Prop :=
  match l with AReader l => Q l | _ => True end.

Lemma agent_run_moves Q w0 tr a a' :
  Forall (reader_label_ok Q) tr -> reader_moves Q w0 (rd_ a) -> agent_run grow ctx tr a = Some a' ->
  reader_moves Q w0 (rd_ a').
Proof.
  intros Htr. revert a. induction Htr as [|l tr Hl _ IH]; intros a Ha; simpl; [by intros [= <-]|].
  destruct (agent_exec grow ctx l a) as [a1|] eqn:E; simpl; [|done]. apply IH.
  destruct (agent_reader_step l a a1 E) as [->|[(l' & -> & E')|[[x E']|E']]];
    [done|by eapply moves_step|by eapply moves_receive|by eapply moves_stop].
Qed.

End lemmas.

(** ** The agent on a file *)

Section file_agent.
Import FileReader FileReaderLemmas.
Context {O : oauth2} {P : pki} (grow : nat -> nat) (ctx : context).
Implicit Types (a : agent world O P).

Definition append_only_label : agent_label (W := world) (P := P) -> Prop := reader_label_ok append_only.

Lemma agent_tailing_run i c tr a a' seen rest :
  tailing i c [] seen rest (rd_ a) -> Forall append_only_label tr ->
  agent_run grow ctx tr a = Some a' ->
  exists seen' rest', tailing i c [] seen' rest' (rd_ a').
Proof.
  intros HT Htr Hrun. eapply moves_tailing; [exact HT|].
  by eapply agent_run_moves; [exact Htr|apply moves_here|].
Qed.

(** Main waits for the reader, nobody receives, the reader cannot send. *)
Definition stuck (line : bytes) (rest : list action) a : Prop :=
  proc a = PDone /\ plan a = AwaitReader :: rest /\ blocked line (rd_ a).

Lemma stuck_step line rest l a a' :
  stuck line rest a -> agent_exec grow ctx l a = Some a' -> stuck line rest a'.
Proof.
  intros (Hp & Hpl & Hb) E. unfold agent_exec in E. rewrite Hpl in E.
  destruct l; simpl in E; unfold stuck.
  - destruct (internal l) eqn:Ei; simpl in E; [|done].
    destruct (exec l (rd_ a)) as [w1|] eqn:Er; simplify_eq/=. split_and!; try done.
    apply (blocked_step line l (rd_ a)); [done| |done]. by intros <-.
  - destruct (sender_internal l); [|done]. by destruct (SenderSystem.exec grow l (sys_ a)); simplify_eq/=.
  - rewrite Hp in E. done.
  - by rewrite Hp in E.
  - rewrite Hp in E. done.
  - rewrite Hp in E. done.
  - unfold stop_returned in E. destruct Hb as (_ & _ & Hs). by rewrite Hs, andb_false_r in E.
Qed.

End file_agent.

Module AgentProperties.

Section statements.
Context {W : Type} {RW : LogReader W} {RL : LogReaderLaws W} {O : oauth2} {P : pki}.
Context (grow : nat -> nat) (grow_ok : forall n, (n <= grow n)%nat) (ctx : context).
Context (w : W) (s : HTTPSender O P) (hp : line_heap) (ready : bool) (p : list action).
Context (Hfresh : fresh s hp) (Htaken : taken w = []).

(** From the reader to the batches, for any reader that implements the
    interface, under every interleaving of reader, forwarding goroutine, sender
    and shutdown: the batches handed out, then the pending batch, then the line
    in the forwarder's hand, are exactly the lines received from the reader, in
    order. *)
Theorem agent_forwards a :
  agent_reachable grow ctx (started w s hp ready p) a ->
  concat (dispatched (sys_ a)) ++ pending (sys_ a) ++ held a = taken (rd_ a).
Proof.
  intros Hr. destruct (agent_inv_reachable grow grow_ok ctx _ _ a
    (started_inv grow grow_ok w s hp ready p Hfresh Htaken) Hr) as [Hd _ Hf].
  by rewrite <- Hf, <- (inv_order _ _ Hd), <- (assoc_L (++)).
Qed.

(** C30. Shutdown flushes what was forwarded, in both programs: once the main
    goroutine has passed the sender's [Stop], every line forwarded before that
    call has been handed to a delivery. *)
Theorem shutdown_flushes a rest t a1 tr a2 :
  p ∈ [agent_plan; main_plan] ->
  agent_reachable grow ctx (started w s hp ready p) a ->
  plan a = StopSender :: AwaitSender :: rest ->
  agent_exec grow ctx (AMain t) a = Some a1 -> agent_run grow ctx tr a1 = Some a2 ->
  (length (plan a2) <= length rest)%nat ->
  accepted (sys_ a) `prefix_of` concat (dispatched (sys_ a2)).
Proof.
  intros Hplan Hr Hp E1 Hrun Hlen.
  destruct (not_yet_stopped grow grow_ok ctx w s hp ready p a Hfresh Hr) as (past & Ep & Hns).
  assert (NoDup p) as Hnd by (apply elem_of_cons in Hplan as [->|Hplan];
    [|apply list_elem_of_singleton in Hplan as ->]; apply (bool_decide_unpack _); vm_compute; exact I).
  rewrite Ep, Hp in Hnd. apply NoDup_app in Hnd as (_ & Hdis & Hnd).
  apply NoDup_cons in Hnd as [Hr1 Hnd]. apply NoDup_cons in Hnd as [Hr2 _].
  destruct Hns as [Hs Hch]; [intros Hin; apply (Hdis _ Hin); set_solver..|].
  assert (phase rest (accepted (sys_ a)) a1) as Hph.
  { unfold agent_exec in E1. rewrite Hp in E1. simpl in E1. unfold exec, step_Stop, close_stopCh in E1.
    destruct (panicked (sys_ a)); [done|]. rewrite Hch in E1. injection E1 as <-.
    apply stop_waiting; [done|]. simpl. by rewrite Hs. }
  assert (agent_reachable grow ctx (started w s hp ready p) a2) as Hr'.
  { eapply agent_run_reachable; [|exact Hrun]. by econstructor. }
  destruct (agent_inv_reachable grow grow_ok ctx _ _ a2
    (started_inv grow grow_ok w s hp ready p Hfresh Htaken) Hr') as [_ Hc _].
  destruct (phase_run grow grow_ok ctx rest (accepted (sys_ a)) tr a1 a2) as [Hpl _|pre _ Hst]; try done.
  { set_solver. } { rewrite Hpl in Hlen. simpl in Hlen. lia. }
  assert (mkStop Returned (accepted (sys_ a)) ∈ stops (sys_ a2)) as Hin by (rewrite Hst; set_solver).
  destruct (ctl_stopped _ Hc (ctl_returned _ Hc _ Hin eq_refl)) as [i Hi].
  pose proof (ctl_flushed _ Hc i (or_intror Hi)) as HF. rewrite Forall_forall in HF.
  by apply (HF _ Hin).
Qed.

End statements.

(** The agent on a file, from the log file to the batches.  While the file only
    grows, at every moment of the agent's life, shutdown included, the contents
    appended since the start are whole lines [seen] and a rest, and the batches
    handed out, the pending batch, the line being forwarded, the reader's
    channel and the line being sent to it, in this order, are exactly the
    non-empty lines of [seen]: no line is lost, duplicated or reordered inside
    the agent. *)
Theorem end_to_end {O : oauth2} {P : pki} grow ctx (s : HTTPSender O P) hp ready p fs i c w tr a :
  (forall n, (n <= grow n)%nat) -> fresh s hp ->
  at_path fs = Some i -> inodes fs !! i = Some c -> FileReader.fits c = true ->
  FileReader.exec (FileReader.LStart no_faults) (FileReaderProperties.new_world fs) = Some w ->
  Forall append_only_label tr ->
  agent_run grow ctx tr (started w s hp ready p) = Some a ->
  exists seen rest, inode (FileReader.fs_ (rd_ a)) i = c ++ seen ++ rest /\ partial_line seen = [] /\
    concat (dispatched (sys_ a)) ++ pending (sys_ a) ++ held a ++
      FileReader.lines (FileReader.rd (rd_ a)) ++
      match FileReader.at_ (rd_ a) with FileReader.Sending l => [l] | _ => [] end
    = FileReader.log_lines seen.
Proof.
  intros Hg Hfr Hp Hi Hf E Htr Hrun.
  destruct (FileReaderProperties.start_tailing fs i c w Hp Hi Hf E) as (HT & _).
  destruct (agent_tailing_run grow ctx i c tr (started w s hp ready p) a _ _ HT Htr Hrun) as (seen & rest & HT').
  assert (taken w = []) as Ht.
  { unfold FileReader.exec in E. simpl in E. destruct (FileReader.Start _ _ _); by injection E as <-. }
  assert (agent_reachable grow ctx (started w s hp ready p) a) as Hr.
  { eapply agent_run_reachable; [apply agent_here|exact Hrun]. }
  destruct (agent_inv_reachable grow Hg ctx _ _ a (started_inv grow Hg w s hp ready p Hfr Ht) Hr)
    as [Hd _ Hfl].
  exists seen, rest. split_and!.
  - apply FileReaderLemmas.inode_lookup, (FileReaderLemmas.t_inode _ _ _ _ _ _ HT').
  - apply (FileReaderLemmas.t_whole _ _ _ _ _ _ HT').
  - pose proof (FileReaderLemmas.t_output _ _ _ _ _ _ HT') as Ho. simpl in Ho. rewrite <- Ho.
    unfold FileReader.output. simpl in Hfl. rewrite <- Hfl, <- (inv_order _ _ Hd).
    by rewrite <- !(assoc_L (++)).
Qed.

(** C35. Shutdown can deadlock: when the forwarding goroutine has seen the
    cancelled context and left, while the file reader has a full channel and one
    more line to send, the main goroutine never gets past [logReader.Stop()]:
    the process does not exit, whatever happens. *)
Theorem shutdown_deadlock {O : oauth2} {P : pki} grow ctx line rest tr
    (a a' : agent FileReader.world O P) :
  stuck line rest a -> agent_run grow ctx tr a = Some a' -> plan a' = AwaitReader :: rest.
Proof.
  intros Ha Hrun. enough (stuck line rest a') as (_ & H & _) by done.
  revert a Ha Hrun. induction tr as [|l tr IH]; intros a Ha; simpl; [by intros [= <-]|].
  destruct (agent_exec grow ctx l a) as [a1|] eqn:E; simpl; [|done].
  apply IH. by eapply stuck_step.
Qed.

(** C36. What a shutdown leaves behind is lost, in both programs and with any reader.
    As soon as the context is cancelled the forwarder may leave its [select],
    whatever is still in the reader's channel; from then on no schedule hands any
    of those lines, or any later one, to the sender.  And once the forwarder has
    left and the sender's loops have exited, in either order, no schedule hands
    what is then pending in the batch to a delivery. *)
Theorem cancelled_forwarder_abandons {W : Type} {RW : LogReader W} {RL : LogReaderLaws W} {O : oauth2}
    {P : pki} grow ctx (a : agent W O P) :
  (plan a <> [] -> cancelled a = true -> proc a = PSelect ->
   exists a1, agent_exec grow ctx ACtxDone a = Some a1 /\
     forall tr a2, agent_run grow ctx tr a1 = Some a2 ->
       accepted (sys_ a2) = accepted (sys_ a) /\ taken (rd_ a2) = taken (rd_ a) /\
       queued (rd_ a) `prefix_of` queued (rd_ a2)) /\
  (proc a = PDone -> loops_gone (sys_ a) ->
   forall tr a2, agent_run grow ctx tr a = Some a2 ->
     dispatched (sys_ a2) = dispatched (sys_ a) /\ pending (sys_ a2) = pending (sys_ a)).
Proof.
  split.
  - intros Hpl Hc Hp. unfold agent_exec at 1. destruct (plan a) as [|act rest] eqn:Ep; [done|].
    rewrite Hp, Hc. simpl. eexists. split; [done|]. intros tr a2 Hr.
    by apply abandoned_run in Hr as (_ & ? & ? & ?).
  - intros Hp Hg tr a2. by apply gone_run.
Qed.

(** ** Concrete runs *)

Import FileReader FileReaderProperties.

Definition demo_agent (p : list action) : agent world no_oauth2 SenderProperties.no_pki :=
  started demo_started SenderSystemProperties.demo_sender SenderSystemProperties.demo_heap true p.

Abbreviation demo_label := (agent_label (W := world) (P := SenderProperties.no_pki)).

Definition demo_run (p : list action) (tr : list demo_label) :=
  agent_run SenderSystemProperties.double Background tr (demo_agent p).

Lemma demo_taken : taken demo_started = [].
Proof. vm_compute. reflexivity. Qed.

Definition rtail (n : nat) : demo_label := AReader (tail n).

(** One line is appended and reaches the channel. *)
Definition demo_line : list demo_label :=
  [AReader (LAppend 0 (text "a")); rtail 0; rtail 9; rtail 0; rtail 0].
Definition stop_loop : list demo_label :=
  [ASender (LLoopStop 0); ASender (LDeferFlush 0); ASender (LClose 0)].

(** [cmd/agent.go]: the line is forwarded after the sender was stopped. *)
Definition late_forward : list demo_label :=
  demo_line ++ [AMain false; AMain false; AMain false; AMain false; AMain false] ++ stop_loop ++
  [AMain false; AReceive; AForward; AMain false; rtail 0; rtail 0; AMain false; ACtxDone; AMain false].

(** [cmd/agent/main.go]: the forwarder leaves before it receives the line. *)
Definition never_received : list demo_label :=
  demo_line ++ [AMain false; AMain false; ACtxDone; AMain false; rtail 0; rtail 0; AMain false;
                AMain false] ++ stop_loop ++ [AMain false; AMain false; AMain false].

(** Such shutdowns exist in both programs: the process exits normally although a
    line that was in the file before the signal has never been handed to a
    delivery; in [cmd/agent.go] because the sender is stopped before the
    forwarder, in [cmd/agent/main.go] because cancelling the context makes the
    forwarder leave lines in the channel. *)
Example shutdown_can_lose_lines :
  (exists a, demo_run agent_plan late_forward = Some a /\ plan a = [] /\
     dispatched (sys_ a) = [] /\ pending (sys_ a) = [go_bytes "a"] /\
     inode (fs_ (rd_ a)) 0 = text "old" ++ text "a") /\
  (exists a, demo_run main_plan never_received = Some a /\ plan a = [] /\
     dispatched (sys_ a) = [] /\ lines (rd (rd_ a)) = [go_bytes "a"] /\
     inode (fs_ (rd_ a)) 0 = text "old" ++ text "a").
Proof. split; (eexists; split; [vm_compute; reflexivity|]; split_and!; reflexivity). Qed.

(** The forwarder is in its [select], the context cancelled, one line in the
    channel; and, in the other program, the loop is gone and the line pending. *)
Definition demo_cancelled : agent world no_oauth2 SenderProperties.no_pki :=
  default (demo_agent main_plan) (demo_run main_plan (take 7 never_received)).
Definition demo_gone : agent world no_oauth2 SenderProperties.no_pki :=
  default (demo_agent agent_plan) (demo_run agent_plan (take 21 late_forward)).

Lemma cancelled_forwarder_abandons_witness :
  queued (rd_ demo_cancelled) = [go_bytes "a"] /\
  (exists a1, agent_exec SenderSystemProperties.double Background ACtxDone demo_cancelled = Some a1 /\
    forall tr a2, agent_run SenderSystemProperties.double Background tr a1 = Some a2 ->
    accepted (sys_ a2) = [] /\ [go_bytes "a"] `prefix_of` queued (rd_ a2)) /\
  pending (sys_ demo_gone) = [go_bytes "a"] /\
  forall tr a2, agent_run SenderSystemProperties.double Background tr demo_gone = Some a2 ->
    pending (sys_ a2) = [go_bytes "a"].
Proof.
  assert (plan demo_cancelled <> []) as H1 by (vm_compute; discriminate).
  assert (cancelled demo_cancelled = true) as H2 by (vm_compute; reflexivity).
  assert (proc demo_cancelled = PSelect) as H3 by (vm_compute; reflexivity).
  assert (queued (rd_ demo_cancelled) = [go_bytes "a"]) as H4 by (vm_compute; reflexivity).
  assert (accepted (sys_ demo_cancelled) = []) as H5 by (vm_compute; reflexivity).
  assert (proc demo_gone = PDone) as H6 by (vm_compute; reflexivity).
  assert (loops (sys_ demo_gone) = [Exited]) as H7 by (vm_compute; reflexivity).
  assert (pending (sys_ demo_gone) = [go_bytes "a"]) as H8 by (vm_compute; reflexivity).
  generalize dependent demo_cancelled. generalize dependent demo_gone.
  intros g H6 H7 H8 c H1 H2 H3 H4 H5. split; [exact H4|].
  destruct (proj1 (cancelled_forwarder_abandons SenderSystemProperties.double Background c) H1 H2 H3)
    as (a1 & E & H). rewrite H4, H5 in H. split; [|split; [exact H8|]].
  - exists a1. split; [exact E|]. intros tr a2 Hr. destruct (H tr a2 Hr) as (Ha & _ & Hq). by split.
  - intros tr a2 Hr. rewrite <- H8.
    refine (proj2 (proj2 (cancelled_forwarder_abandons SenderSystemProperties.double Background g) H6 _ tr a2 Hr)).
    unfold loops_gone. rewrite H7. by apply Forall_singleton.
Defined.

Lemma agent_forwards_witness :
  exists a, demo_run agent_plan late_forward = Some a /\
    concat (dispatched (sys_ a)) ++ pending (sys_ a) ++ held a = [go_bytes "a"].
Proof.
  eexists. split; [vm_compute; reflexivity|].
  apply (agent_forwards SenderSystemProperties.double SenderSystemProperties.double_ok Background
    demo_started SenderSystemProperties.demo_sender SenderSystemProperties.demo_heap true agent_plan
    SenderSystemProperties.demo_fresh demo_taken).
  eapply (agent_run_reachable SenderSystemProperties.double Background (demo_agent agent_plan)
    late_forward); [apply agent_here|vm_compute; reflexivity].
Defined.

(** Up to the call of the sender's [Stop], after the line was forwarded. *)
Definition before_stop : list demo_label :=
  demo_line ++ [AReceive; AForward; AMain false; AMain false; AMain false; AMain false].
Definition demo_before : agent world no_oauth2 SenderProperties.no_pki :=
  default (demo_agent agent_plan) (demo_run agent_plan before_stop).
Definition demo_called : agent world no_oauth2 SenderProperties.no_pki :=
  default demo_before (agent_exec SenderSystemProperties.double Background (AMain false) demo_before).
Definition demo_after : agent world no_oauth2 SenderProperties.no_pki :=
  default demo_called (agent_run SenderSystemProperties.double Background
    (stop_loop ++ [AMain false]) demo_called).

Lemma shutdown_flushes_witness :
  accepted (sys_ demo_before) = [go_bytes "a"] /\
  accepted (sys_ demo_before) `prefix_of` concat (dispatched (sys_ demo_after)).
Proof.
  split; [vm_compute; reflexivity|].
  eapply (shutdown_flushes SenderSystemProperties.double SenderSystemProperties.double_ok Background
    demo_started SenderSystemProperties.demo_sender SenderSystemProperties.demo_heap true agent_plan
    SenderSystemProperties.demo_fresh demo_taken demo_before
    [StopReader; AwaitReader; AwaitProcessing true] false demo_called (stop_loop ++ [AMain false])).
  - apply elem_of_cons. left. reflexivity.
  - eapply (agent_run_reachable SenderSystemProperties.double Background (demo_agent agent_plan)
      before_stop); [apply agent_here|vm_compute; reflexivity].
  - vm_compute. reflexivity.
  - vm_compute. reflexivity.
  - vm_compute. reflexivity.
  - vm_compute. lia.
Defined.

Lemma end_to_end_witness :
  exists a, demo_run main_plan never_received = Some a /\
  exists seen rest, inode (fs_ (rd_ a)) 0 = text "old" ++ seen ++ rest /\ partial_line seen = [] /\
    concat (dispatched (sys_ a)) ++ pending (sys_ a) ++ held a ++ lines (rd (rd_ a)) ++
      match at_ (rd_ a) with Sending l => [l] | _ => [] end
    = log_lines seen.
Proof.
  eexists. split; [vm_compute; reflexivity|].
  apply (end_to_end SenderSystemProperties.double Background SenderSystemProperties.demo_sender
    SenderSystemProperties.demo_heap true main_plan demo_fs 0 (text "old") demo_started never_received).
  - apply SenderSystemProperties.double_ok.
  - apply SenderSystemProperties.demo_fresh.
  - reflexivity.
  - reflexivity.
  - reflexivity.
  - reflexivity.
  - repeat apply Forall_cons_2; try exact I. apply Forall_nil_2.
  - vm_compute. reflexivity.
Defined.

(** A burst of 1001 lines fills the channel; then the signal arrives and the
    forwarder leaves. *)
Definition burst : list demo_label :=
  [AReader (LAppend 0 (concat (replicate 1001 (text "x")))); rtail 0; rtail 4096; rtail 0; rtail 0] ++
  concat (replicate 999 [rtail 0; rtail 0; rtail 0]) ++ [rtail 0; rtail 0] ++
  [AMain false; AMain false; ACtxDone; AMain false].
Definition demo_stuck : agent world no_oauth2 SenderProperties.no_pki :=
  default (demo_agent main_plan) (demo_run main_plan burst).

Lemma shutdown_deadlock_witness :
  demo_run main_plan burst = Some demo_stuck /\ length (lines (rd (rd_ demo_stuck))) = 1000 /\
  forall a', agent_run SenderSystemProperties.double Background [ASender (LTick 0)] demo_stuck = Some a' ->
    plan a' = [AwaitReader; StopSender; AwaitSender; StopHealth; AwaitProcessing false].
Proof.
  split; [vm_compute; reflexivity|]. split; [vm_compute; reflexivity|]. intros a'.
  apply (shutdown_deadlock SenderSystemProperties.double Background (go_bytes "x")).
  split; [vm_compute; reflexivity|]. split; [vm_compute; reflexivity|].
  split; [vm_compute; reflexivity|]. split; [|vm_compute; reflexivity].
  apply Nat.leb_le. vm_compute. reflexivity.
Defined.

End AgentProperties.
