(* ===== verification/Startup.v ===== *)
(** * The agent programs, from the command line to the running agent

    Models the two [main] functions of the agents up to the moment they wait for
    a signal, [src/cmd/agent.go] and [src/cmd/agent/main.go] with its helpers
    [setupLogging], [setupTelemetry], [setupLogReader], [setupLogSender], and
    what they do to telemetry when they return.  A start-up is a program in a
    small monad: it has the state [boot] (what has been started so far) and may
    leave the process, with [os.Exit] (flag errors, [logger.Fatal]) or a panic.
    A running program is an agent of [Agent] over the readers of [Readers]. *)
From S2P Require Import Prelude GoStrings Host GoFlag Config Tls MapRange Telemetry Auth Encryption Slices Sender SenderSystem LogReader FileReader ReaderFactory Readers Health Agent.

(** ** Flags and logging *)

(** The flags both programs declare. *)
Definition agent_flags : flags :=
  {[ "config" := FString "config.yaml"; "metrics-addr" := FString ":8080";
     "log-level" := FString "info"; "log-format" := FString "json" ]}.

Inductive zap_level := DebugLevel | InfoLevel | WarnLevel | ErrorLevel.

#[global] Instance zap_level_eq_dec : EqDecision zap_level.
Proof. solve_decision. Defined.

(** The [switch] on the log level, the same in the three programs. *)
Definition zapLevel (logLevel : string) : zap_level :=
  if bool_decide (logLevel = "debug") then DebugLevel
  else if bool_decide (logLevel = "info") then InfoLevel
  else if bool_decide (logLevel = "warn") then WarnLevel
  else if bool_decide (logLevel = "error") then ErrorLevel
  else InfoLevel.

(** [zapcore.EncoderConfig] as far as it is set, and the logger. *)
Record encoder_config := mkEncoderConfig { development : bool; TimeKey : string; iso8601 : bool }.
Record zap_logger := mkLogger { log_level : zap_level; console : bool; encoder : encoder_config }.

(** [setupLogging] *)
Definition setupLogging (logLevel logFormat : string) : zap_logger :=
  let console := bool_decide (logFormat = "console") in
  mkLogger (zapLevel logLevel) console (mkEncoderConfig console "timestamp" true).

(** ** The surroundings and the state of a start-up *)

Record env := mkEnv {
  e_kube : kube;
  e_table : N -> N;                       (* Unicode's lower-case table *)
  e_ciphers : ciphers;
  e_host : host;
  e_unmarshal : bytes -> result Config.t;
  e_now : Z;
  e_sdk : otel_sdk;
  e_order : map_order string;
  e_readers : surroundings;
}.

(** What a running program consists of.  [line_ctx] is the context a line is
    forwarded with; [init_span] the tracer of the span of [cmd/agent.go]. *)
Record program (O : oauth2) (P : pki) := mkProgram {
  pr_config : Config.t;
  pr_logger : zap_logger;
  pr_health : HealthServer O;
  pr_agent : agent any_world O P;
  pr_manager : option TelemetryManager;
  pr_cleanup : option (option nat);       (* [None]: the variable is nil *)
  pr_init_span : option trace_Tracer;
}.
Arguments mkProgram {O P}.
Arguments pr_config {O P}.
Arguments pr_logger {O P}.
Arguments pr_health {O P}.
Arguments pr_agent {O P}.
Arguments pr_manager {O P}.
Arguments pr_cleanup {O P}.
Arguments pr_init_span {O P}.

(** What has been started: the telemetry providers, the health server, the
    reader's goroutine, the sender's. *)
Record boot := mkBoot {
  b_otel : otel;
  b_serving : bool;
  b_reading : bool;
  b_sending : bool;
}.

Definition boot_init : boot := mkBoot otel_init false false false.

Inductive outcome (A : Type) :=
| Running (a : A) (s : boot)
| Exited (code : Z) (s : boot)
| Crashed (msg : string) (s : boot).
Arguments Running {A}.
Arguments Exited {A}.
Arguments Crashed {A}.

Definition M (A : Type) : Type := boot -> outcome A.

#[global] Instance M_ret : MRet M := fun A a s => Running a s.
#[global] Instance M_bind : MBind M := fun A B k m s =>
  match m s with
  | Running a s => k a s
  | Exited c s => Exited c s
  | Crashed p s => Crashed p s
  end.

(** [if err != nil { logger.Fatal(...) }], that is [os.Exit(1)]. *)
Definition fatal {A} (r : result A) : M A := fun s =>
  match r with
  | Ok a => Running a s
  | Err _ => Exited 1 s
  | Panic p => Crashed p s
  end.

(** [flag.Parse()] *)
Definition parse_flags (fs : flags) (args : list string) : M flags := fun s =>
  match Parse fs args with
  | Parsed fs _ => Running fs s
  | Exits code => Exited code s
  end.

Definition serving : M unit := fun s => Running tt (mkBoot (b_otel s) true (b_reading s) (b_sending s)).
Definition reading : M unit := fun s => Running tt (mkBoot (b_otel s) (b_serving s) true (b_sending s)).
Definition sending : M unit := fun s => Running tt (mkBoot (b_otel s) (b_serving s) (b_reading s) true).
Definition on_otel {A} (f : otel -> otel * A) : M A := fun s =>
  let '(o, a) := f (b_otel s) in Running a (mkBoot o (b_serving s) (b_reading s) (b_sending s)).

(** ** Telemetry *)

(** The two configurations both programs derive from theirs. *)
Definition telConfig (c : TelemetryConfig.t) : TelConfig.t := {|
  TelConfig.ServiceName := TelemetryConfig.ServiceName c;
  TelConfig.ServiceVersion := TelemetryConfig.ServiceVersion c;
  TelConfig.ExporterType := TelemetryConfig.ExporterType c;
  TelConfig.ExporterEndpoint := TelemetryConfig.ExporterEndpoint c;
  TelConfig.ExporterTimeout := 30 * Second;
  TelConfig.SamplingRate := TelemetryConfig.SamplingRate c;
  TelConfig.PropagateContexts := true;
  TelConfig.Attributes := TelemetryConfig.Attributes c;
  TelConfig.DisableTelemetry := negb (TelemetryConfig.Enabled c);
|}.

Definition obsConfig (c : TelemetryConfig.t) : ObsConfig.t := {|
  ObsConfig.Enabled := TelemetryConfig.Enabled c;
  ObsConfig.ServiceName := TelemetryConfig.ServiceName c;
  ObsConfig.ServiceVersion := TelemetryConfig.ServiceVersion c;
  ObsConfig.ExporterType := TelemetryConfig.ExporterType c;
  ObsConfig.Endpoint := TelemetryConfig.ExporterEndpoint c;
  ObsConfig.Headers := TelemetryConfig.Attributes c;
  ObsConfig.SamplingRate := TelemetryConfig.SamplingRate c;
  ObsConfig.BatchTimeout := 5 * Second;
  ObsConfig.MaxExportBatchSize := 512;
  ObsConfig.MaxQueueSize := 2048;
|}.

Abbreviation telemetry := (option TelemetryManager * option (option nat))%type.

(** [cmd/agent.go]: an error of [Setup] leaves [telemetryCleanup] nil and the
    manager is started anyway; its error is only logged. *)
Definition agent_telemetry (E : env) (c : TelemetryConfig.t) (o : otel) : otel * telemetry :=
  if TelemetryConfig.Enabled c then
    let '(o, r) := Setup (e_sdk E) (e_order E) (telConfig c) o in
    let cleanup := match r with Ok cl => Some cl | _ => None end in
    let '(m, o, _) := Manager_Start (e_sdk E) (NewTelemetryManager (obsConfig c)) o in
    (o, (Some m, cleanup))
  else (o, (None, None)).

(** [setupTelemetry] of [cmd/agent/main.go]: after an error of [Setup] there is
    no manager. *)
Definition setupTelemetry (E : env) (c : TelemetryConfig.t) (o : otel) : otel * telemetry :=
  let '(o, r) := Setup (e_sdk E) (e_order E) (telConfig c) o in
  match r with
  | Ok cl =>
      let '(m, o, _) := Manager_Start (e_sdk E) (NewTelemetryManager (obsConfig c)) o in
      (o, (Some m, Some cl))
  | _ => (o, (None, Some None))
  end.

Definition main_telemetry (E : env) (c : TelemetryConfig.t) (o : otel) : otel * telemetry :=
  if TelemetryConfig.Enabled c then setupTelemetry E c o else (o, (None, None)).

(** ** Reader and sender *)

(** [key=value] for every entry, in the order of the iteration. *)
Definition selector (order : map_order string) (m : gmap string string) : string :=
  if (0 <? size m)%nat then Join (map (fun kv => kv.1 +:+ "=" +:+ kv.2) (range order m)) "," else "".

(** The source configuration of [cmd/agent.go], for a parsed source type. *)
Definition agent_source_config (E : env) (cfg : Config.t) (sourceType : string) : LogSourceConfig.t := {|
  LogSourceConfig.Type_ := sourceType;
  LogSourceConfig.Path := Config.LogPath cfg;
  LogSourceConfig.Namespace := Config.Namespace cfg;
  LogSourceConfig.PodName := Config.PodName cfg;
  LogSourceConfig.ContainerName := Config.ContainerName cfg;
  LogSourceConfig.PodSelector := selector (e_order E) (Config.PodSelector cfg);
  LogSourceConfig.NamespaceSelector := selector (e_order E) (Config.NamespaceSelector cfg);
  LogSourceConfig.WindowsEventLogName := Config.WindowsEventLogName cfg;
  LogSourceConfig.WindowsEventLogLevel := Config.WindowsEventLogLevel cfg;
  LogSourceConfig.MacOSLogQuery := Config.MacOSLogQuery cfg;
|}.

(** The reader of [cmd/agent.go]. *)
Definition agent_reader (E : env) (cfg : Config.t) : result (log_reader (e_kube E)) :=
  if negb (String.eqb (Config.LogSourceType cfg) "") then
    sourceType ← ParseSourceType (e_table E) (Config.LogSourceType cfg);
    NewReader (e_kube E) (e_host E) (agent_source_config E cfg sourceType)
  else Ok (FileLogReader (Config.LogPath cfg)).

Section programs.
Context {O : oauth2} {P : pki} (E : env) (hp : line_heap).

(** The sender both programs build, without its tracer. *)
Definition new_sender (cfg : Config.t) : result (HTTPSender O P * line_heap) :=
  let sec := Config.Security cfg in
  if TLSConfig.Enabled (SecurityConfig.TLS sec)
     || negb (bool_decide (AuthConfig.Type_ (SecurityConfig.Auth sec) = "none"))
     || EncryptionConfig.Enabled (SecurityConfig.Encryption sec)
  then NewSecureHTTPSender (e_table E) (e_ciphers E) (e_host E) (e_now E) hp cfg
  else NewHTTPSender hp (Config.ServerURL cfg) (Config.BatchSize cfg) (Config.FlushInterval cfg).

(** [setupLogReader]: [cmd/agent/main.go] builds and starts the reader. *)
Definition setupLogReader (cfg : Config.t) : result any_world :=
  r ← NewReader (e_kube E) (e_host E) (source_config cfg);
  start_reader (e_readers E) r.

(** [setupLogSender]: with telemetry, the tracer is the global provider's, which
    is never nil.  [Start] is [Agent.started]'s first loop. *)
Definition setupLogSender (cfg : Config.t) (m : option TelemetryManager)
    : result (HTTPSender O P * line_heap) :=
  '(s, hp) ← new_sender cfg;
  Ok (match m with Some _ => SetTelemetryTracer true s | None => s end, hp).

(** [main] of [src/cmd/agent.go], up to [<-sigCh]. *)
Definition agent_main (args : list string) : M (program O P) :=
  fs ← parse_flags agent_flags args;
  let logger := setupLogging (string_flag fs "log-level") (string_flag fs "log-format") in
  cfg ← fatal (LoadConfig (e_unmarshal E) (e_host E) (string_flag fs "config"));
  '(manager, cleanup) ← on_otel (agent_telemetry E (Config.Telemetry cfg));
  health ← fatal (setupHealthServer (e_host E) (string_flag fs "metrics-addr") cfg);
  _ ← serving;
  span ← on_otel (fun o => (o, match manager with Some _ => Some (Tracer o) | None => None end));
  r ← fatal (agent_reader E cfg);
  '(s, hp) ← fatal (new_sender cfg);
  let s := match manager with
           | Some m => SetTelemetryTracer (bool_decide (Manager_Tracer m <> None)) s
           | None => s
           end in
  w ← fatal (start_reader (e_readers E) r);
  _ ← reading;
  _ ← sending;
  mret (mkProgram cfg logger (SetReady true health) (started w s hp true agent_plan) manager cleanup span).

(** [main] of [src/cmd/agent/main.go], up to [<-sigCh] in [handleSignals]. *)
Definition main_main (args : list string) : M (program O P) :=
  fs ← parse_flags agent_flags args;
  let logger := setupLogging (string_flag fs "log-level") (string_flag fs "log-format") in
  cfg ← fatal (LoadConfig (e_unmarshal E) (e_host E) (string_flag fs "config"));
  '(manager, cleanup) ← on_otel (main_telemetry E (Config.Telemetry cfg));
  health ← fatal (setupHealthServer (e_host E) (string_flag fs "metrics-addr") cfg);
  _ ← serving;
  w ← fatal (setupLogReader cfg);
  _ ← reading;
  '(s, hp) ← fatal (setupLogSender cfg manager);
  _ ← sending;
  mret (mkProgram cfg logger health (started w s hp false main_plan) manager cleanup None).

End programs.

(** ** A line in [cmd/agent.go]

    What the goroutine of [src/cmd/agent.go] does with a line it has received:
    the Prometheus counters, the span, the send. *)
Record metrics := mkMetrics {
  logsProcessed : Z;
  latencies : Z;
  logsSent : Z;
  lineCount : Z;
  progress : list Z;     (* the counts that were logged *)
}.

(** The context of the send; with telemetry, a span of the manager's tracer. *)
Definition line_context (manager : option TelemetryManager) : result context :=
  match manager with
  | Some m => _ ← tracer_Start (Manager_Tracer m); Ok (WithSpan (Cancellable 0) "process_log_line")
  | None => Ok Background
  end.

Definition process_line {O P} (grow : nat -> nat) (manager : option TelemetryManager) (line : bytes)
    (st : system O P * metrics) : result (system O P * metrics) :=
  let '(y, x) := st in
  let x := mkMetrics (logsProcessed x + 1) (latencies x) (logsSent x) (lineCount x) (progress x) in
  ctx ← line_context manager;
  match exec grow (LSend ctx line) y with
  | Some y =>
      let n := wrap64 (lineCount x + 1) in
      Ok (y, mkMetrics (logsProcessed x) (latencies x + 1) (logsSent x + 1) n
               (progress x ++ if (n mod 1000 =? 0)%Z then [n] else []))
  | None => Panic "the process has crashed"
  end.

Fixpoint process_lines {O P} (grow : nat -> nat) (manager : option TelemetryManager)
    (lines : list bytes) (st : system O P * metrics) : result (system O P * metrics) :=
  match lines with
  | [] => Ok st
  | line :: lines => st ← process_line grow manager line st; process_lines grow manager lines st
  end.

(** ** Telemetry when the program returns *)

(** The end of [main] in [src/cmd/agent.go], and its deferred [initSpan.End()]. *)
Definition agent_exit {O P} (E : env) (p : program O P) (o : otel) : otel :=
  let o := match pr_manager p with Some m => (Manager_Shutdown (e_sdk E) m o).1 | None => o end in
  let o := match pr_cleanup p with Some c => run_cleanup (e_sdk E) c o | None => o end in
  match pr_init_span p with Some t => end_span t "init_reader" o | None => o end.

(** The deferred [telemetryCleanup()] of [src/cmd/agent/main.go]. *)
Definition main_exit {O P} (E : env) (p : program O P) (o : otel) : otel :=
  match pr_cleanup p with Some c => run_cleanup (e_sdk E) c o | None => o end.

(** ** Lemmas *)

Lemma bind_running {A B} (m : M A) (k : A -> M B) s b s' :
  (m ≫= k) s = Running b s' <-> exists a s1, m s = Running a s1 /\ k a s1 = Running b s'.
Proof. unfold mbind, M_bind. destruct (m s); naive_solver. Qed.

Lemma fatal_running {A} (r : result A) s a s' : fatal r s = Running a s' <-> r = Ok a /\ s' = s.
Proof. unfold fatal. destruct r; naive_solver. Qed.

Lemma parse_running fs args s fs' s' :
  parse_flags fs args s = Running fs' s' <-> (exists rest, Parse fs args = Parsed fs' rest) /\ s' = s.
Proof. unfold parse_flags. destruct (Parse fs args); naive_solver. Qed.

(** [NewReader] does not look at the selectors. *)
Lemma NewReader_selectors K h E cfg :
  NewReader K h (agent_source_config E cfg (Config.LogSourceType cfg)) = NewReader K h (source_config cfg).
Proof. reflexivity. Qed.

Lemma ParseSourceType_id table t : t ∈ source_types -> ParseSourceType table t = Ok t.
Proof.
  unfold source_types. rewrite !elem_of_cons, elem_of_nil.
  intros [->|[->|[->|[->|[->|[]]]]]]; reflexivity.
Qed.

Section lemmas.
Context {O : oauth2} {P : pki} (E : env) (hp : line_heap).

(** A step of a start-up that only looks at the telemetry state and the flags
    of what is running. *)
Ltac run_inv :=
  repeat match goal with
  | H : mbind _ _ _ = Running _ _ |- _ => apply bind_running in H as (? & ? & ? & H)
  | H : fatal _ _ = Running _ _ |- _ => apply fatal_running in H as [? ->]
  | H : parse_flags _ _ _ = Running _ _ |- _ => apply parse_running in H as [[? ?] ->]
  | H : serving _ = Running _ _ |- _ => injection H as <- <-
  | H : reading _ = Running _ _ |- _ => injection H as <- <-
  | H : sending _ = Running _ _ |- _ => injection H as <- <-
  | H : mret _ _ = Running _ _ |- _ => injection H as <- <-
  | x : (_ * _)%type |- _ => destruct x
  end.

(** What is known of a running program of either kind. *)
Record program_ok (p : program O P) (fs : flags) (s : HTTPSender O P) (hp' : line_heap) (w : any_world)
    (r : log_reader (e_kube E)) (ready_ : bool) (pl : list action) : Prop := {
  po_config : LoadConfig (e_unmarshal E) (e_host E) (string_flag fs "config") = Ok (pr_config p);
  po_logger : pr_logger p = setupLogging (string_flag fs "log-level") (string_flag fs "log-format");
  po_health : exists hs, setupHealthServer (e_host E) (string_flag fs "metrics-addr") (pr_config p) = Ok hs /\
    pr_health p = SetReady ready_ hs;
  po_reader : start_reader (e_readers E) r = Ok w;
  po_sender : exists s0, new_sender E hp (pr_config p) = Ok (s0, hp') /\
    exists t, s = SetTelemetryTracer t s0;
  po_agent : pr_agent p = started w s hp' ready_ pl;
}.

Lemma SetTelemetryTracer_same (s : HTTPSender O P) : s = SetTelemetryTracer (tracer s) s.
Proof. by destruct s. Qed.

Lemma SetReady_same (hs : HealthServer O) : ready hs = false -> hs = SetReady false hs.
Proof. destruct hs; simpl. by intros ->. Qed.

Lemma agent_main_inv args b p st :
  agent_main E hp args b = Running p st ->
  exists fs rest s hp' w r, Parse agent_flags args = Parsed fs rest /\
    agent_reader E (pr_config p) = Ok r /\ program_ok p fs s hp' w r true agent_plan /\
    (b_otel st, (pr_manager p, pr_cleanup p)) =
      agent_telemetry E (Config.Telemetry (pr_config p)) (b_otel b) /\
    pr_init_span p = match pr_manager p with Some _ => Some (Tracer (b_otel st)) | None => None end.
Proof.
  unfold agent_main, on_otel. intros H. run_inv.
  destruct (agent_telemetry E _ (b_otel b)) as [o1 tel] eqn:Et; simplify_eq/=.
  do 6 eexists. split; [done|]. split; [done|].
  split; [|done]. split; simpl; try done; [eauto|]. eexists. split; [done|].
  match goal with |- context [match ?m with Some _ => _ | None => _ end] => destruct m end; eauto.
  eexists. apply SetTelemetryTracer_same.
Qed.

Lemma main_main_inv args b p st :
  main_main E hp args b = Running p st ->
  exists fs rest s hp' w r, Parse agent_flags args = Parsed fs rest /\
    NewReader (e_kube E) (e_host E) (source_config (pr_config p)) = Ok r /\
    program_ok p fs s hp' w r false main_plan /\
    (b_otel st, (pr_manager p, pr_cleanup p)) =
      main_telemetry E (Config.Telemetry (pr_config p)) (b_otel b).
Proof.
  unfold main_main, on_otel, setupLogReader, setupLogSender. intros H. run_inv.
  destruct (main_telemetry E _ (b_otel b)) as [o1 tel] eqn:Et; simplify_eq/=.
  repeat match goal with H : mbind _ _ = Ok _ |- _ => apply bind_ok in H as (? & ? & ?) end.
  run_inv. simplify_eq/=. do 6 eexists. split; [done|]. split; [done|].
  split; [|done]. split; simpl; try done.
  - eexists. split; [done|]. apply SetReady_same.
    by match goal with H : setupHealthServer _ _ _ = Ok _ |- _ => apply setup_auth in H as [-> _] end.
  - eexists. split; [done|].
    match goal with |- context [match ?m with Some _ => _ | None => _ end] => destruct m end; eauto.
    eexists. apply SetTelemetryTracer_same.
Qed.

End lemmas.

(** The two programs. *)
Inductive command := CmdAgent | CmdAgentMain.

Definition program_main {O P} (c : command) (E : env) (hp : line_heap) (args : list string)
    : M (program O P) :=
  match c with CmdAgent => agent_main E hp args | CmdAgentMain => main_main E hp args end.

Definition command_plan (c : command) : list action :=
  match c with CmdAgent => agent_plan | CmdAgentMain => main_plan end.
Definition command_ready (c : command) : bool :=
  match c with CmdAgent => true | CmdAgentMain => false end.

(** The sender has exactly the protections the configuration asks for. *)
Definition protected {O P} (cfg : Config.t) (s : HTTPSender O P) : Prop :=
  let sec := Config.Security cfg in
  serverURL s = Config.ServerURL cfg /\ (1 <= batchSize s)%Z /\
  (is_Some (TLSClientConfig (client s)) <-> TLSConfig.Enabled (SecurityConfig.TLS sec) = true) /\
  (is_Some (authProvider s) <-> AuthConfig.Type_ (SecurityConfig.Auth sec) <> "none") /\
  (is_Some (encryptionProvider s) <-> EncryptionConfig.Enabled (SecurityConfig.Encryption sec) = true).

(** The reader each program builds. *)
Definition program_reader (c : command) (E : env) (cfg : Config.t) : result (log_reader (e_kube E)) :=
  match c with
  | CmdAgent => agent_reader E cfg
  | CmdAgentMain => NewReader (e_kube E) (e_host E) (source_config cfg)
  end.

Lemma program_main_ok {O P} c E hp args b (p : program O P) st :
  program_main c E hp args b = Running p st ->
  exists fs rest s hp' w r, Parse agent_flags args = Parsed fs rest /\
    program_reader c E (pr_config p) = Ok r /\
    program_ok E hp p fs s hp' w r (command_ready c) (command_plan c).
Proof.
  destruct c; simpl.
  - intros (fs & rest & s & hp' & w & r & ? & ? & ? & _)%agent_main_inv. by exists fs, rest, s, hp', w, r.
  - intros (fs & rest & s & hp' & w & r & ? & ? & ? & _)%main_main_inv. by exists fs, rest, s, hp', w, r.
Qed.

Lemma new_sender_ok {O P} E hp path cfg (s : HTTPSender O P) hp' :
  LoadConfig (e_unmarshal E) (e_host E) path = Ok cfg -> new_sender E hp cfg = Ok (s, hp') ->
  fresh s hp' /\ protected cfg s.
Proof.
  intros (raw & -> & _)%LoadConfig_inv. set (cfg := set_defaults _ raw) in *.
  assert (Config.BatchSize cfg <> 0%Z) as Hb by (by destruct (set_defaults_defaulted (e_host E) raw)).
  unfold new_sender, protected. clearbody cfg. case_bool_decide as Ha.
  - destruct (TLSConfig.Enabled _) eqn:Ht; simpl;
      [|destruct (EncryptionConfig.Enabled _) eqn:He; simpl].
    + intros H. destruct (SenderProperties.secure_sender_fields _ _ _ _ _ _ _ _ H Hb)
        as (? & ? & ? & ? & ? & ? & ? & _ & H1 & H2 & H3).
      rewrite Ht in H1. split; [done|]. split_and!; tauto.
    + intros H. destruct (SenderProperties.secure_sender_fields _ _ _ _ _ _ _ _ H Hb)
        as (? & ? & ? & ? & ? & ? & ? & _ & H1 & H2 & H3).
      rewrite Ht in H1. rewrite He in H3. split; [done|]. split_and!; tauto.
    + intros H. destruct (NewHTTPSender_fresh _ _ _ _ _ _ H) as [Hf Hn]. split; [done|].
      unfold NewHTTPSender in H. apply bind_ok in H as (bt & _ & [= <- _]). simpl in *.
      split_and!; try done; split; try done; by intros [? ?].
  - rewrite orb_true_r. simpl. intros H.
    destruct (SenderProperties.secure_sender_fields _ _ _ _ _ _ _ _ H Hb)
      as (? & ? & ? & ? & ? & ? & ? & _ & H1 & H2 & H3).
    split; [done|]. split_and!; tauto.
Qed.

Lemma SetTelemetryTracer_keeps {O P} t cfg (s : HTTPSender O P) hp :
  fresh s hp /\ protected cfg s -> fresh (SetTelemetryTracer t s) hp /\ protected cfg (SetTelemetryTracer t s).
Proof. done. Qed.

(** A running program is an agent that has received nothing, over the reader its
    configuration names, with a sender that has exactly the protections it names. *)
Lemma program_started {O P} c E hp args b (p : program O P) st :
  program_main c E hp args b = Running p st ->
  exists s hp' w r, program_reader c E (pr_config p) = Ok r /\ start_reader (e_readers E) r = Ok w /\
    pr_agent p = started w s hp' (command_ready c) (command_plan c) /\
    fresh s hp' /\ protected (pr_config p) s /\ taken w = [].
Proof.
  intros (fs & rest & s & hp' & w & r & _ & Hr & [Hc _ _ Hw (s0 & Hs & t & ->) ->])%program_main_ok.
  destruct (SetTelemetryTracer_keeps t _ _ _ (new_sender_ok E hp _ _ _ _ Hc Hs)) as [Hf Hpr].
  destruct (start_reader_fresh _ _ _ Hw) as (Ht & _). by exists (SetTelemetryTracer t s0), hp', w, r.
Qed.

(** ** When each program runs *)

(** What must hold for a program to get to its signal handler, apart from the
    reader it builds. *)
Definition startable {O P} (E : env) (hp : line_heap) (args : list string) (cfg : Config.t) : Prop :=
  exists fs rest, Parse agent_flags args = Parsed fs rest /\
    LoadConfig (e_unmarshal E) (e_host E) (string_flag fs "config") = Ok cfg /\
    is_ok (setupHealthServer (O := O) (e_host E) (string_flag fs "metrics-addr") cfg) = true /\
    is_ok (new_sender (O := O) (P := P) E hp cfg) = true.

Lemma is_ok_inv {A} (m : result A) : is_ok m = true <-> exists a, m = Ok a.
Proof. destruct m; naive_solver. Qed.

Lemma program_startable {O P} E hp args (p : program O P) fs rest s hp' w r ready_ pl :
  Parse agent_flags args = Parsed fs rest -> program_ok E hp p fs s hp' w r ready_ pl ->
  startable (O := O) (P := P) E hp args (pr_config p) /\ can_start (e_readers E) r = true.
Proof.
  intros Hp [Hc _ (hs & Hh & _) Hw (s0 & Hs & _) _]. split.
  - exists fs, rest. by rewrite Hh, Hs.
  - by rewrite <- start_reader_ok, Hw.
Qed.

Lemma agent_main_runs {O P} E hp args b :
  (exists (p : program O P) st, agent_main E hp args b = Running p st) <->
  exists cfg r, startable (O := O) (P := P) E hp args cfg /\ agent_reader E cfg = Ok r /\
    can_start (e_readers E) r = true.
Proof.
  split.
  - intros (p & st & (fs & rest & s & hp' & w & r & Hp & Hr & Hok & _)%agent_main_inv).
    destruct (program_startable E hp args p fs rest s hp' w r _ _ Hp Hok). by exists (pr_config p), r.
  - intros (cfg & r & (fs & rest & Hp & Hc & [hs Hh]%is_ok_inv & [[s hp'] Hs]%is_ok_inv) & Hr & Hst).
    rewrite <- start_reader_ok in Hst. apply is_ok_inv in Hst as [w Hw].
    unfold agent_main, on_otel, mbind, M_bind, fatal, parse_flags. rewrite Hp, Hc.
    destruct (agent_telemetry E (Config.Telemetry cfg) (b_otel b)) as [o [m cl]].
    rewrite Hh; simpl. rewrite Hr, Hs, Hw. by do 2 eexists.
Qed.

Lemma main_main_runs {O P} E hp args b :
  (exists (p : program O P) st, main_main E hp args b = Running p st) <->
  exists cfg r, startable (O := O) (P := P) E hp args cfg /\
    NewReader (e_kube E) (e_host E) (source_config cfg) = Ok r /\
    can_start (e_readers E) r = true.
Proof.
  split.
  - intros (p & st & (fs & rest & s & hp' & w & r & Hp & Hr & Hok & _)%main_main_inv).
    destruct (program_startable E hp args p fs rest s hp' w r _ _ Hp Hok). by exists (pr_config p), r.
  - intros (cfg & r & (fs & rest & Hp & Hc & [hs Hh]%is_ok_inv & [[s hp'] Hs]%is_ok_inv) & Hr & Hst).
    rewrite <- start_reader_ok in Hst. apply is_ok_inv in Hst as [w Hw].
    unfold main_main, on_otel, mbind, M_bind, fatal, parse_flags. rewrite Hp, Hc.
    destruct (main_telemetry E (Config.Telemetry cfg) (b_otel b)) as [o [m cl]].
    rewrite Hh; simpl. unfold setupLogReader, setupLogSender. rewrite Hr; simpl. rewrite Hw, Hs; simpl.
    by do 2 eexists.
Qed.

(** ** The loop over the lines *)

Lemma process_lines_counts {O P} grow m lines (y : system O P) x y' x' :
  process_lines grow m lines (y, x) = Ok (y', x') ->
  (0 <= lineCount x)%Z -> (lineCount x + zlen lines < 2 ^ 63)%Z ->
  (accepted y' = accepted y ++ lines /\
   logsProcessed x' = logsProcessed x + zlen lines /\ logsSent x' = logsSent x + zlen lines /\
   latencies x' = latencies x + zlen lines /\ lineCount x' = lineCount x + zlen lines /\
   zlen (progress x') = zlen (progress x) + lineCount x' / 1000 - lineCount x / 1000)%Z.
Proof.
  revert y x. induction lines as [|line lines IH]; intros y x; simpl.
  { intros [= <- <-] _ _. rewrite app_nil_r. unfold zlen; simpl. split_and!; lia || done. }
  destruct (line_context m) as [ctx| |]; simpl; try done.
  destruct (exec grow (LSend ctx line) y) as [y1|] eqn:Ey; simpl; [|done]. intros H Hn Hlen.
  change (zlen (line :: lines)) with (Z.of_nat (S (length lines))) in *. rewrite Nat2Z.inj_succ in *.
  fold (zlen lines) in *. pose proof (zlen_nonneg lines).
  rewrite !(wrap64_id (lineCount x + 1)) in H by (unfold int64_range; lia).
  destruct (IH _ _ H) as (H1 & H2 & H3 & H4 & H5 & H6); simpl in *; try lia.
  apply exec_history in Ey as (Ea & _).
  split; [by rewrite H1, Ea, <- (assoc_L (++))|]. split_and!; try lia. rewrite H6, zlen_app, H5.
  destruct (Z.eqb_spec ((lineCount x + 1) mod 1000) 0); unfold zlen at 2; simpl length;
    Z.to_euclidean_division_equations; lia.
Qed.

(** ** Telemetry of a running program *)

Lemma agent_telemetry_manager E c o o' m cl :
  agent_telemetry E c o = (o', (m, cl)) ->
  (TelemetryConfig.Enabled c = false /\ o' = o /\ m = None /\ cl = None) \/
  (TelemetryConfig.Enabled c = true /\ exists o1 r1 m1 r2, m = Some m1 /\
     Setup (e_sdk E) (e_order E) (telConfig c) o = (o1, r1) /\
     cl = (match r1 with Ok cl => Some cl | _ => None end) /\
     Manager_Start (e_sdk E) (NewTelemetryManager (obsConfig c)) o1 = (m1, o', r2)).
Proof.
  unfold agent_telemetry. destruct (TelemetryConfig.Enabled c) eqn:En; [|intros [= <- <- <-]; by left].
  destruct (Setup _ _ _ o) as [o1 r1] eqn:Es. destruct (Manager_Start _ _ o1) as [[m1 o2] r2] eqn:Em.
  intros [= <- <- <-]. right. split; [done|]. by exists o1, r1, m1, r2.
Qed.

(** The telemetry section of a loaded configuration leaves the manager nothing
    to fill in. *)
Lemma loaded_obs_complete unmarshal h path cfg :
  LoadConfig unmarshal h path = Ok cfg -> obs_complete (obsConfig (Config.Telemetry cfg)).
Proof.
  intros (raw & -> & _)%LoadConfig_inv.
  destruct (set_defaults_defaulted h raw) as (_ & _ & _ & _ & ? & ? & ? & ? & ? & Ha & _).
  split_and!; try done. simpl. by destruct (TelemetryConfig.Attributes _); [eexists|].
Qed.

(** The providers of a program of [cmd/agent.go] that started without any. *)
Definition all_shut (o : otel) : Prop := forall i, i < length (providers o) -> i ∈ down o.

Lemma agent_shuts_down E c o' m cl o :
  agent_telemetry E c otel_init = (o', (m, cl)) ->
  providers o = providers o' -> down o = down o' ->
  let o1 := match m with Some m => (Manager_Shutdown (e_sdk E) m o).1 | None => o end in
  let o2 := match cl with Some c => run_cleanup (e_sdk E) c o1 | None => o1 end in
  all_shut o2 /\ recorded o2 = recorded o /\
  (forall i, global o' = Some i -> i < length (providers o2)).
Proof.
  intros [(_ & -> & -> & ->)|(En & o1 & r1 & m1 & r2 & -> & Es & -> & Em)]%agent_telemetry_manager Hp Hd.
  { simpl. unfold all_shut. rewrite Hp. simpl. split_and!; [lia|done|done]. }
  apply Setup_cases in Es. apply Manager_Start_cases in Em as [_ Em]. simpl in *. rewrite En in Es.
  destruct Es as [(-> & Hr)|(_ & -> & q & -> & _)], Em as [(-> & Ht & _)|(_ & _ & _ & Ht & _ & q' & -> & _)];
    unfold Manager_Shutdown, all_shut; rewrite Ht; simpl in *; rewrite ?Hp, ?Hd.
  all: try (destruct Hr as [[_ ?]|(e & -> & _)]; [done|]); simpl; rewrite ?Hp, ?Hd; simpl.
  - split_and!; [lia|done|done].
  - split_and!; [|done|intros i [= <-]; lia]. intros i Hi. assert (i = 0) as -> by lia. left.
  - split_and!; [|done|intros i [= <-]; lia]. intros i Hi. assert (i = 0) as -> by lia. left.
  - split_and!; [|done|intros i [= <-]; lia]. intros [|[|i]] Hi; [left|right; left|lia].
Qed.

Module StartupProperties.

(** C2. From the command line to the batches.  Whenever either program gets as far
    as waiting for a signal, whatever its arguments, its configuration, its
    source and its surroundings: in every state the agent can reach, under every
    schedule, the batches handed out, the pending batch and the line being
    forwarded are exactly the lines received from the reader, in order; and the
    sender it started with has the address and exactly the protections (TLS,
    authentication, encryption) the loaded configuration asks for. *)
Theorem program_forwards {O P} c E hp args b (p : program O P) st grow ctx a :
  program_main c E hp args b = Running p st -> (forall n, (n <= grow n)%nat) ->
  agent_reachable grow ctx (pr_agent p) a ->
  concat (dispatched (sys_ a)) ++ pending (sys_ a) ++ held a = taken (rd_ a) /\
  protected (pr_config p) (snd_ (sys_ (pr_agent p))) /\
  taken (rd_ (pr_agent p)) = [].
Proof.
  intros (s & hp' & w & r & _ & _ & -> & Hf & Hpr & Ht)%program_started Hg Hr.
  destruct (agent_inv_reachable grow Hg ctx _ _ a (started_inv grow Hg w _ _ _ _ Hf Ht) Hr) as [Hd _ Hfl].
  split; [|done]. by rewrite <- Hfl, <- (inv_order _ _ Hd), <- (assoc_L (++)).
Qed.

(** C23. The two programs start under the same conditions: if the loaded source type
    is one of the five names, either both get to their signal handler or
    neither does. *)
Theorem programs_agree {O P} E hp args b :
  (forall fs rest cfg, Parse agent_flags args = Parsed fs rest ->
     LoadConfig (e_unmarshal E) (e_host E) (string_flag fs "config") = Ok cfg ->
     Config.LogSourceType cfg ∈ source_types) ->
  (exists (p : program O P) st, agent_main E hp args b = Running p st) <->
  (exists (p : program O P) st, main_main E hp args b = Running p st).
Proof.
  intros Ht. rewrite agent_main_runs, main_main_runs.
  assert (forall cfg, startable (O := O) (P := P) E hp args cfg ->
    agent_reader E cfg = NewReader (e_kube E) (e_host E) (source_config cfg)) as Heq.
  { intros cfg (fs & rest & Hp & Hc & _). pose proof (Ht fs rest cfg Hp Hc) as Hin.
    unfold agent_reader. rewrite (ParseSourceType_id _ _ Hin). simpl. rewrite NewReader_selectors.
    destruct (String.eqb_spec (Config.LogSourceType cfg) "") as [E0|_]; [|done].
    rewrite E0 in Hin. unfold source_types in Hin. rewrite !elem_of_cons, elem_of_nil in Hin.
    by repeat destruct Hin as [Hin|Hin]. }
  split; intros (cfg & r & Hs & Hr & Hc); exists cfg, r; (split; [done|]); split; try done.
  - by rewrite <- (Heq cfg Hs).
  - by rewrite (Heq cfg Hs).
Qed.

(** C37. What happens to the first line in [cmd/agent.go].  A program that starts
    reports itself ready, whether or not its observability manager could be
    started.  If telemetry is enabled and it could not (the exporter type is none
    of [grpc], [http] and [none], which loading lets pass, or the SDK refused the
    resource or the exporter) the manager's tracer is nil and forwarding any line
    crashes the process; in every other case there are lines it forwards. *)
Theorem agent_first_line {O P} E hp args b (p : program O P) st :
  agent_main E hp args b = Running p st ->
  let tel := Config.Telemetry (pr_config p) in
  ready (pr_health p) = true /\
  ((TelemetryConfig.Enabled tel = true /\ start_fails (e_sdk E) (obsConfig tel)) <->
   forall grow line (y : system O P) x, is_panic (process_line grow (pr_manager p) line (y, x)) = true).
Proof.
  intros (fs & rest & s & hp' & w & r & _ & _ & Hok & Htel & _)%agent_main_inv c.
  destruct (po_health _ _ _ _ _ _ _ _ _ _ Hok) as (hs & _ & ->). split; [done|].
  pose proof (loaded_obs_complete _ _ _ _ (po_config _ _ _ _ _ _ _ _ _ _ Hok)) as Hcomp.
  symmetry in Htel. fold c in Htel, Hcomp. set (y0 := sys_ (pr_agent p)).
  assert (forall ctx, exec (fun n => n) (LSend ctx []) y0 <> None) as Hy0.
  { intros ctx. subst y0. rewrite (po_agent _ _ _ _ _ _ _ _ _ _ Hok). done. }
  apply agent_telemetry_manager in Htel as [(-> & _ & Hm & _)|(En & o1 & r1 & m1 & r2 & Hm & _ & _ & Em)];
    rewrite Hm.
  - split; [by intros [? _]|]. intros H. specialize (H (fun n => n) [] y0 (mkMetrics 0 0 0 0 [])).
    unfold process_line in H. simpl in H. specialize (Hy0 Background). by destruct (exec _ _ y0).
  - destruct (Manager_Start_tracer _ _ _ _ _ _ Hcomp Em) as [Htr _].
    destruct (mgr_tracer m1) as [t|] eqn:Ht.
    + split; [by intros ?%Htr|]. intros H. specialize (H (fun n => n) [] y0 (mkMetrics 0 0 0 0 [])).
      unfold process_line, line_context, Manager_Tracer in H. rewrite Ht in H. simpl in H.
      specialize (Hy0 (WithSpan (Cancellable 0) "process_log_line")). by destruct (exec _ _ y0).
    + split; [|by intros _; apply Htr].
      intros _ grow line y x. unfold process_line, line_context, Manager_Tracer. by rewrite Ht.
Qed.

(** The loop of [cmd/agent.go] over any lines: each is handed to the sender, in
    order, and the counters [tailpost_logs_processed_total],
    [tailpost_logs_sent_total] and the latencies all count every line handed
    over, delivered or not; every thousandth is logged. *)
Theorem counters_agree {O P} grow m lines (y y' : system O P) x :
  process_lines grow m lines (y, mkMetrics 0 0 0 0 []) = Ok (y', x) -> (zlen lines < 2 ^ 63)%Z ->
  accepted y' = accepted y ++ lines /\
  logsProcessed x = zlen lines /\ logsSent x = zlen lines /\ latencies x = zlen lines /\
  zlen (progress x) = (zlen lines / 1000)%Z.
Proof.
  intros H Hlen. destruct (process_lines_counts grow m lines y (mkMetrics 0 0 0 0 []) y' x H)
    as (H1 & H2 & H3 & H4 & H5 & H6); simpl in *; try lia.
  split_and!; try done; try lia. by rewrite H6, H5, Z.sub_0_r.
Qed.

(** Telemetry when [cmd/agent.go] returns: every provider it has set up is shut
    down, so the spans they took are exported; but the span of the reader's
    initialisation is ended by a deferred call, after its provider was shut
    down, and no provider takes it. *)
Theorem agent_telemetry_shut {O P} E hp args (p : program O P) st o :
  agent_main E hp args boot_init = Running p st ->
  providers o = providers (b_otel st) -> down o = down (b_otel st) ->
  all_shut (agent_exit E p o) /\ recorded (agent_exit E p o) = recorded o.
Proof.
  intros (fs & rest & s & hp' & w & r & _ & _ & _ & Htel & Hspan)%agent_main_inv Hp Hd.
  symmetry in Htel. destruct (agent_shuts_down E _ _ _ _ o Htel Hp Hd) as (H1 & H2 & H3).
  unfold agent_exit. rewrite Hspan. set (o2 := match pr_cleanup p with Some _ => _ | None => _ end) in *.
  destruct (pr_manager p) as [m|]; [|done]. unfold Tracer, otel_Tracer, end_span.
  destruct (global (b_otel st)) as [i|] eqn:Eg; [|done].
  rewrite bool_decide_eq_true_2; [done|]. apply H1, H3. done.
Qed.

(** C38. Telemetry when [cmd/agent/main.go] returns: if the observability manager set
    up a provider, that provider is the global one, whose tracer the sender
    uses, and nobody shuts it down: the clean-up reaches only the provider of
    [telemetry.Setup], and spans still buffered are lost. *)
Theorem main_telemetry_left_open {O P} E hp args (p : program O P) st m i :
  main_main E hp args boot_init = Running p st ->
  pr_manager p = Some m -> tp m = Some i ->
  Tracer (b_otel st) = SdkTracer i /\ i ∉ down (main_exit E p (b_otel st)).
Proof.
  intros (fs & rest & s & hp' & w & r & _ & _ & _ & Htel)%main_main_inv Hm Hi.
  unfold main_telemetry, setupTelemetry in Htel. rewrite Hm in Htel.
  destruct (TelemetryConfig.Enabled _) eqn:En; [|done]. simpl in Htel.
  destruct (Setup _ _ _ otel_init) as [o1 r1] eqn:Es. destruct r1 as [cl| |]; [|by simplify_eq..].
  destruct (Manager_Start _ _ o1) as [[m1 o2] r2] eqn:Em. injection Htel as Ho <- Hcl.
  apply Manager_Start_cases in Em as [_ [(_ & Ht & _)|(_ & _ & _ & Ht & _ & q & -> & _)]]; [congruence|].
  rewrite Ht in Hi. injection Hi as <-. unfold main_exit. rewrite Ho, Hcl. split; [done|].
  apply Setup_cases in Es. simpl in Es. rewrite En in Es.
  destruct Es as [(_ & [[_ ?]|(? & ? & _)])|(_ & [= ->] & q' & -> & _)]; try done. simpl. set_solver.
Qed.

(** ** Concrete start-ups *)

Import FileReader FileReaderProperties.

Definition demo_env (raw : Config.t) : env :=
  mkEnv ReaderFactoryProperties.in_cluster id toy_ciphers ConfigProperties.example_host
    (fun _ => Ok raw) 0 TelemetryProperties.accepting canonical_order
    (mkSurroundings (fun _ => demo_fs) no_faults (Ok tt) (Ok tt)).

Definition with_telemetry (t : TelemetryConfig.t) (c : Config.t) : Config.t :=
  Config.mk (Config.LogPath c) (Config.ServerURL c) (Config.BatchSize c) (Config.FlushInterval c)
    (Config.LogSourceType c) (Config.Namespace c) (Config.PodName c) (Config.ContainerName c)
    (Config.PodSelector c) (Config.NamespaceSelector c) (Config.WindowsEventLogName c)
    (Config.WindowsEventLogLevel c) (Config.MacOSLogQuery c) t (Config.Security c).
Definition with_source (ty path : string) (c : Config.t) : Config.t :=
  Config.mk path (Config.ServerURL c) (Config.BatchSize c) (Config.FlushInterval c)
    ty (Config.Namespace c) (Config.PodName c) (Config.ContainerName c)
    (Config.PodSelector c) (Config.NamespaceSelector c) (Config.WindowsEventLogName c)
    (Config.WindowsEventLogLevel c) (Config.MacOSLogQuery c) (Config.Telemetry c) (Config.Security c).

Definition plain_config : Config.t := ConfigProperties.raw_example.
(** The telemetry section of [docker/test/config.test.yaml], and the same with a
    type the manager knows. *)
Definition telemetry_config (ty : string) : Config.t :=
  with_telemetry (TelemetryConfig.mk true "tailpost-test" "1.0.0" ty "" float_one false
    (Some {[ "environment" := "test" ]})) plain_config.

Abbreviation demo_program := (program no_oauth2 SenderProperties.no_pki).
Definition demo_start (c : command) (raw : Config.t) : outcome demo_program :=
  program_main c (demo_env raw) [] ["-metrics-addr=:9090"] boot_init.

Definition start_state (r : outcome demo_program) : boot :=
  match r with Running _ s | Exited _ s | Crashed _ s => s end.

(** The program of a start-up that succeeds. *)
Definition demo_default : demo_program :=
  mkProgram plain_config (setupLogging "" "") (NewHealthServer "")
    (started (fresh_reader (K := ReaderFactoryProperties.in_cluster)
                (mkSurroundings (fun _ => demo_fs) no_faults (Ok tt) (Ok tt)) (FileLogReader ""))
       SenderSystemProperties.demo_sender [] false []) None None None.
Definition the_program (r : outcome demo_program) : demo_program :=
  match r with Running p _ => p | _ => demo_default end.

Definition demo_labels : list (agent_label (W := any_world) (P := SenderProperties.no_pki)) :=
  [AReader (inl (LAppend 0 (text "a"))); AReader (inl (tail 0)); AReader (inl (tail 9));
   AReader (inl (tail 0)); AReader (inl (tail 0)); AReceive; AForward].

Definition demo_agent_after : agent any_world no_oauth2 SenderProperties.no_pki :=
  let a := pr_agent (the_program (demo_start CmdAgent plain_config)) in
  default a (agent_run SenderSystemProperties.double Background demo_labels a).

Lemma program_forwards_witness :
  taken (rd_ demo_agent_after) = [go_bytes "a"] /\
  concat (dispatched (sys_ demo_agent_after)) ++ pending (sys_ demo_agent_after) ++ held demo_agent_after
    = taken (rd_ demo_agent_after).
Proof.
  split; [vm_compute; reflexivity|].
  apply (program_forwards CmdAgent (demo_env plain_config) [] ["-metrics-addr=:9090"] boot_init
    (the_program (demo_start CmdAgent plain_config)) (start_state (demo_start CmdAgent plain_config))
    SenderSystemProperties.double Background demo_agent_after).
  - vm_compute. reflexivity.
  - exact SenderSystemProperties.double_ok.
  - apply (agent_run_reachable SenderSystemProperties.double Background _ demo_labels
      (pr_agent (the_program (demo_start CmdAgent plain_config)))); [apply agent_here|].
    vm_compute. reflexivity.
Defined.

Lemma programs_agree_witness :
  exists (p : demo_program) st,
    main_main (demo_env plain_config) [] ["-metrics-addr=:9090"] boot_init = Running p st.
Proof.
  refine (proj1 (programs_agree (demo_env plain_config) [] ["-metrics-addr=:9090"] boot_init _) _).
  - intros fs rest cfg HP HL. vm_compute in HP. injection HP as <- <-. vm_compute in HL.
    injection HL as <-. apply elem_of_cons. left. reflexivity.
  - exists (the_program (demo_start CmdAgent plain_config)), (start_state (demo_start CmdAgent plain_config)).
    vm_compute. reflexivity.
Defined.

(** The programs do not agree on how a source type may be written: with
    [log_source_type: FILE], which loading accepts, [cmd/agent.go] runs and
    [cmd/agent/main.go] exits with status 1. *)
Theorem source_type_case :
  let raw := with_source "FILE" "/var/log/app.log" plain_config in
  (exists p st, demo_start CmdAgent raw = Running p st) /\
  exists st, demo_start CmdAgentMain raw = Exited 1 st.
Proof.
  split.
  - exists (the_program (demo_start CmdAgent (with_source "FILE" "/var/log/app.log" plain_config))),
      (start_state (demo_start CmdAgent (with_source "FILE" "/var/log/app.log" plain_config))).
    vm_compute. reflexivity.
  - exists (start_state (demo_start CmdAgentMain (with_source "FILE" "/var/log/app.log" plain_config))).
    vm_compute. reflexivity.
Qed.

Definition console_program : demo_program := the_program (demo_start CmdAgent (telemetry_config "console")).

Lemma agent_first_line_witness :
  ready (pr_health console_program) = true /\
  forall grow line (y : system no_oauth2 SenderProperties.no_pki) x,
    is_panic (process_line grow (pr_manager console_program) line (y, x)) = true.
Proof.
  split; [vm_compute; reflexivity|].
  apply (agent_first_line (demo_env (telemetry_config "console")) [] ["-metrics-addr=:9090"] boot_init
    console_program (start_state (demo_start CmdAgent (telemetry_config "console")))).
  - vm_compute. reflexivity.
  - split; [|apply unknown_type]; vm_compute; reflexivity.
Defined.

Definition http_program (c : command) : demo_program := the_program (demo_start c (telemetry_config "http")).
Definition http_state (c : command) : boot := start_state (demo_start c (telemetry_config "http")).

Lemma agent_telemetry_shut_witness :
  length (providers (agent_exit (demo_env (telemetry_config "http")) (http_program CmdAgent)
    (b_otel (http_state CmdAgent)))) = 2 /\
  all_shut (agent_exit (demo_env (telemetry_config "http")) (http_program CmdAgent)
    (b_otel (http_state CmdAgent))).
Proof.
  split; [vm_compute; reflexivity|].
  refine (proj1 (agent_telemetry_shut (demo_env (telemetry_config "http")) [] ["-metrics-addr=:9090"]
    (http_program CmdAgent) (http_state CmdAgent) (b_otel (http_state CmdAgent)) _ eq_refl eq_refl)).
  vm_compute. reflexivity.
Defined.

Lemma main_telemetry_left_open_witness :
  1 ∉ down (main_exit (demo_env (telemetry_config "http")) (http_program CmdAgentMain)
    (b_otel (http_state CmdAgentMain))).
Proof.
  refine (proj2 (main_telemetry_left_open (demo_env (telemetry_config "http")) [] ["-metrics-addr=:9090"]
    (http_program CmdAgentMain) (http_state CmdAgentMain)
    (mkManager (SetDefaults (obsConfig (Config.Telemetry (pr_config (http_program CmdAgentMain)))))
       (Some 1) (Some (SdkTracer 1))) 1 _ _ _)); vm_compute; reflexivity.
Defined.

Definition demo_processed : result (system no_oauth2 SenderProperties.no_pki * metrics) :=
  process_lines SenderSystemProperties.double None [go_bytes "a"; go_bytes "b"]
    (sys_ (pr_agent (the_program (demo_start CmdAgent plain_config))), mkMetrics 0 0 0 0 []).

Lemma counters_agree_witness :
  exists y x, demo_processed = Ok (y, x) /\ accepted y = [go_bytes "a"; go_bytes "b"] /\ logsSent x = 2%Z.
Proof.
  do 2 eexists. split; [vm_compute; reflexivity|].
  refine ((fun H => conj (proj1 H) (proj1 (proj2 (proj2 H)))) (counters_agree
    SenderSystemProperties.double None [go_bytes "a"; go_bytes "b"]
    (sys_ (pr_agent (the_program (demo_start CmdAgent plain_config)))) _ _ _ _)).
  - vm_compute. reflexivity.
  - vm_compute. reflexivity.
Defined.

End StartupProperties.
