(* ===== verification/Delivery.v ===== *)
(** * From the source to the batches

    The composition of the development: a program that was started by
    [Startup], over whichever of the four readers its configuration names, runs
    under any schedule; what it puts into its batches is what the source holds.
    Models no code of its own; it joins [src/cmd/agent.go] and
    [src/cmd/agent/main.go] with [src/pkg/reader] and [src/pkg/sender]. *)
From S2P Require Import Prelude Lines GoStrings Host GoFlag Config Tls Telemetry MapRange Auth Encryption Slices Sender SenderSystem LogReader FileReader ReaderFactory ContainerReader ReaderLoop WindowsReader MacosReader Readers Health Agent Startup.

(** ** What the sources hold *)

(** The files exist under their paths, and their offsets fit an [int64]. *)
Definition files_ok (E : surroundings) : Prop :=
  forall path i, at_path (file_system E path) = Some i ->
    exists c, inodes (file_system E path) !! i = Some c /\ FileReader.fits c = true.

(** Files only grow; the other sources do anything. *)
Definition appending (l : reader_label (W := any_world)) : Prop :=
  match l with inl l => FileReaderLemmas.append_only l | _ => True end.

(** Lines on their way inside a reader: in its channel, being sent to it, and,
    in the container reader, given up at a stop. *)
Definition in_reader (w : any_world) : list bytes :=
  match w with
  | inl w =>
      FileReader.lines (FileReader.rd w) ++
      match FileReader.at_ w with FileReader.Sending l => [l] | _ => [] end
  | inr (inl w) =>
      ContainerReader.lines (ContainerReader.rd w) ++
      match ContainerReader.at_ w with ContainerReader.Sending l _ => [l] | _ => [] end ++
      ContainerReader.dropped w
  | inr (inr (inl w)) => ReaderLoop.lines (ReaderLoop.rd w)
  | inr (inr (inr w)) => ReaderLoop.lines (ReaderLoop.rd w)
  end.

(** The lines [out] are what the source of the reader [r] gave since it was
    started, [w] being the reader now. *)
Definition source_exact {K} (E : surroundings) (cfg : Config.t) (r : log_reader K) (w : any_world)
    (out : list bytes) : Prop :=
  match r, w with
  | FileLogReader path, inl w =>
      path = Config.LogPath cfg /\
      exists i c seen rest, at_path (file_system E path) = Some i /\
        inodes (file_system E path) !! i = Some c /\
        inode (FileReader.fs_ w) i = c ++ seen ++ rest /\ partial_line seen = [] /\
        out = FileReader.log_lines seen
  | ContainerLogReader ns pod ctr _, inr (inl w) =>
      ns = Config.Namespace cfg /\ pod = Config.PodName cfg /\ ctr = Config.ContainerName cfg /\
      exists now, out = concat (map ContainerReader.stream_lines (ContainerReader.past w)) ++ now /\
        now `prefix_of` all_lines (ContainerReader.data (ContainerReader.cur w))
  | WindowsLogReader name level, inr (inr (inl w)) =>
      name = (if String.eqb (Config.WindowsEventLogName cfg) "" then "Application"
              else Config.WindowsEventLogName cfg) /\
      ((zlen out < 2 ^ 63 - 1)%Z ->
       exists times, out = imap (WindowsReader.event_line (WindowsReader.mkReader name level)) times)
  | MacOSLogReader query, inr (inr (inr w)) =>
      query = Config.MacOSLogQuery cfg /\
      exists p, ReaderLoop.procs w = [p] /\ MacosReaderLemmas.delivered (ReaderLoop.body_of p) out
  | _, _ => False
  end.

(** ** The reader of a configuration *)

Lemma NewReader_fields K h c r :
  NewReader K h c = Ok r ->
  match r with
  | FileLogReader path => path = LogSourceConfig.Path c
  | ContainerLogReader ns pod ctr _ => ns = LogSourceConfig.Namespace c /\
      pod = LogSourceConfig.PodName c /\ ctr = LogSourceConfig.ContainerName c
  | WindowsLogReader name _ =>
      name = (if String.eqb (LogSourceConfig.WindowsEventLogName c) "" then "Application"
              else LogSourceConfig.WindowsEventLogName c)
  | MacOSLogReader query => query = LogSourceConfig.MacOSLogQuery c
  end.
Proof.
  unfold NewReader, NewContainerReader, windowsEventLogReaderFactory, NewWindowsEventLogReader,
    macosLogReaderFactory.
  intros H. repeat case_bool_decide; try done;
    repeat (apply bind_ok in H as (? & _ & H)); simplify_eq/=; try done.
  destruct (LogSourceConfig.WindowsEventLogName c =? "") eqn:E; [done|by rewrite E].
Qed.

(** The reader of either program reads what the configuration names. *)
Lemma program_reader_fields c E cfg r :
  program_reader c E cfg = Ok r ->
  match r with
  | FileLogReader path => path = Config.LogPath cfg
  | ContainerLogReader ns pod ctr _ => ns = Config.Namespace cfg /\
      pod = Config.PodName cfg /\ ctr = Config.ContainerName cfg
  | WindowsLogReader name _ =>
      name = (if String.eqb (Config.WindowsEventLogName cfg) "" then "Application"
              else Config.WindowsEventLogName cfg)
  | MacOSLogReader query => query = Config.MacOSLogQuery cfg
  end.
Proof.
  destruct c; simpl; [unfold agent_reader|by intros H%NewReader_fields].
  destruct (negb _); [|by intros [= <-]].
  intros (ty & _ & H)%bind_ok. by apply NewReader_fields in H.
Qed.

(** ** The four sources *)

Section sources.
Context {K : kube} (E : surroundings) (files : files_ok E).

Lemma file_exact path w0 w :
  start_reader (K := K) E (FileLogReader path) = Ok w0 -> reader_moves appending w0 w ->
  exists v, w = AFile v /\ exists i c seen rest, at_path (file_system E path) = Some i /\
    inodes (file_system E path) !! i = Some c /\
    inode (FileReader.fs_ v) i = c ++ seen ++ rest /\ partial_line seen = [] /\
    taken w ++ in_reader w = FileReader.log_lines seen.
Proof.
  simpl. intros (rd0 & Hs & [= <-])%bind_ok (v & -> & Hv)%moves_inl. exists v. split; [done|].
  unfold FileReader.Start, os_Open in Hs. simpl in Hs.
  destruct (open_fails _); [done|]. destruct (at_path _) as [i|] eqn:Hp; [|done]. simpl in Hs.
  destruct (files path i Hp) as (c & Hi & Hf).
  destruct (FileReaderProperties.start_tailing _ i c (FileReader.mkWorld (file_system E path) rd0
    FileReader.AtSelect [] false false) Hp Hi Hf) as (HT & _).
  { unfold FileReader.exec, FileReader.Start, os_Open. simpl. rewrite Hp. simpl.
    unfold file_Seek in *. destruct (seek_fails _); simpl in *; [done|].
    destruct (_ <? 0)%Z; simpl in *; [done|]. by injection Hs as <-. }
  destruct (FileReaderLemmas.moves_tailing i c [] [] _ v HT Hv) as (seen & rest & HT1).
  exists i, c, seen, rest. split_and!; try done.
  - apply FileReaderLemmas.inode_lookup, (FileReaderLemmas.t_inode _ _ _ _ _ _ HT1).
  - apply (FileReaderLemmas.t_whole _ _ _ _ _ _ HT1).
  - exact (FileReaderLemmas.t_output _ _ _ _ _ _ HT1).
Qed.

Lemma container_source ns pod ctr cs w0 w :
  start_reader (K := K) E (ContainerLogReader ns pod ctr cs) = Ok w0 -> reader_moves appending w0 w ->
  exists v, w = AContainer v /\ exists now,
    taken w ++ in_reader w = concat (map ContainerReader.stream_lines (ContainerReader.past v)) ++ now /\
    now `prefix_of` all_lines (ContainerReader.data (ContainerReader.cur v)).
Proof.
  simpl. intros [= <-] (u & -> & (v & -> & Hv)%moves_inl)%moves_inr. exists v. split; [done|].
  apply ContainerReaderLemmas.moves_run in Hv as [tr Hr].
  destruct (ContainerReaderLemmas.run_lines (ContainerReader.LStart :: tr) v) as (now & H1 & H2).
  { exact Hr. }
  exists now. split; [|done]. simpl. by rewrite <- H1.
Qed.

Lemma windows_source name level w0 w :
  start_reader (K := K) E (WindowsLogReader name level) = Ok w0 -> reader_moves appending w0 w ->
  exists v, w = AWindows v /\
    ((zlen (taken w ++ in_reader w) < 2 ^ 63 - 1)%Z -> exists times,
      taken w ++ in_reader w = imap (WindowsReader.event_line (WindowsReader.mkReader name level)) times).
Proof.
  simpl. intros [= <-] (u & -> & (u' & -> & (v & -> & Hv)%moves_inl)%moves_inr)%moves_inr.
  exists v. split; [done|]. intros Hlen.
  assert (ReaderLoopLemmas.life (WindowsReader.started (WindowsReader.mkReader name level)) v) as Hl
    by (eapply ReaderLoopLemmas.moves_life; [apply ReaderLoopLemmas.started_ctl|exact Hv]).
  apply (WindowsReaderLemmas.windows_sent _ _ Hl Hlen).
Qed.

Lemma macos_source query w0 w :
  start_reader (K := K) E (MacOSLogReader query) = Ok w0 -> reader_moves appending w0 w ->
  exists v, w = AMacOS v /\ exists p, ReaderLoop.procs v = [p] /\
    MacosReaderLemmas.delivered (ReaderLoop.body_of p) (taken w ++ in_reader w).
Proof.
  simpl. unfold MacosReader.Start. simpl.
  destruct (log_pipe E) as [[]| |]; simpl; try done.
  destruct (log_launch E) as [[]| |]; simpl; try done.
  intros [= <-] (u & -> & (u' & -> & (v & -> & Hv)%moves_inr)%moves_inr)%moves_inr.
  exists v. split; [done|].
  assert (ReaderLoopLemmas.life (MacosReader.started query) v) as Hl
    by (eapply ReaderLoopLemmas.moves_life; [apply ReaderLoopLemmas.started_ctl|exact Hv]).
  destruct (MacosReaderLemmas.macos_delivered _ _ Hl) as (p & H1 & H2 & _). by exists p.
Qed.

End sources.

(** What the reader of a running program has given is what its source held. *)
Lemma program_source c E cfg r w0 w :
  files_ok (e_readers E) -> program_reader c E cfg = Ok r -> start_reader (e_readers E) r = Ok w0 ->
  reader_moves appending w0 w -> source_exact (e_readers E) cfg r w (taken w ++ in_reader w).
Proof.
  intros HE Hr%program_reader_fields Hs Hw. destruct r.
  - destruct (file_exact _ HE _ _ _ Hs Hw) as (v & -> & ?). by split.
  - destruct (container_source _ _ _ _ _ _ _ Hs Hw) as (v & -> & ?). naive_solver.
  - destruct (windows_source _ _ _ _ _ Hs Hw) as (v & -> & ?). by split.
  - destruct (macos_source _ _ _ _ Hs Hw) as (v & -> & ?). by split.
Qed.

Module DeliveryProperties.


(** ** A run *)

Import StartupProperties FileReaderProperties.

(** A line appended, read, received and forwarded, and one more in the channel. *)
Definition two_lines : list (agent_label (W := any_world) (P := SenderProperties.no_pki)) :=
  [AReader (inl (FileReader.LAppend 0 (text "a" ++ text "b"))); AReader (inl (tail 0));
   AReader (inl (tail 9)); AReader (inl (tail 0)); AReader (inl (tail 0)); AReceive; AForward;
   AReader (inl (tail 0)); AReader (inl (tail 0)); AReader (inl (tail 0))].
Definition demo_p : demo_program := the_program (demo_start CmdAgentMain plain_config).
Definition demo_end : agent any_world no_oauth2 SenderProperties.no_pki :=
  default (pr_agent demo_p) (agent_run SenderSystemProperties.double Background two_lines (pr_agent demo_p)).


End DeliveryProperties.
