(* ===== verification/KubeTypes.v ===== *)
(** * Kubernetes objects

    The custom resource of [src/pkg/k8s/api/v1alpha1/types.go] and the built-in
    objects the operator writes, with the fields the operator sets or reads.
    A [metav1.Time] is a number of seconds, the precision it is stored with. *)
From S2P Require Import Prelude.

(** ** [metav1] *)

Record LabelSelectorRequirement := mkLSR { Key : string; Operator : string; Values : list string }.
Record LabelSelector := mkLabelSelector {
  MatchLabels : gmap string string;
  MatchExpressions : list LabelSelectorRequirement;
}.

(** [OwnerReference] of the controller, by the owner's name. *)
Record ObjectMeta := mkMeta {
  Name : string;
  Namespace : string;
  Labels : gmap string string;
  controller_owner : option string;
}.

(** ** [v1alpha1] *)

Module LogSourceSpec.
Record t := mk {
  Type_ : string;
  Path : string;
  ContainerName : string;
  PodSelector : option LabelSelector;
  NamespaceSelector : option LabelSelector;
}.
End LogSourceSpec.

Module ResourceListSpec.
Record t := mk { CPU : string; Memory : string }.
End ResourceListSpec.

Module ResourceRequirementsSpec.
Record t := mk { Limits : ResourceListSpec.t; Requests : ResourceListSpec.t }.
End ResourceRequirementsSpec.

Module TailpostAgentSpec.
Record t := mk {
  Replicas : option Z;
  Image : string;
  ImagePullPolicy : string;
  ServiceAccount : string;
  LogSources : list LogSourceSpec.t;
  ServerURL : string;
  BatchSize : option Z;
  FlushInterval : string;
  Resources : ResourceRequirementsSpec.t;
}.
End TailpostAgentSpec.

Module Condition.
Record t := mk {
  Type_ : string;
  Status : string;
  LastTransitionTime : Z;
  Reason : string;
  Message : string;
}.
End Condition.

Module TailpostAgentStatus.
Record t := mk {
  Conditions : list Condition.t;
  AvailableReplicas : Z;
  LastUpdateTime : Z;
}.
End TailpostAgentStatus.

Module TailpostAgent.
Record t := mk { meta : ObjectMeta; Spec : TailpostAgentSpec.t; Status : TailpostAgentStatus.t }.
Definition with_Spec (s : TailpostAgentSpec.t) (a : t) : t := mk (meta a) s (Status a).
Definition with_Status (s : TailpostAgentStatus.t) (a : t) : t := mk (meta a) (Spec a) s.
End TailpostAgent.

(** ** Built-in objects; [Q] is the type of [resource.Quantity] *)

Record ConfigMap := mkConfigMap { cm_meta : ObjectMeta; cm_Data : gmap string string }.

Record ContainerPort := mkContainerPort { cp_Name : string; cp_Port : Z; cp_Protocol : string }.
Record VolumeMount := mkVolumeMount { vm_Name : string; MountPath : string; ReadOnly : bool }.
Inductive VolumeSource := ConfigMapVolume (name : string) | HostPathVolume (path : string).
Record Volume := mkVolume { v_Name : string; v_Source : VolumeSource }.
Record Probe := mkProbe {
  HTTPGet_Path : string; HTTPGet_Port : Z; HTTPGet_Scheme : string;
  InitialDelaySeconds : Z; TimeoutSeconds : Z; PeriodSeconds : Z;
}.

(** [ResourceRequirements]; [None] is a nil map. *)
Record ResourceRequirements (Q : Type) := mkResources {
  r_Limits : option (gmap string Q);
  r_Requests : option (gmap string Q);
}.
Arguments mkResources {Q}.
Arguments r_Limits {Q}.
Arguments r_Requests {Q}.

Record Container (Q : Type) := mkContainer {
  c_Name : string;
  c_Image : string;
  c_ImagePullPolicy : string;
  c_Command : list string;
  c_Args : list string;
  c_Ports : list ContainerPort;
  c_VolumeMounts : list VolumeMount;
  c_Resources : ResourceRequirements Q;
  c_LivenessProbe : Probe;
  c_ReadinessProbe : Probe;
}.
Arguments mkContainer {Q}.
Arguments c_Name {Q}.
Arguments c_Image {Q}.
Arguments c_ImagePullPolicy {Q}.
Arguments c_Command {Q}.
Arguments c_Args {Q}.
Arguments c_Ports {Q}.
Arguments c_VolumeMounts {Q}.
Arguments c_Resources {Q}.
Arguments c_LivenessProbe {Q}.
Arguments c_ReadinessProbe {Q}.

Record StatefulSetSpec (Q : Type) := mkStsSpec {
  s_Replicas : option Z;
  s_Selector : gmap string string;
  s_ServiceName : string;
  s_TemplateLabels : gmap string string;
  s_ServiceAccountName : string;
  s_Containers : list (Container Q);
  s_Volumes : list Volume;
}.
Arguments mkStsSpec {Q}.
Arguments s_Replicas {Q}.
Arguments s_Selector {Q}.
Arguments s_ServiceName {Q}.
Arguments s_TemplateLabels {Q}.
Arguments s_ServiceAccountName {Q}.
Arguments s_Containers {Q}.
Arguments s_Volumes {Q}.

Record StatefulSet (Q : Type) := mkStatefulSet {
  sts_meta : ObjectMeta;
  sts_Spec : StatefulSetSpec Q;
  sts_ReadyReplicas : Z;
}.
Arguments mkStatefulSet {Q}.
Arguments sts_meta {Q}.
Arguments sts_Spec {Q}.
Arguments sts_ReadyReplicas {Q}.

Record ServicePort := mkServicePort {
  sp_Name : string; sp_Port : Z; sp_TargetPort : Z; sp_Protocol : string;
}.
Record Service := mkService {
  svc_meta : ObjectMeta;
  svc_Selector : gmap string string;
  svc_Ports : list ServicePort;
}.

#[global] Instance ServicePort_eq_dec : EqDecision ServicePort.
Proof. solve_decision. Defined.
#[global] Instance ResourceRequirements_eq_dec `{EqDecision Q} : EqDecision (ResourceRequirements Q).
Proof. solve_decision. Defined.
