(* ===== verification/DeepCopy.v ===== *)
(** * Deep copies

    Models the [DeepCopy] methods of [src/pkg/k8s/api/v1alpha1/types.go] on a
    heap: pointers, slices and the structs that hold them.  An object is its
    struct, with addresses where Go has pointers and slices.  What it means is
    its [view], the struct with everything it points to, and its [refs] are the
    addresses it can reach; both are read off the struct types, every field of
    them, and know nothing of the copying methods.  A method is the code's: it
    starts from [*out = *in] and replaces fields one after the other.

    The types of the Kubernetes libraries ([metav1.ObjectMeta], [metav1.ListMeta],
    [metav1.LabelSelector]), what they point to and their own [DeepCopyInto] are
    parameters, the classes [Library], [LibraryReach] and [LibraryCopies]: what is
    assumed is that those methods are deep copies, as documented. *)
From S2P Require Import Prelude KubeTypes.

(** ** Pointers and the libraries' types *)

(** A pointer to a [T], nil for [None]; a slice of [T] is a pointer to its
    elements, nil for the nil slice. *)
Record ptr (T : Type) := Ptr { addr : option nat }.
Arguments Ptr {T}.
Arguments addr {T}.
Abbreviation slice T := (ptr (list T)).

(** The types of [k8s.io/apimachinery], and what their pointers, slices and maps
    point to. *)
Class Library := {
  lib_cell : Type;
  meta_t : Type;
  list_meta_t : Type;
  selector_t : Type;
}.

(** [metav1.TypeMeta] *)
Record TypeMeta := mkTypeMeta { tm_Kind : string; tm_APIVersion : string }.

Section types.
Context {L : Library}.

(** ** The structs *)

Record LogSource := mkLogSource {
  ls_Type : string;
  ls_Path : string;
  ls_ContainerName : string;
  ls_PodSelector : ptr selector_t;
  ls_NamespaceSelector : ptr selector_t;
}.

Record AgentSpec := mkAgentSpec {
  sp_Replicas : ptr Z;
  sp_Image : string;
  sp_ImagePullPolicy : string;
  sp_ServiceAccount : string;
  sp_LogSources : slice LogSource;
  sp_ServerURL : string;
  sp_BatchSize : ptr Z;
  sp_FlushInterval : string;
  sp_Resources : ResourceRequirementsSpec.t;
}.

Record AgentStatus := mkAgentStatus {
  st_Conditions : slice Condition.t;
  st_AvailableReplicas : Z;
  st_LastUpdateTime : Z;
}.

Record Agent := mkAgentObject {
  ag_type : TypeMeta;
  ag_meta : meta_t;
  ag_Spec : AgentSpec;
  ag_Status : AgentStatus;
}.

Record AgentList := mkAgentList {
  al_type : TypeMeta;
  al_meta : list_meta_t;
  al_Items : slice Agent;
}.

(** ** The heap: cells of the types that are pointed to *)

Inductive cell :=
| CInt (z : Z)
| CSelector (s : selector_t)
| CSources (l : list LogSource)
| CConditions (l : list Condition.t)
| CAgent (a : Agent)
| CAgents (l : list Agent)
| CAgentList (l : AgentList)
| CLib (c : lib_cell).

Abbreviation heap := (list cell).

(** A type that cells can hold. *)
Class Cell (T : Type) := {
  put : T -> cell;
  get : cell -> option T;
  get_put x : get (put x) = Some x;
}.

#[global] Instance Z_cell : Cell Z.
Proof. refine {| put := CInt; get := fun c => match c with CInt z => Some z | _ => None end |}. done. Defined.
#[global] Instance selector_cell : Cell selector_t.
Proof. refine {| put := CSelector; get := fun c => match c with CSelector s => Some s | _ => None end |}. done. Defined.
#[global] Instance sources_cell : Cell (list LogSource).
Proof. refine {| put := CSources; get := fun c => match c with CSources l => Some l | _ => None end |}. done. Defined.
#[global] Instance conditions_cell : Cell (list Condition.t).
Proof. refine {| put := CConditions; get := fun c => match c with CConditions l => Some l | _ => None end |}. done. Defined.
#[global] Instance agent_cell : Cell Agent.
Proof. refine {| put := CAgent; get := fun c => match c with CAgent a => Some a | _ => None end |}. done. Defined.
#[global] Instance agents_cell : Cell (list Agent).
Proof. refine {| put := CAgents; get := fun c => match c with CAgents l => Some l | _ => None end |}. done. Defined.
#[global] Instance agent_list_cell : Cell AgentList.
Proof. refine {| put := CAgentList; get := fun c => match c with CAgentList l => Some l | _ => None end |}. done. Defined.

(** The object behind a pointer. *)
Definition deref {T} `{Cell T} (h : heap) (a : nat) : option T := c ← h !! a; get c.

(** Code that allocates. *)
Definition heapM (A : Type) : Type := heap -> A * heap.
#[global] Instance heapM_ret : MRet heapM := fun A x h => (x, h).
#[global] Instance heapM_bind : MBind heapM := fun A B f m h => let '(x, h) := m h in f x h.

(** [new(T)], filled with [x]. *)
Definition alloc {T} `{Cell T} (x : T) : heapM (ptr T) :=
  fun h => (Ptr (Some (length h)), h ++ [put x]).

(** ** What an object means and what it reaches *)

Class Reach (T : Type) := {
  (** The object with everything it points to. *)
  View : Type;
  (** [None] for an object with a dangling pointer. *)
  view : heap -> T -> option View;
  (** The addresses it reaches. *)
  refs : heap -> T -> list nat;
}.
Arguments View T {_}.

(** Both depend only on the cells that are reached. *)
Class ReachLaws (T : Type) `{Reach T} : Prop := {
  refs_bound (x : T) h v a : view h x = Some v -> a ∈ refs h x -> a < length h;
  view_local (x : T) h h' v :
    view h x = Some v -> (forall a, a ∈ refs h x -> h' !! a = h !! a) ->
    view h' x = Some v /\ refs h' x = refs h x;
}.

(** Without pointers. *)
Definition value_reach (T : Type) : Reach T := {| View := T; view _ x := Some x; refs _ _ := [] |}.

Lemma value_laws (T : Type) : ReachLaws (H := value_reach T) T.
Proof. split; simpl; try done; intros; match goal with H : _ ∈ [] |- _ => by apply elem_of_nil in H end. Qed.

#[global] Instance Z_reach : Reach Z := value_reach Z.
#[global] Instance Z_laws : ReachLaws Z := value_laws Z.
#[global] Instance string_reach : Reach string := value_reach string.
#[global] Instance string_laws : ReachLaws string := value_laws string.
#[global] Instance type_meta_reach : Reach TypeMeta := value_reach TypeMeta.
#[global] Instance type_meta_laws : ReachLaws TypeMeta := value_laws TypeMeta.
#[global] Instance condition_reach : Reach Condition.t := value_reach Condition.t.
#[global] Instance condition_laws : ReachLaws Condition.t := value_laws Condition.t.
#[global] Instance requirements_reach : Reach ResourceRequirementsSpec.t :=
  value_reach ResourceRequirementsSpec.t.
#[global] Instance requirements_laws : ReachLaws ResourceRequirementsSpec.t :=
  value_laws ResourceRequirementsSpec.t.

#[global] Instance list_reach {T} {RT : Reach T} : Reach (list T) := {|
  View := list (View T);
  view h l := mapM (view h) l;
  refs h l := concat (map (refs h) l);
|}.

#[global] Instance ptr_reach {T} {RT : Reach T} {CT : Cell T} : Reach (ptr T) := {|
  View := option (View T);
  view h p :=
    match addr p with
    | None => Some None
    | Some a => match deref (T := T) h a with Some x => Some <$> view h x | None => None end
    end;
  refs h p :=
    match addr p with
    | None => []
    | Some a => a :: match deref (T := T) h a with Some x => refs h x | None => [] end
    end;
|}.

#[global] Instance pair_reach {A B} {RA : Reach A} {RB : Reach B} : Reach (A * B) := {|
  View := (View A * View B)%type;
  view h x := v ← view h x.1; w ← view h x.2; Some (v, w);
  refs h x := refs h x.1 ++ refs h x.2;
|}.

(** A struct is the tuple of all its fields. *)
Definition struct_reach {S T} {RT : Reach T} (parts : S -> T) : Reach S := {|
  View := View T;
  view h x := view h (parts x);
  refs h x := refs h (parts x);
|}.

Class LibraryReach := {
  meta_reach :: Reach meta_t;
  meta_laws :: ReachLaws meta_t;
  list_meta_reach :: Reach list_meta_t;
  list_meta_laws :: ReachLaws list_meta_t;
  selector_reach :: Reach selector_t;
  selector_laws :: ReachLaws selector_t;
}.

Context {LR : LibraryReach}.

#[global] Instance source_reach : Reach LogSource :=
  struct_reach (fun s => (ls_Type s, (ls_Path s, (ls_ContainerName s,
    (ls_PodSelector s, ls_NamespaceSelector s))))).
#[global] Instance spec_reach : Reach AgentSpec :=
  struct_reach (fun s => (sp_Replicas s, (sp_Image s, (sp_ImagePullPolicy s, (sp_ServiceAccount s,
    (sp_LogSources s, (sp_ServerURL s, (sp_BatchSize s, (sp_FlushInterval s, sp_Resources s))))))))).
#[global] Instance status_reach : Reach AgentStatus :=
  struct_reach (fun s => (st_Conditions s, (st_AvailableReplicas s, st_LastUpdateTime s))).
#[global] Instance agent_reach : Reach Agent :=
  struct_reach (fun a => (ag_type a, (ag_meta a, (ag_Spec a, ag_Status a)))).
#[global] Instance agent_list_reach : Reach AgentList :=
  struct_reach (fun l => (al_type l, (al_meta l, al_Items l))).

(** ** What a copy is *)

(** [y] means [v] and reaches no address below [n]. *)
Definition fresh_copy {T} `{Reach T} (n : nat) (v : View T) (h : heap) (y : T) : Prop :=
  view h y = Some v /\ forall a, a ∈ refs h y -> n <= a.

(** [f] copies: it only allocates, and what it returns means what its argument
    meant and reaches nothing that existed before. *)
Definition copies {T} `{Reach T} (f : T -> heapM T) : Prop :=
  forall h x v, view h x = Some v ->
    let '(y, h') := f x h in h `prefix_of` h' /\ fresh_copy (length h) v h' y.

Class LibraryCopies := {
  (** [metav1.ObjectMeta.DeepCopyInto] and its like, returning what they store. *)
  meta_DeepCopyInto : meta_t -> heapM meta_t;
  list_meta_DeepCopyInto : list_meta_t -> heapM list_meta_t;
  selector_DeepCopyInto : selector_t -> heapM selector_t;
  meta_copies : copies meta_DeepCopyInto;
  list_meta_copies : copies list_meta_DeepCopyInto;
  selector_copies : copies selector_DeepCopyInto;
}.
Context {LC : LibraryCopies}.

(** ** The methods *)

(** [*out = new(T)] and a copy of what [p] points to in it; nil for nil. *)
Definition copy_ptr {T} `{Cell T} (f : T -> heapM T) (p : ptr T) : heapM (ptr T) := fun h =>
  match addr p with
  | None => (Ptr None, h)
  | Some a =>
      match deref (T := T) h a with
      | Some x => (y ← f x; alloc y) h
      | None => (p, h)
      end
  end.

(** The loop [for i := range *in] that copies element by element. *)
Fixpoint copy_each {T} (f : T -> heapM T) (l : list T) : heapM (list T) :=
  match l with
  | [] => mret []
  | x :: l => y ← f x; k ← copy_each f l; mret (y :: k)
  end.

(** [if in.X != nil { ...; *out.X = ... }] *)
Definition copy_field {S T} `{Cell T} (f : T -> heapM T) (p : ptr T) (set : ptr T -> S -> S) (out : S)
    : heapM S :=
  match addr p with
  | None => mret out
  | Some _ => q ← copy_ptr f p; mret (set q out)
  end.

(** [**out = **in] *)
Definition int_copy (z : Z) : heapM Z := mret z.

(** [TailpostAgentCondition.DeepCopyInto] *)
Definition condition_DeepCopyInto (i : Condition.t) : heapM Condition.t := mret i.

(** [ResourceListSpec.DeepCopyInto] *)
Definition resource_list_DeepCopyInto (i : ResourceListSpec.t) : heapM ResourceListSpec.t := mret i.

(** [ResourceRequirementsSpec.DeepCopyInto] *)
Definition requirements_DeepCopyInto (i : ResourceRequirementsSpec.t)
    : heapM ResourceRequirementsSpec.t :=
  let out := i in
  limits ← resource_list_DeepCopyInto (ResourceRequirementsSpec.Limits i);
  let out := ResourceRequirementsSpec.mk limits (ResourceRequirementsSpec.Requests out) in
  requests ← resource_list_DeepCopyInto (ResourceRequirementsSpec.Requests i);
  mret (ResourceRequirementsSpec.mk (ResourceRequirementsSpec.Limits out) requests).

(** [LogSourceSpec.DeepCopyInto] *)
Definition set_PodSelector (p : ptr selector_t) (s : LogSource) : LogSource :=
  mkLogSource (ls_Type s) (ls_Path s) (ls_ContainerName s) p (ls_NamespaceSelector s).
Definition set_NamespaceSelector (p : ptr selector_t) (s : LogSource) : LogSource :=
  mkLogSource (ls_Type s) (ls_Path s) (ls_ContainerName s) (ls_PodSelector s) p.
Definition source_DeepCopyInto (i : LogSource) : heapM LogSource :=
  let out := i in
  out ← copy_field selector_DeepCopyInto (ls_PodSelector i) set_PodSelector out;
  copy_field selector_DeepCopyInto (ls_NamespaceSelector i) set_NamespaceSelector out.

(** [TailpostAgentSpec.DeepCopyInto] *)
Definition set_Replicas (p : ptr Z) (s : AgentSpec) : AgentSpec :=
  mkAgentSpec p (sp_Image s) (sp_ImagePullPolicy s) (sp_ServiceAccount s) (sp_LogSources s)
    (sp_ServerURL s) (sp_BatchSize s) (sp_FlushInterval s) (sp_Resources s).
Definition set_BatchSize (p : ptr Z) (s : AgentSpec) : AgentSpec :=
  mkAgentSpec (sp_Replicas s) (sp_Image s) (sp_ImagePullPolicy s) (sp_ServiceAccount s) (sp_LogSources s)
    (sp_ServerURL s) p (sp_FlushInterval s) (sp_Resources s).
Definition set_LogSources (p : slice LogSource) (s : AgentSpec) : AgentSpec :=
  mkAgentSpec (sp_Replicas s) (sp_Image s) (sp_ImagePullPolicy s) (sp_ServiceAccount s) p
    (sp_ServerURL s) (sp_BatchSize s) (sp_FlushInterval s) (sp_Resources s).
Definition set_Resources (r : ResourceRequirementsSpec.t) (s : AgentSpec) : AgentSpec :=
  mkAgentSpec (sp_Replicas s) (sp_Image s) (sp_ImagePullPolicy s) (sp_ServiceAccount s) (sp_LogSources s)
    (sp_ServerURL s) (sp_BatchSize s) (sp_FlushInterval s) r.
Definition spec_DeepCopyInto (i : AgentSpec) : heapM AgentSpec :=
  let out := i in
  out ← copy_field int_copy (sp_Replicas i) set_Replicas out;
  out ← copy_field int_copy (sp_BatchSize i) set_BatchSize out;
  out ← copy_field (copy_each source_DeepCopyInto) (sp_LogSources i) set_LogSources out;
  resources ← requirements_DeepCopyInto (sp_Resources i);
  mret (set_Resources resources out).

(** [TailpostAgentStatus.DeepCopyInto] *)
Definition set_Conditions (p : slice Condition.t) (s : AgentStatus) : AgentStatus :=
  mkAgentStatus p (st_AvailableReplicas s) (st_LastUpdateTime s).
Definition status_DeepCopyInto (i : AgentStatus) : heapM AgentStatus :=
  let out := i in
  copy_field (copy_each condition_DeepCopyInto) (st_Conditions i) set_Conditions out.

(** [TailpostAgent.DeepCopyInto] *)
Definition agent_DeepCopyInto (i : Agent) : heapM Agent :=
  let out := i in
  let out := mkAgentObject (ag_type i) (ag_meta out) (ag_Spec out) (ag_Status out) in
  meta ← meta_DeepCopyInto (ag_meta i);
  let out := mkAgentObject (ag_type out) meta (ag_Spec out) (ag_Status out) in
  spec ← spec_DeepCopyInto (ag_Spec i);
  let out := mkAgentObject (ag_type out) (ag_meta out) spec (ag_Status out) in
  status ← status_DeepCopyInto (ag_Status i);
  mret (mkAgentObject (ag_type out) (ag_meta out) (ag_Spec out) status).

(** [TailpostAgentList.DeepCopyInto] *)
Definition set_Items (p : slice Agent) (l : AgentList) : AgentList :=
  mkAgentList (al_type l) (al_meta l) p.
Definition agent_list_DeepCopyInto (i : AgentList) : heapM AgentList :=
  let out := i in
  let out := mkAgentList (al_type i) (al_meta out) (al_Items out) in
  meta ← list_meta_DeepCopyInto (al_meta i);
  let out := mkAgentList (al_type out) meta (al_Items out) in
  copy_field (copy_each agent_DeepCopyInto) (al_Items i) set_Items out.

(** [TailpostAgent.DeepCopy] and [TailpostAgentList.DeepCopy]; [DeepCopyObject]
    returns the same pointer, as a nil interface if it is nil. *)
Definition DeepCopy (p : ptr Agent) : heapM (ptr Agent) := copy_ptr agent_DeepCopyInto p.
Definition List_DeepCopy (p : ptr AgentList) : heapM (ptr AgentList) := copy_ptr agent_list_DeepCopyInto p.
Definition DeepCopyObject (p : ptr Agent) : heapM (option (ptr Agent)) :=
  c ← DeepCopy p; mret (match addr c with Some _ => Some c | None => None end).
Definition List_DeepCopyObject (p : ptr AgentList) : heapM (option (ptr AgentList)) :=
  c ← List_DeepCopy p; mret (match addr c with Some _ => Some c | None => None end).

(** ** Laws of views *)

Lemma prefix_lookup_lt (h h' : heap) a : h `prefix_of` h' -> a < length h -> h' !! a = h !! a.
Proof. intros [k ->] Ha. by apply lookup_app_l. Qed.

Section laws.
Context {T : Type} {RT : Reach T} {LT : ReachLaws T}.

(** What was allocated later changes nothing. *)
Lemma view_extends (x : T) h h' v :
  view h x = Some v -> h `prefix_of` h' -> view h' x = Some v /\ refs h' x = refs h x.
Proof.
  intros Hv Hp. apply view_local; [done|]. intros a Ha. apply prefix_lookup_lt; [done|].
  by apply (refs_bound x h v).
Qed.

Lemma fresh_extends n v h h' (y : T) : fresh_copy n v h y -> h `prefix_of` h' -> fresh_copy n v h' y.
Proof.
  intros [Hv Hf] Hp. destruct (view_extends y h h' v Hv Hp) as [Hv' Er].
  split; [done|]. intros a. rewrite Er. apply Hf.
Qed.

Lemma fresh_le n m v h (y : T) : fresh_copy m v h y -> n <= m -> fresh_copy n v h y.
Proof. intros [Hv Hf] Hle. split; [done|]. intros a Ha. specialize (Hf a Ha). lia. Qed.

Lemma list_view_cons h (x : T) l vs :
  view h (x :: l) = Some vs <-> exists v ws, vs = v :: ws /\ view h x = Some v /\ view h l = Some ws.
Proof.
  change (view h (x :: l)) with (v ← view h x; ws ← mapM (view h) l; Some (v :: ws)).
  change (view h l) with (mapM (view h) l).
  destruct (view h x); simpl; [|naive_solver]. destruct (mapM (view h) l); naive_solver.
Qed.

Lemma list_refs_cons h (x : T) l : refs h (x :: l) = refs h x ++ refs h l.
Proof. done. Qed.

#[global] Instance list_laws : ReachLaws (list T).
Proof.
  split.
  - intros l h. induction l as [|x l IH]; intros vs a Hv Ha; [by apply elem_of_nil in Ha|].
    apply list_view_cons in Hv as (v & ws & -> & Hx & Hl). rewrite list_refs_cons in Ha.
    apply elem_of_app in Ha as [Ha|Ha]; [by apply (refs_bound x h v)|by apply (IH ws)].
  - intros l h h'. induction l as [|x l IH]; intros vs Hv Ha; [done|].
    apply list_view_cons in Hv as (v & ws & -> & Hx & Hl). rewrite !list_refs_cons in *.
    destruct (view_local x h h' v Hx) as [Hx' Ex]; [intros a Hin; apply Ha, elem_of_app; by left|].
    destruct (IH ws Hl) as [Hl' El]; [intros a Hin; apply Ha, elem_of_app; by right|].
    rewrite Ex, El. split; [|done]. apply list_view_cons. eauto.
Qed.

Context {CT : Cell T}.

Lemma deref_put (h : heap) (x : T) : deref (h ++ [put x]) (length h) = Some x.
Proof. unfold deref. rewrite lookup_app_r, Nat.sub_diag by done. simpl. apply get_put. Qed.

Lemma ptr_view_some h a v :
  view h (Ptr (T := T) (Some a)) = Some v <->
  exists x w, deref h a = Some x /\ view h x = Some w /\ v = Some w.
Proof.
  simpl. destruct (deref (T := T) h a) as [x|]; [|split; [done|by intros (? & ? & ? & _)]].
  destruct (view h x) as [w|] eqn:E; simpl.
  - split; [intros [= <-]; eauto|]. intros (y & w' & [= <-] & Hw & ->). congruence.
  - split; [done|]. intros (y & w' & [= <-] & Hw & _). congruence.
Qed.

Lemma ptr_refs_some h a (x : T) : deref h a = Some x -> refs h (Ptr (T := T) (Some a)) = a :: refs h x.
Proof. simpl. by intros ->. Qed.

#[global] Instance ptr_laws : ReachLaws (ptr T).
Proof.
  split.
  - intros [[a|]] h v b Hv; [|intros Hb; by apply elem_of_nil in Hb].
    apply ptr_view_some in Hv as (x & w & Hd & Hw & ->). rewrite (ptr_refs_some h a x Hd).
    intros [->|Hb]%elem_of_cons; [|by apply (refs_bound x h w)].
    unfold deref in Hd. destruct (h !! a) eqn:Ha; [|done]. by apply lookup_lt_Some in Ha.
  - intros [[a|]] h h' v Hv Ha; [|done]. apply ptr_view_some in Hv as (x & w & Hd & Hw & ->).
    rewrite (ptr_refs_some h a x Hd) in *.
    assert (deref h' a = Some x) as Hd' by (unfold deref; rewrite (Ha a); [done|left]).
    destruct (view_local x h h' w Hw) as [Hw' Er]; [intros b Hb; apply Ha; by right|].
    rewrite (ptr_refs_some h' a x Hd'), Er. split; [|done]. apply ptr_view_some. eauto.
Qed.

End laws.

(** ** Pointers and slices are copied if what they point to is *)

Section copying.
Context {T : Type} {RT : Reach T} {LT : ReachLaws T} {CT : Cell T}.

Lemma copy_ptr_copies f : copies f -> copies (copy_ptr (T := T) f).
Proof.
  intros Hf h [[a|]] v Hv; [|split; [done|]; split; [done|]; intros b Hb; by apply elem_of_nil in Hb].
  apply ptr_view_some in Hv as (x & w & Hd & Hw & ->).
  unfold copy_ptr. simpl. rewrite Hd. unfold mbind, heapM_bind. specialize (Hf h x w Hw).
  destruct (f x h) as [y h1]. destruct Hf as [Hp [Hy Hf]]. simpl.
  destruct (view_extends y h1 (h1 ++ [put y]) w Hy) as [Hy' Ey]; [by eexists|].
  split; [etrans; [exact Hp|by eexists]|]. split.
  - apply ptr_view_some. exists y, w. by rewrite deref_put.
  - rewrite (ptr_refs_some _ _ y) by apply deref_put. rewrite Ey.
    apply prefix_length in Hp. intros b [->|Hb]%elem_of_cons; [done|by apply Hf].
Qed.

Lemma copy_each_copies f : copies f -> copies (copy_each (T := T) f).
Proof.
  clear CT. intros Hf h l. revert h. induction l as [|x l IH]; intros h vs Hv.
  { split; [done|]. split; [done|]. intros a Ha. by apply elem_of_nil in Ha. }
  apply list_view_cons in Hv as (v & ws & -> & Hx & Hl). simpl. unfold mbind, heapM_bind.
  specialize (Hf h x v Hx). destruct (f x h) as [y h1]. destruct Hf as [Hp Hy].
  destruct (view_extends l h h1 _ Hl Hp) as [Hl1 _]. specialize (IH h1 ws Hl1).
  destruct (copy_each f l h1) as [k h2]. destruct IH as [Hp2 [Hk Hfk]].
  apply (fresh_extends _ _ _ h2) in Hy as [Hy Hfy]; [|done]. split; [by trans h1|]. split.
  - apply list_view_cons. eauto.
  - rewrite list_refs_cons. apply prefix_length in Hp.
    intros a [Ha|Ha]%elem_of_app; [by apply Hfy|]. specialize (Hfk a Ha). lia.
Qed.

(** A field is replaced by a fresh copy of what it was. *)
Lemma copy_field_ok {S} f (p : ptr T) (set : ptr T -> S -> S) out h0 h v :
  copies f -> view h0 p = Some v -> h0 `prefix_of` h -> set p out = out ->
  exists q h1, copy_field f p set out h = (set q out, h1) /\ h `prefix_of` h1 /\
    fresh_copy (length h0) v h1 q.
Proof.
  intros Hf Hv H0 Hset. destruct (view_extends p h0 h _ Hv H0) as [Hv1 _].
  pose proof (copy_ptr_copies f Hf h p v Hv1) as H. unfold copy_field.
  destruct p as [[a|]]; simpl.
  - unfold mbind, heapM_bind. destruct (copy_ptr f (Ptr (Some a)) h) as [q h1]. destruct H as [Hp Hq].
    exists q, h1. split_and!; try done. apply (fresh_le _ (length h)); [done|by apply prefix_length].
  - destruct H as [_ Hq]. exists (Ptr None), h. rewrite Hset. split_and!; try done.
    apply (fresh_le _ (length h)); [done|by apply prefix_length].
Qed.

(** The same for a struct that is copied in place. *)
Lemma copied_at f (x : T) h0 h v :
  copies f -> view h0 x = Some v -> h0 `prefix_of` h ->
  exists y h1, f x h = (y, h1) /\ h `prefix_of` h1 /\ fresh_copy (length h0) v h1 y.
Proof.
  intros Hf Hv H0. destruct (view_extends x h0 h v Hv H0) as [Hv1 _].
  specialize (Hf h x v Hv1). destruct (f x h) as [y h1]. destruct Hf as [Hp Hy].
  exists y, h1. split_and!; try done. apply (fresh_le _ (length h)); [done|by apply prefix_length].
Qed.

End copying.

Section pairs.
Context {A B : Type} {RA : Reach A} {RB : Reach B} {LA : ReachLaws A} {LB : ReachLaws B}.

Lemma pair_view h (x : A * B) v :
  view h x = Some v <-> view h x.1 = Some v.1 /\ view h x.2 = Some v.2.
Proof.
  change (view h x) with (va ← view h x.1; vb ← view h x.2; Some (va, vb)). destruct v as [va vb]. simpl.
  destruct (view h x.1) as [va'|]; simpl; [destruct (view h x.2) as [vb'|]; simpl|]; naive_solver.
Qed.

#[global] Instance pair_laws : ReachLaws (A * B).
Proof.
  split.
  - intros x h v c [Ha Hb]%pair_view [Hc|Hc]%elem_of_app;
      [by apply (refs_bound x.1 h v.1)|by apply (refs_bound x.2 h v.2)].
  - intros x h h' v [Ha Hb]%pair_view Hl.
    destruct (view_local x.1 h h' v.1 Ha) as [Ha' Ea]; [intros c Hc; apply Hl, elem_of_app; by left|].
    destruct (view_local x.2 h h' v.2 Hb) as [Hb' Eb]; [intros c Hc; apply Hl, elem_of_app; by right|].
    split; [by apply pair_view|]. unfold refs; simpl. by rewrite Ea, Eb.
Qed.

Lemma fresh_pair n v h (x : A * B) :
  fresh_copy n v h x <-> fresh_copy (T := A) n v.1 h x.1 /\ fresh_copy (T := B) n v.2 h x.2.
Proof.
  unfold fresh_copy. rewrite pair_view. change (refs h x) with (refs h x.1 ++ refs h x.2).
  setoid_rewrite elem_of_app. naive_solver.
Qed.
End pairs.

Lemma struct_laws {S T} {RT : Reach T} {LT : ReachLaws T} (parts : S -> T) :
  ReachLaws (H := struct_reach parts) S.
Proof. split; simpl; intros x; [apply refs_bound|apply view_local]. Qed.

#[global] Instance source_laws : ReachLaws LogSource.
Proof. apply struct_laws. Qed.
#[global] Instance spec_laws : ReachLaws AgentSpec.
Proof. apply struct_laws. Qed.
#[global] Instance status_laws : ReachLaws AgentStatus.
Proof. apply struct_laws. Qed.
#[global] Instance agent_laws : ReachLaws Agent.
Proof. apply struct_laws. Qed.
#[global] Instance agent_list_laws : ReachLaws AgentList.
Proof. apply struct_laws. Qed.

(** ** Every method copies *)

Lemma value_copies T : copies (H := value_reach T) (fun x : T => mret x).
Proof. intros h x v [= <-]. split; [done|]. split; [done|]. intros a Ha. by apply elem_of_nil in Ha. Qed.

Lemma fresh_value {T} n h (x : T) v :
  view (Reach := value_reach T) h x = Some v -> fresh_copy (H := value_reach T) n v h x.
Proof. intros Hv. split; [done|]. intros a Ha. by apply elem_of_nil in Ha. Qed.

(** A struct means what its fields mean, and is fresh when they are. *)
Lemma struct_view {S T} {RT : Reach T} (parts : S -> T) h x v :
  view (Reach := struct_reach parts) h x = Some v -> view h (parts x) = Some v.
Proof. done. Qed.
Lemma struct_fresh {S T} {RT : Reach T} (parts : S -> T) n v h x :
  fresh_copy (T := T) n v h (parts x) -> fresh_copy (H := struct_reach parts) n v h x.
Proof. done. Qed.

#[local] Arguments view : simpl never.
#[local] Arguments refs : simpl never.
Tactic Notation "fields" integer(n) hyp(H) := apply struct_view in H; do n (apply pair_view in H as [? H]); simpl in *.
Ltac extends := repeat (first [eassumption|reflexivity|etrans; [eassumption|]]).
Ltac fresh_field := simpl; first [by apply fresh_value|eapply fresh_extends; [eassumption|]; extends].
Tactic Notation "fresh_fields" integer(n) :=
  apply struct_fresh; do n (apply (proj2 (fresh_pair _ _ _ _)); split; [fresh_field|]); fresh_field.
(** The next field, then the next struct in place. *)
Ltac next_field f p set out h0 h q h1 P F :=
  edestruct (copy_field_ok f p set out h0 h) as (q & h1 & -> & P & F);
    [by auto with copies|eassumption|extends|done|].
Ltac next_struct f x h0 h y h1 P F :=
  edestruct (copied_at f x h0 h) as (y & h1 & -> & P & F);
    [by auto with copies|eassumption|extends|].

Lemma requirements_copies : copies requirements_DeepCopyInto.
Proof. intros h [l r] v [= <-]. split; [done|]. by apply fresh_value. Qed.

Create HintDb copies discriminated.
#[local] Hint Resolve meta_copies list_meta_copies selector_copies requirements_copies : copies.

Lemma int_copies : copies int_copy.
Proof. apply value_copies. Qed.
Lemma condition_copies : copies condition_DeepCopyInto.
Proof. apply value_copies. Qed.
Lemma conditions_copies : copies (copy_each condition_DeepCopyInto).
Proof. apply copy_each_copies, condition_copies. Qed.
#[local] Hint Resolve int_copies conditions_copies : copies.

Lemma source_copies : copies source_DeepCopyInto.
Proof.
  intros h [ty path ctr ps ns] v Hv. fields 4 Hv.
  unfold source_DeepCopyInto, mbind, heapM_bind. simpl.
  next_field selector_DeepCopyInto ps set_PodSelector (mkLogSource ty path ctr ps ns) h h q1 h1 P1 F1.
  next_field selector_DeepCopyInto ns set_NamespaceSelector
    (set_PodSelector q1 (mkLogSource ty path ctr ps ns)) h h1 q2 h2 P2 F2.
  split; [by trans h1|fresh_fields 4].
Qed.
Lemma sources_copies : copies (copy_each source_DeepCopyInto).
Proof. apply copy_each_copies, source_copies. Qed.
#[local] Hint Resolve sources_copies : copies.

Lemma spec_copies : copies spec_DeepCopyInto.
Proof.
  intros h [rep img pol sa src url bat fl res] v Hv. fields 8 Hv.
  unfold spec_DeepCopyInto, mbind, heapM_bind.
  cbn [sp_Replicas sp_BatchSize sp_LogSources sp_Resources].
  set (s0 := mkAgentSpec rep img pol sa src url bat fl res).
  next_field int_copy rep set_Replicas s0 h h q1 h1 P1 F1.
  next_field int_copy bat set_BatchSize (set_Replicas q1 s0) h h1 q2 h2 P2 F2.
  next_field (copy_each source_DeepCopyInto) src set_LogSources
    (set_BatchSize q2 (set_Replicas q1 s0)) h h2 q3 h3 P3 F3.
  next_struct requirements_DeepCopyInto res h h3 q4 h4 P4 F4.
  split; [by do 3 (etrans; [eassumption|])|fresh_fields 8].
Qed.

Lemma status_copies : copies status_DeepCopyInto.
Proof.
  intros h [conds av t] v Hv. fields 2 Hv. unfold status_DeepCopyInto. simpl.
  next_field (copy_each condition_DeepCopyInto) conds set_Conditions (mkAgentStatus conds av t) h h q1 h1 P1 F1.
  split; [done|fresh_fields 2].
Qed.
#[local] Hint Resolve spec_copies status_copies : copies.

Lemma agent_copies : copies agent_DeepCopyInto.
Proof.
  intros h [ty meta spec status] v Hv. fields 3 Hv.
  unfold agent_DeepCopyInto, mbind, heapM_bind. simpl.
  next_struct meta_DeepCopyInto meta h h m h1 P1 F1.
  next_struct spec_DeepCopyInto spec h h1 s h2 P2 F2.
  next_struct status_DeepCopyInto status h h2 t h3 P3 F3.
  split; [by do 2 (etrans; [eassumption|])|fresh_fields 3].
Qed.
Lemma items_copies : copies (copy_each agent_DeepCopyInto).
Proof. apply copy_each_copies, agent_copies. Qed.
#[local] Hint Resolve items_copies : copies.

Lemma agent_list_copies : copies agent_list_DeepCopyInto.
Proof.
  intros h [ty meta items] v Hv. fields 2 Hv.
  unfold agent_list_DeepCopyInto, mbind, heapM_bind. simpl.
  next_struct list_meta_DeepCopyInto meta h h m h1 P1 F1.
  next_field (copy_each agent_DeepCopyInto) items set_Items (mkAgentList ty m items) h h1 q h2 P2 F2.
  split; [by trans h1|fresh_fields 2].
Qed.

(** ** What a copy is good for *)

(** Writing to the cells of [changed]. *)
Definition writes (changed : list nat) (h h' : heap) : Prop :=
  forall a, a ∉ changed -> h' !! a = h !! a.

(** [y] and [x] mean [v] in [h], share no cell, and so neither is changed by
    what is written through the other. *)
Definition independent {T} `{Reach T} (v : View T) (x y : T) (h : heap) : Prop :=
  view h x = Some v /\ view h y = Some v /\
  (forall a, a ∈ refs h y -> a ∉ refs h x) /\
  (forall h', writes (refs h y) h h' -> view h' x = Some v) /\
  (forall h', writes (refs h x) h h' -> view h' y = Some v).

Lemma copy_independent {T} `{ReachLaws T} f (x : T) h v :
  copies f -> view h x = Some v -> independent v x (f x h).1 (f x h).2.
Proof.
  intros Hf Hv. specialize (Hf h x v Hv). destruct (f x h) as [y h1]. destruct Hf as [Hp [Hy Hfr]]. simpl.
  destruct (view_extends x h h1 v Hv Hp) as [Hx Ex].
  assert (forall a, a ∈ refs h1 y -> a ∉ refs h1 x) as Hd.
  { intros a Ha Ha'. rewrite Ex in Ha'. apply (refs_bound x h v) in Ha'; [|done]. apply Hfr in Ha. lia. }
  split_and!; try done; intros h2 Hw.
  - apply (view_local x h1 h2 v Hx). intros a Ha. apply Hw. intros Ha'. by apply (Hd a).
  - apply (view_local y h1 h2 v Hy). intros a Ha. apply Hw. by apply Hd.
Qed.


End types.
Arguments LogSource : clear implicits.
Arguments AgentSpec : clear implicits.
Arguments Agent : clear implicits.
Arguments AgentList : clear implicits.
Arguments cell : clear implicits.

Module DeepCopyProperties.

(** C10. [DeepCopy] of a custom resource: the copy means the same as the original,
    down to nil and empty slices, and the two are independent: they share no
    cell, and whatever is written through one (to any cell it reaches: replica
    counts, batch sizes, log sources, selectors, conditions, labels), the other
    still means what it meant.  A nil pointer is copied to nil.  The same holds
    of lists of resources.  The copies that the Kubernetes libraries make of their
    own metadata and selectors are assumed to be deep. *)
Theorem DeepCopy_independent {L : Library} {LR : LibraryReach} {LC : LibraryCopies}
    (p : ptr (Agent L)) (q : ptr (AgentList L)) (h : list (cell L)) v w :
  view h p = Some v -> view h q = Some w ->
  (independent v p (DeepCopy p h).1 (DeepCopy p h).2 /\ (addr (DeepCopy p h).1 = None <-> addr p = None)) /\
  independent w q (List_DeepCopy q h).1 (List_DeepCopy q h).2.
Proof.
  intros Hp Hq.
  pose proof (copy_independent _ p h v (copy_ptr_copies _ agent_copies) Hp) as Hi. split; [split|].
  - exact Hi.
  - destruct Hi as (_ & Hc & _). unfold DeepCopy in *.
    destruct p as [[a|]]; [|done]. apply ptr_view_some in Hp as (x & y & Hd & _ & _).
    unfold copy_ptr. simpl. rewrite Hd. unfold mbind, heapM_bind. by destruct (agent_DeepCopyInto x h).
  - exact (copy_independent _ q h w (copy_ptr_copies _ agent_list_copies) Hq).
Qed.

(** ** A library: metadata is a name and a map of labels, a selector is a map *)

Abbreviation labels := (gmap string string).
#[local] Instance maps : Library := {|
  lib_cell := labels;
  meta_t := string * ptr labels;
  list_meta_t := string;
  selector_t := ptr labels;
|}.
#[local] Instance labels_cell : Cell labels.
Proof. refine {| put := CLib (L := maps); get := fun c => match c with CLib m => Some m | _ => None end |}. done. Defined.
#[local] Instance labels_reach : Reach labels := value_reach labels.
#[local] Instance labels_laws : ReachLaws labels := value_laws labels.
Definition labels_copy (m : labels) : heapM labels := mret m.

#[local] Instance maps_reach : LibraryReach (L := maps) := {|
  meta_reach := pair_reach (A := string) (B := ptr labels);
  meta_laws := pair_laws (A := string) (B := ptr labels);
  list_meta_reach := string_reach;
  list_meta_laws := string_laws;
  selector_reach := ptr_reach (T := labels);
  selector_laws := ptr_laws (T := labels);
|}.

Definition copy_meta (m : string * ptr labels) : heapM (string * ptr labels) :=
  p ← copy_ptr labels_copy m.2; mret (m.1, p).

Lemma copy_meta_copies : copies (H := pair_reach) copy_meta.
Proof.
  intros h [name p] v [Hn Hp]%pair_view. unfold copy_meta, mbind, heapM_bind. simpl.
  pose proof (copy_ptr_copies labels_copy (value_copies labels) h p v.2 Hp) as H.
  simpl in *. destruct (copy_ptr labels_copy p h) as [q h1]. destruct H as [H1 H2].
  split; [done|]. apply (proj2 (fresh_pair _ _ _ _)). split; [by apply fresh_value|done].
Qed.

#[local] Instance maps_copies : LibraryCopies (L := maps) (LR := maps_reach) := {|
  meta_DeepCopyInto := copy_meta;
  list_meta_DeepCopyInto s := mret s;
  selector_DeepCopyInto := copy_ptr labels_copy;
  meta_copies := copy_meta_copies;
  list_meta_copies := value_copies string;
  selector_copies := copy_ptr_copies labels_copy (value_copies labels);
|}.

(** An agent with two replicas, a label and one log source with a selector. *)
Definition demo_heap : list (cell maps) :=
  [CInt 2; CLib {[ "app" := "web" ]}; CSelector (Ptr (Some 1));
   CSources [mkLogSource "pod" "" "" (Ptr (Some 2)) (Ptr None)];
   CLib {[ "team" := "logs" ]};
   CAgent (mkAgentObject (mkTypeMeta "TailpostAgent" "v1alpha1") ("web", Ptr (Some 4))
     (mkAgentSpec (Ptr (Some 0)) "" "" "" (Ptr (Some 3)) "http://logs/" (Ptr None) "5s"
        (ResourceRequirementsSpec.mk (ResourceListSpec.mk "" "") (ResourceListSpec.mk "" "")))
     (mkAgentStatus (Ptr None) 0 0))].
Definition demo_ptr : ptr (Agent maps) := Ptr (Some 5).
Definition demo_copy : ptr (Agent maps) * list (cell maps) := DeepCopy demo_ptr demo_heap.

(** The labels of the copy are in the first cell after those of the original;
    they are overwritten. *)
Definition demo_written : list (cell maps) := <[6 := CLib ∅]> demo_copy.2.

Lemma DeepCopy_independent_witness :
  6 ∈ refs demo_copy.2 demo_copy.1 /\
  view demo_written demo_ptr = view demo_heap demo_ptr /\ is_Some (view demo_heap demo_ptr).
Proof.
  assert (exists v, view demo_heap demo_ptr = Some v) as [v Hv] by (eexists; vm_compute; reflexivity).
  assert (6 ∈ refs demo_copy.2 demo_copy.1) as H6 by (apply (bool_decide_unpack _); vm_compute; exact I).
  split; [exact H6|]. split; [|eauto]. rewrite Hv.
  destruct (DeepCopy_independent demo_ptr (Ptr None) demo_heap v None Hv eq_refl) as [[H _] _].
  destruct H as (_ & _ & _ & H & _). apply H. intros a Ha. unfold demo_written.
  apply list_lookup_insert_ne. intros <-. by apply Ha.
Defined.

End DeepCopyProperties.
