(* ===== verification/Resources.v ===== *)
(** * The objects the operator generates

    Models [src/pkg/k8s/resources/resources.go].  A Go map is iterated in an
    order the runtime chooses ([MapRange]); [resource.MustParse] is the
    parameter [MustParse], which panics on text that is no quantity. *)
From stdpp Require Import pretty.
From S2P Require Import Prelude MapRange KubeTypes.

Definition Component : string := "tailpost-agent".
Definition ConfigFileName : string := "config.yaml".
Definition MetricsPort : Z := 8080.

Section resources.
Context {Q : Type} `{EqDecision Q} (MustParse : string -> result Q).
Implicit Types (cr : TailpostAgent.t).

Definition agent_name cr : string := Name (TailpostAgent.meta cr).
Definition agent_namespace cr : string := Namespace (TailpostAgent.meta cr).

(** [GetLabels] *)
Definition GetLabels cr : gmap string string :=
  {[ "app.kubernetes.io/name" := Component;
     "app.kubernetes.io/instance" := agent_name cr;
     "app.kubernetes.io/managed-by" := "tailpost-operator" ]}.

Definition GetConfigMapName cr : string := agent_name cr +:+ "-config".
Definition GetStatefulSetName cr : string := agent_name cr.
Definition GetServiceName cr : string := agent_name cr.

(** ** The agent's configuration file *)

(** The dynamic types [yaml] distinguishes.  A float carries its shortest
    decimal text, any other value the answer of [json.Marshal]. *)
Inductive yaml_value :=
| VString (s : string)
| VInt (n : Z)
| VFloat32
| VFloat64 (text : string)
| VOther (json : result string).

Definition yaml_text (v : yaml_value) : result string :=
  match v with
  | VString s => Ok s
  | VInt n => Ok (pretty n)
  | VFloat32 => Panic "interface conversion: interface {} is float32, not float64"
  | VFloat64 text => Ok text
  | VOther json => json
  end.

Definition newline : string := go_string [nl].

(** [yaml]: one line per key, in the order of iteration. *)
Fixpoint yaml_lines (kvs : list (string * yaml_value)) : result string :=
  match kvs with
  | [] => Ok ""
  | (k, v) :: kvs =>
      text ← yaml_text v;
      rest ← yaml_lines kvs;
      Ok (k +:+ ": " +:+ text +:+ newline +:+ rest)
  end.
Definition yaml (o : map_order yaml_value) (data : gmap string yaml_value) : result string :=
  yaml_lines (range o data).

(** The first file source with a path. *)
Fixpoint first_file_path (sources : list LogSourceSpec.t) : option string :=
  match sources with
  | [] => None
  | s :: sources =>
      if bool_decide (LogSourceSpec.Type_ s = "file") && negb (String.eqb (LogSourceSpec.Path s) "")
      then Some (LogSourceSpec.Path s) else first_file_path sources
  end.

Definition config_data (cr : TailpostAgent.t) (batch : Z) : gmap string yaml_value :=
  let spec := TailpostAgent.Spec cr in
  let base : gmap string yaml_value :=
    {[ "server_url" := VString (TailpostAgentSpec.ServerURL spec);
       "batch_size" := VInt batch;
       "flush_interval" := VString (TailpostAgentSpec.FlushInterval spec) ]} in
  match first_file_path (TailpostAgentSpec.LogSources spec) with
  | Some p => <["log_path" := VString p]> base
  | None => base
  end.

(** [CreateConfigMap]; a nil [BatchSize] is dereferenced. *)
Definition CreateConfigMap (o : map_order yaml_value) cr : result ConfigMap :=
  match TailpostAgentSpec.BatchSize (TailpostAgent.Spec cr) with
  | None => Panic "invalid memory address or nil pointer dereference"
  | Some batch =>
      text ← wrap_err "failed to convert config to YAML: %w" (yaml o (config_data cr batch));
      Ok (mkConfigMap (mkMeta (GetConfigMapName cr) (agent_namespace cr) (GetLabels cr) None)
            {[ ConfigFileName := text ]})
  end.

(** ** The StatefulSet *)

(** One of the two resource lists: nil when neither value is given. *)
Definition resource_list (l : ResourceListSpec.t) : result (option (gmap string Q)) :=
  let cpu := ResourceListSpec.CPU l in
  let mem := ResourceListSpec.Memory l in
  if negb (String.eqb cpu "") || negb (String.eqb mem "") then
    m ← (if negb (String.eqb cpu "") then q ← MustParse cpu; Ok (<["cpu" := q]> ∅) else Ok ∅);
    m ← (if negb (String.eqb mem "") then q ← MustParse mem; Ok (<["memory" := q]> m) else Ok m);
    Ok (Some m)
  else Ok None.

Definition probe (path : string) (delay : Z) : Probe :=
  mkProbe path MetricsPort "HTTP" delay 5 10.

(** [CreateStatefulSet] *)
Definition CreateStatefulSet cr : result (StatefulSet Q) :=
  let spec := TailpostAgent.Spec cr in
  let labels := GetLabels cr in
  limits ← resource_list (ResourceRequirementsSpec.Limits (TailpostAgentSpec.Resources spec));
  requests ← resource_list (ResourceRequirementsSpec.Requests (TailpostAgentSpec.Resources spec));
  let container := {|
    c_Name := "tailpost-agent";
    c_Image := TailpostAgentSpec.Image spec;
    c_ImagePullPolicy := TailpostAgentSpec.ImagePullPolicy spec;
    c_Command := ["/app/tailpost"];
    c_Args := ["-config"; "/app/config/" +:+ ConfigFileName];
    c_Ports := [mkContainerPort "metrics" MetricsPort "TCP"];
    c_VolumeMounts := [mkVolumeMount "config" "/app/config" false;
                       mkVolumeMount "log-volume" "/host/var/log" true];
    c_Resources := mkResources limits requests;
    c_LivenessProbe := probe "/health" 30;
    c_ReadinessProbe := probe "/ready" 5;
  |} in
  Ok {| sts_meta := mkMeta (GetStatefulSetName cr) (agent_namespace cr) labels None;
        sts_Spec := {|
          s_Replicas := TailpostAgentSpec.Replicas spec;
          s_Selector := labels;
          s_ServiceName := GetServiceName cr;
          s_TemplateLabels := labels;
          s_ServiceAccountName := TailpostAgentSpec.ServiceAccount spec;
          s_Containers := [container];
          s_Volumes := [mkVolume "config" (ConfigMapVolume (GetConfigMapName cr));
                        mkVolume "log-volume" (HostPathVolume "/var/log")];
        |};
        sts_ReadyReplicas := 0 |}.

(** ** The Service *)

(** [CreateService] *)
Definition CreateService cr : Service := {|
  svc_meta := mkMeta (GetServiceName cr) (agent_namespace cr) (GetLabels cr) None;
  svc_Selector := GetLabels cr;
  svc_Ports := [mkServicePort "metrics" MetricsPort MetricsPort "TCP"];
|}.

(** ** Comparisons *)

Definition ConfigMapNeedsUpdate (current desired : ConfigMap) : bool :=
  negb (bool_decide (cm_Data current = cm_Data desired)).

(** [StatefulSetNeedsUpdate]: the first container is indexed, whether or not
    there is one; [||] stops at the first difference. *)
Definition StatefulSetNeedsUpdate (current desired : StatefulSet Q) : result bool :=
  if negb (bool_decide (s_Replicas (sts_Spec current) = s_Replicas (sts_Spec desired))) then Ok true
  else match s_Containers (sts_Spec current), s_Containers (sts_Spec desired) with
       | c :: _, d :: _ =>
           Ok (negb (bool_decide (c_Image c = c_Image d))
               || negb (bool_decide (c_Resources c = c_Resources d)))
       | _, _ => Panic "index out of range [0] with length 0"
       end.

Definition ServiceNeedsUpdate (current desired : Service) : bool :=
  negb (bool_decide (svc_Selector current = svc_Selector desired))
  || negb (bool_decide (svc_Ports current = svc_Ports desired)).

(** ** Lemmas *)

Lemma yaml_config_ok o cr batch : exists text, yaml o (config_data cr batch) = Ok text.
Proof. clear dependent Q.
  unfold yaml.
  assert (forall kv, kv ∈ range o (config_data cr batch) -> exists t, yaml_text kv.2 = Ok t) as H.
  { intros [k v] Hin%elem_of_range. simpl. unfold config_data in Hin.
    assert (forall k v, ({[ "server_url" := VString (TailpostAgentSpec.ServerURL (TailpostAgent.Spec cr));
       "batch_size" := VInt batch;
       "flush_interval" := VString (TailpostAgentSpec.FlushInterval (TailpostAgent.Spec cr)) ]}
        : gmap string yaml_value) !! k = Some v -> exists t, yaml_text v = Ok t) as Hb.
    { intros k' v'. rewrite !lookup_insert_Some, lookup_singleton_Some. naive_solver. }
    destruct (first_file_path _); [|by eapply Hb].
    apply lookup_insert_Some in Hin as [[_ <-]|[_ Hin]]; [by eexists|by eapply Hb]. }
  induction (range o (config_data cr batch)) as [|[k v] l IH]; simpl; [by eexists|].
  destruct (H (k, v)) as [t Ht]; [set_solver|]. simpl in Ht. rewrite Ht. simpl.
  destruct IH as [text ->]; [set_solver|]. simpl. by eexists.
Qed.

Lemma CreateConfigMap_ok o cr :
  is_Some (TailpostAgentSpec.BatchSize (TailpostAgent.Spec cr)) ->
  exists text, CreateConfigMap o cr =
    Ok (mkConfigMap (mkMeta (GetConfigMapName cr) (agent_namespace cr) (GetLabels cr) None)
          {[ ConfigFileName := text ]}).
Proof. clear dependent Q.
  intros [batch E]. unfold CreateConfigMap. rewrite E.
  destruct (yaml_config_ok o cr batch) as [text ->]. by eexists.
Qed.

End resources.
