(* ===== verification/Cluster.v ===== *)
(** * The Kubernetes API server as its client sees it

    The operator reads and writes objects through controller-runtime's
    [client.Client], one request at a time.  The server is a store of objects
    per kind; a request is answered, refused without effect (a conflict, a
    rejected object, an unreachable server, a stale cache), or carried out with
    its answer lost.  A computation of the operator is a function on the
    [world], which also holds the readings of the clock to come, the events
    recorded and the writes asked for. *)
From S2P Require Import Prelude KubeTypes.

Definition NamespacedName : Type := string * string.
Definition key_of (m : ObjectMeta) : NamespacedName := (Namespace m, Name m).

(** [errors.IsNotFound] on an error of the client. *)
Definition IsNotFound (e : error) : bool := match e with NotFound _ => true | _ => false end.

Inductive kind := KAgent | KConfigMap | KStatefulSet | KService.
Inductive write := WCreate (k : kind) (key : NamespacedName)
                 | WUpdate (k : kind) (key : NamespacedName)
                 | WStatus (key : NamespacedName).
#[global] Instance kind_eq_dec : EqDecision kind.
Proof. solve_decision. Defined.
#[global] Instance write_eq_dec : EqDecision write.
Proof. solve_decision. Defined.

Inductive outcome := Answered | Refused (e : error) | Unanswered (e : error).

Record cluster (Q : Type) := mkCluster {
  agents : gmap NamespacedName TailpostAgent.t;
  configmaps : gmap NamespacedName ConfigMap;
  statefulsets : gmap NamespacedName (StatefulSet Q);
  services : gmap NamespacedName Service;
}.
Arguments mkCluster {Q}.
Arguments agents {Q}.
Arguments configmaps {Q}.
Arguments statefulsets {Q}.
Arguments services {Q}.

Record world (Q : Type) := mkWorld {
  cl : cluster Q;
  net : nat -> outcome;
  clock : nat -> Z;
  events : list (string * string);
  writes : list write;
}.
Arguments mkWorld {Q}.
Arguments cl {Q}.
Arguments net {Q}.
Arguments clock {Q}.
Arguments events {Q}.
Arguments writes {Q}.

(** ** The monad of the operator's calls *)

Definition M (Q A : Type) : Type := world Q -> result A * world Q.

#[global] Instance M_ret {Q} : MRet (M Q) := fun A a w => (Ok a, w).
#[global] Instance M_bind {Q} : MBind (M Q) := fun A B f m w =>
  match m w with
  | (Ok a, w') => f a w'
  | (Err e, w') => (Err e, w')
  | (Panic p, w') => (Panic p, w')
  end.

Section monad.
Context {Q : Type}.

Definition throw {A} (e : error) : M Q A := fun w => (Err e, w).
Definition lift {A} (m : result A) : M Q A := fun w => (m, w).

(** [v, err := m]: the error becomes a value; a panic passes. *)
Definition try {A} (m : M Q A) : M Q (A + error) := fun w =>
  match m w with
  | (Ok a, w') => (Ok (inl a), w')
  | (Err e, w') => (Ok (inr e), w')
  | (Panic p, w') => (Panic p, w')
  end.

(** [if err := m; err != nil { return fmt.Errorf(fmt, err) }] *)
Definition wrapM {A} (fmt : string) (m : M Q A) : M Q A := fun w =>
  let '(r, w') := m w in (wrap_err fmt r, w').

(** [metav1.Now()] *)
Definition Now : M Q Z := fun w =>
  (Ok (clock w 0), mkWorld (cl w) (net w) (fun n => clock w (S n)) (events w) (writes w)).

(** [r.Recorder.Eventf(instance, corev1.EventTypeNormal, reason, _, name)] *)
Definition Eventf (reason name : string) : M Q unit := fun w =>
  (Ok tt, mkWorld (cl w) (net w) (clock w) (events w ++ [(reason, name)]) (writes w)).

Definition log_write (x : write) : M Q unit := fun w =>
  (Ok tt, mkWorld (cl w) (net w) (clock w) (events w) (writes w ++ [x])).

(** One request: [serve] is what the server does and answers. *)
Definition request {A} (serve : cluster Q -> result A * cluster Q) : M Q A := fun w =>
  let next c := mkWorld c (fun n => net w (S n)) (clock w) (events w) (writes w) in
  match net w 0 with
  | Answered => let '(r, c) := serve (cl w) in (r, next c)
  | Refused e => (Err e, next (cl w))
  | Unanswered e => (Err e, next (serve (cl w)).2)
  end.

End monad.

(** ** Objects and requests *)

(** [client.Object]: the kind's part of the store; [keep_status stored sent] is
    what an update of the main resource leaves, which does not touch the status
    of a kind with a status subresource. *)
Class Object (Q O : Type) := {
  obj_kind : kind;
  obj_meta : O -> ObjectMeta;
  objects : cluster Q -> gmap NamespacedName O;
  with_objects : gmap NamespacedName O -> cluster Q -> cluster Q;
  keep_status : O -> O -> O;
}.
Arguments obj_kind {Q} O {_}.

#[global] Instance agent_object {Q} : Object Q TailpostAgent.t := {|
  obj_kind := KAgent;
  obj_meta := TailpostAgent.meta;
  objects := agents;
  with_objects m c := mkCluster m (configmaps c) (statefulsets c) (services c);
  keep_status stored sent := TailpostAgent.with_Status (TailpostAgent.Status stored) sent;
|}.
#[global] Instance configmap_object {Q} : Object Q ConfigMap := {|
  obj_kind := KConfigMap;
  obj_meta := cm_meta;
  objects := configmaps;
  with_objects m c := mkCluster (agents c) m (statefulsets c) (services c);
  keep_status stored sent := sent;
|}.
#[global] Instance statefulset_object {Q} : Object Q (StatefulSet Q) := {|
  obj_kind := KStatefulSet;
  obj_meta := sts_meta;
  objects := statefulsets;
  with_objects m c := mkCluster (agents c) (configmaps c) m (services c);
  keep_status stored sent := mkStatefulSet (sts_meta sent) (sts_Spec sent) (sts_ReadyReplicas stored);
|}.
#[global] Instance service_object {Q} : Object Q Service := {|
  obj_kind := KService;
  obj_meta := svc_meta;
  objects := services;
  with_objects m c := mkCluster (agents c) (configmaps c) (statefulsets c) m;
  keep_status stored sent := sent;
|}.

Section client.
Context {Q O : Type} `{!Object Q O}.

Definition Get (key : NamespacedName) : M Q O :=
  request (fun c => (from_option Ok (Err (NotFound key.2)) (objects c !! key), c)).

Definition Create (o : O) : M Q unit :=
  let key := key_of (obj_meta (Q:=Q) o) in
  _ ← log_write (WCreate (obj_kind (Q:=Q) O) key);
  request (fun c =>
    match objects c !! key with
    | Some _ => (Err (External "already exists"), c)
    | None => (Ok tt, with_objects (<[key := o]> (objects c)) c)
    end).

(** [Update] answers the stored object, which the client decodes into the
    caller's. *)
Definition Update (o : O) : M Q O :=
  let key := key_of (obj_meta (Q:=Q) o) in
  _ ← log_write (WUpdate (obj_kind (Q:=Q) O) key);
  request (fun c =>
    match objects c !! key with
    | None => (Err (NotFound key.2), c)
    | Some stored =>
        let o' := keep_status (Q:=Q) stored o in
        (Ok o', with_objects (<[key := o']> (objects c)) c)
    end).

End client.

(** [r.Status().Update(ctx, instance)]: only the status is written. *)
Definition Status_Update {Q} (a : TailpostAgent.t) : M Q TailpostAgent.t :=
  let key := key_of (TailpostAgent.meta a) in
  _ ← log_write (WStatus key);
  request (fun c =>
    match agents c !! key with
    | None => (Err (NotFound key.2), c)
    | Some stored =>
        let a' := TailpostAgent.with_Status (TailpostAgent.Status a) stored in
        (Ok a', with_objects (<[key := a']> (agents c)) c)
    end).
