(* ===== verification/Controller.v ===== *)
(** * The operator's reconciler

    Models [src/pkg/k8s/operator/controller.go]: the defaults, the three
    objects the operator keeps, the status and the conditions, and [Reconcile].
    [ctrl.SetControllerReference] is a parameter; the order in which a Go map
    is iterated is an argument. *)
From S2P Require Import Prelude MapRange KubeTypes Cluster Resources.

Definition ConditionTypeAvailable : string := "Available".
Definition ConditionTypeDegraded : string := "Degraded".
Definition DefaultImage : string := "tailpost:latest".
Definition DefaultImagePullPolicy : string := "IfNotPresent".
Definition DefaultReplicas : Z := 1.
Definition DefaultBatchSize : Z := 10.
Definition DefaultFlushInterval : string := "5s".

Module TailpostAgentReconciler.
Record t := mk { DefaultImage : string; ResyncPeriod : Z; RequeuePeriod : Z }.
End TailpostAgentReconciler.

(** The fields [NewTailpostAgentReconciler] sets by itself; periods in
    nanoseconds. *)
Definition NewTailpostAgentReconciler : TailpostAgentReconciler.t :=
  TailpostAgentReconciler.mk DefaultImage (600 * 10 ^ 9) (30 * 10 ^ 9).

(** ** Conditions in memory *)

(** [findCondition]: the index its pointer refers to. *)
Definition findCondition (conds : list Condition.t) (condType : string) : option nat :=
  fst <$> list_find (fun c => Condition.Type_ c = condType) conds.

(** What [setCondition] does to the conditions. *)
Definition set_condition (conds : list Condition.t) (condType status reason message : string)
    (now : Z) : list Condition.t :=
  let condition := Condition.mk condType status now reason message in
  match findCondition conds condType with
  | Some i =>
      match conds !! i with
      | Some existing =>
          if negb (String.eqb (Condition.Status existing) status)
          then <[i := Condition.mk (Condition.Type_ existing) status now reason message]> conds
          else conds
      | None => conds
      end
  | None => conds ++ [condition]
  end.

(** [append(conds[:foundIdx], conds[foundIdx+1:]...)] *)
Definition remove_at (i : nat) (conds : list Condition.t) : list Condition.t :=
  take i conds ++ drop (i + 1) conds.

Definition with_conditions (conds : list Condition.t) (a : TailpostAgent.t) : TailpostAgent.t :=
  let st := TailpostAgent.Status a in
  TailpostAgent.with_Status (TailpostAgentStatus.mk conds
    (TailpostAgentStatus.AvailableReplicas st) (TailpostAgentStatus.LastUpdateTime st)) a.

Definition conditions (a : TailpostAgent.t) : list Condition.t :=
  TailpostAgentStatus.Conditions (TailpostAgent.Status a).

(** ** The reconciler *)

Section reconciler.
Context {Q : Type} `{EqDecision Q} (MustParse : string -> result Q).
Context (SetControllerReference : TailpostAgent.t -> ObjectMeta -> result ObjectMeta).
Context (r : TailpostAgentReconciler.t).
Implicit Types (instance : TailpostAgent.t).

(** [setCondition]; a failed update is only logged. *)
Definition setCondition instance (condType status reason message : string) : M Q TailpostAgent.t :=
  now ← Now;
  let instance := with_conditions
    (set_condition (conditions instance) condType status reason message now) instance in
  res ← try (Status_Update instance);
  match res with
  | inl stored => mret stored
  | inr _ => mret instance
  end.

(** [removeCondition] *)
Definition removeCondition instance (condType : string) : M Q TailpostAgent.t :=
  match findCondition (conditions instance) condType with
  | Some i =>
      let instance := with_conditions (remove_at i (conditions instance)) instance in
      res ← try (Status_Update instance);
      match res with
      | inl stored => mret stored
      | inr _ => mret instance
      end
  | None => mret instance
  end.

(** The defaulted specification and [needsUpdate]. *)
Definition default_spec (s : TailpostAgentSpec.t) : TailpostAgentSpec.t * bool :=
  let '(image, n1) := if String.eqb (TailpostAgentSpec.Image s) ""
    then (TailpostAgentReconciler.DefaultImage r, true) else (TailpostAgentSpec.Image s, false) in
  let '(policy, n2) := if String.eqb (TailpostAgentSpec.ImagePullPolicy s) ""
    then (DefaultImagePullPolicy, true) else (TailpostAgentSpec.ImagePullPolicy s, n1) in
  let '(replicas, n3) := match TailpostAgentSpec.Replicas s with
    | None => (Some DefaultReplicas, true) | Some n => (Some n, n2) end in
  let '(batch, n4) := match TailpostAgentSpec.BatchSize s with
    | None => (Some DefaultBatchSize, true) | Some n => (Some n, n3) end in
  let '(flush, n5) := if String.eqb (TailpostAgentSpec.FlushInterval s) ""
    then (DefaultFlushInterval, true) else (TailpostAgentSpec.FlushInterval s, n4) in
  (TailpostAgentSpec.mk replicas image policy (TailpostAgentSpec.ServiceAccount s)
     (TailpostAgentSpec.LogSources s) (TailpostAgentSpec.ServerURL s) batch flush
     (TailpostAgentSpec.Resources s), n5).

(** [setDefaults] *)
Definition setDefaults instance : M Q TailpostAgent.t :=
  let '(spec, needsUpdate) := default_spec (TailpostAgent.Spec instance) in
  let instance := TailpostAgent.with_Spec spec instance in
  if needsUpdate
  then wrapM "failed to update instance with defaults: %w" (Update instance)
  else mret instance.

(** [reconcileConfigMap] *)
Definition reconcileConfigMap (o : map_order yaml_value) instance : M Q unit :=
  configMap ← wrapM "failed to create ConfigMap: %w" (lift (CreateConfigMap o instance));
  meta ← wrapM "failed to set owner reference on ConfigMap: %w"
    (lift (SetControllerReference instance (cm_meta configMap)));
  let configMap := mkConfigMap meta (cm_Data configMap) in
  res ← try (Get (O:=ConfigMap) (key_of meta));
  match res with
  | inr e =>
      if IsNotFound e then
        _ ← wrapM "failed to create ConfigMap: %w" (Create configMap);
        Eventf "ConfigMapCreated" (Name meta)
      else throw (Wrapf "failed to get ConfigMap: %w" e)
  | inl found =>
      if ConfigMapNeedsUpdate found configMap then
        _ ← wrapM "failed to update ConfigMap: %w"
          (Update (mkConfigMap (cm_meta found) (cm_Data configMap)));
        Eventf "ConfigMapUpdated" (Name meta)
      else mret tt
  end.

(** [reconcileStatefulSet] *)
Definition reconcileStatefulSet instance : M Q unit :=
  statefulSet ← wrapM "failed to create StatefulSet: %w" (lift (CreateStatefulSet MustParse instance));
  meta ← wrapM "failed to set owner reference on StatefulSet: %w"
    (lift (SetControllerReference instance (sts_meta statefulSet)));
  let statefulSet := mkStatefulSet meta (sts_Spec statefulSet) (sts_ReadyReplicas statefulSet) in
  res ← try (Get (O:=StatefulSet Q) (key_of meta));
  match res with
  | inr e =>
      if IsNotFound e then
        _ ← wrapM "failed to create StatefulSet: %w" (Create statefulSet);
        Eventf "StatefulSetCreated" (Name meta)
      else throw (Wrapf "failed to get StatefulSet: %w" e)
  | inl found =>
      needed ← lift (StatefulSetNeedsUpdate found statefulSet);
      if needed : bool then
        _ ← wrapM "failed to update StatefulSet: %w"
          (Update (mkStatefulSet (sts_meta found) (sts_Spec statefulSet) (sts_ReadyReplicas found)));
        Eventf "StatefulSetUpdated" (Name meta)
      else mret tt
  end.

(** [reconcileService] *)
Definition reconcileService instance : M Q unit :=
  let service := CreateService instance in
  meta ← wrapM "failed to set owner reference on Service: %w"
    (lift (SetControllerReference instance (svc_meta service)));
  let service := mkService meta (svc_Selector service) (svc_Ports service) in
  res ← try (Get (O:=Service) (key_of meta));
  match res with
  | inr e =>
      if IsNotFound e then
        _ ← wrapM "failed to create Service: %w" (Create service);
        Eventf "ServiceCreated" (Name meta)
      else throw (Wrapf "failed to get Service: %w" e)
  | inl found =>
      if ServiceNeedsUpdate found service then
        _ ← wrapM "failed to update Service: %w"
          (Update (mkService (svc_meta found) (svc_Selector service) (svc_Ports service)));
        Eventf "ServiceUpdated" (Name meta)
      else mret tt
  end.

(** [updateStatus] *)
Definition updateStatus instance : M Q TailpostAgent.t :=
  res ← try (Get (O:=StatefulSet Q) (agent_namespace instance, GetStatefulSetName instance));
  available ← match res with
    | inr e => if IsNotFound e then mret 0%Z else throw (Wrapf "failed to get StatefulSet: %w" e)
    | inl sts => mret (sts_ReadyReplicas sts)
    end;
  now ← Now;
  wrapM "failed to update status: %w"
    (Status_Update (TailpostAgent.with_Status
       (TailpostAgentStatus.mk (conditions instance) available now) instance)).

(** [ctrl.Result] by its [RequeueAfter], and the error. *)
Definition answer : Type := Z * option error.

(** A failed step of [Reconcile] that is reported as a condition. *)
Definition degraded instance (reason : string) (msg : error -> string) (e : error) : M Q answer :=
  _ ← setCondition instance ConditionTypeDegraded "True" reason (msg e);
  mret (TailpostAgentReconciler.RequeuePeriod r, Some e).

(** [Reconcile]; [msg] is the method [Error()] of an error. *)
Definition Reconcile (o : map_order yaml_value) (msg : error -> string)
    (key : NamespacedName) : M Q answer :=
  got ← try (Get (O:=TailpostAgent.t) key);
  match got with
  | inr e => mret (0%Z, if IsNotFound e then None else Some e)
  | inl instance =>
  d ← try (setDefaults instance);
  match d with
  | inr e => mret (TailpostAgentReconciler.RequeuePeriod r, Some e)
  | inl instance =>
  c ← try (reconcileConfigMap o instance);
  match c with
  | inr e => degraded instance "ConfigMapReconcileFailed" msg e
  | inl _ =>
  s ← try (reconcileStatefulSet instance);
  match s with
  | inr e => degraded instance "StatefulSetReconcileFailed" msg e
  | inl _ =>
  v ← try (reconcileService instance);
  match v with
  | inr e => degraded instance "ServiceReconcileFailed" msg e
  | inl _ =>
  u ← try (updateStatus instance);
  match u with
  | inr e => mret (TailpostAgentReconciler.RequeuePeriod r, Some e)
  | inl instance =>
  instance ← setCondition instance ConditionTypeAvailable "True" "AgentAvailable" "The agent is available";
  _ ← removeCondition instance ConditionTypeDegraded;
  mret (TailpostAgentReconciler.ResyncPeriod r, None)
  end end end end end end.

End reconciler.
