(* ===== verification/OperatorMain.v ===== *)
(** * The operator program

    Models [src/cmd/operator/main.go]: its [init], its flags and logging
    options, its telemetry, and the set-up of the controller manager up to
    [mgr.Start], in the monad of [Startup]; the scheme registration of
    [src/pkg/k8s/api/v1alpha1/types.go]; [SetupWithManager] of
    [src/pkg/k8s/operator/controller.go]; and how the operator is deployed
    ([src/deploy/kubernetes/operator_deployment.yaml]).  controller-runtime is
    the parameter [runtime_api]: what its constructors and the API server
    answer.  The flags that libraries declare are parameters too: [preset], those
    the imported packages have declared before [main] (controller-runtime
    declares [kubeconfig]), and [zap], those [opts.BindFlags] declares. *)
From stdpp Require Import pretty.
From S2P Require Import Prelude Host GoFlag Config Auth MapRange Telemetry KubeTypes Cluster Resources Controller Health Startup.

(** ** The scheme *)

Record gvk := mkGvk { gvk_group : string; gvk_version : string; gvk_kind : string }.

#[global] Instance gvk_eq_dec : EqDecision gvk.
Proof. solve_decision. Defined.

Definition SchemeGroupVersion : string * string := ("tailpost.elastic.co", "v1alpha1").

(** [Kind] and [Resource]: qualified with the group. *)
Definition Kind (kind : string) : string * string := (SchemeGroupVersion.1, kind).
Definition Resource (resource : string) : string * string := (SchemeGroupVersion.1, resource).

(** [addKnownTypes], [Register]; [metav1.AddToGroupVersion] adds the kinds of
    requests, which nothing here looks up. *)
Definition addKnownTypes (scheme : list gvk) : list gvk :=
  scheme ++ map (mkGvk SchemeGroupVersion.1 SchemeGroupVersion.2) ["TailpostAgent"; "TailpostAgentList"].
Definition Register (scheme : list gvk) : result (list gvk) := Ok (addKnownTypes scheme).

(** The second registration, of [src/pkg/k8s/operator/register.go]. *)
Module OperatorRegister.
Definition GroupName : string := "tailpost.elastic.co".
Definition GroupVersion : string := "v1alpha1".
Definition SchemeGroupVersion : string * string := (GroupName, GroupVersion).
Definition Resource (resource : string) : string * string := (SchemeGroupVersion.1, resource).
Definition addKnownTypes (scheme : list gvk) : result (list gvk) :=
  Ok (scheme ++ [mkGvk SchemeGroupVersion.1 SchemeGroupVersion.2 "TailpostAgent";
                 mkGvk SchemeGroupVersion.1 SchemeGroupVersion.2 "TailpostAgentList"]).

(** [SchemeBuilder.AddToScheme]: the functions of the builder, one after the
    other. *)
Definition SchemeBuilder : list (list gvk -> result (list gvk)) := [addKnownTypes].
Fixpoint build (fs : list (list gvk -> result (list gvk))) (scheme : list gvk) : result (list gvk) :=
  match fs with
  | [] => Ok scheme
  | f :: fs => scheme ← f scheme; build fs scheme
  end.
Definition AddToScheme (scheme : list gvk) : result (list gvk) := build SchemeBuilder scheme.
End OperatorRegister.

(** ** [init] *)

(** The collectors the operator registers, by name. *)
Definition operator_collectors : list string :=
  ["tailpost_operator_reconciliations_total"; "tailpost_operator_reconciliation_duration_seconds";
   "tailpost_operator_managed_resources"; "go_build_info"; "go_collector"; "process_collector"].

(** [Registry.MustRegister]: a collector that is registered already panics. *)
Fixpoint MustRegister (names : list string) (registry : list string) : result (list string) :=
  match names with
  | [] => Ok registry
  | n :: names =>
      if bool_decide (n ∈ registry) then Panic "duplicate metrics collector registration attempted"
      else MustRegister names (registry ++ [n])
  end.

(** [init], with the kinds of the client library and the collectors that the
    packages it imports have registered. *)
Definition operator_init (clientgo : result (list gvk)) (registry : list string)
    : result (list gvk * list string) :=
  scheme ← match clientgo with Err _ => Panic "utilruntime.Must" | r => r end;
  scheme ← Register scheme;
  registry ← MustRegister operator_collectors registry;
  Ok (scheme, registry).

(** ** Flags and logging *)

Definition operator_flags : flags :=
  {[ "metrics-addr" := FString ":8080"; "health-probe-addr" := FString ":8081";
     "enable-leader-election" := FBool false; "enable-telemetry" := FBool false;
     "telemetry-endpoint" := FString "http://localhost:4318";
     "log-format" := FString "json"; "log-level" := FString "info" ]}.

(** [ctrlzap.Options] as the program fills it. *)
Record zap_options := mkZapOptions {
  zo_Development : bool;
  zo_Level : zap_level;
  zo_iso8601 : bool;
}.

Definition zap_opts (logLevel logFormat : string) : zap_options :=
  mkZapOptions false (zapLevel logLevel) (bool_decide (logFormat = "console")).

(** Declaring the flags [new] on top of those of [fs]: [flag.Var] panics on a
    name that is declared already. *)
Definition declare_flags (fs new : flags) : M flags := fun st =>
  if bool_decide (dom new ∩ dom fs =@{gset string} ∅) then Running (fs ∪ new) st
  else Crashed "flag redefined" st.

(** ** The manager *)

(** [ctrl.Options] *)
Record manager_options := mkManagerOptions {
  mo_scheme : list gvk;
  mo_metrics_addr : string;
  mo_probe_addr : string;
  mo_leader_election : bool;
  mo_leader_election_id : string;
  mo_shutdown_timeout : Z;
}.

(** A health check: always well, or asking the API server for one node. *)
Inductive check := Ping | ListNodes.

#[global] Instance check_eq_dec : EqDecision check.
Proof. solve_decision. Defined.

Record manager := mkManagerState {
  mgr_options : manager_options;
  mgr_watched : list gvk;
  healthz_checks : list (string * check);
  readyz_checks : list (string * check);
}.

(** What controller-runtime and the API server answer. *)
Record runtime_api := mkRuntime {
  rt_config : result unit;                 (* ctrl.GetConfigOrDie *)
  rt_NewManager : manager_options -> result unit;
  rt_clientset : result unit;              (* kubernetes.NewForConfig *)
  rt_controller : result unit;             (* Complete *)
  rt_AddCheck : string -> result unit;
  rt_List : string -> result unit;         (* client.List of a resource *)
}.

(** [SetupWithManager]: the kinds it watches must be in the scheme. *)
Definition watched_kinds : list gvk :=
  [mkGvk "tailpost.elastic.co" "v1alpha1" "TailpostAgent"; mkGvk "apps" "v1" "StatefulSet";
   mkGvk "" "v1" "ConfigMap"; mkGvk "" "v1" "Service"].

Section operator.
Context (A : runtime_api).

Definition SetupWithManager (m : manager) : result manager :=
  _ ← fail_if (negb (forallb (fun k => bool_decide (k ∈ mo_scheme (mgr_options m))) watched_kinds))
        (Errorf "no kind is registered for the type in scheme");
  _ ← rt_controller A;
  Ok (mkManagerState (mgr_options m) watched_kinds (healthz_checks m) (readyz_checks m)).

Definition AddHealthzCheck (name : string) (c : check) (m : manager) : result manager :=
  _ ← rt_AddCheck A name;
  Ok (mkManagerState (mgr_options m) (mgr_watched m) (healthz_checks m ++ [(name, c)]) (readyz_checks m)).
Definition AddReadyzCheck (name : string) (c : check) (m : manager) : result manager :=
  _ ← rt_AddCheck A name;
  Ok (mkManagerState (mgr_options m) (mgr_watched m) (healthz_checks m) (readyz_checks m ++ [(name, c)])).

(** [NewTailpostAgentReconciler], whose only call that can fail makes the
    clientset. *)
Definition new_reconciler : result TailpostAgentReconciler.t :=
  _ ← wrap_err "failed to create kubernetes clientset: %w" (rt_clientset A);
  Ok NewTailpostAgentReconciler.

(** The telemetry configuration of the operator. *)
Definition operator_telConfig (h : host) (endpoint : string) : TelConfig.t := {|
  TelConfig.ServiceName := "tailpost-operator";
  TelConfig.ServiceVersion := "0.1.0";
  TelConfig.ExporterType := "http";
  TelConfig.ExporterEndpoint := endpoint;
  TelConfig.ExporterTimeout := 30 * Second;
  TelConfig.SamplingRate := float_one;
  TelConfig.PropagateContexts := true;
  TelConfig.Attributes := Some {[ "k8s.namespace" := Getenv h "POD_NAMESPACE";
                                  "k8s.pod" := Getenv h "POD_NAME"; "component" := "operator" ]};
  TelConfig.DisableTelemetry := false;
|}.

Definition operator_telemetry (K : otel_sdk) (order : map_order string) (h : host) (fs : flags) (o : otel)
    : otel * option (option nat) :=
  if bool_flag fs "enable-telemetry" then
    let '(o, r) := Setup K order (operator_telConfig h (string_flag fs "telemetry-endpoint")) o in
    (o, match r with Ok c => Some c | _ => None end)
  else (o, None).

(** [main], up to [mgr.Start]; [zap] are the flags [opts.BindFlags] declares
    between the two calls of [flag.Parse], [preset] those declared before [main]. *)
Definition operator_main (K : otel_sdk) (order : map_order string) (h : host) (scheme : list gvk)
    (preset zap : flags) (args : list string)
    : M (manager * TailpostAgentReconciler.t * zap_options * option (option nat)) :=
  fs ← declare_flags preset operator_flags;
  fs ← parse_flags fs args;
  let opts := zap_opts (string_flag fs "log-level") (string_flag fs "log-format") in
  fs ← declare_flags fs zap;
  fs ← parse_flags fs args;
  cleanup ← on_otel (operator_telemetry K order h fs);
  _ ← fatal (rt_config A);
  let options := mkManagerOptions scheme (string_flag fs "metrics-addr")
      (string_flag fs "health-probe-addr") (bool_flag fs "enable-leader-election")
      "tailpost-operator-leader-election" (30 * Second) in
  _ ← fatal (rt_NewManager A options);
  let mgr := mkManagerState options [] [] [] in
  reconciler ← fatal new_reconciler;
  mgr ← fatal (SetupWithManager mgr);
  mgr ← fatal (AddHealthzCheck "healthz" Ping mgr);
  mgr ← fatal (AddReadyzCheck "readyz" Ping mgr);
  mgr ← fatal (AddHealthzCheck "webhook" Ping mgr);
  mgr ← fatal (AddHealthzCheck "kubernetes-api" ListNodes mgr);
  mret (mgr, reconciler, opts, cleanup).

(** A check when it is asked. *)
Definition run_check (c : check) : result unit :=
  match c with Ping => Ok tt | ListNodes => rt_List A "nodes" end.

(** The endpoints [/healthz] and [/readyz]: well when every check is. *)
Definition healthz (m : manager) : bool := forallb (fun c => is_ok (run_check c.2)) (healthz_checks m).
Definition readyz (m : manager) : bool := forallb (fun c => is_ok (run_check c.2)) (readyz_checks m).

End operator.

(** ** The deployment *)

(** The arguments of the container and the rules of the cluster role, for the
    verb [list]. *)
Definition deployment_args : list string :=
  ["--metrics-bind-address=:8080"; "--health-probe-bind-address=:8081"; "--leader-elect=false";
   "--default-image=tailpost:latest"].
Definition role_lists : list string :=
  ["namespaces"; "pods"; "services"; "configmaps"; "statefulsets"; "tailpostagents";
   "tailpostagents/status"; "tailpostagents/finalizers"].

(** An API server that enforces the role. *)
Definition role_enforced (A : runtime_api) : Prop :=
  forall r, is_ok (rt_List A r) = true -> r ∈ role_lists.

(** ** Lemmas *)

Lemma declare_running fs new fs' st st' :
  declare_flags fs new st = Running fs' st' <-> dom new ## dom fs /\ fs' = fs ∪ new /\ st' = st.
Proof.
  unfold declare_flags. rewrite disjoint_intersection_L.
  case_bool_decide; split; [by intros [= <- <-]|by intros (_ & -> & ->)|done|by intros [? _]].
Qed.

(** The flags of the operator when the command line is parsed for the first
    time. *)
Definition declared (preset : flags) : flags := preset ∪ operator_flags.

Lemma declared_operator preset n k :
  dom operator_flags ## dom preset -> operator_flags !! n = Some k -> declared preset !! n = Some k.
Proof.
  intros Hd Hn. unfold declared. rewrite lookup_union_r; [done|].
  apply not_elem_of_dom. apply (elem_of_dom_2 (D := gset string)) in Hn.
  intros Hp. by apply (Hd n).
Qed.

Lemma operator_flag_union preset zap args fs rest n :
  dom operator_flags ## dom preset -> Parse (declared preset) args = Parsed fs rest ->
  is_Some (operator_flags !! n) ->
  string_flag (fs ∪ zap) n = string_flag fs n /\ bool_flag (fs ∪ zap) n = bool_flag fs n.
Proof.
  intros Hd HP [k Hn]. unfold string_flag, bool_flag.
  rewrite !(Parse_union _ _ _ _ _ n HP); [done|]. eexists. by apply declared_operator.
Qed.

(** Parsing neither declares nor removes a flag. *)
Lemma Parse_dom fs args fs' rest : Parse fs args = Parsed fs' rest -> dom fs' = dom fs.
Proof.
  intros HP. apply set_eq. intros n. rewrite !elem_of_dom. pose proof (Parse_kinds _ _ _ _ HP n) as Hk.
  destruct (fs !! n) as [[]|], (fs' !! n) as [[]|]; try done; split; intros [? ?]; done || by eexists.
Qed.

Lemma operator_main_inv A K order h scheme preset zap args s m r opts cl st :
  operator_main A K order h scheme preset zap args s = Running (m, r, opts, cl) st ->
  exists fs rest, Parse (declared preset) args = Parsed fs rest /\
    Parse (fs ∪ zap) args = Parsed (fs ∪ zap) rest /\
    mgr_options m = mkManagerOptions scheme (string_flag fs "metrics-addr")
      (string_flag fs "health-probe-addr") (bool_flag fs "enable-leader-election")
      "tailpost-operator-leader-election" (30 * Second) /\
    mgr_watched m = watched_kinds /\ (forall k, k ∈ watched_kinds -> k ∈ scheme) /\
    readyz A m = true /\ healthz A m = is_ok (rt_List A "nodes") /\
    opts = zap_opts (string_flag fs "log-level") (string_flag fs "log-format") /\
    r = NewTailpostAgentReconciler.
Proof.
  intros H. unfold operator_main, on_otel in H.
  apply bind_running in H as (fs0 & s0 & (Hd & -> & ->)%declare_running & H).
  apply bind_running in H as (fs & s1 & [[rest HP] ->]%parse_running & H).
  apply bind_running in H as (fs1 & s1' & (Hd2 & -> & ->)%declare_running & H).
  apply bind_running in H as (fs2 & s2 & [[rest2 HP2] ->]%parse_running & H).
  rewrite (Parse_dom _ _ _ _ HP) in Hd2. symmetry in Hd2.
  rewrite (Parse_again _ _ _ _ _ Hd2 HP) in HP2. injection HP2 as <- <-.
  exists fs, rest. split; [done|]. split; [by eapply Parse_again|].
  destruct (operator_flag_union preset zap args fs rest "metrics-addr" Hd HP) as [E1 _]; [by eexists|].
  destruct (operator_flag_union preset zap args fs rest "health-probe-addr" Hd HP) as [E2 _]; [by eexists|].
  destruct (operator_flag_union preset zap args fs rest "enable-leader-election" Hd HP) as [_ E3]; [by eexists|].
  rewrite E1, E2, E3 in H.
  apply bind_running in H as (cl' & s3 & _ & H).
  apply bind_running in H as ([] & s4 & [_ ->]%fatal_running & H).
  apply bind_running in H as ([] & s5 & [_ ->]%fatal_running & H).
  apply bind_running in H as (r' & s6 & [Hr ->]%fatal_running & H).
  apply bind_running in H as (m1 & s7 & [H1 ->]%fatal_running & H).
  apply bind_running in H as (m2 & s8 & [H2 ->]%fatal_running & H).
  apply bind_running in H as (m3 & s9 & [H3 ->]%fatal_running & H).
  apply bind_running in H as (m4 & s10 & [H4 ->]%fatal_running & H).
  apply bind_running in H as (m5 & s11 & [H5 ->]%fatal_running & H).
  injection H as <- <- <- <- <-.
  unfold SetupWithManager in H1. apply unit_ok in H1 as [Hk H1]. apply unit_ok in H1 as [_ [= <-]].
  apply fail_if_ok in Hk. apply negb_false_iff in Hk. rewrite forallb_forall in Hk.
  unfold AddHealthzCheck in H2, H4, H5. unfold AddReadyzCheck in H3.
  apply unit_ok in H2 as [_ [= <-]]. apply unit_ok in H3 as [_ [= <-]].
  apply unit_ok in H4 as [_ [= <-]]. apply unit_ok in H5 as [_ [= <-]].
  unfold new_reconciler in Hr. apply unit_ok in Hr as [_ [= <-]]. simpl in *.
  split_and!; try done.
  - intros k Hin. apply list_elem_of_In in Hin. by apply Hk, bool_decide_eq_true in Hin.
  - unfold healthz; simpl. by rewrite andb_true_r.
Qed.

Lemma MustRegister_ok names registry :
  NoDup names -> is_ok (MustRegister names registry) = true <-> (forall n, n ∈ names -> n ∉ registry).
Proof.
  intros Hnd. revert registry. induction Hnd as [|n names Hn _ IH]; intros registry; simpl.
  { split; [|done]. intros _ n Hin. by apply elem_of_nil in Hin. }
  case_bool_decide as Hin; simpl.
  - split; [done|]. intros H. exfalso. apply (H n); [left|done].
  - rewrite IH. split.
    + intros H x [->|Hx]%elem_of_cons Hr; [done|]. apply (H x Hx), elem_of_app. by left.
    + intros H x Hx [Hr|Hr%list_elem_of_singleton]%elem_of_app; [|congruence].
      apply (H x); [by right|done].
Qed.

Module OperatorMainProperties.

(** [init] succeeds exactly when none of the operator's collectors, the Go and
    the process collector among them, is in the registry already; it then has
    registered the types of the API group. *)
Theorem operator_init_spec kinds registry :
  (is_ok (operator_init (Ok kinds) registry) = true <->
   forall n, n ∈ operator_collectors -> n ∉ registry) /\
  forall scheme reg, operator_init (Ok kinds) registry = Ok (scheme, reg) ->
    mkGvk "tailpost.elastic.co" "v1alpha1" "TailpostAgent" ∈ scheme /\ kinds `prefix_of` scheme.
Proof.
  unfold operator_init, Register. cbn [mbind result_bind]. split.
  - rewrite <- (MustRegister_ok operator_collectors registry).
    + by destruct (MustRegister operator_collectors registry).
    + apply (bool_decide_unpack _). vm_compute. exact I.
  - intros scheme reg. destruct (MustRegister _ registry); cbn; try done. intros [= <- _].
    unfold addKnownTypes. split; [|by eexists]. apply elem_of_app. right. left.
Qed.

(** The two registrations of the API group, of the package of the types and of
    the operator's package, register the same kinds and name the same
    resources. *)
Theorem registrations_agree scheme r :
  OperatorRegister.AddToScheme scheme = Register scheme /\ OperatorRegister.Resource r = Resource r.
Proof. done. Qed.


(** C39. The deployment of the operator does not work as it is written: its arguments
    name flags the program does not declare, so the process exits with status 2
    before it has done anything (unless an imported package should declare the
    first of them); and its cluster role does not let the operator list nodes,
    so that with working arguments the liveness probe fails. *)
Theorem deployment_fails A K order h scheme preset zap s :
  (preset !! "metrics-bind-address" = None -> dom operator_flags ## dom preset ->
   operator_main A K order h scheme preset zap deployment_args s = Exited 2 s) /\
  (role_enforced A ->
   forall args m r opts cl st,
     operator_main A K order h scheme preset zap args s = Running (m, r, opts, cl) st ->
     readyz A m = true /\ healthz A m = false).
Proof.
  split.
  - intros Hn Hd. unfold operator_main, mbind at 1, M_bind.
    rewrite (proj2 (declare_running preset operator_flags _ s s)) by done. unfold mbind at 1, parse_flags.
    change deployment_args with (spelled true "metrics-bind-address" (Some ":8080") :: tl deployment_args).
    by rewrite Parse_undefined; [|reflexivity|rewrite lookup_union, Hn| |].
  - intros Hrole args m r opts cl st H.
    destruct (operator_main_inv A K order h scheme preset zap args s m r opts cl st H)
      as (_ & _ & _ & _ & _ & _ & _ & -> & -> & _). split; [done|].
    destruct (is_ok (rt_List A "nodes")) eqn:En; [|done]. apply Hrole in En.
    apply (bool_decide_eq_true_2 _) in En. by vm_compute in En.
Qed.

(** A flag of the logging library cannot be used: it is declared only after the
    command line was parsed once, and that ends the process. *)
Theorem zap_flag_exits A K order h scheme preset zap dashes name v args s :
  dom operator_flags ## dom preset ->
  plain name = true -> operator_flags !! name = None -> preset !! name = None ->
  name <> "help" -> name <> "h" ->
  operator_main A K order h scheme preset zap (spelled dashes name v :: args) s = Exited 2 s.
Proof.
  intros Hd H1 H2 Hp H3 H4. unfold operator_main, mbind at 1, M_bind.
  rewrite (proj2 (declare_running preset operator_flags _ s s)) by done. unfold mbind at 1, parse_flags.
  by rewrite (Parse_undefined (preset ∪ operator_flags) dashes name v args H1);
    [|rewrite lookup_union, H2, Hp|..].
Qed.

(** C12. The objects the operator generates for an agent fit together and fit the
    agent's program, in both of its versions.  The arguments of the container
    parse with the flags the agent declares; the configuration file they name is
    the one file of the generated ConfigMap, in the same namespace, through the
    volume that the container mounts there; the agent then serves its probes on
    the port that the liveness and readiness probes ask and to which the Service
    sends, a port the container declares, and it has a handler for the path of
    either probe. *)
Theorem generated_objects_fit {Q} (parse : string -> result Q) order cr sts cm c :
  CreateStatefulSet parse cr = Ok sts -> CreateConfigMap order cr = Ok cm ->
  c ∈ s_Containers (sts_Spec sts) ->
  exists fs mount file text port,
    Parse agent_flags (c_Args c) = Parsed fs [] /\
    cm_Data cm = {[ file := text ]} /\ mount ∈ c_VolumeMounts c /\
    mkVolume (vm_Name mount) (ConfigMapVolume (Name (cm_meta cm))) ∈ s_Volumes (sts_Spec sts) /\
    Namespace (cm_meta cm) = Namespace (sts_meta sts) /\
    string_flag fs "config" = MountPath mount +:+ "/" +:+ file /\
    string_flag fs "metrics-addr" = ":" +:+ pretty port /\
    HTTPGet_Port (c_LivenessProbe c) = port /\ HTTPGet_Port (c_ReadinessProbe c) = port /\
    port ∈ map cp_Port (c_Ports c) /\ Forall (fun p => sp_TargetPort p = port) (svc_Ports (CreateService cr)) /\
    svc_Selector (CreateService cr) = s_TemplateLabels (sts_Spec sts) /\
    forall (O : oauth2) (hs : HealthServer O) o now r,
      is_Some (serve o now (HTTPGet_Path (c_LivenessProbe c)) hs r) /\
      is_Some (serve o now (HTTPGet_Path (c_ReadinessProbe c)) hs r).
Proof.
  intros H Hcm Hc. unfold CreateStatefulSet in H. apply bind_ok in H as (lim & _ & H).
  apply bind_ok in H as (req & _ & [= <-]). simpl in Hc. apply list_elem_of_singleton in Hc as ->. simpl.
  unfold CreateConfigMap in Hcm. destruct (TailpostAgentSpec.BatchSize _) as [batch|]; [|done].
  apply bind_ok in Hcm as (text & _ & [= <-]). simpl.
  exists (<["config" := FString "/app/config/config.yaml"]> agent_flags),
    (mkVolumeMount "config" "/app/config" false), ConfigFileName, text, 8080%Z.
  split; [reflexivity|]. split; [done|]. split; [apply elem_of_cons; by left|].
  split; [apply elem_of_cons; by left|]. split_and!; try done; [by left|by constructor].
Qed.

(** ** Concrete runs *)

Definition core_kinds : list gvk :=
  [mkGvk "apps" "v1" "StatefulSet"; mkGvk "" "v1" "ConfigMap"; mkGvk "" "v1" "Service"].

(** An API server that lets the operator do what its role says. *)
Definition demo_api : runtime_api :=
  mkRuntime (Ok tt) (fun _ => Ok tt) (Ok tt) (Ok tt) (fun _ => Ok tt)
    (fun r => if bool_decide (r ∈ role_lists) then Ok tt else Err (External "forbidden")).

Definition demo_zap : flags := {[ "zap-devel" := FBool false; "zap-log-level" := FString "" ]}.

Definition demo_preset : flags := {[ "kubeconfig" := FString "" ]}.

Abbreviation demo_main args :=
  (operator_main demo_api TelemetryProperties.accepting canonical_order ConfigProperties.example_host
     (addKnownTypes core_kinds) demo_preset demo_zap args boot_init).

Definition demo_args : list string :=
  ["--health-probe-addr"; ":9091"; "--kubeconfig=/root/.kube/config"; "-enable-telemetry"].
Definition demo_manager : manager :=
  mkManagerState (mkManagerOptions (addKnownTypes core_kinds) ":8080" ":9091" false
    "tailpost-operator-leader-election" (30 * Second)) watched_kinds
    [("healthz", Ping); ("webhook", Ping); ("kubernetes-api", ListNodes)] [("readyz", Ping)].
Definition demo_state : boot := match demo_main demo_args with Running _ s | Exited _ s | Crashed _ s => s end.

Lemma demo_runs :
  demo_main demo_args = Running (demo_manager, NewTailpostAgentReconciler, zap_opts "info" "json", Some (Some 0)) demo_state.
Proof. vm_compute. reflexivity. Qed.


Lemma demo_disjoint : dom operator_flags ## dom demo_preset.
Proof. apply (bool_decide_unpack _). vm_compute. exact I. Qed.

Lemma deployment_fails_witness :
  demo_main deployment_args = Exited 2 boot_init /\ healthz demo_api demo_manager = false.
Proof.
  destruct (deployment_fails demo_api TelemetryProperties.accepting canonical_order
    ConfigProperties.example_host (addKnownTypes core_kinds) demo_preset demo_zap boot_init) as [H1 H2].
  split; [apply H1; [reflexivity|exact demo_disjoint]|].
  refine (proj2 (H2 _ demo_args _ _ _ _ _ demo_runs)).
  intros r. unfold demo_api; simpl. case_bool_decide; done.
Defined.

Lemma zap_flag_exits_witness : demo_main ["--zap-log-level=debug"] = Exited 2 boot_init.
Proof.
  apply (zap_flag_exits demo_api TelemetryProperties.accepting canonical_order
    ConfigProperties.example_host (addKnownTypes core_kinds) demo_preset demo_zap true "zap-log-level"
    (Some "debug")); [exact demo_disjoint|reflexivity|reflexivity|reflexivity|discriminate|discriminate].
Defined.

Definition demo_cr : TailpostAgent.t :=
  TailpostAgent.mk (mkMeta "web" "logs" ∅ None)
    (TailpostAgentSpec.mk (Some 1%Z) "tailpost:latest" "IfNotPresent" "" [] "http://logs/" (Some 10%Z) "5s"
       (ResourceRequirementsSpec.mk (ResourceListSpec.mk "1" "") (ResourceListSpec.mk "" "")))
    (TailpostAgentStatus.mk [] 0 0).

Definition demo_objects : option (StatefulSet string * ConfigMap) :=
  match CreateStatefulSet (fun s : string => Ok s) demo_cr, CreateConfigMap canonical_order demo_cr with
  | Ok sts, Ok cm => Some (sts, cm)
  | _, _ => None
  end.

Lemma generated_objects_fit_witness :
  exists sts cm c, demo_objects = Some (sts, cm) /\ c ∈ s_Containers (sts_Spec sts) /\
    Name (cm_meta cm) = "web-config" /\ exists fs, Parse agent_flags (c_Args c) = Parsed fs [].
Proof.
  do 3 eexists. split; [reflexivity|]. split; [apply elem_of_cons; left; reflexivity|].
  split; [reflexivity|].
  edestruct (generated_objects_fit (fun s : string => Ok s) canonical_order demo_cr)
    as (fs & _ & _ & _ & _ & H & _); [reflexivity|reflexivity|apply elem_of_cons; left; reflexivity|].
  exists fs. exact H.
Defined.

End OperatorMainProperties.
