(* ===== verification/Reconcile.v ===== *)
(** * What [Reconcile] achieves

    The specification of one pass of the operator as a function on clusters,
    the proof that [Controller.Reconcile] implements it when the API server
    answers, and what holds when requests are refused or answers are lost. *)
From S2P Require Import Prelude MapRange KubeTypes Cluster Resources Controller.

(** ** Laws of the libraries *)

(** [ctrl.SetControllerReference] with a scheme that knows the resource, as the
    operator's [main] registers it: an object in the owner's namespace that has
    no controller gets the owner as its controller. *)
Definition owned_by (a : TailpostAgent.t) (m : ObjectMeta) : ObjectMeta :=
  mkMeta (Name m) (Namespace m) (Labels m) (Some (agent_name a)).

Class ControllerReference (f : TailpostAgent.t -> ObjectMeta -> result ObjectMeta) : Prop :=
  SetControllerReference_fresh a m :
    controller_owner m = None -> Namespace m = agent_namespace a -> f a m = Ok (owned_by a m).

(** ** Big-step rules for an API server that answers *)

Section rules.
Context {Q : Type}.
Implicit Types (c : cluster Q) (t : nat -> Z).

Definition healthy (w : world Q) : Prop := forall n, net w n = Answered.

(** From cluster [c] and clock [t], [m] returns [res], leaving [c'] and [t'],
    having asked for the writes [ws]. *)
Definition runs {A} (m : M Q A) c t (res : result A) c' t' (ws : list write) : Prop :=
  forall w, healthy w -> cl w = c -> clock w = t ->
    exists w', m w = (res, w') /\ healthy w' /\ cl w' = c' /\ clock w' = t' /\
               writes w' = writes w ++ ws.

Lemma runs_ret {A} (a : A) c t : runs (mret a) c t (Ok a) c t [].
Proof. intros w ???. exists w. by rewrite app_nil_r. Qed.

Lemma runs_lift {A} (m : result A) c t : runs (lift m) c t m c t [].
Proof. intros w ???. exists w. by rewrite app_nil_r. Qed.

Lemma runs_bind {A B} (m : M Q A) (f : A -> M Q B) c t a c1 t1 ws1 res c2 t2 ws :
  runs m c t (Ok a) c1 t1 ws1 ->
  (exists ws2, runs (f a) c1 t1 res c2 t2 ws2 /\ ws = ws1 ++ ws2) ->
  runs (m ≫= f) c t res c2 t2 ws.
Proof.
  intros Hm (ws2 & Hf & ->) w Hw Hc Ht. destruct (Hm w Hw Hc Ht) as (w1 & E & ? & ? & ? & Hw1).
  destruct (Hf w1) as (w2 & E2 & ? & ? & ? & Hw2); [done..|].
  exists w2. unfold mbind, M_bind. rewrite E. split_and!; try done.
  by rewrite Hw2, Hw1, app_assoc.
Qed.

Lemma runs_bind_pure {A B} (m : M Q A) (f : A -> M Q B) c t a c1 t1 res c2 t2 ws :
  runs m c t (Ok a) c1 t1 [] -> runs (f a) c1 t1 res c2 t2 ws ->
  runs (m ≫= f) c t res c2 t2 ws.
Proof. intros. eapply runs_bind; eauto. Qed.

Lemma runs_panic {A B} (m : M Q A) (f : A -> M Q B) c t p c1 t1 ws :
  runs m c t (Panic p) c1 t1 ws -> runs (m ≫= f) c t (Panic p) c1 t1 ws.
Proof.
  intros Hm w Hw Hc Ht. destruct (Hm w Hw Hc Ht) as (w1 & E & ?).
  exists w1. unfold mbind, M_bind. by rewrite E.
Qed.

Lemma runs_try {A} (m : M Q A) c t res c' t' ws :
  runs m c t res c' t' ws ->
  runs (try m) c t (match res with Ok a => Ok (inl a) | Err e => Ok (inr e) | Panic p => Panic p end)
    c' t' ws.
Proof.
  intros Hm w Hw Hc Ht. destruct (Hm w Hw Hc Ht) as (w' & E & ?).
  exists w'. unfold try. rewrite E. by destruct res.
Qed.

Lemma runs_wrap {A} fmt (m : M Q A) c t res c' t' ws :
  runs m c t res c' t' ws -> runs (wrapM fmt m) c t (wrap_err fmt res) c' t' ws.
Proof.
  intros Hm w Hw Hc Ht. destruct (Hm w Hw Hc Ht) as (w' & E & ?).
  exists w'. unfold wrapM. by rewrite E.
Qed.

Lemma runs_request {A} (serve : cluster Q -> result A * cluster Q) c t :
  runs (request serve) c t (serve c).1 (serve c).2 t [].
Proof.
  intros w Hw <- <-. unfold request. rewrite (Hw 0). destruct (serve (cl w)) as [res c'].
  eexists. split_and!; try done; [|by rewrite app_nil_r]. intros n. apply (Hw (S n)).
Qed.

Lemma runs_log x c t : runs (log_write x) c t (Ok tt) c t [x].
Proof. intros w Hw <- <-. by eexists. Qed.

Lemma runs_Eventf reason name c t : runs (Eventf reason name) c t (Ok tt) c t [].
Proof. intros w Hw <- <-. eexists. split_and!; try done. by rewrite app_nil_r. Qed.

Lemma runs_Now c t : runs Now c t (Ok (t 0)) c (fun n => t (S n)) [].
Proof. intros w Hw <- <-. eexists. split_and!; try done. by rewrite app_nil_r. Qed.

Section object.
Context {O : Type} `{!Object Q O}.

Lemma runs_Get key c t :
  runs (Get (O:=O) key) c t (from_option Ok (Err (NotFound key.2)) (objects c !! key)) c t [].
Proof. apply (runs_request (fun c => (from_option Ok (Err (NotFound key.2)) (objects c !! key), c))). Qed.

Lemma runs_try_Get key o c t :
  objects c !! key = Some o -> runs (try (Get (O:=O) key)) c t (Ok (inl o)) c t [].
Proof. intros E. pose proof (runs_try _ _ _ _ _ _ _ (runs_Get key c t)) as H. by rewrite E in H. Qed.

Lemma runs_Create (o : O) c t key :
  key_of (obj_meta (Q:=Q) o) = key -> objects c !! key = None ->
  runs (Create o) c t (Ok tt) (with_objects (<[key := o]> (objects c)) c) t
    [WCreate (obj_kind (Q:=Q) O) key].
Proof.
  intros <- Hn. eapply runs_bind; [apply runs_log|]. eexists [].
  split; [|done]. pose proof (runs_request (fun c =>
    match objects c !! key_of (obj_meta (Q:=Q) o) with
    | Some _ => (Err (External "already exists"), c)
    | None => (Ok tt, with_objects (<[key_of (obj_meta (Q:=Q) o) := o]> (objects c)) c)
    end) c t) as H. simpl in H. by rewrite Hn in H.
Qed.

Lemma runs_Update (o stored : O) c t key :
  key_of (obj_meta (Q:=Q) o) = key -> objects c !! key = Some stored ->
  runs (Update o) c t (Ok (keep_status (Q:=Q) stored o))
    (with_objects (<[key := keep_status (Q:=Q) stored o]> (objects c)) c) t
    [WUpdate (obj_kind (Q:=Q) O) key].
Proof.
  intros <- Hs. eapply runs_bind; [apply runs_log|]. eexists [].
  split; [|done]. pose proof (runs_request (fun c =>
    match objects c !! key_of (obj_meta (Q:=Q) o) with
    | None => (Err (NotFound (key_of (obj_meta (Q:=Q) o)).2), c)
    | Some stored => (Ok (keep_status (Q:=Q) stored o),
        with_objects (<[key_of (obj_meta (Q:=Q) o) := keep_status (Q:=Q) stored o]> (objects c)) c)
    end) c t) as H. simpl in H. by rewrite Hs in H.
Qed.

End object.

Lemma runs_Status_Update a stored c t key :
  key_of (TailpostAgent.meta a) = key -> agents c !! key = Some stored ->
  let a' := TailpostAgent.with_Status (TailpostAgent.Status a) stored in
  runs (Status_Update a) c t (Ok a') (with_objects (<[key := a']> (agents c)) c) t [WStatus key].
Proof.
  intros <- Hs. eapply runs_bind; [apply runs_log|]. eexists [].
  split; [|done]. pose proof (runs_request (fun c =>
    match agents c !! key_of (TailpostAgent.meta a) with
    | None => (Err (NotFound (key_of (TailpostAgent.meta a)).2), c)
    | Some stored =>
        let a' := TailpostAgent.with_Status (TailpostAgent.Status a) stored in
        (Ok a', with_objects (<[key_of (TailpostAgent.meta a) := a']> (agents c)) c)
    end) c t) as H. simpl in H. by rewrite Hs in H.
Qed.

End rules.

(** ** The specification *)

(** The part of a StatefulSet the operator compares. *)
Definition compared {Q} (s : StatefulSet Q) : option Z * option (string * ResourceRequirements Q) :=
  (s_Replicas (sts_Spec s),
   (fun c => (c_Image c, c_Resources c)) <$> head (s_Containers (sts_Spec s))).

(** A stored object and the one the operator wants give the one it leaves. *)
Definition sync_cm (desired : ConfigMap) (found : option ConfigMap) : ConfigMap :=
  match found with Some f => mkConfigMap (cm_meta f) (cm_Data desired) | None => desired end.
Definition sync_sts {Q} `{EqDecision Q} (desired : StatefulSet Q) (found : option (StatefulSet Q)) :=
  match found with
  | Some f => if decide (compared f = compared desired) then f
              else mkStatefulSet (sts_meta f) (sts_Spec desired) (sts_ReadyReplicas f)
  | None => desired
  end.
Definition sync_svc (desired : Service) (found : option Service) : Service :=
  match found with
  | Some f => mkService (svc_meta f) (svc_Selector desired) (svc_Ports desired)
  | None => desired
  end.

(** The write, if any, that brings one object up to date. *)
Definition sync_write {O} (k : kind) (key : NamespacedName) (found : option O)
    (same : O -> bool) : list write :=
  match found with
  | None => [WCreate k key]
  | Some f => if same f then [] else [WUpdate k key]
  end.

Definition drop_condition (conds : list Condition.t) (ty : string) : list Condition.t :=
  match findCondition conds ty with Some i => remove_at i conds | None => conds end.

(** The conditions after a successful pass. *)
Definition final_conditions (conds : list Condition.t) (now : Z) : list Condition.t :=
  drop_condition (set_condition conds ConditionTypeAvailable "True" "AgentAvailable"
                    "The agent is available" now) ConditionTypeDegraded.

(** ** Conditions *)

Definition types (conds : list Condition.t) : list string := Condition.Type_ <$> conds.

Lemma findCondition_None conds ty : findCondition conds ty = None <-> ty ∉ types conds.
Proof.
  unfold findCondition, types. rewrite fmap_None. etransitivity; [apply list_find_None|].
  rewrite Forall_forall, list_elem_of_fmap. split.
  - intros H (x & -> & Hx). by apply (H x).
  - intros H x Hx E. apply H. by exists x.
Qed.

Lemma findCondition_Some conds ty i :
  findCondition conds ty = Some i ->
  exists pre x post, conds = pre ++ x :: post /\ length pre = i /\ Condition.Type_ x = ty /\
    ty ∉ types pre.
Proof.
  unfold findCondition. intros ([j x] & (Hx & Ht & Hpre)%list_find_Some & ->)%fmap_Some.
  exists (take j conds), x, (drop (S j) conds). simpl.
  split_and!; [by rewrite take_drop_middle|rewrite length_take_le; [done|apply lookup_lt_Some in Hx; lia]|done|].
  unfold types. rewrite list_elem_of_fmap. intros (y & -> & Hy).
  apply list_elem_of_lookup in Hy as [k Hk]. rewrite lookup_take_Some in Hk. naive_solver.
Qed.

Lemma set_condition_cases conds ty st reason m now :
  (ty ∉ types conds /\
   set_condition conds ty st reason m now = conds ++ [Condition.mk ty st now reason m]) \/
  (exists pre x post, conds = pre ++ x :: post /\ Condition.Type_ x = ty /\ ty ∉ types pre /\
   set_condition conds ty st reason m now =
     pre ++ (if decide (Condition.Status x = st) then x else Condition.mk ty st now reason m) :: post).
Proof.
  unfold set_condition. destruct (findCondition conds ty) as [i|] eqn:E; [right|left].
  - apply findCondition_Some in E as (pre & x & post & -> & <- & Ht & Hpre).
    exists pre, x, post. rewrite list_lookup_middle by done. split_and!; try done.
    destruct (String.eqb (Condition.Status x) st) eqn:Es; simpl; go_bool.
    + by rewrite decide_True.
    + rewrite decide_False by done.
      replace (length pre) with (length pre + 0) by lia. rewrite insert_app_r. simpl. by rewrite Ht.
  - by apply findCondition_None in E.
Qed.

Lemma drop_condition_cases conds ty :
  (ty ∉ types conds /\ drop_condition conds ty = conds) \/
  (exists pre x post, conds = pre ++ x :: post /\ Condition.Type_ x = ty /\ ty ∉ types pre /\
   drop_condition conds ty = pre ++ post).
Proof.
  unfold drop_condition. destruct (findCondition conds ty) as [i|] eqn:E; [right|left].
  - apply findCondition_Some in E as (pre & x & post & -> & <- & Ht & Hpre).
    exists pre, x, post. split_and!; try done. unfold remove_at.
    rewrite take_app_length. replace (pre ++ x :: post) with ((pre ++ [x]) ++ post) by (by rewrite <- app_assoc).
    by rewrite drop_app_length' by (rewrite length_app; done).
  - by apply findCondition_None in E.
Qed.

Lemma types_set conds ty st reason m now :
  types (set_condition conds ty st reason m now) =
  if decide (ty ∈ types conds) then types conds else types conds ++ [ty].
Proof.
  destruct (set_condition_cases conds ty st reason m now)
    as [[Hn ->]|(pre & x & post & -> & <- & Hpre & ->)].
  - rewrite decide_False by done. unfold types. by rewrite fmap_app.
  - unfold types. rewrite !fmap_app. simpl. destruct (decide (Condition.Type_ x ∈ _)) as [|Hn];
      [by case_decide|]. destruct Hn. apply elem_of_app; right; left.
Qed.

Lemma findCondition_set conds ty ty' st reason m now :
  is_Some (findCondition (set_condition conds ty st reason m now) ty') <->
  is_Some (findCondition conds ty') \/ ty' = ty.
Proof.
  rewrite <- !not_eq_None_Some, !findCondition_None, types_set.
  case_decide as Hd; [|rewrite elem_of_app, list_elem_of_singleton];
    destruct (decide (ty' ∈ types conds)); destruct (decide (ty' = ty)) as [->|]; tauto.
Qed.

Lemma set_condition_unique conds ty st reason m now :
  NoDup (types conds) -> NoDup (types (set_condition conds ty st reason m now)).
Proof.
  rewrite types_set. case_decide; [done|]. intros.
  apply NoDup_app; split_and!; [done| |apply NoDup_singleton].
  by intros x Hx ->%list_elem_of_singleton.
Qed.

Lemma drop_condition_unique conds ty :
  NoDup (types conds) -> NoDup (types (drop_condition conds ty)) /\ ty ∉ types (drop_condition conds ty).
Proof.
  destruct (drop_condition_cases conds ty) as [[Hn ->]|(pre & x & post & -> & <- & Hpre & ->)]; [done|].
  unfold types in *. rewrite !fmap_app. simpl. rewrite !NoDup_app, NoDup_cons. set_solver.
Qed.

(** Setting or dropping one condition leaves the others alone. *)
Lemma set_condition_other conds ty st reason m now x :
  Condition.Type_ x <> ty -> x ∈ set_condition conds ty st reason m now <-> x ∈ conds.
Proof.
  intros Hx. destruct (set_condition_cases conds ty st reason m now)
    as [[Hn ->]|(pre & y & post & -> & <- & Hpre & ->)].
  - rewrite elem_of_app, list_elem_of_singleton. naive_solver.
  - case_decide; [done|]. rewrite !elem_of_app, !elem_of_cons. naive_solver.
Qed.

Lemma drop_condition_other conds ty x :
  Condition.Type_ x <> ty -> x ∈ drop_condition conds ty <-> x ∈ conds.
Proof.
  intros Hx. destruct (drop_condition_cases conds ty) as [[Hn ->]|(pre & y & post & -> & <- & Hpre & ->)];
    [done|]. rewrite !elem_of_app, !elem_of_cons. naive_solver.
Qed.

Lemma set_condition_status conds ty st reason m now :
  exists x, x ∈ set_condition conds ty st reason m now /\
    Condition.Type_ x = ty /\ Condition.Status x = st.
Proof.
  destruct (set_condition_cases conds ty st reason m now)
    as [[Hn ->]|(pre & y & post & -> & <- & Hpre & ->)].
  - eexists. split; [apply elem_of_app; right; by apply list_elem_of_singleton|done].
  - eexists. split; [apply elem_of_app; right; left|]. by case_decide.
Qed.

Definition cm_key (key : NamespacedName) : NamespacedName := (key.1, key.2 +:+ "-config").

(** What the API server guarantees of what it stores: an object is found under
    its own name, and a StatefulSet has a container. *)
Record cluster_ok {Q} (c : cluster Q) : Prop := {
  agents_keyed k a : agents c !! k = Some a -> key_of (TailpostAgent.meta a) = k;
  configmaps_keyed k x : configmaps c !! k = Some x -> key_of (cm_meta x) = k;
  statefulsets_keyed k x : statefulsets c !! k = Some x ->
    key_of (sts_meta x) = k /\ s_Containers (sts_Spec x) <> [];
  services_keyed k x : services c !! k = Some x -> key_of (svc_meta x) = k;
}.

Section reconcile.
Context {Q : Type} `{EqDecision Q} (MustParse : string -> result Q).
Context (SetControllerReference : TailpostAgent.t -> ObjectMeta -> result ObjectMeta).
Context (r : TailpostAgentReconciler.t).
Implicit Types (a : TailpostAgent.t) (c : cluster Q) (t : nat -> Z).

Definition desired_cm (o : map_order yaml_value) a : result ConfigMap :=
  d ← CreateConfigMap o a; Ok (mkConfigMap (owned_by a (cm_meta d)) (cm_Data d)).
Definition desired_sts a : result (StatefulSet Q) :=
  d ← CreateStatefulSet MustParse a;
  Ok (mkStatefulSet (owned_by a (sts_meta d)) (sts_Spec d) (sts_ReadyReplicas d)).
Definition desired_svc a : Service :=
  let d := CreateService a in mkService (owned_by a (svc_meta d)) (svc_Selector d) (svc_Ports d).

Definition defaulted a : TailpostAgent.t :=
  TailpostAgent.with_Spec (default_spec r (TailpostAgent.Spec a)).1 a.

(** One pass over agent [a] stored under [key], with the clock [t] and the
    objects [dcm] and [dsts] wanted for its defaulted specification. *)
Definition final_agent a t (ready : Z) : TailpostAgent.t :=
  TailpostAgent.with_Status
    (TailpostAgentStatus.mk (final_conditions (conditions a) (t 1)) ready (t 0)) (defaulted a).

Definition target (key : NamespacedName) a t (dcm : ConfigMap) (dsts : StatefulSet Q) c : cluster Q :=
  let sts := sync_sts dsts (statefulsets c !! key) in
  mkCluster (<[key := final_agent a t (sts_ReadyReplicas sts)]> (agents c))
            (<[cm_key key := sync_cm dcm (configmaps c !! cm_key key)]> (configmaps c))
            (<[key := sts]> (statefulsets c))
            (<[key := sync_svc (desired_svc (defaulted a)) (services c !! key)]> (services c)).

Definition target_writes (key : NamespacedName) a (dcm : ConfigMap) (dsts : StatefulSet Q) c
    : list write :=
  let svc := desired_svc (defaulted a) in
  (if (default_spec r (TailpostAgent.Spec a)).2 then [WUpdate KAgent key] else []) ++
  sync_write KConfigMap (cm_key key) (configmaps c !! cm_key key)
    (fun f => bool_decide (cm_Data f = cm_Data dcm)) ++
  sync_write KStatefulSet key (statefulsets c !! key)
    (fun f => bool_decide (compared f = compared dsts)) ++
  sync_write KService key (services c !! key)
    (fun f => bool_decide (svc_Selector f = svc_Selector svc) &&
              bool_decide (svc_Ports f = svc_Ports svc)) ++
  [WStatus key; WStatus key] ++
  (if findCondition (conditions a) ConditionTypeDegraded then [WStatus key] else []).

Context `{HSCR : !ControllerReference SetControllerReference}.

Lemma NeedsUpdate_compared (f d : StatefulSet Q) :
  s_Containers (sts_Spec f) <> [] -> s_Containers (sts_Spec d) <> [] ->
  StatefulSetNeedsUpdate f d = Ok (negb (bool_decide (compared f = compared d))).
Proof.
  unfold StatefulSetNeedsUpdate, compared. intros Hf Hd.
  destruct (s_Containers (sts_Spec f)) as [|x xs], (s_Containers (sts_Spec d)) as [|y ys]; try done.
  simpl. repeat case_bool_decide; simpl; try done; exfalso; congruence.
Qed.

(** The common shape of the three reconciliations of an object. *)
Lemma runs_sync {O} `{!Object Q O} key c t (absent : M Q unit) (present : O -> M Q unit)
    fmt (x : O) ws :
  match objects c !! key with
  | None => runs absent c t (Ok tt) (with_objects (<[key := x]> (objects c)) c) t ws
  | Some f => runs (present f) c t (Ok tt) (with_objects (<[key := x]> (objects c)) c) t ws
  end ->
  runs (res ← try (Get (O:=O) key);
        match res with
        | inr e => if IsNotFound e then absent else throw (Wrapf fmt e)
        | inl f => present f
        end) c t (Ok tt) (with_objects (<[key := x]> (objects c)) c) t ws.
Proof.
  intros H. pose proof (runs_try _ _ _ _ _ _ _ (runs_Get (O:=O) key c t)) as HG.
  destruct (objects c !! key) as [f|]; simpl in HG; eapply runs_bind_pure; [exact HG|done..].
Qed.

Lemma runs_then_event (m : M Q unit) c t c' ws fmt reason name :
  runs m c t (Ok tt) c' t ws ->
  runs (_ ← wrapM fmt m; Eventf reason name) c t (Ok tt) c' t ws.
Proof.
  intros Hm. eapply runs_bind; [exact (runs_wrap fmt _ _ _ _ _ _ _ Hm)|].
  exists []. split; [apply runs_Eventf|by rewrite app_nil_r].
Qed.

Lemma runs_update_event {O} `{!Object Q O} (m : M Q O) v c t c' ws fmt reason name :
  runs m c t (Ok v) c' t ws ->
  runs (_ ← wrapM fmt m; Eventf reason name) c t (Ok tt) c' t ws.
Proof.
  intros Hm. eapply runs_bind; [exact (runs_wrap fmt _ _ _ _ _ _ _ Hm)|].
  exists []. split; [apply runs_Eventf|by rewrite app_nil_r].
Qed.

Lemma runs_lift_ok {A B} (m : result A) (a : A) (f : A -> M Q B) fmt c t res c' t' ws :
  m = Ok a -> runs (f a) c t res c' t' ws ->
  runs (x ← wrapM fmt (lift m); f x) c t res c' t' ws.
Proof.
  intros -> H. eapply runs_bind_pure; [|exact H].
  exact (runs_wrap fmt _ _ _ _ _ _ _ (runs_lift (Ok a) c t)).
Qed.

Lemma reconcileConfigMap_runs o a d c t :
  let k := cm_key (key_of (TailpostAgent.meta a)) in
  (forall f, configmaps c !! k = Some f -> key_of (cm_meta f) = k) -> desired_cm o a = Ok d ->
  runs (reconcileConfigMap SetControllerReference o a) c t (Ok tt)
    (with_objects (<[k := sync_cm d (configmaps c !! k)]> (configmaps c)) c) t
    (sync_write KConfigMap k (configmaps c !! k) (fun f => bool_decide (cm_Data f = cm_Data d))).
Proof.
  intros k Hc Hd. unfold desired_cm in Hd. apply bind_ok in Hd as (d0 & E & [= <-]).
  pose proof E as E'. unfold CreateConfigMap in E'. go_inv.
  eapply runs_lift_ok; [done|]. eapply runs_lift_ok; [by apply HSCR|].
  refine (runs_sync (O:=ConfigMap) k c t _ _ _ _ _ _). simpl.
  destruct (configmaps c !! k) as [f|] eqn:Ef; simpl.
  - unfold ConfigMapNeedsUpdate; simpl. case_bool_decide as Hdata; simpl.
    + rewrite insert_id; [destruct c; apply runs_ret|]. rewrite Ef. destruct f; simpl in *; congruence.
    + eapply (runs_update_event (O:=ConfigMap)).
      refine (runs_Update (O:=ConfigMap) _ f c t k _ Ef). exact (Hc _ eq_refl).
  - apply runs_then_event. by refine (runs_Create (O:=ConfigMap) _ c t k _ Ef).
Qed.

Lemma CreateStatefulSet_containers a d :
  CreateStatefulSet MustParse a = Ok d -> s_Containers (sts_Spec d) <> [].
Proof. unfold CreateStatefulSet. intros. by go_inv. Qed.

Lemma CreateStatefulSet_meta a d :
  CreateStatefulSet MustParse a = Ok d ->
  sts_meta d = mkMeta (agent_name a) (agent_namespace a) (GetLabels a) None /\
  sts_ReadyReplicas d = 0%Z.
Proof. unfold CreateStatefulSet. intros. by go_inv. Qed.

Lemma reconcileStatefulSet_runs a d c t :
  let k := key_of (TailpostAgent.meta a) in
  (forall f, statefulsets c !! k = Some f ->
     key_of (sts_meta f) = k /\ s_Containers (sts_Spec f) <> []) -> desired_sts a = Ok d ->
  runs (reconcileStatefulSet MustParse SetControllerReference a) c t (Ok tt)
    (with_objects (<[k := sync_sts d (statefulsets c !! k)]> (statefulsets c)) c) t
    (sync_write KStatefulSet k (statefulsets c !! k) (fun f => bool_decide (compared f = compared d))).
Proof.
  intros k Hc Hd. unfold desired_sts in Hd. apply bind_ok in Hd as (d0 & E & [= <-]).
  destruct (CreateStatefulSet_meta _ _ E) as [Em Er].
  pose proof (CreateStatefulSet_containers _ _ E) as Hd.
  eapply runs_lift_ok; [done|].
  eapply runs_lift_ok; [apply HSCR; by rewrite Em|]. rewrite Em, Er.
  refine (runs_sync (O:=StatefulSet Q) k c t _ _ _ _ _ _). simpl.
  destruct (statefulsets c !! k) as [f|] eqn:Ef; simpl.
  - destruct (Hc _ eq_refl) as [Hk Hf].
    rewrite NeedsUpdate_compared by done.
    eapply runs_bind_pure; [apply runs_lift|]. simpl.
    case_bool_decide as Hcmp; simpl.
    + rewrite decide_True by done. rewrite insert_id by done. destruct c; apply runs_ret.
    + rewrite decide_False by done. eapply (runs_update_event (O:=StatefulSet Q)).
      by refine (runs_Update (O:=StatefulSet Q) _ f c t k _ Ef).
  - apply runs_then_event. by refine (runs_Create (O:=StatefulSet Q) _ c t k _ Ef).
Qed.

Lemma reconcileService_runs a c t :
  let k := key_of (TailpostAgent.meta a) in
  let d := desired_svc a in
  (forall f, services c !! k = Some f -> key_of (svc_meta f) = k) ->
  runs (reconcileService SetControllerReference a) c t (Ok tt)
    (with_objects (<[k := sync_svc d (services c !! k)]> (services c)) c) t
    (sync_write KService k (services c !! k)
       (fun f => bool_decide (svc_Selector f = svc_Selector d) &&
                 bool_decide (svc_Ports f = svc_Ports d))).
Proof.
  intros k d Hc. eapply runs_lift_ok; [by apply HSCR|].
  refine (runs_sync (O:=Service) k c t _ _ _ _ _ _). simpl.
  destruct (services c !! k) as [f|] eqn:Ef; simpl.
  - pose proof (Hc _ eq_refl) as Hk.
    unfold ServiceNeedsUpdate; cbn [svc_Selector svc_Ports].
    rewrite <- negb_andb. fold (svc_Selector d) (svc_Ports d).
    destruct (_ && _) eqn:Esame; cbn [negb].
    + go_bool. rewrite insert_id; [destruct c; apply runs_ret|].
      rewrite Ef. destruct f; simpl in *; congruence.
    + eapply (runs_update_event (O:=Service)).
      by refine (runs_Update (O:=Service) _ f c t k _ Ef).
  - apply runs_then_event. by refine (runs_Create (O:=Service) _ c t k _ Ef).
Qed.

Lemma default_spec_unneeded s : (default_spec r s).2 = false -> (default_spec r s).1 = s.
Proof.
  destruct s as [rep im pol sa ls url b fl rs]. unfold default_spec; simpl.
  destruct (String.eqb im ""), (String.eqb pol ""), rep, b, (String.eqb fl ""); simpl; done.
Qed.

(** Storing [a] as the agent under [key]. *)
Definition put_agent (key : NamespacedName) a c : cluster Q :=
  with_objects (<[key := a]> (agents c)) c.

Lemma put_agent_same key a c : agents c !! key = Some a -> put_agent key a c = c.
Proof. intros. unfold put_agent. destruct c; simpl in *. by rewrite insert_id. Qed.

Lemma put_agent_twice key a b c : put_agent key b (put_agent key a c) = put_agent key b c.
Proof. unfold put_agent. destruct c; simpl. by rewrite insert_insert_eq. Qed.

Lemma put_agent_lookup key a c : agents (put_agent key a c) !! key = Some a.
Proof. apply lookup_insert_eq. Qed.

Lemma setDefaults_runs key a c t :
  key_of (TailpostAgent.meta a) = key -> agents c !! key = Some a ->
  runs (setDefaults r a) c t (Ok (defaulted a)) (put_agent key (defaulted a) c) t
    (if (default_spec r (TailpostAgent.Spec a)).2 then [WUpdate KAgent key] else []).
Proof.
  intros Hk Ha. unfold setDefaults, defaulted.
  pose proof (default_spec_unneeded (TailpostAgent.Spec a)) as Hsame.
  destruct (default_spec r (TailpostAgent.Spec a)) as [s n]; simpl in *. destruct n.
  - refine (runs_wrap _ _ _ _ (Ok _) _ _ _ _).
    exact (runs_Update (O:=TailpostAgent.t) (TailpostAgent.with_Spec s a) a c t key Hk Ha).
  - rewrite Hsame by done. replace (TailpostAgent.with_Spec _ a) with a by (by destruct a).
    rewrite put_agent_same by done. apply runs_ret.
Qed.

Lemma runs_store key a b c t :
  key_of (TailpostAgent.meta a) = key -> agents c !! key = Some a ->
  TailpostAgent.meta b = TailpostAgent.meta a -> TailpostAgent.Spec b = TailpostAgent.Spec a ->
  runs (Status_Update b) c t (Ok b) (put_agent key b c) t [WStatus key].
Proof.
  intros Hk Ha Hm Hs. replace b with (TailpostAgent.with_Status (TailpostAgent.Status b) a) at 2 3
    by (destruct a, b; simpl in *; by subst).
  refine (runs_Status_Update b a c t key _ Ha). congruence.
Qed.

Lemma runs_kept key a b c t :
  key_of (TailpostAgent.meta a) = key -> agents c !! key = Some a ->
  TailpostAgent.meta b = TailpostAgent.meta a -> TailpostAgent.Spec b = TailpostAgent.Spec a ->
  runs (res ← try (Status_Update b); match res with inl x => mret x | inr _ => mret b end)
    c t (Ok b) (put_agent key b c) t [WStatus key].
Proof.
  intros. eapply runs_bind; [exact (runs_try _ _ _ _ _ _ _ (runs_store key a b c t ltac:(done) ltac:(done) ltac:(done) ltac:(done)))|].
  exists []. split; [apply runs_ret|done].
Qed.

Lemma setCondition_runs key a c t ty st reason m :
  key_of (TailpostAgent.meta a) = key -> agents c !! key = Some a ->
  let b := with_conditions (set_condition (conditions a) ty st reason m (t 0)) a in
  runs (setCondition a ty st reason m) c t (Ok b) (put_agent key b c) (fun n => t (S n)) [WStatus key].
Proof.
  intros Hk Ha b. eapply runs_bind_pure; [apply runs_Now|].
  by eapply (runs_kept key a b).
Qed.

Lemma removeCondition_runs key a c t ty :
  key_of (TailpostAgent.meta a) = key -> agents c !! key = Some a ->
  let b := with_conditions (drop_condition (conditions a) ty) a in
  runs (removeCondition a ty) c t (Ok b) (put_agent key b c) t
    (if findCondition (conditions a) ty then [WStatus key] else []).
Proof.
  intros Hk Ha b. unfold removeCondition, drop_condition in *.
  destruct (findCondition (conditions a) ty).
  - by eapply (runs_kept key a b).
  - replace b with a by (by destruct a as [? ? []]).
    rewrite put_agent_same by done. apply runs_ret.
Qed.

Lemma updateStatus_runs key a sts c t :
  key_of (TailpostAgent.meta a) = key -> agents c !! key = Some a ->
  statefulsets c !! key = Some sts ->
  let b := TailpostAgent.with_Status
    (TailpostAgentStatus.mk (conditions a) (sts_ReadyReplicas sts) (t 0)) a in
  runs (updateStatus a) c t (Ok b) (put_agent key b c) (fun n => t (S n)) [WStatus key].
Proof.
  intros Hk Ha Hsts b. eapply runs_bind_pure.
  { apply (runs_try_Get (O:=StatefulSet Q)). rewrite <- Hk in Hsts. exact Hsts. }
  eapply runs_bind_pure; [apply runs_ret|]. eapply runs_bind_pure; [apply runs_Now|].
  refine (runs_wrap _ _ _ _ (Ok _) _ _ _ _). by eapply (runs_store key a).
Qed.

Lemma runs_try_bind {A B} (m : M Q A) (f : A + error -> M Q B) v c t c1 t1 ws1 res c2 t2 ws :
  runs m c t (Ok v) c1 t1 ws1 ->
  (exists ws2, runs (f (inl v)) c1 t1 res c2 t2 ws2 /\ ws = ws1 ++ ws2) ->
  runs (x ← try m; f x) c t res c2 t2 ws.
Proof. intros Hm Hf. eapply runs_bind; [exact (runs_try _ _ _ _ _ _ _ Hm)|done]. Qed.

Lemma Reconcile_runs o msg key a dcm dsts c t :
  cluster_ok c -> agents c !! key = Some a ->
  desired_cm o (defaulted a) = Ok dcm -> desired_sts (defaulted a) = Ok dsts ->
  runs (Reconcile MustParse SetControllerReference r o msg key) c t
    (Ok (TailpostAgentReconciler.ResyncPeriod r, None))
    (target key a t dcm dsts c) (fun n => t (S (S n))) (target_writes key a dcm dsts c).
Proof.
  intros Hok Ha Hcm Hsts. pose proof (agents_keyed _ Hok _ _ Ha) as Hk.
  eapply runs_bind_pure; [exact (runs_try_Get (O:=TailpostAgent.t) key a c t Ha)|].
  unfold target_writes. cbv zeta.
  eapply runs_try_bind; [exact (setDefaults_runs key a c t Hk Ha)|].
  eexists; split; [|reflexivity].
  assert (key_of (TailpostAgent.meta (defaulted a)) = key) as Hk' by done.
  eapply runs_try_bind.
  { refine (reconcileConfigMap_runs o (defaulted a) dcm _ t _ Hcm). rewrite Hk'.
    intros f Hf. exact (configmaps_keyed _ Hok _ _ Hf). }
  eexists; split; [|by rewrite Hk'].
  eapply runs_try_bind.
  { refine (reconcileStatefulSet_runs (defaulted a) dsts _ t _ Hsts). rewrite Hk'.
    intros f Hf. exact (statefulsets_keyed _ Hok _ _ Hf). }
  eexists; split; [|by rewrite Hk'].
  eapply runs_try_bind.
  { refine (reconcileService_runs (defaulted a) _ t _). rewrite Hk'.
    intros f Hf. exact (services_keyed _ Hok _ _ Hf). }
  eexists; split; [|by rewrite Hk'].
  rewrite !Hk'. simpl.
  eapply runs_try_bind.
  { refine (updateStatus_runs key (defaulted a) _ _ t Hk' _ _); simpl; apply lookup_insert_eq. }
  eexists; split; [|reflexivity].
  eapply runs_bind.
  { refine (setCondition_runs key _ _ _ _ _ _ _ _ (put_agent_lookup _ _ _)). done. }
  eexists; split; [|reflexivity].
  eapply runs_bind.
  { refine (removeCondition_runs key _ _ _ _ _ (put_agent_lookup _ _ _)). done. }
  eexists []; split.
  - rewrite !put_agent_twice. unfold put_agent; simpl.
    rewrite insert_insert_eq. apply runs_ret.
  - rewrite app_nil_r. cbn [conditions with_conditions TailpostAgent.with_Status TailpostAgent.Status
      TailpostAgentStatus.Conditions]. 
    pose proof (findCondition_set (conditions a) ConditionTypeAvailable ConditionTypeDegraded "True"
      "AgentAvailable" "The agent is available" (t 1)) as [H1 H2].
    change (conditions (defaulted a)) with (conditions a).
    destruct (findCondition (conditions a) _), (findCondition (set_condition _ _ _ _ _ _) _); try done.
    + by destruct H2 as [? ?]; [left|].
    + by destruct H1 as [[? ?]|?]; [eexists|..].
Qed.

(** ** What the target state is *)

Lemma default_spec_complete s :
  let s' := (default_spec r s).1 in
  is_Some (TailpostAgentSpec.Replicas s') /\ is_Some (TailpostAgentSpec.BatchSize s') /\
  TailpostAgentSpec.ImagePullPolicy s' <> "" /\ TailpostAgentSpec.FlushInterval s' <> "" /\
  (TailpostAgentReconciler.DefaultImage r <> "" -> TailpostAgentSpec.Image s' <> "").
Proof.
  destruct s as [rep im pol sa ls url b fl rs]. unfold default_spec; simpl.
  destruct (String.eqb im "") eqn:?, (String.eqb pol "") eqn:?, rep, b, (String.eqb fl "") eqn:?;
    go_bool; simpl; split_and!; eauto.
Qed.

Lemma default_spec_again s :
  TailpostAgentReconciler.DefaultImage r <> "" ->
  default_spec r (default_spec r s).1 = ((default_spec r s).1, false).
Proof.
  intros Hr. destruct s as [rep im pol sa ls url b fl rs]. unfold default_spec; simpl.
  destruct (String.eqb im "") eqn:E1, (String.eqb pol "") eqn:E2, rep, b, (String.eqb fl "") eqn:E3;
    simpl; rewrite ?E1, ?E2, ?E3; simpl; try done;
    by destruct (String.eqb_spec (TailpostAgentReconciler.DefaultImage r) "").
Qed.

Lemma desired_cm_ok o a :
  is_Some (TailpostAgentSpec.BatchSize (TailpostAgent.Spec a)) ->
  exists text, desired_cm o a = Ok (mkConfigMap
    (mkMeta (GetConfigMapName a) (agent_namespace a) (GetLabels a) (Some (agent_name a)))
    {[ ConfigFileName := text ]}).
Proof.
  intros (text & E)%(CreateConfigMap_ok o). exists text. unfold desired_cm. by rewrite E.
Qed.

Lemma desired_sts_ok a b :
  TailpostAgentSpec.Resources (TailpostAgent.Spec a) = TailpostAgentSpec.Resources (TailpostAgent.Spec b) ->
  is_ok (CreateStatefulSet MustParse a) = true -> exists d, desired_sts b = Ok d.
Proof.
  unfold desired_sts, CreateStatefulSet. intros <-.
  destruct (resource_list _ (ResourceRequirementsSpec.Limits _)); simpl; try done.
  destruct (resource_list _ (ResourceRequirementsSpec.Requests _)); simpl; try done. eauto.
Qed.

Lemma CreateStatefulSet_resources a b :
  TailpostAgentSpec.Resources (TailpostAgent.Spec a) = TailpostAgentSpec.Resources (TailpostAgent.Spec b) ->
  is_ok (CreateStatefulSet MustParse a) = true -> is_ok (CreateStatefulSet MustParse b) = true.
Proof.
  unfold CreateStatefulSet. intros <-.
  destruct (resource_list _ (ResourceRequirementsSpec.Limits _)); simpl; try done.
  by destruct (resource_list _ (ResourceRequirementsSpec.Requests _)).
Qed.

Lemma default_spec_Resources s :
  TailpostAgentSpec.Resources (default_spec r s).1 = TailpostAgentSpec.Resources s.
Proof.
  unfold default_spec.
  by destruct (String.eqb _ _), (String.eqb _ _), (TailpostAgentSpec.Replicas s),
    (TailpostAgentSpec.BatchSize s), (String.eqb _ _).
Qed.

(** The specification [s'] is what the user wrote, [s], with the documented
    values where the user wrote nothing. *)
Record completed (s s' : TailpostAgentSpec.t) : Prop := {
  c_image : TailpostAgentSpec.Image s <> "" -> TailpostAgentSpec.Image s' = TailpostAgentSpec.Image s;
  c_image_default : TailpostAgentSpec.Image s = "" ->
    TailpostAgentSpec.Image s' = TailpostAgentReconciler.DefaultImage r;
  c_policy : TailpostAgentSpec.ImagePullPolicy s <> "" ->
    TailpostAgentSpec.ImagePullPolicy s' = TailpostAgentSpec.ImagePullPolicy s;
  c_policy_default : TailpostAgentSpec.ImagePullPolicy s = "" ->
    TailpostAgentSpec.ImagePullPolicy s' = "IfNotPresent";
  c_replicas n : TailpostAgentSpec.Replicas s = Some n -> TailpostAgentSpec.Replicas s' = Some n;
  c_replicas_default : TailpostAgentSpec.Replicas s = None -> TailpostAgentSpec.Replicas s' = Some 1%Z;
  c_batch n : TailpostAgentSpec.BatchSize s = Some n -> TailpostAgentSpec.BatchSize s' = Some n;
  c_batch_default : TailpostAgentSpec.BatchSize s = None -> TailpostAgentSpec.BatchSize s' = Some 10%Z;
  c_flush : TailpostAgentSpec.FlushInterval s <> "" ->
    TailpostAgentSpec.FlushInterval s' = TailpostAgentSpec.FlushInterval s;
  c_flush_default : TailpostAgentSpec.FlushInterval s = "" -> TailpostAgentSpec.FlushInterval s' = "5s";
  c_account : TailpostAgentSpec.ServiceAccount s' = TailpostAgentSpec.ServiceAccount s;
  c_sources : TailpostAgentSpec.LogSources s' = TailpostAgentSpec.LogSources s;
  c_url : TailpostAgentSpec.ServerURL s' = TailpostAgentSpec.ServerURL s;
  c_resources : TailpostAgentSpec.Resources s' = TailpostAgentSpec.Resources s;
}.

Lemma default_spec_completed s : completed s (default_spec r s).1.
Proof.
  destruct s as [rep im pol sa ls url b fl rs]. unfold default_spec; simpl.
  destruct (String.eqb im "") eqn:?, (String.eqb pol "") eqn:?, rep, b, (String.eqb fl "") eqn:?;
    go_bool; simpl; split; simpl; intros; first [done|congruence].
Qed.

(** The agent stored under [key] and its objects are as the operator wants
    them: every field with a default has a value; the ConfigMap holds the
    generated file and nothing else; replicas, image and resources of the
    StatefulSet and selector and ports of the Service are the wanted ones; the
    status reports the ready replicas of the StatefulSet, Available is True and
    Degraded is absent. *)
Definition converged (o : map_order yaml_value) (key : NamespacedName) c : Prop :=
  exists a cm sts svc batch text d x,
    agents c !! key = Some a /\ configmaps c !! cm_key key = Some cm /\
    statefulsets c !! key = Some sts /\ services c !! key = Some svc /\
    is_Some (TailpostAgentSpec.Replicas (TailpostAgent.Spec a)) /\
    TailpostAgentSpec.ImagePullPolicy (TailpostAgent.Spec a) <> "" /\
    TailpostAgentSpec.FlushInterval (TailpostAgent.Spec a) <> "" /\
    TailpostAgentSpec.BatchSize (TailpostAgent.Spec a) = Some batch /\
    yaml o (config_data a batch) = Ok text /\ cm_Data cm = {[ ConfigFileName := text ]} /\
    CreateStatefulSet MustParse a = Ok d /\ compared sts = compared d /\
    svc_Selector svc = GetLabels a /\ svc_Ports svc = svc_Ports (CreateService a) /\
    TailpostAgentStatus.AvailableReplicas (TailpostAgent.Status a) = sts_ReadyReplicas sts /\
    ConditionTypeDegraded ∉ types (conditions a) /\
    x ∈ conditions a /\ Condition.Type_ x = ConditionTypeAvailable /\ Condition.Status x = "True".

(** The objects wanted exist for every agent whose quantities are valid. *)
Lemma desired_exist o a :
  is_ok (CreateStatefulSet MustParse a) = true ->
  exists dcm dsts, desired_cm o (defaulted a) = Ok dcm /\ desired_sts (defaulted a) = Ok dsts.
Proof.
  intros Hq. destruct (default_spec_complete (TailpostAgent.Spec a)) as (_ & Hb & _).
  destruct (desired_cm_ok o (defaulted a) Hb) as [text E].
  destruct (desired_sts_ok a (defaulted a)) as [d E']; [symmetry; apply default_spec_Resources|done|].
  eauto.
Qed.

Lemma compared_sync (d : StatefulSet Q) f : compared (sync_sts d f) = compared d.
Proof. destruct f; simpl; [|done]. by case_decide. Qed.

Lemma sync_sts_ready (d : StatefulSet Q) f :
  sts_ReadyReplicas (sync_sts d f) = from_option sts_ReadyReplicas (sts_ReadyReplicas d) f.
Proof. destruct f; simpl; [|done]. by case_decide. Qed.

Lemma sync_sts_again (d : StatefulSet Q) f : sync_sts d (Some (sync_sts d f)) = sync_sts d f.
Proof. unfold sync_sts at 1. by rewrite decide_True by apply compared_sync. Qed.

(** A pass over an agent whose StatefulSet cannot be built. *)
Lemma Reconcile_panics o msg key a dcm p c t :
  cluster_ok c -> agents c !! key = Some a ->
  desired_cm o (defaulted a) = Ok dcm -> CreateStatefulSet MustParse (defaulted a) = Panic p ->
  exists ws, runs (Reconcile MustParse SetControllerReference r o msg key) c t (Panic p)
    (with_objects (<[cm_key key := sync_cm dcm (configmaps c !! cm_key key)]> (configmaps c))
       (put_agent key (defaulted a) c)) t ws.
Proof.
  intros Hok Ha Hcm Hp. pose proof (agents_keyed _ Hok _ _ Ha) as Hk. eexists.
  eapply runs_bind_pure; [exact (runs_try_Get (O:=TailpostAgent.t) key a c t Ha)|].
  eapply runs_try_bind; [exact (setDefaults_runs key a c t Hk Ha)|].
  eexists; split; [|reflexivity].
  assert (key_of (TailpostAgent.meta (defaulted a)) = key) as Hk' by done.
  eapply runs_try_bind.
  { refine (reconcileConfigMap_runs o (defaulted a) dcm _ t _ Hcm). rewrite Hk'.
    intros f Hf. exact (configmaps_keyed _ Hok _ _ Hf). }
  eexists; split; [|reflexivity]. rewrite Hk'.
  apply runs_panic. refine (runs_try _ _ _ (Panic p) _ _ _ _). apply runs_panic.
  refine (runs_wrap _ _ _ _ (Panic p) _ _ _ _). rewrite Hp. apply runs_lift.
Qed.

Lemma edited_sts a sa policy d :
  let s := TailpostAgent.Spec a in
  let s' := TailpostAgentSpec.mk (TailpostAgentSpec.Replicas s) (TailpostAgentSpec.Image s)
    policy sa (TailpostAgentSpec.LogSources s) (TailpostAgentSpec.ServerURL s)
    (TailpostAgentSpec.BatchSize s) (TailpostAgentSpec.FlushInterval s) (TailpostAgentSpec.Resources s) in
  desired_sts (defaulted a) = Ok d ->
  exists d', desired_sts (defaulted (TailpostAgent.with_Spec s' a)) = Ok d' /\ compared d' = compared d.
Proof using EqDecision0.
  clear dependent SetControllerReference. intros s s'.
  unfold desired_sts, CreateStatefulSet, defaulted; simpl. rewrite !default_spec_Resources.
  subst s s'. destruct a as [m [rep im pol sa0 ls url b fl rs] st]; simpl.
  destruct (resource_list _ (ResourceRequirementsSpec.Limits rs)); simpl; try done.
  destruct (resource_list _ (ResourceRequirementsSpec.Requests rs)); simpl; try done.
  intros [= <-]. eexists. split; [done|]. unfold compared, default_spec; simpl.
  by destruct (String.eqb im ""), (String.eqb pol ""), (String.eqb policy ""), rep, b, (String.eqb fl "").
Qed.

Lemma target_ok o key a t dcm dsts c :
  cluster_ok c -> agents c !! key = Some a ->
  desired_cm o (defaulted a) = Ok dcm -> desired_sts (defaulted a) = Ok dsts ->
  cluster_ok (target key a t dcm dsts c).
Proof using EqDecision0.
  clear dependent SetControllerReference.
  intros Hok Ha Hcm Hsts. pose proof (agents_keyed _ Hok _ _ Ha) as Hk.
  unfold desired_cm, CreateConfigMap in Hcm. unfold desired_sts in Hsts.
  apply bind_ok in Hsts as (d & Ed & [= <-]). destruct (CreateStatefulSet_meta _ _ Ed) as [Em _].
  pose proof (CreateStatefulSet_containers _ _ Ed) as Hne.
  split; simpl; intros k x [[<- <-]|[_ Hx]]%lookup_insert_Some.
  - done.
  - by apply (agents_keyed _ Hok).
  - destruct (configmaps c !! _) eqn:E; simpl; [by apply (configmaps_keyed _ Hok) in E|].
    rewrite <- Hk. by go_inv.
  - by apply (configmaps_keyed _ Hok).
  - destruct (statefulsets c !! _) eqn:E; simpl.
    + apply (statefulsets_keyed _ Hok) in E as [??]. by case_decide.
    + rewrite Em. done.
  - by apply (statefulsets_keyed _ Hok).
  - destruct (services c !! _) eqn:E; simpl; [by apply (services_keyed _ Hok) in E|done].
  - by apply (services_keyed _ Hok).
Qed.

(** The status plays no part in what is wanted. *)
Lemma desired_cm_status o st a : desired_cm o (TailpostAgent.with_Status st a) = desired_cm o a.
Proof. reflexivity. Qed.
Lemma desired_sts_status st a : desired_sts (TailpostAgent.with_Status st a) = desired_sts a.
Proof. reflexivity. Qed.
Lemma desired_svc_status st a : desired_svc (TailpostAgent.with_Status st a) = desired_svc a.
Proof. reflexivity. Qed.

(** The agent a pass leaves is complete, so the next pass wants the same. *)
Lemma final_agent_again a t ready :
  TailpostAgentReconciler.DefaultImage r <> "" ->
  defaulted (final_agent a t ready) = final_agent a t ready /\
  (default_spec r (TailpostAgent.Spec (final_agent a t ready))).2 = false.
Proof using Type.
  clear - r. intros Hr. unfold defaulted.
  assert (default_spec r (TailpostAgent.Spec (final_agent a t ready)) =
          ((default_spec r (TailpostAgent.Spec a)).1, false)) as ->
    by exact (default_spec_again (TailpostAgent.Spec a) Hr).
  split; reflexivity.
Qed.

Lemma second_pass_runs o1 o2 msg key a d1 d2 dsts c t t2 :
  TailpostAgentReconciler.DefaultImage r <> "" ->
  cluster_ok c -> agents c !! key = Some a ->
  desired_cm o1 (defaulted a) = Ok d1 -> desired_cm o2 (defaulted a) = Ok d2 ->
  desired_sts (defaulted a) = Ok dsts ->
  let c2 := target key a t d1 dsts c in
  let a2 := final_agent a t (sts_ReadyReplicas (sync_sts dsts (statefulsets c !! key))) in
  runs (Reconcile MustParse SetControllerReference r o2 msg key) c2 t2
    (Ok (TailpostAgentReconciler.ResyncPeriod r, None))
    (target key a2 t2 d2 dsts c2) (fun n => t2 (S (S n))) (target_writes key a2 d2 dsts c2).
Proof.
  intros Hr Hok Ha H1 H2 Hsts c2 a2.
  destruct (final_agent_again a t (sts_ReadyReplicas (sync_sts dsts (statefulsets c !! key))) Hr)
    as [Hd _]. fold a2 in Hd.
  apply Reconcile_runs; rewrite ?Hd.
  - by eapply target_ok.
  - apply lookup_insert_eq.
  - unfold a2, final_agent. by rewrite desired_cm_status.
  - unfold a2, final_agent. by rewrite desired_sts_status.
Qed.

(** The writes and the result of a second pass, by the conditions it finds. *)
Lemma second_pass_writes key a d1 d2 dsts c t :
  TailpostAgentReconciler.DefaultImage r <> "" ->
  findCondition (final_conditions (conditions a) (t 1)) ConditionTypeDegraded = None ->
  let c2 := target key a t d1 dsts c in
  let a2 := final_agent a t (sts_ReadyReplicas (sync_sts dsts (statefulsets c !! key))) in
  target_writes key a2 d2 dsts c2 =
  (if decide (cm_Data d1 = cm_Data d2) then [] else [WUpdate KConfigMap (cm_key key)]) ++
  [WStatus key; WStatus key].
Proof.
  intros Hr Hg c2 a2.
  destruct (final_agent_again a t (sts_ReadyReplicas (sync_sts dsts (statefulsets c !! key))) Hr)
    as [Hd Hn]. fold a2 in Hd, Hn. unfold target_writes. rewrite Hn, Hd.
  assert (conditions a2 = final_conditions (conditions a) (t 1)) as -> by reflexivity.
  rewrite Hg. assert (desired_svc a2 = desired_svc (defaulted a)) as -> by apply desired_svc_status.
  unfold c2, target; cbn [configmaps statefulsets services]. rewrite !lookup_insert_eq.
  cbn [sync_write]. rewrite compared_sync, (bool_decide_true (compared dsts = _)) by reflexivity.
  assert (cm_Data (sync_cm d1 (configmaps c !! cm_key key)) = cm_Data d1) as ->
    by (by destruct (configmaps c !! _)).
  set (d := desired_svc (defaulted a)).
  assert (svc_Selector (sync_svc d (services c !! key)) = svc_Selector d) as ->
    by (by destruct (services c !! _)).
  assert (svc_Ports (sync_svc d (services c !! key)) = svc_Ports d) as ->
    by (by destruct (services c !! _)).
  rewrite !(bool_decide_true (svc_Selector d = _)), !(bool_decide_true (svc_Ports d = _)) by reflexivity.
  by case_decide; case_bool_decide.
Qed.

Lemma second_pass_target key a dcm dsts c t t2 :
  TailpostAgentReconciler.DefaultImage r <> "" ->
  final_conditions (final_conditions (conditions a) (t 1)) (t2 1) = final_conditions (conditions a) (t 1) ->
  let c2 := target key a t dcm dsts c in
  let a2 := final_agent a t (sts_ReadyReplicas (sync_sts dsts (statefulsets c !! key))) in
  let st := TailpostAgent.Status a2 in
  target key a2 t2 dcm dsts c2 =
  put_agent key (TailpostAgent.with_Status (TailpostAgentStatus.mk
      (TailpostAgentStatus.Conditions st) (TailpostAgentStatus.AvailableReplicas st) (t2 0)) a2) c2.
Proof.
  intros Hr Hf c2 a2 st.
  destruct (final_agent_again a t (sts_ReadyReplicas (sync_sts dsts (statefulsets c !! key))) Hr)
    as [Hd _]. fold a2 in Hd. unfold target at 1, final_agent at 1. rewrite Hd.
  assert (conditions a2 = final_conditions (conditions a) (t 1)) as -> by reflexivity.
  assert (desired_svc a2 = desired_svc (defaulted a)) as -> by apply desired_svc_status.
  rewrite Hf. unfold c2, target, put_agent; cbn [agents configmaps statefulsets services with_objects agent_object].
  rewrite !lookup_insert_eq, sync_sts_again, !insert_insert_eq. f_equal; f_equal.
  - by destruct (configmaps c !! _), dcm.
  - by destruct (services c !! _).
Qed.

End reconcile.

Lemma set_condition_only conds ty st reason m now x :
  NoDup (types conds) -> x ∈ set_condition conds ty st reason m now ->
  Condition.Type_ x = ty -> Condition.Status x = st.
Proof.
  intros Hu Hx Ht. destruct (set_condition_cases conds ty st reason m now)
    as [[Hn E]|(pre & y & post & -> & Hy & Hpre & E)]; rewrite E in Hx.
  - apply elem_of_app in Hx as [Hx|Hx%list_elem_of_singleton]; [|by subst].
    destruct Hn. rewrite <- Ht. by apply list_elem_of_fmap_2.
  - apply elem_of_app in Hx as [Hx|[Hx|Hx]%elem_of_cons].
    + destruct Hpre. rewrite <- Ht. by apply list_elem_of_fmap_2.
    + subst x. by case_decide.
    + exfalso. unfold types in Hu. rewrite fmap_app in Hu. simpl in Hu.
      apply NoDup_app in Hu as (_ & _ & [Hy' _]%NoDup_cons). apply Hy'.
      rewrite Hy, <- Ht. by apply list_elem_of_fmap_2.
Qed.

Lemma set_condition_new conds ty st reason m now :
  ty ∉ types conds -> set_condition conds ty st reason m now = conds ++ [Condition.mk ty st now reason m].
Proof. intros Hn. unfold set_condition. by rewrite (proj2 (findCondition_None _ _) Hn). Qed.

(** A condition that already has the status is left as it is. *)
Lemma set_condition_same conds ty st reason m now x :
  NoDup (types conds) -> x ∈ conds -> Condition.Type_ x = ty -> Condition.Status x = st ->
  set_condition conds ty st reason m now = conds.
Proof.
  intros Hu Hx Ht Hs. destruct (set_condition_cases conds ty st reason m now)
    as [[Hn _]|(pre & y & post & -> & Hy & Hpre & ->)].
  - destruct Hn. rewrite <- Ht. by apply list_elem_of_fmap_2.
  - assert (x = y) as <-; [|by rewrite decide_True].
    unfold types in Hu. rewrite fmap_app in Hu. simpl in Hu.
    apply NoDup_app in Hu as (_ & _ & [Hy' _]%NoDup_cons).
    apply elem_of_app in Hx as [Hx|[Hx|Hx]%elem_of_cons]; [|done|].
    + destruct Hpre. rewrite <- Ht. by apply list_elem_of_fmap_2.
    + destruct Hy'. rewrite Hy, <- Ht. by apply list_elem_of_fmap_2.
Qed.

(** After a successful pass the agent is marked available, not degraded, and
    every other condition is as it was. *)
Lemma final_conditions_spec conds now :
  NoDup (types conds) ->
  NoDup (types (final_conditions conds now)) /\
  ConditionTypeDegraded ∉ types (final_conditions conds now) /\
  (exists x, x ∈ final_conditions conds now /\ Condition.Type_ x = ConditionTypeAvailable) /\
  (forall x, x ∈ final_conditions conds now -> Condition.Type_ x = ConditionTypeAvailable ->
     Condition.Status x = "True") /\
  (forall x, Condition.Type_ x <> ConditionTypeAvailable -> Condition.Type_ x <> ConditionTypeDegraded ->
     x ∈ final_conditions conds now <-> x ∈ conds).
Proof.
  intros Hu. unfold final_conditions.
  pose proof (set_condition_unique _ ConditionTypeAvailable "True" "AgentAvailable"
                "The agent is available" now Hu) as Hu'.
  destruct (drop_condition_unique _ ConditionTypeDegraded Hu') as [Hd1 Hd2].
  split_and!; try done.
  - destruct (set_condition_status conds ConditionTypeAvailable "True" "AgentAvailable"
                "The agent is available" now) as (x & Hx & Ht & _).
    exists x. split; [|done]. apply drop_condition_other; [by rewrite Ht|done].
  - intros x Hx Ht. apply drop_condition_other in Hx; [|by rewrite Ht].
    exact (set_condition_only _ _ _ _ _ _ _ Hu Hx Ht).
  - intros x H1 H2. rewrite drop_condition_other by done. by apply set_condition_other.
Qed.

Lemma final_available conds now :
  exists x, x ∈ final_conditions conds now /\ Condition.Type_ x = ConditionTypeAvailable /\
    Condition.Status x = "True".
Proof.
  destruct (set_condition_status conds ConditionTypeAvailable "True" "AgentAvailable"
              "The agent is available" now) as (x & Hx & Ht & Hs).
  exists x. split; [|done]. apply drop_condition_other; [by rewrite Ht|done].
Qed.

Lemma final_conditions_again conds now now' :
  NoDup (types conds) ->
  final_conditions (final_conditions conds now) now' = final_conditions conds now /\
  findCondition (final_conditions conds now) ConditionTypeDegraded = None.
Proof.
  intros Hu. destruct (final_conditions_spec conds now Hu) as (_ & Hd & (x & Hx & Ht) & Hs & _).
  split; [|by apply findCondition_None]. set (F := final_conditions conds now) in *.
  unfold final_conditions. destruct (set_condition_cases F ConditionTypeAvailable "True"
    "AgentAvailable" "The agent is available" now')
    as [[Hn _]|(pre & y & post & EF & Hy & _ & ->)].
  - destruct Hn. rewrite <- Ht. by apply list_elem_of_fmap_2.
  - rewrite decide_True by (apply Hs; [rewrite EF; apply elem_of_app; right; left|done]).
    rewrite <- EF. unfold drop_condition. by rewrite (proj2 (findCondition_None _ _) Hd).
Qed.

Lemma target_converged {Q} `{EqDecision Q} MustParse r o key a t dcm dsts (c : cluster Q) :
  desired_cm o (defaulted r a) = Ok dcm -> desired_sts MustParse (defaulted r a) = Ok dsts ->
  NoDup (types (conditions a)) ->
  converged MustParse o key (target r key a t dcm dsts c).
Proof.
  intros Hcm Hsts Hu.
  destruct (default_spec_complete r (TailpostAgent.Spec a)) as (Hr & [batch Hb] & Hp & Hfl & _).
  unfold desired_cm, CreateConfigMap in Hcm. simpl in Hcm. rewrite Hb in Hcm.
  destruct (yaml o (config_data (defaulted r a) batch)) as [text| |] eqn:Ey; try done. injection Hcm as <-.
  unfold desired_sts in Hsts. apply bind_ok in Hsts as (d & Ed & [= <-]).
  destruct (final_conditions_spec (conditions a) (t 1) Hu) as (_ & HD & (x & Hx & Hxt) & HA & _).
  unfold target; simpl. do 4 eexists. exists batch, text, d, x. simpl.
  rewrite !lookup_insert_eq. split_and!; try done; [..|by apply HA].
  - by destruct (configmaps c !! cm_key key).
  - etransitivity; [apply compared_sync|done].
  - by destruct (services c !! key).
  - by destruct (services c !! key).
Qed.

(** ** A concrete operator, for examples *)

Module Demo.
Definition MustParse (s : string) : result string :=
  if String.eqb s "lots" then Panic "cannot parse 'lots': quantities must match the regular expression"
  else Ok s.
Definition SetControllerReference (a : TailpostAgent.t) (m : ObjectMeta) : result ObjectMeta :=
  Ok (owned_by a m).
#[global] Instance demo_reference : ControllerReference SetControllerReference.
Proof. done. Qed.
Definition operator : TailpostAgentReconciler.t := NewTailpostAgentReconciler.

Definition key : NamespacedName := ("logs", "web").
Definition no_resources : ResourceRequirementsSpec.t :=
  ResourceRequirementsSpec.mk (ResourceListSpec.mk "" "") (ResourceListSpec.mk "" "").
Definition agent_with (conds : list Condition.t) (res : ResourceRequirementsSpec.t) : TailpostAgent.t :=
  TailpostAgent.mk (mkMeta "web" "logs" ∅ None)
    (TailpostAgentSpec.mk None "" "" "" [LogSourceSpec.mk "file" "/var/log/web.log" "" None None]
       "http://sink" None "" res)
    (TailpostAgentStatus.mk conds 0 0).
Definition agent : TailpostAgent.t := agent_with [] no_resources.
Definition cluster_with (a : TailpostAgent.t) : cluster string := mkCluster {[ key := a ]} ∅ ∅ ∅.
Definition world_at (c : cluster string) (t : Z) : world string :=
  mkWorld c (fun _ => Answered) (fun n => (t + Z.of_nat n)%Z) [] [].

Lemma cluster_with_ok a :
  key_of (TailpostAgent.meta a) = key -> cluster_ok (cluster_with a).
Proof.
  intros Hk. split; simpl; intros k x; rewrite ?lookup_empty; try done.
  by intros [<- <-]%lookup_singleton_Some.
Qed.

Lemma world_at_healthy c t : healthy (world_at c t).
Proof. done. Qed.

Lemma cl_world_at c t : cl (world_at c t) = c.
Proof. reflexivity. Qed.
End Demo.

Module ReconcileProperties.
Section props.
Context {Q : Type} `{EqDecision Q} (MustParse : string -> result Q).
Context (SetControllerReference : TailpostAgent.t -> ObjectMeta -> result ObjectMeta).
Context `{HSCR : !ControllerReference SetControllerReference}.
Context (r : TailpostAgentReconciler.t) (msg : error -> string).
Notation Reconcile := (Reconcile MustParse SetControllerReference r).

(** C7. One pass of the operator implements its specification: when the API
    server answers and the quantities of the resource are valid, [Reconcile]
    succeeds, asks to be called again after the resync period, makes exactly
    the writes of [target_writes] (a create for an absent object, an update for
    one that differs in a compared field, nothing otherwise) and leaves exactly
    the cluster [target]: nothing but the agent and its three objects changes. *)
Theorem Reconcile_refines o key a w :
  healthy w -> cluster_ok (cl w) -> agents (cl w) !! key = Some a ->
  is_ok (CreateStatefulSet MustParse a) = true ->
  exists dcm dsts w',
    desired_cm o (defaulted r a) = Ok dcm /\ desired_sts MustParse (defaulted r a) = Ok dsts /\
    Reconcile o msg key w = (Ok (TailpostAgentReconciler.ResyncPeriod r, None), w') /\
    cl w' = target r key a (clock w) dcm dsts (cl w) /\
    writes w' = writes w ++ target_writes r key a dcm dsts (cl w).
Proof.
  intros Hw Hok Ha Hq. destruct (desired_exist MustParse r o a Hq) as (dcm & dsts & Hcm & Hsts).
  destruct (Reconcile_runs MustParse SetControllerReference r o msg key a dcm dsts _ (clock w) Hok Ha
    Hcm Hsts w Hw eq_refl eq_refl) as (w' & E & _ & Ec & _ & Ew).
  by exists dcm, dsts, w'.
Qed.

(** C15. What a pass makes of the custom resource itself.  After a pass that the API
    server answered, on an agent with valid quantities and unique conditions, the
    stored agent has the name and labels it had; every value the user gave is
    kept; a missing image is the operator's default image, a missing pull policy
    [IfNotPresent], missing replicas 1, a missing batch size 10 and a missing
    flush interval [5s]; Available is True, Degraded is gone, and every other
    condition is as it was. *)
Theorem Reconcile_keeps_user_values o key a w :
  healthy w -> cluster_ok (cl w) -> agents (cl w) !! key = Some a ->
  is_ok (CreateStatefulSet MustParse a) = true -> NoDup (types (conditions a)) ->
  exists a' w', Reconcile o msg key w = (Ok (TailpostAgentReconciler.ResyncPeriod r, None), w') /\
    agents (cl w') !! key = Some a' /\
    TailpostAgent.meta a' = TailpostAgent.meta a /\
    completed r (TailpostAgent.Spec a) (TailpostAgent.Spec a') /\
    (exists x, x ∈ conditions a' /\ Condition.Type_ x = ConditionTypeAvailable /\
       Condition.Status x = "True") /\
    ConditionTypeDegraded ∉ types (conditions a') /\
    (forall x, Condition.Type_ x <> ConditionTypeAvailable ->
       Condition.Type_ x <> ConditionTypeDegraded -> x ∈ conditions a' <-> x ∈ conditions a).
Proof.
  intros Hw Hok Ha Hq Hu. destruct (desired_exist MustParse r o a Hq) as (dcm & dsts & Hcm & Hsts).
  destruct (Reconcile_runs MustParse SetControllerReference r o msg key a dcm dsts _ (clock w) Hok Ha
    Hcm Hsts w Hw eq_refl eq_refl) as (w' & E & _ & Ec & _ & _).
  destruct (final_conditions_spec (conditions a) (clock w 1) Hu) as (_ & Hd & _ & _ & Ho).
  eexists _, w'. rewrite Ec. split_and!; [done|apply lookup_insert_eq|done|..|exact Hd|exact Ho].
  - apply default_spec_completed.
  - apply final_available.
Qed.

(** A second pass changes nothing: run after a successful one, with the same
    order of map iteration, it makes no write but two status updates, and the
    only difference it leaves is the time of the last update. *)
Theorem Reconcile_idempotent o key a w w2 :
  healthy w -> cluster_ok (cl w) -> agents (cl w) !! key = Some a ->
  is_ok (CreateStatefulSet MustParse a) = true -> NoDup (types (conditions a)) ->
  TailpostAgentReconciler.DefaultImage r <> "" ->
  healthy w2 -> cl w2 = cl (Reconcile o msg key w).2 ->
  exists a' st w3,
    agents (cl w2) !! key = Some a' /\
    Reconcile o msg key w2 = (Ok (TailpostAgentReconciler.ResyncPeriod r, None), w3) /\
    writes w3 = writes w2 ++ [WStatus key; WStatus key] /\
    st = TailpostAgent.Status a' /\
    cl w3 = put_agent key (TailpostAgent.with_Status (TailpostAgentStatus.mk
      (TailpostAgentStatus.Conditions st) (TailpostAgentStatus.AvailableReplicas st)
      (clock w2 0)) a') (cl w2).
Proof.
  intros Hw Hok Ha Hq Hu Hr Hw2. destruct (desired_exist MustParse r o a Hq) as (dcm & dsts & Hcm & Hsts).
  destruct (Reconcile_runs MustParse SetControllerReference r o msg key a dcm dsts _ (clock w) Hok Ha
    Hcm Hsts w Hw eq_refl eq_refl) as (w' & -> & _ & Ec1 & _ & _). intros Ec2. simpl in Ec2.
  destruct (final_conditions_again (conditions a) (clock w 1) (clock w2 1) Hu) as [Hf Hg].
  destruct (second_pass_runs MustParse SetControllerReference r o o msg key a dcm dcm dsts (cl w)
    (clock w) (clock w2) Hr Hok Ha Hcm Hcm Hsts w2 Hw2) as (w3 & E & _ & Ec & _ & Ew); [congruence|done|].
  eexists _, _, w3. split_and!; [|exact E| |reflexivity|].
  - rewrite Ec2, Ec1. apply lookup_insert_eq.
  - rewrite Ew, second_pass_writes by done. by rewrite decide_True.
  - by rewrite Ec, second_pass_target, Ec2, Ec1.
Qed.

(** C34. A change of the service account or of the image pull policy of a deployed
    agent is not carried out: while replicas, image and resources stay as the
    StatefulSet has them, a pass that the API server answers succeeds, reports the
    agent as available, stores the new service account in the custom resource,
    and leaves every StatefulSet exactly as it was, with the old service account
    and policy. *)
Theorem template_drift o key a w f d sa policy :
  healthy w -> cluster_ok (cl w) ->
  let edit := fun s => TailpostAgentSpec.mk (TailpostAgentSpec.Replicas s) (TailpostAgentSpec.Image s)
    policy sa (TailpostAgentSpec.LogSources s) (TailpostAgentSpec.ServerURL s)
    (TailpostAgentSpec.BatchSize s) (TailpostAgentSpec.FlushInterval s) (TailpostAgentSpec.Resources s) in
  agents (cl w) !! key = Some (TailpostAgent.with_Spec (edit (TailpostAgent.Spec a)) a) ->
  statefulsets (cl w) !! key = Some f ->
  desired_sts MustParse (defaulted r a) = Ok d -> compared f = compared d ->
  exists a' w', Reconcile o msg key w = (Ok (TailpostAgentReconciler.ResyncPeriod r, None), w') /\
    agents (cl w') !! key = Some a' /\
    (exists x, x ∈ conditions a' /\ Condition.Type_ x = ConditionTypeAvailable /\
       Condition.Status x = "True") /\
    TailpostAgentSpec.ServiceAccount (TailpostAgent.Spec a') = sa /\
    (policy <> "" -> TailpostAgentSpec.ImagePullPolicy (TailpostAgent.Spec a') = policy) /\
    statefulsets (cl w') = statefulsets (cl w).
Proof.
  intros Hw Hok edit Ha Hf Hd Hcmp. set (b := TailpostAgent.with_Spec _ a) in *.
  destruct (edited_sts MustParse r a sa policy d Hd) as (d' & Hd' & Hc').
  destruct (default_spec_complete r (TailpostAgent.Spec b)) as (_ & Hb & _).
  destruct (desired_cm_ok o (defaulted r b) Hb) as [text Hcm].
  destruct (Reconcile_runs MustParse SetControllerReference r o msg key b _ d' _ (clock w) Hok Ha
    Hcm Hd' w Hw eq_refl eq_refl) as (w' & E & _ & Ec & _ & _).
  destruct (default_spec_completed r (TailpostAgent.Spec b)) as [_ _ Hpol _ _ _ _ _ _ _ Hsa _ _ _].
  eexists _, w'. split; [done|]. rewrite Ec. split_and!; [apply lookup_insert_eq|..].
  - apply final_available.
  - exact Hsa.
  - exact Hpol.
  - unfold target; simpl. rewrite Hf. simpl. rewrite decide_True by congruence. by apply insert_id.
Qed.

(** The generated file depends on the order in which Go iterates over a map:
    after a successful pass, a pass that happens to iterate in an order that
    gives another text updates the ConfigMap, though nothing was changed. *)
Theorem map_order_churn o1 o2 key a w w2 d1 d2 :
  healthy w -> cluster_ok (cl w) -> agents (cl w) !! key = Some a ->
  is_ok (CreateStatefulSet MustParse a) = true -> NoDup (types (conditions a)) ->
  TailpostAgentReconciler.DefaultImage r <> "" ->
  desired_cm o1 (defaulted r a) = Ok d1 -> desired_cm o2 (defaulted r a) = Ok d2 ->
  cm_Data d1 <> cm_Data d2 ->
  healthy w2 -> cl w2 = cl (Reconcile o1 msg key w).2 ->
  exists w3, Reconcile o2 msg key w2 = (Ok (TailpostAgentReconciler.ResyncPeriod r, None), w3) /\
    writes w3 = writes w2 ++ [WUpdate KConfigMap (cm_key key); WStatus key; WStatus key].
Proof.
  intros Hw Hok Ha Hq Hu Hr H1 H2 Hne Hw2.
  destruct (desired_exist MustParse r o1 a Hq) as (dcm & dsts & Hcm & Hsts).
  assert (dcm = d1) as -> by congruence.
  destruct (Reconcile_runs MustParse SetControllerReference r o1 msg key a d1 dsts _ (clock w) Hok Ha
    Hcm Hsts w Hw eq_refl eq_refl) as (w' & -> & _ & Ec1 & _ & _). intros Ec2. simpl in Ec2.
  destruct (final_conditions_again (conditions a) (clock w 1) (clock w2 1) Hu) as [_ Hg].
  destruct (second_pass_runs MustParse SetControllerReference r o1 o2 msg key a d1 d2 dsts (cl w)
    (clock w) (clock w2) Hr Hok Ha H1 H2 Hsts w2 Hw2) as (w3 & E & _ & Ec & _ & Ew); [congruence|done|].
  exists w3. split; [done|]. rewrite Ew, second_pass_writes by done. by rewrite decide_False.
Qed.

(** A quantity that does not parse makes the pass panic: the ConfigMap is
    written, but no StatefulSet, and the resource gets no condition that tells
    the user. *)
Theorem bad_quantity_panics o key a w p :
  healthy w -> cluster_ok (cl w) -> agents (cl w) !! key = Some a ->
  CreateStatefulSet MustParse (defaulted r a) = Panic p ->
  exists w', Reconcile o msg key w = (Panic p, w') /\
    agents (cl w') !! key = Some (defaulted r a) /\ is_Some (configmaps (cl w') !! cm_key key) /\
    statefulsets (cl w') = statefulsets (cl w) /\
    conditions (defaulted r a) = conditions a.
Proof.
  intros Hw Hok Ha Hp. pose proof (agents_keyed _ Hok _ _ Ha) as Hk.
  destruct (default_spec_complete r (TailpostAgent.Spec a)) as (_ & Hb & _).
  destruct (desired_cm_ok o (defaulted r a) Hb) as [text Hcm].
  destruct (Reconcile_panics MustParse SetControllerReference r o msg key a _ p _ (clock w) Hok Ha Hcm Hp)
    as [ws Hrun]. destruct (Hrun w Hw eq_refl eq_refl) as (w' & E & _ & Ec & _).
  exists w'. rewrite E, Ec. split_and!; try done; simpl; rewrite lookup_insert_eq; by try eexists.
Qed.

End props.

Definition plain_msg (e : error) : string := "error".
Notation demo o := (Reconcile Demo.MustParse Demo.SetControllerReference Demo.operator o plain_msg Demo.key).
Definition start : world string := Demo.world_at (Demo.cluster_with Demo.agent) 100.

Lemma Reconcile_refines_witness :
  exists dcm dsts w',
    desired_cm canonical_order (defaulted Demo.operator Demo.agent) = Ok dcm /\
    desired_sts Demo.MustParse (defaulted Demo.operator Demo.agent) = Ok dsts /\
    demo canonical_order start = (Ok (600000000000%Z, None), w') /\
    cl w' = target Demo.operator Demo.key Demo.agent (clock start) dcm dsts (cl start) /\
    writes w' = target_writes Demo.operator Demo.key Demo.agent dcm dsts (cl start).
Proof.
  apply (Reconcile_refines Demo.MustParse Demo.SetControllerReference Demo.operator plain_msg
    canonical_order Demo.key Demo.agent start).
  - apply Demo.world_at_healthy.
  - apply Demo.cluster_with_ok. reflexivity.
  - reflexivity.
  - reflexivity.
Defined.

(** The writes of the first pass of an agent that leaves everything to the
    defaults. *)
Example first_pass_writes :
  writes (demo canonical_order start).2 =
  [WUpdate KAgent Demo.key; WCreate KConfigMap (cm_key Demo.key); WCreate KStatefulSet Demo.key;
   WCreate KService Demo.key; WStatus Demo.key; WStatus Demo.key].
Proof. vm_compute. reflexivity. Qed.

Lemma Reconcile_keeps_user_values_witness :
  exists a' w', demo canonical_order start = (Ok (600000000000%Z, None), w') /\
    agents (cl w') !! Demo.key = Some a' /\
    completed Demo.operator (TailpostAgent.Spec Demo.agent) (TailpostAgent.Spec a').
Proof.
  destruct (Reconcile_keeps_user_values Demo.MustParse Demo.SetControllerReference Demo.operator plain_msg
    canonical_order Demo.key Demo.agent start) as (a' & w' & E & Ha & _ & Hc & _).
  - apply Demo.world_at_healthy.
  - apply Demo.cluster_with_ok. reflexivity.
  - reflexivity.
  - reflexivity.
  - constructor.
  - exists a', w'. exact (conj E (conj Ha Hc)).
Defined.

Lemma Reconcile_idempotent_witness :
  let w2 := Demo.world_at (cl (demo canonical_order start).2) 200 in
  exists w3, demo canonical_order w2 = (Ok (600000000000%Z, None), w3) /\
    writes w3 = [WStatus Demo.key; WStatus Demo.key].
Proof.
  intros w2.
  destruct (Reconcile_idempotent Demo.MustParse Demo.SetControllerReference Demo.operator plain_msg
    canonical_order Demo.key Demo.agent start w2) as (a' & st & w3 & _ & E & Hw & _).
  - apply Demo.world_at_healthy.
  - apply Demo.cluster_with_ok. reflexivity.
  - reflexivity.
  - reflexivity.
  - constructor.
  - discriminate.
  - apply Demo.world_at_healthy.
  - apply Demo.cl_world_at.
  - exists w3. exact (conj E Hw).
Defined.

(** Two orders of iteration give two texts. *)
Definition file_text (o : map_order yaml_value) : option string :=
  match desired_cm o (defaulted Demo.operator Demo.agent) with
  | Ok d => cm_Data d !! ConfigFileName
  | _ => None
  end.

Lemma orders_differ : file_text canonical_order <> file_text reverse_order.
Proof. apply (bool_decide_unpack (file_text canonical_order <> file_text reverse_order)). vm_compute. exact I. Qed.

Lemma map_order_churn_witness :
  let w2 := Demo.world_at (cl (demo canonical_order start).2) 200 in
  exists w3, demo reverse_order w2 = (Ok (600000000000%Z, None), w3) /\
    writes w3 = [WUpdate KConfigMap (cm_key Demo.key); WStatus Demo.key; WStatus Demo.key].
Proof.
  intros w2.
  destruct (desired_cm_ok canonical_order (defaulted Demo.operator Demo.agent)) as [t1 E1];
    [by eexists|].
  destruct (desired_cm_ok reverse_order (defaulted Demo.operator Demo.agent)) as [t2 E2];
    [by eexists|].
  refine (map_order_churn Demo.MustParse Demo.SetControllerReference Demo.operator plain_msg
    canonical_order reverse_order Demo.key Demo.agent start w2 _ _ _ _ _ _ _ _ E1 E2 _ _ _).
  - apply Demo.world_at_healthy.
  - apply Demo.cluster_with_ok. reflexivity.
  - reflexivity.
  - reflexivity.
  - constructor.
  - discriminate.
  - intros Hd. assert (file_text canonical_order = file_text reverse_order) as Ht
      by (unfold file_text; rewrite E1, E2; f_equal; exact Hd).
    by apply orders_differ.
  - apply Demo.world_at_healthy.
  - apply Demo.cl_world_at.
Defined.

(** The StatefulSet of the demo agent, deployed; then the user sets a service
    account and another pull policy. *)
Definition deployed : StatefulSet string :=
  match desired_sts Demo.MustParse (defaulted Demo.operator Demo.agent) with
  | Ok d => d
  | _ => mkStatefulSet (mkMeta "" "" ∅ None) (mkStsSpec None ∅ "" ∅ "" [] []) 0
  end.
Definition edited_agent : TailpostAgent.t :=
  let s := TailpostAgent.Spec Demo.agent in
  TailpostAgent.with_Spec (TailpostAgentSpec.mk (TailpostAgentSpec.Replicas s) (TailpostAgentSpec.Image s)
    "Always" "auditor" (TailpostAgentSpec.LogSources s) (TailpostAgentSpec.ServerURL s)
    (TailpostAgentSpec.BatchSize s) (TailpostAgentSpec.FlushInterval s) (TailpostAgentSpec.Resources s))
    Demo.agent.
Definition edited_world : world string :=
  Demo.world_at (mkCluster {[ Demo.key := edited_agent ]} ∅ {[ Demo.key := deployed ]} ∅) 300.

Lemma template_drift_witness :
  exists w', demo canonical_order edited_world = (Ok (600000000000%Z, None), w') /\
    statefulsets (cl w') = {[ Demo.key := deployed ]}.
Proof.
  edestruct (template_drift Demo.MustParse Demo.SetControllerReference Demo.operator plain_msg
    canonical_order Demo.key Demo.agent edited_world deployed deployed "auditor" "Always")
    as (a' & w' & E & _ & _ & _ & _ & Hs).
  - apply Demo.world_at_healthy.
  - split; simpl; intros k x; rewrite ?lookup_empty; try discriminate;
      intros [<- <-]%lookup_singleton_Some; [reflexivity|split; [reflexivity|discriminate]].
  - reflexivity.
  - reflexivity.
  - reflexivity.
  - reflexivity.
  - exists w'. exact (conj E Hs).
Defined.

Lemma bad_quantity_panics_witness :
  let res := ResourceRequirementsSpec.mk (ResourceListSpec.mk "lots" "") (ResourceListSpec.mk "" "") in
  let a := Demo.agent_with [] res in
  exists p w', demo canonical_order (Demo.world_at (Demo.cluster_with a) 100) = (Panic p, w') /\
    statefulsets (cl w') = ∅ /\ is_Some (configmaps (cl w') !! cm_key Demo.key).
Proof.
  intros res a.
  destruct (bad_quantity_panics Demo.MustParse Demo.SetControllerReference Demo.operator plain_msg
    canonical_order Demo.key a (Demo.world_at (Demo.cluster_with a) 100)
    "cannot parse 'lots': quantities must match the regular expression")
    as (w' & E & _ & Hc & Hs & _).
  - apply Demo.world_at_healthy.
  - apply Demo.cluster_with_ok. reflexivity.
  - reflexivity.
  - reflexivity.
  - eexists _, w'. exact (conj E (conj Hs Hc)).
Defined.

End ReconcileProperties.
