(* ===== verification/ReconcileFaults.v ===== *)
(** * The operator on an unreliable network

    What a pass of [Reconcile] can do to the cluster when any request may be
    refused or its answer lost, and that the operator recovers from it. *)
From S2P Require Import Prelude MapRange KubeTypes Cluster Resources Controller Reconcile.

(** ** Rules for invariants under arbitrary faults *)

Section keeps.
Context {Q : Type} (I : cluster Q -> Prop).

(** Whatever the network does, [m] keeps [I], and a value it returns has [V]. *)
Definition keeps {A} (m : M Q A) (V : A -> Prop) : Prop :=
  forall w, I (cl w) -> I (cl (m w).2) /\ forall a, (m w).1 = Ok a -> V a.

Lemma keeps_ret {A} (a : A) (V : A -> Prop) : V a -> keeps (mret a) V.
Proof. intros Ha w Hw. split; [done|]. by intros ? [= <-]. Qed.

Lemma keeps_lift {A} (m : result A) (V : A -> Prop) : (forall a, m = Ok a -> V a) -> keeps (lift m) V.
Proof. intros Ha w Hw. split; [done|]. apply Ha. Qed.

Lemma keeps_throw {A} e (V : A -> Prop) : keeps (throw e) V.
Proof. intros w Hw. by split. Qed.

Lemma keeps_bind {A B} (m : M Q A) (f : A -> M Q B) V V' :
  keeps m V -> (forall a, V a -> keeps (f a) V') -> keeps (m ≫= f) V'.
Proof.
  intros Hm Hf w Hw. specialize (Hm w Hw). unfold mbind, M_bind.
  destruct (m w) as [[a|e|p] w1]; simpl in *; [|by split; [apply Hm|]..].
  destruct Hm as [H1 H2]. by apply (Hf a (H2 a eq_refl)).
Qed.

Lemma keeps_try {A} (m : M Q A) V :
  keeps m V -> keeps (try m) (fun x => match x with inl a => V a | inr _ => True end).
Proof.
  intros Hm w Hw. specialize (Hm w Hw). unfold try.
  destruct (m w) as [[a|e|p] w1]; simpl in *; destruct Hm as [H1 H2]; split; try done.
  - intros ? [= <-]. by apply H2.
  - by intros ? [= <-].
Qed.

Lemma keeps_wrap {A} fmt (m : M Q A) V : keeps m V -> keeps (wrapM fmt m) V.
Proof.
  intros Hm w Hw. specialize (Hm w Hw). unfold wrapM.
  destruct (m w) as [[a|e|p] w1]; simpl in *; destruct Hm as [H1 H2]; by split.
Qed.

Lemma keeps_weaken {A} (m : M Q A) (V V' : A -> Prop) :
  keeps m V -> (forall a, V a -> V' a) -> keeps m V'.
Proof. intros Hm HV w Hw. destruct (Hm w Hw). eauto. Qed.

Lemma keeps_Now : keeps Now (fun _ => True).
Proof. intros w Hw. done. Qed.
Lemma keeps_Eventf reason name : keeps (Eventf reason name) (fun _ => True).
Proof. intros w Hw. done. Qed.
Lemma keeps_log x : keeps (log_write x) (fun _ => True).
Proof. intros w Hw. done. Qed.

Lemma keeps_request {A} (serve : cluster Q -> result A * cluster Q) V :
  (forall c, I c -> I (serve c).2 /\ forall a, (serve c).1 = Ok a -> V a) ->
  keeps (request serve) V.
Proof.
  intros Hs w Hw. specialize (Hs _ Hw). unfold request.
  destruct (net w 0), (serve (cl w)); simpl in *; naive_solver.
Qed.

Section object.
Context {O : Type} `{!Object Q O}.

Lemma keeps_Get key V :
  (forall c o, I c -> objects c !! key = Some o -> V o) -> keeps (Get (O:=O) key) V.
Proof.
  intros HV. apply keeps_request. intros c Hc; simpl. split; [done|].
  intros o. destruct (objects c !! key) eqn:E; simpl; [|done]. intros [= <-]. eauto.
Qed.

Lemma keeps_Create (o : O) key :
  key_of (obj_meta (Q:=Q) o) = key ->
  (forall c, I c -> objects c !! key = None -> I (with_objects (<[key := o]> (objects c)) c)) ->
  keeps (Create o) (fun _ => True).
Proof.
  intros <- HI. eapply keeps_bind; [apply keeps_log|]. intros _ _. apply keeps_request.
  intros c Hc. destruct (objects c !! _) eqn:E; simpl; auto.
Qed.

Lemma keeps_Update (o : O) key V :
  key_of (obj_meta (Q:=Q) o) = key ->
  (forall c stored, I c -> objects c !! key = Some stored ->
     let o' := keep_status (Q:=Q) stored o in
     I (with_objects (<[key := o']> (objects c)) c) /\ V o') ->
  keeps (Update o) V.
Proof.
  intros <- HI. eapply keeps_bind; [apply keeps_log|]. intros _ _. apply keeps_request.
  intros c Hc. destruct (objects c !! _) as [stored|] eqn:E; simpl; [|done].
  destruct (HI c stored Hc E) as [H1 H2]. split; [done|]. by intros ? [= <-].
Qed.

End object.

Lemma keeps_Status_Update a key V :
  key_of (TailpostAgent.meta a) = key ->
  (forall c stored, I c -> agents c !! key = Some stored ->
     let a' := TailpostAgent.with_Status (TailpostAgent.Status a) stored in
     I (with_objects (<[key := a']> (agents c)) c) /\ V a') ->
  keeps (Status_Update a) V.
Proof.
  intros <- HI. eapply keeps_bind; [apply keeps_log|]. intros _ _. apply keeps_request.
  intros c Hc. destruct (agents c !! _) as [stored|] eqn:E; simpl; [|done].
  destruct (HI c stored Hc E) as [H1 H2]. split; [done|]. by intros ? [= <-].
Qed.

End keeps.

(** ** What a pass over one agent may do *)

(** [m'] differs from [m] at most at [key], where nothing is removed. *)
Definition only_at {O} (key : NamespacedName) (m m' : gmap NamespacedName O) : Prop :=
  (forall k, k <> key -> m' !! k = m !! k) /\ (is_Some (m !! key) -> is_Some (m' !! key)).

#[global] Instance only_at_preorder {O} (key : NamespacedName) : PreOrder (@only_at O key).
Proof.
  split; [done|]. intros m1 m2 m3 [H1 H2] [H3 H4]. split; [|auto].
  intros k Hk. rewrite H3 by done. auto.
Qed.

Lemma only_at_insert {O} (key : NamespacedName) (m m' : gmap NamespacedName O) (o : O) :
  only_at key m m' -> only_at key m (<[key := o]> m').
Proof.
  intros [H1 H2]. split; [|by rewrite lookup_insert_eq].
  intros k Hk. rewrite lookup_insert_ne by done. auto.
Qed.

Section faults.
Context {Q : Type} `{EqDecision Q} (MustParse : string -> result Q).
Context (SetControllerReference : TailpostAgent.t -> ObjectMeta -> result ObjectMeta).
Context `{HSCR : !ControllerReference SetControllerReference}.
Context (r : TailpostAgentReconciler.t) (msg : error -> string).
Implicit Types (a : TailpostAgent.t) (c : cluster Q).
Notation Reconcile := (Reconcile MustParse SetControllerReference r).

(** An agent is the one that was stored, with its defaults filled in or not,
    its status free but for the uniqueness of its conditions. *)
Definition same_agent (a0 a : TailpostAgent.t) : Prop :=
  TailpostAgent.meta a = TailpostAgent.meta a0 /\
  (TailpostAgent.Spec a = TailpostAgent.Spec a0 \/
   TailpostAgent.Spec a = (default_spec r (TailpostAgent.Spec a0)).1) /\
  (NoDup (types (conditions a0)) -> NoDup (types (conditions a))).

(** What may become of cluster [c0] in passes over the agent [key]. *)
Record touched (key : NamespacedName) c0 c : Prop := {
  touched_ok : cluster_ok c;
  touched_agents : forall k, k <> key -> agents c !! k = agents c0 !! k;
  touched_agent : option_Forall2 same_agent (agents c0 !! key) (agents c !! key);
  touched_configmaps : only_at (cm_key key) (configmaps c0) (configmaps c);
  touched_statefulsets : only_at key (statefulsets c0) (statefulsets c);
  touched_services : only_at key (services c0) (services c);
}.

Lemma default_spec_idem s : (default_spec r (default_spec r s).1).1 = (default_spec r s).1.
Proof.
  destruct s as [rep im pol sa ls url b fl rs]. unfold default_spec; simpl.
  destruct (String.eqb im "") eqn:E1, (String.eqb pol "") eqn:E2, rep, b, (String.eqb fl "") eqn:E3;
    simpl; rewrite ?E1, ?E2, ?E3; simpl;
    try (by destruct (String.eqb_spec (TailpostAgentReconciler.DefaultImage r) "")); done.
Qed.

#[global] Instance same_agent_preorder : PreOrder same_agent.
Proof.
  split; [by intros a; split_and!; auto|].
  intros a b c (Hm & Hs & Hu) (Hm' & Hs' & Hu'). split_and!; [congruence| |auto].
  destruct Hs as [Hs|Hs], Hs' as [Hs'|Hs']; rewrite Hs', ?Hs; auto.
  right. apply default_spec_idem.
Qed.

Lemma touched_refl key c : cluster_ok c -> touched key c c.
Proof. intros Hok. by split. Qed.

Lemma touched_trans key c0 c1 c2 : touched key c0 c1 -> touched key c1 c2 -> touched key c0 c2.
Proof.
  intros [A1 A2 A3 A4 A5 A6] [B1 B2 B3 B4 B5 B6]. split; [done| | |by etrans..].
  - intros k Hk. rewrite B2 by done. auto.
  - destruct A3 as [x y Hxy|]; inversion B3; subst; constructor. by etrans.
Qed.

(** ** Every operation of the controller stays within [touched] *)

Section one_pass.
Context (key : NamespacedName) (c0 : cluster Q) (a0 : TailpostAgent.t).
Context (Hok0 : cluster_ok c0) (Ha0 : agents c0 !! key = Some a0).
Notation ok := (touched key c0).

Lemma touched_put a c :
  ok c -> same_agent a0 a -> key_of (TailpostAgent.meta a) = key ->
  ok (with_objects (<[key := a]> (agents c)) c).
Proof.
  intros [A1 A2 A3 A4 A5 A6] Hs Hk. split; try done; simpl.
  - destruct A1. split; try done; simpl. intros k x [[<- <-]|[_ ?]]%lookup_insert_Some; auto.
  - intros k Hne. rewrite lookup_insert_ne by done. auto.
  - rewrite lookup_insert_eq, Ha0. by constructor.
Qed.

Lemma touched_stored a c : ok c -> agents c !! key = Some a -> same_agent a0 a /\ key_of (TailpostAgent.meta a) = key.
Proof.
  intros [A1 _ A3 _ _ _] Ha. rewrite Ha0, Ha in A3. inversion A3; subst.
  split; [done|]. by apply (agents_keyed _ A1).
Qed.

(** An instance in the operator's memory. *)
Definition held a : Prop := same_agent a0 a /\ key_of (TailpostAgent.meta a) = key.

Lemma held_conditions conds a :
  held a -> (NoDup (types (conditions a)) -> NoDup (types conds)) -> held (with_conditions conds a).
Proof. intros ((Hm & Hs & Hu) & Hk) Hc. split; [|done]. split_and!; auto. Qed.

(** A status update of a held instance. *)
Lemma keeps_status a : held a -> keeps ok (Status_Update a) held.
Proof.
  intros (Hs & Hk). apply (keeps_Status_Update _ _ key); [done|]. intros c stored Hc Hst a'.
  destruct (touched_stored _ _ Hc Hst) as [(Hm' & Hs' & Hu') Hk'].
  assert (same_agent a0 a') as Ha'. { split_and!; try done. apply Hs. }
  split; [by apply touched_put|done].
Qed.

Lemma keeps_status_or a :
  held a ->
  keeps ok (res ← try (Status_Update a); match res with inl x => mret x | inr _ => mret a end) held.
Proof.
  intros Ha. eapply keeps_bind; [apply keeps_try, keeps_status, Ha|].
  intros [x|e] Hx; by apply keeps_ret.
Qed.

Lemma keeps_setCondition a ty st reason m : held a -> keeps ok (setCondition a ty st reason m) held.
Proof.
  intros Ha. eapply keeps_bind; [apply keeps_Now|]. intros now _. apply keeps_status_or.
  apply held_conditions; [done|]. apply set_condition_unique.
Qed.

Lemma keeps_removeCondition a ty : held a -> keeps ok (removeCondition a ty) held.
Proof.
  intros Ha. unfold removeCondition. destruct (findCondition (conditions a) ty) as [i|] eqn:E;
    [|by apply keeps_ret].
  apply keeps_status_or, held_conditions; [done|]. intros Hu.
  pose proof (drop_condition_unique (conditions a) ty Hu) as [H _].
  unfold drop_condition in H. by rewrite E in H.
Qed.

Lemma keeps_setDefaults a : held a -> keeps ok (setDefaults r a) held.
Proof.
  intros ((Hm & Hs & Hu) & Hk). unfold setDefaults.
  destruct (default_spec r (TailpostAgent.Spec a)) as [s n] eqn:Ed.
  assert (s = (default_spec r (TailpostAgent.Spec a0)).1) as Hsp.
  { destruct Hs as [Hs|Hs]; rewrite Hs in Ed; [by rewrite Ed|].
    rewrite <- (default_spec_idem (TailpostAgent.Spec a0)). by rewrite Ed. }
  assert (held (TailpostAgent.with_Spec s a)) as Hh.
  { split; [|done]. split_and!; auto. }
  destruct n; [|by apply keeps_ret]. apply keeps_wrap.
  apply (keeps_Update (O:=TailpostAgent.t) _ _ key); [done|]. intros c stored Hc Hst a'.
  destruct (touched_stored _ _ Hc Hst) as [(Hm' & Hs' & Hu') Hk'].
  assert (same_agent a0 a') as Ha'. { split_and!; auto. }
  split; [by apply touched_put|done].
Qed.

Lemma keeps_updateStatus a : held a -> keeps ok (updateStatus a) held.
Proof.
  intros Ha. eapply keeps_bind; [apply keeps_try, (keeps_Get _ _ (fun _ => True)); auto|].
  intros res _. eapply (keeps_bind _ _ _ (fun _ => True)).
  { destruct res as [sts|e]; [by apply keeps_ret|].
    destruct (IsNotFound e); [by apply keeps_ret|apply keeps_throw]. }
  intros n _. eapply keeps_bind; [apply keeps_Now|]. intros now _.
  apply keeps_wrap, keeps_status. destruct Ha as ((Hm & Hs & Hu) & Hk). split; [|done]. split_and!; auto.
Qed.

(** The common shape of the three reconciliations: the key of the object, and
    that storing an object under it stays within [ok]. *)
Lemma keeps_sync {O} `{!Object Q O} k fmt (absent : M Q unit) (present : O -> M Q unit) (V : O -> Prop) :
  (forall c x, ok c -> objects c !! k = Some x -> V x) ->
  keeps ok absent (fun _ => True) -> (forall x, V x -> keeps ok (present x) (fun _ => True)) ->
  keeps ok (res ← try (Get (O:=O) k);
            match res with
            | inr e => if IsNotFound e then absent else throw (Wrapf fmt e)
            | inl x => present x
            end) (fun _ => True).
Proof.
  intros HV Ha Hp. eapply keeps_bind; [apply keeps_try, (keeps_Get _ _ V HV)|].
  intros [x|e] Hx; [auto|]. destruct (IsNotFound e); [done|apply keeps_throw].
Qed.

Lemma keeps_write {A} (m : M Q A) fmt reason name :
  keeps ok m (fun _ => True) -> keeps ok (_ ← wrapM fmt m; Eventf reason name) (fun _ => True).
Proof. intros Hm. eapply keeps_bind; [apply keeps_wrap, Hm|]. intros _ _. apply keeps_Eventf. Qed.

Lemma touched_put_cm x c :
  ok c -> key_of (cm_meta x) = cm_key key ->
  ok (with_objects (<[cm_key key := x]> (configmaps c)) c).
Proof.
  intros [A1 A2 A3 A4 A5 A6] Hk. split; try done; simpl.
  - destruct A1. split; try done; simpl. intros k y [[<- <-]|[_ ?]]%lookup_insert_Some; auto.
  - by apply only_at_insert.
Qed.

Lemma touched_put_sts x c :
  ok c -> key_of (sts_meta x) = key -> s_Containers (sts_Spec x) <> [] ->
  ok (with_objects (<[key := x]> (statefulsets c)) c).
Proof.
  intros [A1 A2 A3 A4 A5 A6] Hk Hne. split; try done; simpl.
  - destruct A1. split; try done; simpl. intros k y [[<- <-]|[_ ?]]%lookup_insert_Some; auto.
  - by apply only_at_insert.
Qed.

Lemma touched_put_svc x c :
  ok c -> key_of (svc_meta x) = key -> ok (with_objects (<[key := x]> (services c)) c).
Proof.
  intros [A1 A2 A3 A4 A5 A6] Hk. split; try done; simpl.
  - destruct A1. split; try done; simpl. intros k y [[<- <-]|[_ ?]]%lookup_insert_Some; auto.
  - by apply only_at_insert.
Qed.

Lemma keeps_reconcileConfigMap o a :
  held a -> keeps ok (reconcileConfigMap SetControllerReference o a) (fun _ => True).
Proof.
  intros (_ & Hk).
  set (m := mkMeta (GetConfigMapName a) (agent_namespace a) (GetLabels a) None).
  eapply (keeps_bind _ _ _ (fun d => cm_meta d = m)).
  { apply keeps_wrap, keeps_lift. intros d Hd. unfold CreateConfigMap in Hd. by go_inv. }
  intros d Hm. eapply (keeps_bind _ _ _ (fun x => x = owned_by a m)).
  { apply keeps_wrap, keeps_lift. rewrite Hm, HSCR by done. by intros ? [= <-]. }
  intros ? ->. assert (key_of (owned_by a m) = cm_key key) as Hkey by (by rewrite <- Hk).
  rewrite Hkey.
  apply (keeps_sync (O:=ConfigMap) _ _ _ _ (fun f => key_of (cm_meta f) = cm_key key)).
  - intros c x Hc. apply (configmaps_keyed _ (touched_ok _ _ _ Hc)).
  - apply keeps_write, (keeps_Create _ _ (cm_key key)); [done|]. intros c Hc _. by apply touched_put_cm.
  - intros f Hf. destruct (ConfigMapNeedsUpdate f _); [|by apply keeps_ret].
    apply keeps_write, (keeps_Update (O:=ConfigMap) _ _ (cm_key key)); [done|].
    intros c st Hc _ x. split; [by apply touched_put_cm|done].
Qed.

Lemma keeps_reconcileStatefulSet a :
  held a -> keeps ok (reconcileStatefulSet MustParse SetControllerReference a) (fun _ => True).
Proof.
  intros (_ & Hk). set (m := mkMeta (agent_name a) (agent_namespace a) (GetLabels a) None).
  eapply (keeps_bind _ _ _ (fun d => sts_meta d = m /\ s_Containers (sts_Spec d) <> [])).
  { apply keeps_wrap, keeps_lift. intros d Hd. split; [apply (CreateStatefulSet_meta _ _ _ Hd)|].
    exact (CreateStatefulSet_containers _ _ _ Hd). }
  intros d [Hm Hne]. eapply (keeps_bind _ _ _ (fun x => x = owned_by a m)).
  { apply keeps_wrap, keeps_lift. rewrite Hm, HSCR by done. by intros ? [= <-]. }
  intros ? ->. assert (key_of (owned_by a m) = key) as Hkey by (by rewrite <- Hk).
  rewrite Hkey.
  apply (keeps_sync (O:=StatefulSet Q) _ _ _ _ (fun f => key_of (sts_meta f) = key)).
  - intros c x Hc Hx. exact (proj1 (statefulsets_keyed _ (touched_ok _ _ _ Hc) _ _ Hx)).
  - apply keeps_write, (keeps_Create _ _ key); [done|]. intros c Hc _. by apply touched_put_sts.
  - intros f Hf. eapply keeps_bind; [by apply (keeps_lift _ _ (fun _ => True))|].
    intros [|] _; [|by apply keeps_ret].
    apply keeps_write, (keeps_Update (O:=StatefulSet Q) _ _ key); [done|].
    intros c st Hc _ x. split; [by apply touched_put_sts|done].
Qed.

Lemma keeps_reconcileService a :
  held a -> keeps ok (reconcileService SetControllerReference a) (fun _ => True).
Proof.
  intros (_ & Hk). set (m := mkMeta (agent_name a) (agent_namespace a) (GetLabels a) None).
  eapply (keeps_bind _ _ _ (fun x => x = owned_by a m)).
  { apply keeps_wrap, keeps_lift. rewrite HSCR by done. by intros ? [= <-]. }
  intros ? ->. assert (key_of (owned_by a m) = key) as Hkey by (by rewrite <- Hk).
  rewrite Hkey.
  apply (keeps_sync (O:=Service) _ _ _ _ (fun f => key_of (svc_meta f) = key)).
  - intros c x Hc. apply (services_keyed _ (touched_ok _ _ _ Hc)).
  - apply keeps_write, (keeps_Create _ _ key); [done|]. intros c Hc _. by apply touched_put_svc.
  - intros f Hf. destruct (ServiceNeedsUpdate f _); [|by apply keeps_ret].
    apply keeps_write, (keeps_Update (O:=Service) _ _ key); [done|].
    intros c st Hc _ x. split; [by apply touched_put_svc|done].
Qed.

Lemma keeps_degraded a reason e : held a -> keeps ok (degraded r a reason msg e) (fun _ => True).
Proof.
  intros Ha. eapply keeps_bind; [by apply keeps_setCondition|]. intros x _. by apply keeps_ret.
Qed.

Lemma keeps_then {A B} (m : M Q A) (V : A -> Prop) (f : A + error -> M Q B) :
  keeps ok m V -> (forall x, V x -> keeps ok (f (inl x)) (fun _ => True)) ->
  (forall e, keeps ok (f (inr e)) (fun _ => True)) -> keeps ok (x ← try m; f x) (fun _ => True).
Proof. intros Hm H1 H2. eapply keeps_bind; [by apply keeps_try|]. intros [x|e] Hx; auto. Qed.

Lemma keeps_Reconcile o : keeps ok (Reconcile o msg key) (fun _ => True).
Proof.
  eapply (keeps_then _ held); [| |by intros; apply keeps_ret].
  { apply keeps_Get. intros c a. apply touched_stored. }
  intros a Ha. eapply (keeps_then _ held); [by apply keeps_setDefaults| |by intros; apply keeps_ret].
  clear a Ha. intros a Ha.
  eapply keeps_then; [by apply keeps_reconcileConfigMap| |by intros; apply keeps_degraded]. intros _ _.
  eapply keeps_then; [by apply keeps_reconcileStatefulSet| |by intros; apply keeps_degraded]. intros _ _.
  eapply keeps_then; [by apply keeps_reconcileService| |by intros; apply keeps_degraded]. intros _ _.
  eapply (keeps_then _ held); [by apply keeps_updateStatus| |by intros; apply keeps_ret].
  clear a Ha. intros a Ha. eapply keeps_bind; [by apply keeps_setCondition|].
  intros b Hb. eapply keeps_bind; [by apply keeps_removeCondition|]. intros. by apply keeps_ret.
Qed.

End one_pass.

(** ** Histories *)

(** What may happen over time: passes over the agent under any network and any
    order of map iteration, and the StatefulSet controller reporting ready
    replicas. *)
Inductive history (key : NamespacedName) (c0 : cluster Q) : cluster Q -> Prop :=
| history_start : history key c0 c0
| history_pass w o :
    history key c0 (cl w) -> history key c0 (cl (Reconcile o msg key w).2)
| history_ready c x n :
    history key c0 c -> statefulsets c !! key = Some x ->
    history key c0 (with_objects (<[key := mkStatefulSet (sts_meta x) (sts_Spec x) n]> (statefulsets c)) c).

Lemma history_touched key c0 a0 c :
  cluster_ok c0 -> agents c0 !! key = Some a0 -> history key c0 c -> touched key c0 c.
Proof.
  intros Hok Ha H. induction H as [|w o H IH|c x n H IH Hx].
  - by apply touched_refl.
  - by apply (keeps_Reconcile key c0 a0).
  - destruct (statefulsets_keyed _ (touched_ok _ _ _ IH) _ _ Hx).
    by apply touched_put_sts.
Qed.

(** ** How a pass fails *)

(** Reconciling one of the three objects fails, with the instance in memory and
    the world at that moment. *)
Inductive fails_at (o : map_order yaml_value) key w : string -> TailpostAgent.t -> error -> world Q -> Prop :=
| fails_configmap a1 w1 a w2 e w3 :
    Get (O:=TailpostAgent.t) key w = (Ok a1, w1) -> setDefaults r a1 w1 = (Ok a, w2) ->
    reconcileConfigMap SetControllerReference o a w2 = (Err e, w3) ->
    fails_at o key w "ConfigMapReconcileFailed" a e w3
| fails_statefulset a1 w1 a w2 w3 e w4 :
    Get (O:=TailpostAgent.t) key w = (Ok a1, w1) -> setDefaults r a1 w1 = (Ok a, w2) ->
    reconcileConfigMap SetControllerReference o a w2 = (Ok tt, w3) ->
    reconcileStatefulSet MustParse SetControllerReference a w3 = (Err e, w4) ->
    fails_at o key w "StatefulSetReconcileFailed" a e w4
| fails_service a1 w1 a w2 w3 w4 e w5 :
    Get (O:=TailpostAgent.t) key w = (Ok a1, w1) -> setDefaults r a1 w1 = (Ok a, w2) ->
    reconcileConfigMap SetControllerReference o a w2 = (Ok tt, w3) ->
    reconcileStatefulSet MustParse SetControllerReference a w3 = (Ok tt, w4) ->
    reconcileService SetControllerReference a w4 = (Err e, w5) ->
    fails_at o key w "ServiceReconcileFailed" a e w5.

(** The defaults or the status cannot be stored. *)
Inductive fails_unreported (o : map_order yaml_value) key w : error -> world Q -> Prop :=
| fails_defaults a1 w1 e w2 :
    Get (O:=TailpostAgent.t) key w = (Ok a1, w1) -> setDefaults r a1 w1 = (Err e, w2) ->
    fails_unreported o key w e w2
| fails_status a1 w1 a w2 w3 w4 w5 e w6 :
    Get (O:=TailpostAgent.t) key w = (Ok a1, w1) -> setDefaults r a1 w1 = (Ok a, w2) ->
    reconcileConfigMap SetControllerReference o a w2 = (Ok tt, w3) ->
    reconcileStatefulSet MustParse SetControllerReference a w3 = (Ok tt, w4) ->
    reconcileService SetControllerReference a w4 = (Ok tt, w5) ->
    updateStatus a w5 = (Err e, w6) -> fails_unreported o key w e w6.

Lemma try_ok {A B} (m : M Q A) (f : A + error -> M Q B) w (v : A) w' :
  m w = (Ok v, w') -> (x ← try m; f x) w = f (inl v) w'.
Proof. intros E. unfold try, mbind, M_bind. by rewrite E. Qed.
Lemma try_err {A B} (m : M Q A) (f : A + error -> M Q B) w e w' :
  m w = (Err e, w') -> (x ← try m; f x) w = f (inr e) w'.
Proof. intros E. unfold try, mbind, M_bind. by rewrite E. Qed.

Lemma fails_at_Reconcile o key w reason a e w1 :
  fails_at o key w reason a e w1 -> Reconcile o msg key w = degraded r a reason msg e w1.
Proof.
  intros H. unfold Controller.Reconcile. inversion H; subst;
    repeat first [erewrite try_ok by eassumption|erewrite try_err by eassumption]; done.
Qed.

Lemma fails_unreported_Reconcile o key w e w1 :
  fails_unreported o key w e w1 ->
  Reconcile o msg key w = (Ok (TailpostAgentReconciler.RequeuePeriod r, Some e), w1).
Proof.
  intros H. unfold Controller.Reconcile. inversion H; subst;
    repeat first [erewrite try_ok by eassumption|erewrite try_err by eassumption]; done.
Qed.

Lemma Reconcile_failure_cases o key w t e w' :
  Reconcile o msg key w = (Ok (t, Some e), w') ->
  (exists reason a w1, fails_at o key w reason a e w1) \/ fails_unreported o key w e w' \/
  Get (O:=TailpostAgent.t) key w = (Err e, w').
Proof.
  assert (forall a reason e1 w1, degraded r a reason msg e1 w1 = (Ok (t, Some e), w') -> e1 = e) as Hd.
  { intros a reason e1 w1. unfold degraded, mbind, M_bind.
    destruct (setCondition _ _ _ _ _ w1) as [[]?]; try done. by intros [= _ ->]. }
  unfold Controller.Reconcile, try, mbind, M_bind.
  destruct (Get key w) as [[a1|e1|p] w1] eqn:E1; [|by destruct (IsNotFound e1); intros [= _ -> ->]; auto|done].
  destruct (setDefaults r a1 w1) as [[a|e1|p] w2] eqn:E2;
    [|intros [= _ -> ->]; right; left; by econstructor|done].
  destruct (reconcileConfigMap _ o a w2) as [[[]|e1|p] w3] eqn:E3;
    [|intros ->%Hd; left; do 3 eexists; by econstructor|done].
  destruct (reconcileStatefulSet _ _ a w3) as [[[]|e1|p] w4] eqn:E4;
    [|intros ->%Hd; left; do 3 eexists; by eapply fails_statefulset|done].
  destruct (reconcileService _ a w4) as [[[]|e1|p] w5] eqn:E5;
    [|intros ->%Hd; left; do 3 eexists; by eapply fails_service|done].
  destruct (updateStatus a w5) as [[b|e1|p] w6] eqn:E6;
    [|intros [= _ -> ->]; right; left; by eapply fails_status|done].
  destruct (setCondition _ _ _ _ _ w6) as [[]w7]; try done.
  by destruct (removeCondition _ _ w7) as [[]?].
Qed.

(** The instance a failing step works on, and what is stored then. *)
Lemma setDefaults_conditions key a1 a (w w' : world Q) :
  agents (cl w) !! key = Some a1 -> key_of (TailpostAgent.meta a1) = key ->
  setDefaults r a1 w = (Ok a, w') -> conditions a = conditions a1.
Proof.
  intros Hs Hk. unfold setDefaults. destruct (default_spec r _) as [sp []]; [|by intros [= <- _]].
  unfold wrapM, Update, request, log_write, mbind, M_bind; simpl. rewrite Hk, Hs.
  destruct (net w 0); simpl; try done. by intros [= <- _].
Qed.

Lemma fails_at_held o key a0 w reason a e w1 :
  cluster_ok (cl w) -> agents (cl w) !! key = Some a0 -> fails_at o key w reason a e w1 ->
  key_of (TailpostAgent.meta a) = key /\ conditions a = conditions a0 /\
  exists stored, agents (cl w1) !! key = Some stored.
Proof.
  intros Hok Ha0 Hf.
  assert (forall a1 w', Get (O:=TailpostAgent.t) key w = (Ok a1, w') -> a1 = a0 /\ cl w' = cl w) as Hget.
  { intros a1 w'. unfold Get, request; simpl. rewrite Ha0. destruct (net w 0); simpl; try done.
    by intros [= <- <-]. }
  assert (key_of (TailpostAgent.meta a0) = key) as Hk0 by (by apply (agents_keyed _ Hok)).
  assert (held key a0 a0) as Hh0 by done.
  assert (touched key (cl w) (cl w)) as Ht0 by (by apply touched_refl).
  assert (forall w', touched key (cl w) (cl w') -> exists stored, agents (cl w') !! key = Some stored) as Hst.
  { intros w' [_ _ H _ _ _]. rewrite Ha0 in H. inversion H; subst. eauto. }
  assert (forall w2 a1 b w3, cl w2 = cl w -> a1 = a0 -> setDefaults r a1 w2 = (Ok b, w3) ->
    held key a0 b /\ touched key (cl w) (cl w3) /\ conditions b = conditions a0) as Hset.
  { intros w2 a1 b w3 Ew -> E.
    destruct (keeps_setDefaults key (cl w) a0 Ha0 a0 Hh0 w2) as [H1 H2]; [by rewrite Ew|].
    rewrite E in H1, H2. split_and!; [by apply H2|done|].
    eapply (setDefaults_conditions key a0); [by rewrite Ew|done|exact E]. }
  destruct Hf as [a1 w1 a w2 e w3 E1 E2 E3|a1 w1 a w2 w3 e w4 E1 E2 E3 E4|a1 w1 a w2 w3 w4 e w5 E1 E2 E3 E4 E5];
    apply Hget in E1 as [-> Ew1]; destruct (Hset w1 a0 a w2 Ew1 eq_refl E2) as (Hh & Ht & Hc);
    (split; [apply Hh|]; split; [done|]; apply Hst);
    pose proof (proj1 (keeps_reconcileConfigMap key (cl w) a0 Ha0 o a Hh w2 Ht)) as H3;
    rewrite E3 in H3; try exact H3;
    pose proof (proj1 (keeps_reconcileStatefulSet key (cl w) a0 a Hh w3 H3)) as H4;
    rewrite E4 in H4; try exact H4.
  pose proof (proj1 (keeps_reconcileService key (cl w) a0 a Hh w4 H4)) as H5.
  by rewrite E5 in H5.
Qed.

(** A failed step that is reported as a condition. *)
Lemma degraded_spec key a stored reason e (w : world Q) :
  agents (cl w) !! key = Some stored -> key_of (TailpostAgent.meta a) = key ->
  NoDup (types (conditions a)) -> net w 0 = Answered ->
  exists stored' w',
    degraded r a reason msg e w = (Ok (TailpostAgentReconciler.RequeuePeriod r, Some e), w') /\
    cl w' = put_agent key stored' (cl w) /\
    TailpostAgent.Spec stored' = TailpostAgent.Spec stored /\
    (exists x, x ∈ conditions stored' /\ Condition.Type_ x = ConditionTypeDegraded /\
       Condition.Status x = "True") /\
    (forall x, Condition.Type_ x = ConditionTypeAvailable ->
       x ∈ conditions stored' <-> x ∈ conditions a) /\
    (forall x, x ∈ conditions a -> Condition.Type_ x = ConditionTypeDegraded ->
       Condition.Status x = "True" -> conditions stored' = conditions a) /\
    (ConditionTypeDegraded ∉ types (conditions a) -> conditions stored' =
       conditions a ++ [Condition.mk ConditionTypeDegraded "True" (clock w 0) reason (msg e)]).
Proof.
  intros Hst Hk Hu Hnet. unfold degraded, setCondition, Status_Update, request, log_write, try,
    mbind, M_bind, mret, M_ret, Now; simpl.
  rewrite Hnet, Hk, Hst. simpl. eexists _, _. split_and!; [reflexivity|reflexivity|done|..].
  - apply set_condition_status.
  - intros x Hx. apply set_condition_other. by rewrite Hx.
  - intros x Hx Ht Hs. simpl. by eapply set_condition_same.
  - intros Hn. by apply set_condition_new.
Qed.

End faults.

Module ReconcileFaultsProperties.
Section props.
Context {Q : Type} `{EqDecision Q} (MustParse : string -> result Q).
Context (SetControllerReference : TailpostAgent.t -> ObjectMeta -> result ObjectMeta).
Context `{HSCR : !ControllerReference SetControllerReference}.
Context (r : TailpostAgentReconciler.t) (msg : error -> string).
Notation history := (history MustParse SetControllerReference r msg).
Notation Reconcile := (Reconcile MustParse SetControllerReference r).
Notation fails_at := (fails_at MustParse SetControllerReference r).
Notation fails_unreported := (fails_unreported MustParse SetControllerReference r).

(** C16. Whatever requests fail, however often and wherever in a pass, passes
    over an agent change nothing but that agent, its ConfigMap, its StatefulSet
    and its Service, and remove none of them; the agent keeps its name and the
    values the user gave, and its conditions stay unique by type. *)
Theorem operator_stays_in_bounds key c0 a0 c :
  cluster_ok c0 -> agents c0 !! key = Some a0 -> history key c0 c ->
  touched r key c0 c.
Proof. apply history_touched, HSCR. Qed.

(** C8. The operator recovers from every failure: after any sequence of passes
    with refused requests and lost answers, and of changes of the ready
    replicas, the first pass the API server answers succeeds and brings the
    agent and its objects to the wanted state. *)
Theorem operator_recovers o key c0 a0 w :
  cluster_ok c0 -> agents c0 !! key = Some a0 ->
  is_ok (CreateStatefulSet MustParse a0) = true -> NoDup (types (conditions a0)) ->
  history key c0 (cl w) -> healthy w ->
  exists w', Reconcile o msg key w =
      (Ok (TailpostAgentReconciler.ResyncPeriod r, None), w') /\
    converged MustParse o key (cl w') /\ touched r key c0 (cl w').
Proof.
  intros Hok Ha0 Hq Hu Hh Hw.
  pose proof (history_touched MustParse SetControllerReference r msg _ _ _ _ Hok Ha0 Hh) as Ht.
  pose proof (touched_agent _ _ _ _ Ht) as Hag. rewrite Ha0 in Hag.
  inversion Hag as [? a (Hm & Hs & Hun) Ea1 Ea|]; subst.
  assert (is_ok (CreateStatefulSet MustParse a) = true) as Hq'.
  { apply (CreateStatefulSet_resources _ a0); [|done]. destruct Hs as [->| ->]; [done|].
    symmetry. apply default_spec_Resources. }
  destruct (desired_exist MustParse r o a Hq') as (dcm & dsts & Hcm & Hsts).
  destruct (Reconcile_runs MustParse SetControllerReference r o msg key a dcm dsts _ (clock w)
    (touched_ok _ _ _ _ Ht) (eq_sym Ea) Hcm Hsts w Hw eq_refl eq_refl) as (w' & E & _ & Ec & _ & _).
  exists w'. split_and!; [done|rewrite Ec; apply target_converged; auto|].
  replace w' with (Reconcile o msg key w).2 by (by rewrite E).
  eapply history_touched; [done..|]. by apply history_pass.
Qed.


End props.

(** The API server loses the answer to the sixth request and refuses the one
    after it. *)
Definition flaky (c : cluster string) : world string :=
  mkWorld c (fun n => if (n =? 5)%nat then Unanswered (External "timeout")
                      else if (n =? 6)%nat then Refused (External "conflict") else Answered)
    (fun n => Z.of_nat n) [] [].

Definition plain_msg (e : error) : string := "error".
Definition demo_pass (w : world string) :=
  Reconcile Demo.MustParse Demo.SetControllerReference Demo.operator canonical_order plain_msg Demo.key w.

(** The flaky pass fails, having created the StatefulSet. *)
Example flaky_fails :
  (demo_pass (flaky (Demo.cluster_with Demo.agent))).1 =
    Ok (30000000000%Z, Some (Wrapf "failed to create StatefulSet: %w" (External "timeout"))).
Proof. vm_compute. reflexivity. Qed.

Lemma flaky_history :
  history Demo.MustParse Demo.SetControllerReference Demo.operator plain_msg Demo.key
    (Demo.cluster_with Demo.agent) (cl (demo_pass (flaky (Demo.cluster_with Demo.agent))).2).
Proof. apply history_pass. apply history_start. Qed.

Lemma operator_stays_in_bounds_witness :
  touched Demo.operator Demo.key (Demo.cluster_with Demo.agent)
    (cl (demo_pass (flaky (Demo.cluster_with Demo.agent))).2).
Proof.
  apply (operator_stays_in_bounds Demo.MustParse Demo.SetControllerReference Demo.operator plain_msg
    Demo.key _ Demo.agent).
  - apply Demo.cluster_with_ok. reflexivity.
  - reflexivity.
  - exact flaky_history.
Defined.

Lemma operator_recovers_witness :
  let c1 := cl (demo_pass (flaky (Demo.cluster_with Demo.agent))).2 in
  exists w', demo_pass (Demo.world_at c1 100) = (Ok (600000000000%Z, None), w') /\
    converged Demo.MustParse canonical_order Demo.key (cl w') /\
    touched Demo.operator Demo.key (Demo.cluster_with Demo.agent) (cl w').
Proof.
  intros c1. refine (operator_recovers Demo.MustParse Demo.SetControllerReference Demo.operator plain_msg
    canonical_order Demo.key (Demo.cluster_with Demo.agent) Demo.agent (Demo.world_at c1 100) _ _ _ _ _ _).
  - apply Demo.cluster_with_ok. reflexivity.
  - reflexivity.
  - reflexivity.
  - constructor.
  - rewrite Demo.cl_world_at. exact flaky_history.
  - apply Demo.world_at_healthy.
Defined.

(** The API server refuses the fourth request, which creates the ConfigMap, on an
    agent that was Degraded before. *)
Definition old : Condition.t := Condition.mk ConditionTypeDegraded "True" 7 "ServiceReconcileFailed" "old".
Definition degraded_agent : TailpostAgent.t := Demo.agent_with [old] Demo.no_resources.
Definition refusing : world string :=
  mkWorld (Demo.cluster_with degraded_agent)
    (fun n => if (n =? 3)%nat then Refused (External "forbidden") else Answered) (fun n => Z.of_nat n) [] [].


End ReconcileFaultsProperties.
